(* ===== verification/_CoqProject ===== *)
-Q . S2P
Prelude.v
Method.v
Sha256.v
Field.v
Merkle.v
MerkleTheory.v
Multiopen.v
MerkleBinding.v
MultiopenTheory.v
Poly.v
Validate.v
Sumcheck.v
FoldSumcheck.v
Tables.v
FoldSumcheckTheory.v
Roots.v
Radix2.v
Radix2Theory.v
Transform.v
Butterfly.v
NttTheory.v
Fri.v
FriLemmas.v
FriFold.v
FriTheory.v
FriProofs.v
FriSoundness.v
FriClaims.v
ProductSumcheck.v
ProductSumcheckTheory.v
Rational.v
LogUp.v
LogUpTheory.v
Ram.v
RamTheory.v
Wire.v
Payload.v
PayloadTheory.v
Text.v
Request.v
RequestTheory.v
Relation.v
Graph.v
Json.v
Policy.v
Spec.v
Profile.v
SpecGraph.v
Challenge.v
TierAudit.v
SampleProfile.v
GraphLemmas.v
SampleGraph.v
SelectionTheory.v
SpecGraphTheory.v
SpecErrors.v
TierAuditTheory.v
SpecJsonTheory.v
Verifier.v
SampleExchange.v
VerifierTheory.v
Reveal.v
Session.v
SessionMethods.v
SessionTheory.v
Accumulator.v
Ledger.v
AccumulatorLemmas.v
AccumulatorTheory.v
SampleTrace.v
LedgerBinding.v
LedgerTheory.v
