(* ===== verification/Prelude.v ===== *)
(** * Verathos proof v3: a verification library

    Verathos lets validators check that miners served the model they claim to
    serve.  A validator commits to a secret nonce before a request; the miner
    answers and seals an envelope of commitments; the validator discloses the
    nonce only then, and only when the nonce selects the hard audit; the miner
    answers with proofs about the committed tables.  This library models the
    part of [verallm/proof_v3/] that decides whether such an exchange is
    accepted, from the challenge session down to the argument systems.
    Statements are about the Python code as it is written: a function that
    raises is a function to [res] ([Prelude]), a value whose dynamic type the
    code tests is a [pyval], an integer is a [Z] with its reductions written
    out, a byte string is a [list byte] and a string is its list of code points.

    ** Files: foundations

    - [Prelude]: exceptions and the error monad, Python values, byte packing,
      rejection sampling, lists.  Models [errors.py].
    - [Sha256]: the class [Digest] every component is written against, and
      [hashlib.sha256] as its instance.
    - [Wire]: fixed-width fields, slices, the reader monad of the parsers, and
      [Codec], the class of frames whose parser accepts exactly what is written.
    - [Text]: strings; Unicode normalisation is the class [Unicode].
    - [Method]: methods of objects as a monad of state and exceptions, with its
      weakest preconditions.

    ** Files: argument systems

    - [Field]: the first half of [goldilocks_reference.py], the field modulo
      2^64 - 2^32 + 1 and its byte encoding; the modulus is proved prime, and [F]
      is the field.
    - [Radix2]: the second half, roots of unity, coset domains, the number
      theoretic transform and the low-degree extension.  [Roots]: powers,
      principal roots and values on a coset in [F].  [Radix2Theory],
      [Transform], [Butterfly], [NttTheory]: domains, bit reversal, the passes
      of the transform, and what they compute.
    - [Merkle], [MerkleTheory], [MerkleBinding]:
      [goldilocks_merkle_reference.py]: validators with their fast paths, the
      tree, openings, the verifier.  The class [MultiopenBackend] has the entry
      points of the library that [c_multiopen.py] compiles at run time, and the
      class [MultiopenLaws] what the verifier gets from them.  Its instances are
      the two machines: [no_compiler] of [Merkle], where each entry point
      answers [None], and [compiled_backend] of [Multiopen].
    - [Multiopen], [MultiopenTheory]: [c_multiopen.c] and [c_multiopen.py], the
      compiled schedule and reconstruction, on sorted arrays, against the Python
      ones, on dicts.
    - [Poly], [Rational]: polynomials over [F], their zeros, sums of fractions.
    - [Validate]: the validators shared by the argument systems (from
      [goldilocks_linear_relation_reference.py]).
    - [Sumcheck]: the sumcheck protocol against the class [Interpolation];
      [Tables]: multilinear tables.
    - [FoldSumcheck], [FoldSumcheckTheory]:
      [goldilocks_fold_sumcheck_reference.py].
    - [ProductSumcheck], [ProductSumcheckTheory]:
      [goldilocks_product_sumcheck_reference.py].
    - [Fri]: [goldilocks_fri_reference.py], the low-degree test.  [FriLemmas]:
      statements, domains and indices; [FriFold]: one fold; [FriTheory]: the
      prover's and the verifier's loops; [FriProofs]: openings of layers;
      [FriSoundness]: what acceptance shows; [FriClaims]: the properties.
    - [LogUp], [LogUpTheory]: [goldilocks_logup_reference.py].
    - [Ram], [RamTheory]: [goldilocks_ram_reference.py].

    ** Files: the exchange

    - [Payload], [PayloadTheory]: [payload.py], the commitment envelope and the
      proof frame.
    - [Request], [RequestTheory]: [request.py], the validator's statement of a
      request and its output, the digests and the commitment to the nonce.
    - [Relation], [Graph]: the validators of [relation.py] and the items of a
      relation spec: dimensions, layer plans, operations, tensors, bindings,
      tables, tolerances, nodes, cache families.  [Policy]: its audit policies.
    - [Spec], [SpecGraph]: the relation spec, its [to_dict] and its constructor
      with the validation of the graph; [Json]: [json.dumps].  [Profile]: the
      profile of [profile.py].
    - [GraphLemmas], [SpecGraphTheory], [SpecErrors], [SpecJsonTheory]: what a
      valid graph is, which errors its constructor raises, and that the signed
      bytes determine the spec.
    - [Challenge], [SelectionTheory]: the first half of [challenge.py]:
      transcript, draw of the audit tier, sampler, selection of layers, rows and
      heads.  [TierAudit], [TierAuditTheory]: the second half: the decision and
      its frame, the chunks of an execution, coordinates and coefficients.  The
      order of the Pallas scalars is the class [PallasField].
    - [Verifier], [VerifierTheory]: [verifier.py], the admission of an envelope
      and the verification of a proof with the table of qualified adapters.
      [economic_registry.py] contributes the capability gate.
    - [Reveal]: budgets, the nonce reveal with its frame ([session.py]) and the
      opening ticket ([accumulator.py]).
    - [Session], [SessionMethods], [SessionTheory]: the challenge session of
      [session.py]: issuance, the ten states and every method.
    - [Accumulator]: the rest of [accumulator.py], the ledger that the miner
      keeps while the model runs: the interface as the class
      [ExecutionTraceAccumulatorV3] with its two implementations, one field per
      attribute of the object and one method per method.  [Ledger]: the abstract
      machine it implements, programs of calls and the roots as functions of the
      accepted chunks.  [AccumulatorLemmas], [AccumulatorTheory]: each method by
      weakest preconditions, then the simulation.  [LedgerBinding],
      [LedgerTheory]: the properties.
    - [SampleProfile], [SampleGraph], [SampleExchange], [SampleTrace]: a concrete
      profile, a spec that passes its constructor, an exchange and an execution,
      on which the theorems are instantiated.

    ** How the parts interact

    Every argument freezes its tables with [Merkle.from_rows], hashes the
    statement, the commitments and the nonce into a transcript, and its verifier
    rebuilds the tree from the opening in the proof and compares the roots.
    [MerkleBinding.commitment_binds_tree] is the lemma they share: equal
    commitments have equal trees, or some string hashes like one of the finitely
    many strings that the honest party hashed ([second_preimage]).

    A session holds the nonce.  It parses the envelope with [Payload], admits it
    against the context and the output with [Verifier] and [Request], draws the
    tier with [TierAudit], discloses the nonce as a [Reveal] and runs [Verifier]
    on the proof that comes back.  The lock of the session is released while the
    proof is checked: [verify_proof_bytes_once] is two transitions, and
    [SessionTheory] lets any other method run between them.

    On the other side the miner feeds an [Accumulator] with chunks; the
    commitment it seals, bound to the profile, is the envelope that [Verifier]
    admits, and the ticket of a [Reveal] is what it accepts once frozen.

    ** What the theorems show

    - Accumulators, for every program of calls: the object implements its ledger;
      what is sealed is a function of the accepted chunks, which are a contiguous
      execution of the announced request; the execution root binds them; a frozen
      object never changes; honest executions are sealed and their envelopes are
      admitted by the validator exactly when their counts are in the signed
      sequence domain.
    - Sessions, under every interleaving: the state is consistent, the nonce is
      disclosed at most once and only for an admitted envelope that it selects
      for a hard proof, a verified session has checked its proof in time, the
      end is final and a deadline that passes ends the session, an honest
      exchange is verified, only verification errors are raised.
    - Admission and verification: an accepted proof is about the validator's
      own request, output, nonce and profile.
    - Binding of digests: equal digests come from equal exchanges, or a second
      preimage is given.
    - The signed graph: a valid spec determines every tensor from the request, has
      no idle declaration and signs each of its layers completely; building one
      raises only [ProofV3Error]; its digest determines it.
    - Selection: signed coverage, distinct indices, uniform draws, chunks that
      partition the execution; the miner's output does not move the draw.
    - Round trips: each parser accepts exactly the canonical frames.
    - Soundness of the arguments: when a verifier accepts against the commitment
      of a frozen table, the claim holds, or the challenges are points where two
      distinct polynomials agree (an explicit predicate: [lucky],
      [lucky_point], [collision]), or a second preimage is given.  No
      probability is assumed: each [..._lucky_bound] theorem bounds the number
      of bad challenges.  Completeness: the verifier accepts what the prover
      returns.
    - Transforms: interpolation inverts evaluation on every domain, and an
      extension lists the values of the one polynomial of the source.
    - The low-degree test: the tables of an accepted proof fold into one another
      at the queries and end in a constant; queries that cover the domain show
      that the first table is of low degree, unless a challenge is the one
      challenge of its round that hides the degree ([lucky_beta]).
    - Equivalence: the fast paths return exactly what the reference code
      returns; the C reconstruction accepts exactly what the Python code accepts
      for rows of at most 44 values, and no wider row, as its buffer for a leaf
      has 448 bytes.

    ** Bounds

    Rejection sampling runs [REJECTION_ATTEMPTS] = 2^16 attempts, as the code
    does; issuance tries [_MAX_PAIRED_TIER_NONCE_ATTEMPTS_V3] = 4096 nonces.
    The unbounded loop of the sampler stops when its counter overflows:
    [below_passes] = 2^64 + 1 passes are enough, by [iterate_returns], and
    [SelectionTheory.sampler_uniform] says that it returns.  The other loops run
    over finite sequences and are structural here; the tree loop
    [build_levels_loop] has the number of leaves as fuel, and
    [MerkleTheory.build_levels_ok] shows that it is enough.  The loop over the
    spans of a transform has the bit length of the table as fuel, and the carry
    of the bit reversal too: [NttTheory.intt_inverts_ntt] and [lde_extends] say
    that they return on every table within the cap.  The C loops that halve an
    [int64_t] have [INT64_HALVINGS] = 64 passes as fuel, more than the levels of
    any tree ([MultiopenTheory.reduce_loop_ok], [coordinates_loop_ok]).

    ** Not modelled

    Numerical kernels (Torch, NumPy, CUDA), HTTP, chain and database access,
    process management, and the relations built on top of the arguments, with
    the entry points of the C library that they call (opening verification,
    sumcheck replay, root rebuild); the parser of the JSON of a relation spec; signatures of documents
    (the eth_account package), so that a qualified profile is a value here; the
    economic proof system, which a session calls through the class
    [EconomicVerifier]; the check of the loaded artifacts of a profile
    ([catalog.py]) and the native verifiers, which are fields of
    [QualifiedExecutionArtifactsV3] and [FoldedExecutionAdapterV3] and may raise
    anything.  Memory views and byte arrays passed instead of
    [bytes], and objects with an [__index__] method passed instead of [int], are
    not among the [pyval]. *)

From Stdlib Require Import ZArith Lia.
From Stdlib Require Import Strings.Byte.
From stdpp Require Import base gmap list strings pretty sorting.
From coqutil Require Import Word.LittleEndianList.

Declare Scope vrt_scope.
Delimit Scope vrt_scope with vrt.
Create HintDb vrt discriminated.
Create Rewrite HintDb vrt_len.

#[export] Set Default Goal Selector "!".

Local Open Scope Z_scope.

(** ** Exceptions

    The exception classes that the modelled code raises or catches.  The first
    three are declared in [verallm/proof_v3/errors.py]; the others are Python's. *)

Inductive exc_class :=
| ProofV3Error
| ProofV3UnavailableError
| ProofV3VerificationError
| ValueError
| UnicodeEncodeError
| TypeError
| IndexError
| KeyError
| AssertionError
| OverflowError.

#[export] Instance exc_class_eq_dec : EqDecision exc_class.
Proof. solve_decision. Defined.

(** [issubclass c d]: the class hierarchy of [errors.py], and the part of
    Python's that [except] clauses use. *)
Definition issubclass (c d : exc_class) : bool :=
  bool_decide (c = d) ||
  match c, d with
  | ProofV3UnavailableError, ProofV3Error => true
  | ProofV3VerificationError, ProofV3Error => true
  | (ProofV3Error | ProofV3UnavailableError | ProofV3VerificationError | UnicodeEncodeError), ValueError => true
  | _, _ => false
  end.

Record exc := Exc { exc_kind : exc_class; exc_msg : string }.

#[export] Instance exc_eq_dec : EqDecision exc.
Proof. solve_decision. Defined.

(** ** The error monad *)

Inductive res (A : Type) : Type :=
| Ok (a : A)
| Err (e : exc).
Arguments Ok {A} a.
Arguments Err {A} e.

#[export] Instance res_ret : MRet res := fun A => @Ok A.
#[export] Instance res_bind : MBind res := fun A B f m =>
  match m with Ok a => f a | Err e => Err e end.
#[export] Instance res_fmap : FMap res := fun A B f m =>
  match m with Ok a => Ok (f a) | Err e => Err e end.

#[export] Instance res_eq_dec {A} `{EqDecision A} : EqDecision (res A).
Proof. solve_decision. Defined.

#[export] Instance Ok_inj {A} : Inj (=) (=) (@Ok A).
Proof. by intros ? ? [= ->]. Qed.

Definition raise {A} (k : exc_class) (m : string) : res A := Err (Exc k m).
Arguments raise {A} k m%_string_scope.

(** [if not b: raise k(m)] *)
Definition require (b : bool) (k : exc_class) (m : string) : res unit :=
  if b then Ok tt else raise k m.
Arguments require b k m%_string_scope.

Definition is_ok {A} (r : res A) : bool := match r with Ok _ => true | Err _ => false end.

(** The value of a successful computation, for examples. *)
Definition ok_or {A} (d : A) (r : res A) : A := match r with Ok a => a | Err _ => d end.

(** [try: r  except c: raise k(m)] for the listed classes [c]; an exception of
    a class listed in [keep] is raised again unchanged. *)
Definition reraise_as {A} (keep : list exc_class) (caught : list exc_class)
    (k : exc_class) (m : string) (r : res A) : res A :=
  match r with
  | Ok a => Ok a
  | Err e =>
      if existsb (issubclass (exc_kind e)) keep then Err e
      else if existsb (issubclass (exc_kind e)) caught then raise k m
      else Err e
  end.
Arguments reraise_as {A} keep caught k m%_string_scope r.

Lemma bind_ok {A B} (m : res A) (f : A -> res B) b :
  (m ≫= f) = Ok b <-> exists a, m = Ok a /\ f a = Ok b.
Proof. destruct m; simpl; split; [eauto| |discriminate|]; by intros (?&[= ->]&?) || intros (?&?&?). Qed.

Lemma require_ok b k m u : require b k m = Ok u <-> b = true.
Proof. unfold require, raise. destruct b, u; naive_solver. Qed.

Lemma require_true b k m : b = true -> require b k m = Ok tt.
Proof. by intros ->. Qed.

Lemma reraise_as_ok {A} keep caught k m (r : res A) a :
  reraise_as keep caught k m r = Ok a <-> r = Ok a.
Proof.
  destruct r; simpl; [done|]. unfold raise.
  split; [|done]. by repeat case_match.
Qed.

(** Decompose a successful monadic computation into its successful steps. *)
Ltac res_inv1 :=
  match goal with
  | H : (_ ≫= _) = Ok _ |- _ =>
      let a := fresh "a" in let E := fresh "E" in
      apply bind_ok in H; destruct H as (a & E & H); cbv beta in H
  | H : require _ _ _ = Ok _ |- _ => apply require_ok in H
  | H : reraise_as _ _ _ _ _ = Ok _ |- _ => apply reraise_as_ok in H
  | H : raise _ _ = Ok _ |- _ => discriminate H
  | H : Err _ = Ok _ |- _ => discriminate H
  | H : Ok _ = Ok _ |- _ => injection H as H
  | H : mret _ = Ok _ |- _ => unfold mret, res_ret in H
  | u : unit |- _ => destruct u
  end.
Ltac res_inv := repeat (res_inv1; simplify_eq).

(** ** Monadic maps *)

Section mapM.
Context {A B : Type} (f : A -> res B).

Fixpoint mapR (l : list A) : res (list B) :=
  match l with
  | [] => Ok []
  | x :: l => y ← f x; ys ← mapR l; Ok (y :: ys)
  end.

Lemma mapR_Forall2 l k : mapR l = Ok k <-> Forall2 (fun x y => f x = Ok y) l k.
Proof.
  revert k. induction l as [|x l IH]; intros k; simpl.
  - split; [intros [= <-]; constructor|by inversion 1].
  - split.
    + intros H. res_inv. constructor; [done|]. by apply IH.
    + inversion 1 as [|? ? ? ? Hx Hl]; subst. apply IH in Hl. by rewrite Hx, Hl.
Qed.

Lemma mapR_length l k : mapR l = Ok k -> length k = length l.
Proof. intros H%mapR_Forall2. symmetry. by eapply Forall2_length. Qed.

Lemma mapR_total l (g : A -> B) : (forall x, x ∈ l -> f x = Ok (g x)) -> mapR l = Ok (g <$> l).
Proof.
  intros H. apply mapR_Forall2, Forall2_fmap_r, Forall_Forall2_diag, Forall_forall.
  intros x Hx. by apply H.
Qed.

Lemma mapR_exists l (P : A -> B -> Prop) :
  (forall x, x ∈ l -> exists y, f x = Ok y /\ P x y) -> exists k, mapR l = Ok k /\ Forall2 P l k.
Proof.
  induction l as [|x l IH]; intros H; [by exists []; split; [|constructor]|].
  destruct (H x ltac:(set_solver)) as (y&Hy&HP). destruct IH as (k&Hk&Hall); [set_solver|].
  exists (y :: k). simpl. rewrite Hy, Hk. split; [done|by constructor].
Qed.
End mapM.

(** [f"{name}[{index}]"] *)
Definition name_at (name : string) (index : nat) : string :=
  (name +:+ "[" +:+ pretty (N.of_nat index) +:+ "]")%string.

(** [tuple(f(x, f"{name}[{index}]") for index, x in enumerate(l))] *)
Fixpoint imapR_from {A B} (f : A -> string -> res B) (name : string) (i : nat) (l : list A)
    : res (list B) :=
  match l with
  | [] => Ok []
  | x :: l => y ← f x (name_at name i); ys ← imapR_from f name (S i) l; Ok (y :: ys)
  end.
Definition imapR {A B} (f : A -> string -> res B) (name : string) (l : list A) : res (list B) :=
  imapR_from f name 0 l.

Lemma imapR_from_ok {A B} (f : A -> string -> res B) (g : A -> res B) name i l k :
  (forall x n y, f x n = Ok y <-> g x = Ok y) ->
  imapR_from f name i l = Ok k <-> mapR g l = Ok k.
Proof.
  intros Hfg. revert i k. induction l as [|x l IH]; intros i k; simpl; [done|].
  split; intros H; res_inv.
  - apply Hfg in E. apply IH in E0. by rewrite E; simpl; rewrite E0.
  - apply (Hfg _ (name_at name i)) in E. apply (IH (S i)) in E0.
    by rewrite E; simpl; rewrite E0.
Qed.

(** ** Python values

    The values a caller may pass where the code checks the dynamic type with
    [isinstance], [type(v) is ...] or [operator.index].  A [str] is the list of
    its code points. *)

#[warnings="-register-all"]
Inductive pyval :=
| PNone
| PBool (b : bool)
| PInt (z : Z)
| PBytes (bs : list byte)
| PStr (s : list Z)
| PTuple (l : list pyval)
| PList (l : list pyval)
| PObject.

(** ** Bytes

    [int.to_bytes(n, "little")] and [struct.pack("<I")], ["<Q"], ["<H"] of a
    value in range are [le_split]; [int.from_bytes(b, "little")] is
    [le_combine]. *)

#[export] Instance byte_eq_decision : EqDecision byte := Byte.byte_eq_dec.

Abbreviation bytes := (list byte).

Definition pack_I (z : Z) : bytes := le_split 4 z.
Definition pack_Q (z : Z) : bytes := le_split 8 z.
Definition pack_H (z : Z) : bytes := le_split 2 z.

(** [bytes(n)]: [n] zero bytes. *)
Definition zero_bytes (n : nat) : bytes := replicate n x00.

(** An ASCII bytes literal [b"..."]. *)
Definition b_lit (s : string) : bytes := String.list_byte_of_string s.
Arguments b_lit s%_string_scope.

Lemma le_split_length n z : length (le_split n z) = n.
Proof. apply length_le_split. Qed.

Lemma le_split_inj n x y :
  0 <= x < 2 ^ (Z.of_nat n * 8) -> 0 <= y < 2 ^ (Z.of_nat n * 8) ->
  le_split n x = le_split n y -> x = y.
Proof.
  intros Hx Hy H%(f_equal le_combine). rewrite !le_combine_split in H.
  by rewrite !Z.mod_small in H by lia.
Qed.

Lemma pack_I_inj x y : 0 <= x < 2 ^ 32 -> 0 <= y < 2 ^ 32 -> pack_I x = pack_I y -> x = y.
Proof. intros. by apply (le_split_inj 4). Qed.

Lemma pack_Q_inj x y : 0 <= x < 2 ^ 64 -> 0 <= y < 2 ^ 64 -> pack_Q x = pack_Q y -> x = y.
Proof. intros. by apply (le_split_inj 8). Qed.

Lemma pack_I_length z : length (pack_I z) = 4%nat.
Proof. apply le_split_length. Qed.
Lemma pack_Q_length z : length (pack_Q z) = 8%nat.
Proof. apply le_split_length. Qed.
Lemma pack_H_length z : length (pack_H z) = 2%nat.
Proof. apply le_split_length. Qed.

#[export] Hint Rewrite pack_H_length pack_I_length pack_Q_length le_split_length @length_app @length_replicate
  : vrt_len.

(** ** Powers of two

    [x & (x - 1)], the code's power-of-two test. *)

Definition not_power_of_two (x : Z) : bool := negb (Z.land x (x - 1) =? 0).

(** [x.bit_length()] *)
Definition bit_length (x : Z) : Z := if x =? 0 then 0 else Z.log2 (Z.abs x) + 1.

Lemma land_pred_pow2 k : 0 <= k -> Z.land (2 ^ k) (2 ^ k - 1) = 0.
Proof.
  intros Hk. rewrite Z.sub_1_r, <- Z.ones_equiv, Z.land_ones by done. by apply Z_mod_same_full.
Qed.

Lemma pow2_not_npot k : 0 <= k -> not_power_of_two (2 ^ k) = false.
Proof. intros. unfold not_power_of_two. by rewrite land_pred_pow2. Qed.

Lemma not_power_of_two_false x :
  1 <= x -> not_power_of_two x = false -> x = 2 ^ Z.log2 x.
Proof.
  unfold not_power_of_two. intros Hx H%negb_false_iff%Z.eqb_eq.
  pose proof (Z.log2_spec x ltac:(lia)) as [Hlo Hhi]. rewrite Z.pow_succ_r in Hhi by apply Z.log2_nonneg.
  destruct (decide (x = 2 ^ Z.log2 x)) as [|Hne]; [done|exfalso].
  assert (Z.testbit (Z.land x (x - 1)) (Z.log2 x) = true) as Hb; [|by rewrite H, Z.bits_0 in Hb].
  rewrite Z.land_spec, Z.bit_log2 by lia. simpl.
  replace (Z.log2 x) with (Z.log2 (x - 1)); [by apply Z.bit_log2; lia|].
  apply Z.log2_unique; [apply Z.log2_nonneg|]. rewrite Z.pow_succ_r by apply Z.log2_nonneg. lia.
Qed.

Lemma bit_length_pos x : 0 < x -> bit_length x = Z.log2 x + 1.
Proof. intros. unfold bit_length. by rewrite (proj2 (Z.eqb_neq x 0)), Z.abs_eq by lia. Qed.

(** ** Rejection sampling

    [for counter in range(n): c = draw(counter); if accept(c): return c]
    followed by a [raise]: the shape of every challenge derivation. *)

Fixpoint rejection_loop {A} (fuel : nat) (counter : Z) (draw : Z -> A) (accept : A -> bool)
    : option A :=
  match fuel with
  | O => None
  | S fuel =>
      let candidate := draw counter in
      if accept candidate then Some candidate
      else rejection_loop fuel (counter + 1) draw accept
  end.

(** [range(1 << 16)], the bound every such loop uses. *)
Definition REJECTION_ATTEMPTS : nat := Z.to_nat (Z.shiftl 1 16).

(** Conversion unfolds the bound only when nothing else is left to try. *)
#[global] Strategy 1000 [REJECTION_ATTEMPTS].

Definition rejection_sample {A} (draw : Z -> A) (accept : A -> bool) (failure : string) : res A :=
  match rejection_loop REJECTION_ATTEMPTS 0 draw accept with
  | Some c => Ok c
  | None => raise ProofV3Error failure
  end.
Arguments rejection_sample {A} draw accept failure%_string_scope.

Lemma rejection_loop_accepts {A} fuel i draw accept (c : A) :
  rejection_loop fuel i draw accept = Some c ->
  accept c = true /\ exists j, i <= j < i + Z.of_nat fuel /\ c = draw j.
Proof.
  revert i. induction fuel as [|fuel IH]; intros i; simpl; [done|].
  destruct (accept (draw i)) eqn:E.
  - intros [= <-]. split; [done|]. exists i. split; [lia|done].
  - intros (?&j&?&->)%IH. split; [done|]. exists j. split; [lia|done].
Qed.

(** The accepted draw is the first acceptable one. *)
Lemma rejection_loop_first {A} fuel i draw accept (c : A) :
  rejection_loop fuel i draw accept = Some c ->
  exists j, i <= j < i + Z.of_nat fuel /\ c = draw j /\ accept (draw j) = true
    /\ forall k, i <= k < j -> accept (draw k) = false.
Proof.
  revert i. induction fuel as [|fuel IH]; intros i; simpl; [done|].
  destruct (accept (draw i)) eqn:E.
  - intros [= <-]. exists i. split_and!; [lia..|done|done|lia].
  - intros (j&?&->&Hj&Hf)%IH. exists j. split_and!; [lia..|done|done|]. intros k Hk.
    destruct (decide (k = i)) as [->|]; [done|]. apply Hf. lia.
Qed.

Lemma rejection_sample_accepts {A} draw accept m (c : A) :
  rejection_sample draw accept m = Ok c -> accept c = true.
Proof.
  unfold rejection_sample. destruct (rejection_loop _ _ _ _) eqn:E; [|done].
  intros [= <-]. by apply rejection_loop_accepts in E as [? _].
Qed.

(** ** Loops

    [while True:] with a bound on the number of passes, in binary so that a bound
    of 2^64 costs nothing; a pass goes on with a new state or returns. *)

Section loop.
Context {S R : Type} (step : S -> S + R).

Fixpoint iterate (n : positive) (s : S) : S + R :=
  match n with
  | xH => step s
  | xO n => match iterate n s with inl s => iterate n s | inr r => inr r end
  | xI n =>
      match step s with
      | inl s => match iterate n s with inl s => iterate n s | inr r => inr r end
      | inr r => inr r
      end
  end.

(** The result satisfies what holds of every way a pass can return. *)
Lemma iterate_inv (I : S -> Prop) (Q : R -> Prop) :
  (forall s, I s -> match step s with inl s' => I s' | inr r => Q r end) ->
  forall n s, I s -> match iterate n s with inl s' => I s' | inr r => Q r end.
Proof.
  intros Hstep n. induction n as [n IH|n IH|]; intros s Hs; cbn [iterate]; [..|by apply Hstep].
  - pose proof (Hstep s Hs) as H1. destruct (step s) as [s1|]; [|done].
    pose proof (IH s1 H1) as H2. destruct (iterate n s1); [by apply IH|done].
  - pose proof (IH s Hs) as H1. destruct (iterate n s) as [s1|]; [by apply IH|done].
Qed.

(** A measure that every pass lowers bounds the passes. *)
Lemma iterate_returns (mu : S -> Z) (I : S -> Prop) :
  (forall s, I s -> 0 <= mu s) ->
  (forall s s', I s -> step s = inl s' -> I s' /\ mu s' + 1 <= mu s) ->
  forall n s, I s -> mu s < Z.pos n -> exists r, iterate n s = inr r.
Proof.
  intros Hpos Hstep.
  assert (forall n s, I s -> match iterate n s with inl s' => I s' /\ mu s' + Z.pos n <= mu s | inr _ => True end)
    as Hrun.
  { induction n as [n IH|n IH|]; intros s Hs; cbn [iterate].
    - destruct (step s) as [s1|] eqn:E1; [|done]. apply Hstep in E1 as [Hs1 H1]; [|done].
      specialize (IH s1 Hs1) as H2. destruct (iterate n s1) as [s2|]; [|done]. destruct H2 as [Hs2 H2].
      specialize (IH s2 Hs2) as H3. destruct (iterate n s2); [|done]. destruct H3. split; [done|lia].
    - specialize (IH s Hs) as H2. destruct (iterate n s) as [s2|]; [|done]. destruct H2 as [Hs2 H2].
      specialize (IH s2 Hs2) as H3. destruct (iterate n s2); [|done]. destruct H3. split; [done|lia].
    - destruct (step s) as [s1|] eqn:E1; [|done]. apply Hstep in E1 as [Hs1 H1]; [|done]. split; [done|lia]. }
  intros n s Hs Hn. specialize (Hrun n s Hs). destruct (iterate n s) as [s'|r]; [|by exists r].
  destruct Hrun as [Hs' Hm]. specialize (Hpos s' Hs'). lia.
Qed.
End loop.

(** ** Lists *)

Lemma Forall2_eq_fmap {A B} (f : A -> B) l k : Forall2 (fun x y => y = f x) l k <-> k = f <$> l.
Proof.
  split.
  - induction 1; [done|]. simpl in *. by subst.
  - intros ->. apply Forall2_fmap_r, Forall_Forall2_diag, Forall_forall. done.
Qed.

(** The two halves of a list, as the sumcheck code splits tables. *)
Definition lo_half {A} (l : list A) : list A := take (length l / 2) l.
Definition hi_half {A} (l : list A) : list A := drop (length l / 2) l.

Lemma length_lo_half {A} (l : list A) m : length l = (2 * m)%nat -> length (lo_half l) = m.
Proof. intros H. unfold lo_half. rewrite H, (Nat.mul_comm 2), Nat.div_mul by done. rewrite length_take. lia. Qed.

Lemma length_hi_half {A} (l : list A) m : length l = (2 * m)%nat -> length (hi_half l) = m.
Proof. intros H. unfold hi_half. rewrite H, (Nat.mul_comm 2), Nat.div_mul by done. rewrite length_drop. lia. Qed.

Lemma app_halves {A} (l : list A) : lo_half l ++ hi_half l = l.
Proof. apply take_drop. Qed.
