(* ===== verification/Method.v ===== *)
(** * Methods of objects

    A method of an object is a function from its state to a result and the state
    it leaves, since a method that raises also changes the object. *)

From stdpp Require Import base strings.
From S2P Require Import Prelude.

Definition method (S A : Type) : Type := S -> res A * S.

#[export] Instance method_ret {S} : MRet (method S) := fun A a s => (Ok a, s).
#[export] Instance method_bind {S} : MBind (method S) := fun A B f m s =>
  match m s with (Ok a, s) => f a s | (Err e, s) => (Err e, s) end.

Section method.
Context {S : Type}.

Definition do {A} (r : res A) : method S A := fun s => (r, s).
Definition get {A} (f : S -> A) : method S A := fun s => (Ok (f s), s).
Definition modify (f : S -> S) : method S unit := fun s => (Ok tt, f s).
Definition throw {A} (e : exc) : method S A := fun s => (Err e, s).
Definition try_catch {A} (m : method S A) (handler : exc -> method S A) : method S A := fun s =>
  match m s with (Ok a, s) => (Ok a, s) | (Err e, s) => handler e s end.

(** [assert x is not None] *)
Definition assert_some {A} (x : option A) : method S A :=
  do (match x with Some a => Ok a | None => raise AssertionError "" end).
End method.

(** ** Reasoning

    [wp m Q E s]: started in [s], the method [m] returns a value and a state with
    [Q], or raises an exception and leaves a state with [E]. *)
Section wp.
Context {S : Type}.
Implicit Types s : S.

Definition wp {A} (m : method S A) (Q : A -> S -> Prop) (E : exc -> S -> Prop) (s : S) : Prop :=
  match m s with (Ok a, s') => Q a s' | (Err e, s') => E e s' end.

Lemma wp_ret {A} (a : A) Q E s : wp (mret a) Q E s <-> Q a s.
Proof. done. Qed.

Lemma wp_bind {A B} (m : method S A) (f : A -> method S B) Q E s :
  wp (m ≫= f) Q E s <-> wp m (fun a => wp (f a) Q E) E s.
Proof. unfold wp, mbind, method_bind. by destruct (m s) as [[a|e] s']. Qed.

Lemma wp_do {A} (r : res A) Q E s :
  wp (do r) Q E s <-> match r with Ok a => Q a s | Err e => E e s end.
Proof. unfold wp, do. by destruct r. Qed.

Lemma wp_get {A} (f : S -> A) Q E s : wp (get f) Q E s <-> Q (f s) s.
Proof. done. Qed.

Lemma wp_modify (f : S -> S) Q E s : wp (modify f) Q E s <-> Q tt (f s).
Proof. done. Qed.

Lemma wp_throw {A} e Q E s : wp (throw (A := A) e) Q E s <-> E e s.
Proof. done. Qed.

Lemma wp_assert {A} (x : option A) Q E s :
  (forall a, x = Some a -> Q a s) -> (x = None -> E (Exc AssertionError "") s) -> wp (assert_some x) Q E s.
Proof. intros HQ HE. unfold assert_some. rewrite wp_do. destruct x; [by apply HQ|by apply HE]. Qed.

Lemma wp_mono {A} (m : method S A) (Q Q' : A -> S -> Prop) (E E' : exc -> S -> Prop) s :
  wp m Q E s -> (forall a s', Q a s' -> Q' a s') -> (forall e s', E e s' -> E' e s') -> wp m Q' E' s.
Proof. unfold wp. destruct (m s) as [[a|e] s']; auto. Qed.

Lemma wp_outcome {A} (m : method S A) Q E s r s' :
  wp m Q E s -> m s = (r, s') -> match r with Ok a => Q a s' | Err e => E e s' end.
Proof. unfold wp. intros H E0. by rewrite E0 in H. Qed.
End wp.

(** One step of a method: the goal [wp (x ← m; f x) Q E s] becomes a goal on [f]. *)
Ltac wp_step :=
  match goal with
  | |- wp (_ ≫= _) _ _ _ => apply wp_bind
  | |- wp (mret _) _ _ _ => apply wp_ret
  | |- wp (get _) _ _ _ => apply wp_get; cbv beta
  | |- wp (modify _) _ _ _ => apply wp_modify; cbv beta
  | |- wp (throw _) _ _ _ => apply wp_throw
  | |- wp (do _) _ _ _ => apply wp_do
  end.
