(* ===== verification/Sha256.v ===== *)
(** * SHA-256

    [hashlib.sha256(m).digest()], the only hash of the modelled code.  [Digest]
    is the interface every component is written against: a function from byte
    strings to 32-byte strings.  [Sha256_digest] is the instance that the
    program runs, FIPS 180-4 over 32-bit words kept as integers, checked against
    test vectors; the witnesses of the other files evaluate [checksum_digest]. *)

From Stdlib Require Import ZArith Lia.
From Stdlib Require Import Strings.Byte.
From stdpp Require Import base list strings.
From coqutil Require Import Word.LittleEndianList.
From S2P Require Import Prelude.

Local Open Scope Z_scope.

Class Digest := {
  sha256 : bytes -> bytes;
  sha256_length : forall m, length (sha256 m) = 32%nat;
}.

#[export] Hint Rewrite @sha256_length : vrt_len.

(** [second_preimage Q]: some other string hashes like one of the strings [Q].
    The binding theorems conclude this of the finite list of strings that the
    honest party hashed. *)
Definition second_preimage `{Digest} (Q : list bytes) : Prop :=
  exists x y, x ∈ Q /\ y <> x /\ sha256 y = sha256 x.

Lemma sha256_inj_or `{Digest} Q x y :
  x ∈ Q -> sha256 y = sha256 x -> y = x \/ second_preimage Q.
Proof. intros Hx Hy. destruct (decide (y = x)); [by left|right]. by exists x, y. Qed.

Lemma second_preimage_mono `{Digest} Q Q' :
  Q ⊆ Q' -> second_preimage Q -> second_preimage Q'.
Proof. intros HQ (x&y&?&?&?). exists x, y. auto. Qed.

Module Sha256.
Definition modulus : Z := 2 ^ 32.
Definition add32 (a b : Z) : Z := (a + b) mod modulus.
Definition rotr (n x : Z) : Z :=
  Z.lor (Z.shiftr x n) (Z.shiftl x (32 - n) mod modulus).
Definition ch (x y z : Z) : Z := Z.lxor (Z.land x y) (Z.land (Z.lxor x (modulus - 1)) z).
Definition maj (x y z : Z) : Z := Z.lxor (Z.lxor (Z.land x y) (Z.land x z)) (Z.land y z).
Definition big0 (x : Z) : Z := Z.lxor (Z.lxor (rotr 2 x) (rotr 13 x)) (rotr 22 x).
Definition big1 (x : Z) : Z := Z.lxor (Z.lxor (rotr 6 x) (rotr 11 x)) (rotr 25 x).
Definition small0 (x : Z) : Z := Z.lxor (Z.lxor (rotr 7 x) (rotr 18 x)) (Z.shiftr x 3).
Definition small1 (x : Z) : Z := Z.lxor (Z.lxor (rotr 17 x) (rotr 19 x)) (Z.shiftr x 10).

(** The constants as FIPS 180-4 defines them: the first 32 bits of the
    fractional parts of the cube roots of the first 64 primes, and of the square
    roots of the first 8.  [root_below k n bits] is the integer [k]-th root of
    [n], found bit by bit. *)
Fixpoint root_from (k n r : Z) (bits : nat) : Z :=
  match bits with
  | O => r
  | S bits =>
      let r' := r + Z.shiftl 1 (Z.of_nat bits) in
      root_from k n (if r' ^ k <=? n then r' else r) bits
  end.
Definition root_below (k n : Z) (bits : nat) : Z := root_from k n 0 bits.

Definition is_prime (n : Z) : bool := forallb (fun d => negb (n mod d =? 0)) (seqZ 2 (n - 2)).
Definition primes : list Z := filter (fun n => is_prime n = true) (seqZ 2 310).

Definition round_constants : list Z := Eval vm_compute in
  (fun p => root_below 3 (Z.shiftl p 96) 40 mod modulus) <$> take 64 primes.
Definition initial_state : list Z := Eval vm_compute in
  (fun p => root_below 2 (Z.shiftl p 64) 40 mod modulus) <$> take 8 primes.

Definition be_combine (l : bytes) : Z := le_combine (rev l).
Definition be_split (n : nat) (z : Z) : bytes := rev (le_split n z).

(** The message schedule, newest word first. *)
Fixpoint schedule (n : nat) (w : list Z) : list Z :=
  match n with
  | O => w
  | S n =>
      let x := add32 (add32 (small1 (nth 1 w 0)) (nth 6 w 0))
                     (add32 (small0 (nth 14 w 0)) (nth 15 w 0)) in
      schedule n (x :: w)
  end.

Definition round (st : list Z) (kw : Z * Z) : list Z :=
  match st with
  | [a; b; c; d; e; f; g; h] =>
      let t1 := add32 (add32 (add32 h (big1 e)) (ch e f g)) (add32 kw.1 kw.2) in
      let t2 := add32 (big0 a) (maj a b c) in
      [add32 t1 t2; a; b; c; add32 d t1; e; f; g]
  | _ => st
  end.

Fixpoint words (n : nat) (bs : bytes) : list Z :=
  match n with
  | O => []
  | S n => be_combine (take 4 bs) :: words n (drop 4 bs)
  end.

Definition compress (h : list Z) (block : bytes) : list Z :=
  let w := rev (schedule 48 (rev (words 16 block))) in
  zip_with add32 h (fold_left round (zip round_constants w) h).

Fixpoint blocks (n : nat) (h : list Z) (bs : bytes) : list Z :=
  match n with
  | O => h
  | S n => blocks n (compress h (take 64 bs)) (drop 64 bs)
  end.

Definition pad (m : bytes) : bytes :=
  let l := length m in
  m ++ [x80] ++ replicate ((64 - (l + 9) mod 64) mod 64)%nat x00
    ++ be_split 8 (8 * Z.of_nat l).

Definition hash (m : bytes) : bytes :=
  let p := pad m in
  flat_map (be_split 4) (blocks (length p / 64) initial_state p).

Lemma round_length st kw : length (round st kw) = length st.
Proof. unfold round. by repeat case_match. Qed.

Lemma rounds_length kws st : length (fold_left round kws st) = length st.
Proof. revert st. induction kws as [|kw kws IH]; intros st; simpl; [done|]. by rewrite IH, round_length. Qed.

Lemma compress_length h block : length (compress h block) = length h.
Proof. unfold compress. rewrite length_zip_with, rounds_length. lia. Qed.

Lemma blocks_length n h bs : length (blocks n h bs) = length h.
Proof. revert h bs. induction n as [|n IH]; intros h bs; simpl; [done|]. by rewrite IH, compress_length. Qed.

Lemma be_split_length n z : length (be_split n z) = n.
Proof. unfold be_split. by rewrite length_rev, le_split_length. Qed.

Lemma flat_map_be_split_length l : length (flat_map (be_split 4) l) = (4 * length l)%nat.
Proof.
  induction l as [|x l IH]; [done|].
  cbn [flat_map length]. rewrite length_app, be_split_length, IH. lia.
Qed.

Lemma hash_length m : length (hash m) = 32%nat.
Proof. unfold hash. by rewrite flat_map_be_split_length, blocks_length. Qed.
End Sha256.

#[export] Instance Sha256_digest : Digest :=
  {| sha256 := Sha256.hash; sha256_length := Sha256.hash_length |}.

(** A cheap digest of the first 1024 bytes, for the witnesses that evaluate whole
    protocol runs: the theorems hold for every [Digest]. *)
Definition checksum (m : bytes) : Z :=
  fold_left (fun h x => Z.land (Z.double h + h + Z.of_N (Byte.to_N x)) 0xffffffff) (take 1024 m) 5381.

Lemma checksum_length m : length (le_split 32 (checksum m)) = 32%nat.
Proof. apply le_split_length. Qed.

Definition checksum_digest : Digest :=
  {| sha256 m := le_split 32 (checksum m); sha256_length := checksum_length |}.

(** The FIPS 180-4 test vectors ["abc"] and the empty message. *)
Example sha256_abc :
  Sha256.be_combine (sha256 (b_lit "abc"))
  = 0xba7816bf8f01cfea414140de5dae2223b00361a396177a9cb410ff61f20015ad.
Proof. vm_compute. reflexivity. Qed.

Example sha256_empty :
  Sha256.be_combine (sha256 [])
  = 0xe3b0c44298fc1c149afbf4c8996fb92427ae41e4649b934ca495991b7852b855.
Proof. vm_compute. reflexivity. Qed.
