(* ===== verification/Field.v ===== *)
(** * The Goldilocks field ([verallm/proof_v3/goldilocks_reference.py], first half)

    Canonical field integers, their eight-byte encoding and the four arithmetic
    operations, as the code computes them on Python integers.  The modulus is
    proved prime, so that [F], the integers modulo it, is a field; [toF] sends
    a canonical integer to its residue and the theorems about the components
    above reason in [F] with [ring] and [field]. *)

From Stdlib Require Import ZArith Lia Zmod Znumtheory.
From Stdlib Require Import Field.
From stdpp Require Import base list strings.
From coqutil Require Import Word.LittleEndianList.
From S2P Require Import Prelude.

Local Open Scope Z_scope.

(** ** Constants *)

Definition GOLDILOCKS_MODULUS : Z := Z.shiftl 1 64 - Z.shiftl 1 32 + 1.
Definition GOLDILOCKS_BYTES : nat := 8.
Definition GOLDILOCKS_TWO_ADICITY : Z := 32.
Definition GOLDILOCKS_PRIMITIVE_GENERATOR : Z := 7.
Definition MAX_GOLDILOCKS_REFERENCE_DOMAIN_SIZE : Z := Z.shiftl 1 16.
Definition MAX_GOLDILOCKS_NATIVE_DOMAIN_SIZE : Z := Z.shiftl 1 30.

(** Python's three-argument [pow(b, e, m)] for [e >= 0]. *)
Fixpoint py_pow_pos (b : Z) (e : positive) (m : Z) : Z :=
  match e with
  | xH => b mod m
  | xO e => let r := py_pow_pos b e m in r * r mod m
  | xI e => let r := py_pow_pos b e m in (r * r mod m) * b mod m
  end.
Definition py_pow (b e m : Z) : Z :=
  match e with Zpos e => py_pow_pos b e m | _ => 1 mod m end.

(** ** Operations *)

Definition _integer (value : pyval) (name : string) : res Z :=
  match value with
  | PBool _ => raise ProofV3Error (name +:+ " must be an integer, not boolean")
  | PInt z => Ok z
  | _ => raise ProofV3Error (name +:+ " must be an integer")
  end.

Definition canonical_goldilocks (value : pyval) (name : string) : res Z :=
  integer ← _integer value name;
  if (integer <? 0) || (GOLDILOCKS_MODULUS <=? integer) then
    raise ProofV3Error (name +:+ " is outside the canonical Goldilocks field")
  else Ok integer.

Definition goldilocks_to_bytes (value : pyval) : res bytes :=
  v ← canonical_goldilocks value "Goldilocks value";
  Ok (le_split GOLDILOCKS_BYTES v).

Definition goldilocks_from_bytes (value : pyval) : res Z :=
  match value with
  | PBytes encoded =>
      if negb (length encoded =? GOLDILOCKS_BYTES)%nat then
        raise ProofV3Error "Goldilocks encoding must be exactly eight bytes"
      else canonical_goldilocks (PInt (le_combine encoded)) "decoded Goldilocks value"
  | _ => raise ProofV3Error "Goldilocks encoding must be bytes"
  end.

Definition goldilocks_add (left right : pyval) : res Z :=
  l ← canonical_goldilocks left "Goldilocks add left";
  r ← canonical_goldilocks right "Goldilocks add right";
  Ok ((l + r) mod GOLDILOCKS_MODULUS).

Definition goldilocks_sub (left right : pyval) : res Z :=
  l ← canonical_goldilocks left "Goldilocks sub left";
  r ← canonical_goldilocks right "Goldilocks sub right";
  Ok ((l - r) mod GOLDILOCKS_MODULUS).

Definition goldilocks_mul (left right : pyval) : res Z :=
  l ← canonical_goldilocks left "Goldilocks mul left";
  r ← canonical_goldilocks right "Goldilocks mul right";
  Ok ((l * r) mod GOLDILOCKS_MODULUS).

Definition _inv_pow (scalar : Z) : Z :=
  py_pow scalar (GOLDILOCKS_MODULUS - 2) GOLDILOCKS_MODULUS.

Definition goldilocks_inv (value : pyval) : res Z :=
  scalar ← canonical_goldilocks value "Goldilocks inverse value";
  if scalar =? 0 then raise ProofV3Error "Goldilocks zero has no multiplicative inverse"
  else Ok (_inv_pow scalar).

(** [0 <= z < GOLDILOCKS_MODULUS] *)
Definition canonical (z : Z) : Prop := 0 <= z < GOLDILOCKS_MODULUS.

#[export] Instance canonical_dec z : Decision (canonical z).
Proof. unfold canonical. apply _. Defined.

(** ** The modulus *)

Lemma modulus_value : GOLDILOCKS_MODULUS = 18446744069414584321.
Proof. reflexivity. Qed.

Lemma modulus_bounds : 2 ^ 63 < GOLDILOCKS_MODULUS < 2 ^ 64.
Proof. by rewrite modulus_value. Qed.

Lemma modulus_pos : 0 < GOLDILOCKS_MODULUS.
Proof. by rewrite modulus_value. Qed.
#[export] Hint Resolve modulus_pos : vrt.

Lemma mod_canonical z : canonical (z mod GOLDILOCKS_MODULUS).
Proof. apply Z.mod_pos_bound, modulus_pos. Qed.
#[export] Hint Resolve mod_canonical : vrt.

Lemma canonical_mod z : canonical z -> z mod GOLDILOCKS_MODULUS = z.
Proof. apply Z.mod_small. Qed.

Lemma py_pow_pos_spec b e m : py_pow_pos b e m = b ^ Zpos e mod m.
Proof.
  induction e as [e IH|e IH|]; simpl py_pow_pos.
  - rewrite IH, Pos2Z.inj_xI, Z.pow_add_r, Z.pow_1_r by lia.
    replace (2 * Zpos e) with (Zpos e + Zpos e) by lia. rewrite Z.pow_add_r by lia.
    by rewrite <- Zmult_mod, Zmult_mod_idemp_l.
  - rewrite IH, Pos2Z.inj_xO. replace (2 * Zpos e) with (Zpos e + Zpos e) by lia.
    rewrite Z.pow_add_r by lia. by rewrite <- Zmult_mod.
  - by rewrite Z.pow_1_r.
Qed.

Lemma py_pow_spec b e m : 0 <= e -> py_pow b e m = b ^ e mod m.
Proof. destruct e; simpl; [done|intros _; apply py_pow_pos_spec|lia]. Qed.

(** *** Orders of roots of minus one

    If [b ^ (2 ^ k)] is [-1] modulo [m > 2] then [b] has order [2 ^ (k + 1)]. *)

Lemma odd_decomposition j : 0 < j -> exists v q, 0 <= v /\ j = 2 ^ v * (2 * q + 1) /\ 0 <= q.
Proof.
  intros Hj. destruct j as [|j|j]; [lia| |lia]. clear Hj.
  induction j as [j IH|j (v&q&Hv&E&Hq)|].
  - exists 0, (Zpos j). rewrite Z.pow_0_r. lia.
  - exists (v + 1), q. rewrite Z.pow_add_r, Z.pow_1_r by lia. lia.
  - exists 0, 0. lia.
Qed.

Section two_power_order.
Context (m b k : Z) (Hm : 2 < m) (Hk : 0 <= k).
Context (Hb : b ^ (2 ^ k) mod m = m - 1).

Lemma minus_one_pow_odd q : 0 <= q -> (m - 1) ^ (2 * q + 1) mod m = m - 1.
Proof.
  intros Hq. rewrite Z.pow_add_r, Z.pow_mul_r, Z.pow_1_r by lia.
  replace ((m - 1) ^ 2) with (1 + (m - 2) * m) by nia.
  rewrite <- Zmult_mod_idemp_l, <- Z.mod_pow_l, Z_mod_plus_full, Z.mod_pow_l, Z.pow_1_l by lia.
  rewrite (Z.mod_small 1), Z.mul_1_l by lia. apply Z.mod_small. lia.
Qed.

Lemma pow_ne_one j : 0 < j < 2 ^ (k + 1) -> b ^ j mod m <> 1.
Proof.
  intros Hj H1. destruct (odd_decomposition j ltac:(lia)) as (v&q&Hv&->&Hq).
  assert (v <= k) as Hvk.
  { apply Z.lt_succ_r. apply (Z.pow_lt_mono_r_iff 2); [lia|lia|].
    rewrite <- Z.add_1_r. nia. }
  assert (b ^ (2 ^ v * (2 * q + 1) * 2 ^ (k - v)) mod m = 1) as E1.
  { rewrite Z.pow_mul_r by (apply Z.mul_nonneg_nonneg || apply Z.pow_nonneg; lia).
    rewrite <- Z.mod_pow_l, H1, Z.pow_1_l by (apply Z.pow_nonneg; lia). apply Z.mod_small. lia. }
  replace (2 ^ v * (2 * q + 1) * 2 ^ (k - v)) with (2 ^ k * (2 * q + 1)) in E1.
  2:{ replace k with (v + (k - v)) at 1 by lia. rewrite Z.pow_add_r by lia. ring. }
  rewrite Z.pow_mul_r, <- Z.mod_pow_l, Hb, minus_one_pow_odd in E1 by lia. lia.
Qed.

Lemma pow_order : b ^ (2 ^ (k + 1)) mod m = 1.
Proof.
  rewrite Z.pow_add_r, Z.pow_1_r, Z.pow_mul_r by lia.
  rewrite <- Z.mod_pow_l, Hb. replace ((m - 1) ^ 2) with (1 + (m - 2) * m) by nia.
  rewrite Z_mod_plus_full. apply Z.mod_small. lia.
Qed.

Lemma pow_inj i j :
  0 <= i < 2 ^ (k + 1) -> 0 <= j < 2 ^ (k + 1) -> b ^ i mod m = b ^ j mod m -> i = j.
Proof.
  assert (forall i j, 0 <= i < j -> j < 2 ^ (k + 1) -> b ^ i mod m <> b ^ j mod m) as Hlt.
  { clear i j. intros i j Hij Hj E. apply (pow_ne_one (j - i)); [lia|].
    assert (b ^ (j - i) mod m = b ^ (j - i) * b ^ (2 ^ (k + 1)) mod m) as ->.
    { by rewrite <- Zmult_mod_idemp_r, pow_order, Z.mul_1_r. }
    rewrite <- Z.pow_add_r by lia.
    replace (j - i + 2 ^ (k + 1)) with (j + (2 ^ (k + 1) - i)) by lia.
    rewrite Z.pow_add_r, <- Zmult_mod_idemp_l, <- E, Zmult_mod_idemp_l, <- Z.pow_add_r by lia.
    replace (i + (2 ^ (k + 1) - i)) with (2 ^ (k + 1)) by lia. apply pow_order. }
  intros Hi Hj E. destruct (Z.lt_trichotomy i j) as [?|[?|?]]; [|done|].
  - by destruct (Hlt i j ltac:(lia) ltac:(lia)).
  - by destruct (Hlt j i ltac:(lia) ltac:(lia)).
Qed.

(** So [m] has at least as many residues as [b] has powers. *)
Lemma order_le : 2 ^ (k + 1) <= m.
Proof.
  set (powers := (fun i => Z.to_nat (b ^ Z.of_nat i mod m)) <$> seq 0 (Z.to_nat (2 ^ (k + 1)))).
  assert (powers ⊆+ seq 0 (Z.to_nat m)) as Hsub.
  { apply NoDup_submseteq.
    - apply NoDup_fmap_2_strong; [|apply NoDup_seq].
      intros x y Hx Hy E. apply elem_of_seq in Hx, Hy.
      apply Nat2Z.inj, pow_inj; [lia..|]. apply Z2Nat.inj in E; [done| |]; apply Z.mod_pos_bound; lia.
    - intros x (i&->&Hi)%list_elem_of_fmap. apply elem_of_seq.
      pose proof (Z.mod_pos_bound (b ^ Z.of_nat i) m ltac:(lia)). lia. }
  apply submseteq_length in Hsub. unfold powers in Hsub.
  rewrite length_fmap, !length_seq in Hsub. lia.
Qed.
End two_power_order.

(** [7 ^ ((p - 1) / 2) = -1]: the base [b = 7 ^ (2^32 - 1)] has order [2^32]
    modulo every divisor of [p], so every divisor is at least [2^32 > sqrt p]. *)
Lemma generator_minus_one :
  (GOLDILOCKS_PRIMITIVE_GENERATOR ^ (2 ^ 32 - 1)) ^ (2 ^ 31) mod GOLDILOCKS_MODULUS
  = GOLDILOCKS_MODULUS - 1.
Proof.
  rewrite <- Z.pow_mul_r by lia. rewrite <- py_pow_spec by lia. vm_compute. reflexivity.
Qed.

Lemma modulus_divisor d : 1 < d -> (d | GOLDILOCKS_MODULUS) -> 2 ^ 32 <= d.
Proof.
  intros Hd Hdiv. pose proof modulus_value as Hp.
  assert (d <> 2) as Hd2.
  { intros ->. apply Z.mod_divide in Hdiv; [|lia]. by rewrite Hp in Hdiv. }
  apply (order_le d (GOLDILOCKS_PRIMITIVE_GENERATOR ^ (2 ^ 32 - 1)) 31); [lia|lia|].
  rewrite <- (Z.mod_mod_divide _ GOLDILOCKS_MODULUS d) by done.
  rewrite generator_minus_one. destruct Hdiv as [q ->].
  replace (q * d - 1) with (d - 1 + (q - 1) * d) by ring.
  rewrite Z_mod_plus_full. apply Z.mod_small. lia.
Qed.

Lemma modulus_prime : Z.prime GOLDILOCKS_MODULUS.
Proof.
  pose proof modulus_bounds. split; [lia|].
  intros n Hn Hdiv. pose proof (modulus_divisor n ltac:(lia) Hdiv) as Hlo.
  destruct Hdiv as [q Hq].
  assert (1 < q) as Hq1 by nia.
  pose proof (modulus_divisor q Hq1 ltac:(exists n; lia)). nia.
Qed.

(** ** The field [F] *)

Abbreviation F := (Zmod GOLDILOCKS_MODULUS).
Definition toF (z : Z) : F := Zmod.of_Z GOLDILOCKS_MODULUS z.

#[export] Instance F_eq_dec : EqDecision F.
Proof.
  intros x y. refine (cast_if (decide (Zmod.to_Z x = Zmod.to_Z y))); by rewrite <- Zmod.to_Z_inj_iff.
Defined.

Lemma toF_add x y : toF (x + y) = Zmod.add (toF x) (toF y).
Proof. apply Zmod.of_Z_add. Qed.
Lemma toF_sub x y : toF (x - y) = Zmod.sub (toF x) (toF y).
Proof. apply Zmod.of_Z_sub. Qed.
Lemma toF_mul x y : toF (x * y) = Zmod.mul (toF x) (toF y).
Proof. apply Zmod.of_Z_mul. Qed.
Lemma toF_opp x : toF (- x) = Zmod.opp (toF x).
Proof. apply Zmod.of_Z_opp. Qed.
Lemma toF_mod x : toF (x mod GOLDILOCKS_MODULUS) = toF x.
Proof. apply Zmod.of_Z_mod. Qed.
Lemma toF_0 : toF 0 = Zmod.zero.
Proof. apply Zmod.of_Z_0. Qed.
Lemma toF_1 : toF 1 = Zmod.one.
Proof. apply Zmod.of_Z_1. Qed.

Create Rewrite HintDb toF.
#[export] Hint Rewrite toF_mod toF_add toF_sub toF_mul toF_opp : toF.

Lemma toF_eq x y : toF x = toF y <-> x mod GOLDILOCKS_MODULUS = y mod GOLDILOCKS_MODULUS.
Proof. apply Zmod.of_Z_inj. Qed.

Lemma toF_inj x y : canonical x -> canonical y -> toF x = toF y -> x = y.
Proof. intros Hx Hy H%toF_eq. by rewrite !canonical_mod in H. Qed.

Lemma toF_zero_iff x : canonical x -> toF x = Zmod.zero <-> x = 0.
Proof.
  intros Hx. rewrite <- toF_0. split; [|by intros ->].
  apply toF_inj; [done|]. split; [done|apply modulus_pos].
Qed.

Lemma toF_to_Z (a : F) : toF (Zmod.to_Z a) = a.
Proof. apply Zmod.of_Z_to_Z. Qed.

Lemma to_Z_canonical (a : F) : canonical (Zmod.to_Z a).
Proof. apply Zmod.to_Z_pos_bound, modulus_pos. Qed.

Lemma F_morph :
  ring_morph (R := F) Zmod.zero Zmod.one Zmod.add Zmod.mul Zmod.sub Zmod.opp eq
    0 1 Z.add Z.mul Z.sub Z.opp Z.eqb toF.
Proof.
  split; [apply toF_0|apply toF_1|apply toF_add|apply toF_sub|apply toF_mul|apply toF_opp|].
  by intros x y ->%Z.eqb_eq.
Qed.

Ltac toF_cst t := match t with toF ?z => isZcst z | _ => constr:(NotConstant) end.
Ltac toF_constant t :=
  match t with
  | toF ?z => match isZcst z with true => z | _ => constr:(InitialRing.NotConstant) end
  | Zmod.zero => constr:(0%Z)
  | Zmod.one => constr:(1%Z)
  | _ => constr:(InitialRing.NotConstant)
  end.

Add Field F_field : (Zmod.field_theory GOLDILOCKS_MODULUS modulus_prime)
  (morphism F_morph, constants [toF_constant]).

(** Transfer an equation between canonical integers to [F]. *)
Ltac to_field := apply toF_inj; [auto with vrt..|]; autorewrite with toF.

Lemma F_one_neq_zero : (Zmod.one : F) <> Zmod.zero.
Proof. rewrite <- toF_1, <- toF_0, toF_eq. by vm_compute. Qed.

Lemma F_mul_zero (a b : F) : Zmod.mul a b = Zmod.zero -> a = Zmod.zero \/ b = Zmod.zero.
Proof.
  intros H. destruct (decide (a = Zmod.zero)) as [|Ha]; [by left|right].
  transitivity (Zmod.mul (Zmod.inv a) (Zmod.mul a b)); [field; done|]. rewrite H. ring.
Qed.

Lemma F_sub_zero (a b : F) : Zmod.sub a b = Zmod.zero <-> a = b.
Proof. apply Zmod.sub_eq_0_iff. Qed.

Lemma toF_pow b e : 0 <= e -> toF (b ^ e) = Zmod.pow (toF b) e.
Proof. apply Zmod.of_Z_pow. Qed.

Lemma toF_py_pow b e : 0 <= e -> toF (py_pow b e GOLDILOCKS_MODULUS) = Zmod.pow (toF b) e.
Proof. intros. by rewrite py_pow_spec, toF_mod, toF_pow. Qed.

(** Fermat's exponentiation computes the inverse. *)
Lemma toF_inv_pow z : toF z <> Zmod.zero -> toF (_inv_pow z) = Zmod.inv (toF z).
Proof.
  intros Hz. unfold _inv_pow. rewrite toF_py_pow by by rewrite modulus_value.
  apply Zmod.fermat_inv; [done|apply modulus_prime].
Qed.

Lemma inv_pow_canonical z : canonical (_inv_pow z).
Proof.
  unfold _inv_pow. rewrite py_pow_spec by by rewrite modulus_value. apply mod_canonical.
Qed.
#[export] Hint Resolve inv_pow_canonical : vrt.

(** ** Behaviour of the operations *)

Lemma canonical_goldilocks_ok v name z :
  canonical_goldilocks v name = Ok z <-> v = PInt z /\ canonical z.
Proof.
  unfold canonical_goldilocks, canonical. destruct v; simpl; try (split; [discriminate|by intros [? _]]).
  destruct (Z.ltb_spec z0 0), (Z.leb_spec GOLDILOCKS_MODULUS z0); simpl;
    split; (discriminate || intros [[= ->] ?] || intros [= ->]); (lia || done || by split).
Qed.

Lemma canonical_goldilocks_int z name : canonical z -> canonical_goldilocks (PInt z) name = Ok z.
Proof. intros. by apply canonical_goldilocks_ok. Qed.
#[export] Hint Resolve canonical_goldilocks_int : vrt.

Lemma canonical_goldilocks_err v name :
  (forall z, v = PInt z -> ~ canonical z) ->
  exists m, canonical_goldilocks v name = raise ProofV3Error m.
Proof.
  intros H. destruct v as [| |z| | | | |]; try (eexists; reflexivity).
  specialize (H z eq_refl). unfold canonical_goldilocks, canonical in *. simpl.
  destruct (Z.ltb_spec z 0), (Z.leb_spec GOLDILOCKS_MODULUS z); try (eexists; reflexivity). lia.
Qed.

Lemma canonical_goldilocks_exc v name e :
  canonical_goldilocks v name = Err e -> exc_kind e = ProofV3Error.
Proof.
  unfold canonical_goldilocks, raise.
  destruct v; simpl; try (by intros [= <-]). case_match; [by intros [= <-]|done].
Qed.

Lemma canonical_u64 z : canonical z -> 0 <= z < 2 ^ 64.
Proof. pose proof modulus_bounds. unfold canonical. lia. Qed.

(** (Goldilocks encoding).  [goldilocks_to_bytes] and [goldilocks_from_bytes]
    are mutually inverse: encoding succeeds exactly on canonical integers and
    decodes back to the same integer, and a byte string is accepted by the
    decoder exactly when it is the eight-byte encoding of the canonical integer
    the decoder returns.  No element has two accepted encodings. *)
Theorem goldilocks_encoding_roundtrip :
  (forall z, canonical z ->
     exists b, goldilocks_to_bytes (PInt z) = Ok b /\ length b = 8%nat
               /\ goldilocks_from_bytes (PBytes b) = Ok z) /\
  (forall v z, goldilocks_from_bytes v = Ok z <->
     canonical z /\ exists b, v = PBytes b /\ goldilocks_to_bytes (PInt z) = Ok b).
Proof.
  assert (forall z, canonical z -> goldilocks_to_bytes (PInt z) = Ok (le_split 8 z)) as Henc.
  { intros z Hz. unfold goldilocks_to_bytes. by rewrite canonical_goldilocks_int. }
  assert (forall z, canonical z -> goldilocks_from_bytes (PBytes (le_split 8 z)) = Ok z) as Hdec.
  { intros z Hz. unfold goldilocks_from_bytes. rewrite le_split_length. simpl.
    rewrite le_combine_split, Z.mod_small by (by apply canonical_u64).
    by apply canonical_goldilocks_int. }
  split.
  - intros z Hz. exists (le_split 8 z). split_and!; [by auto|by rewrite le_split_length|by auto].
  - intros v z. split.
    + destruct v as [| | |b| | | |]; try discriminate. unfold goldilocks_from_bytes.
      destruct (Nat.eqb_spec (length b) GOLDILOCKS_BYTES) as [Hl|]; simpl; [|done].
      intros [[= Hz] Hc]%canonical_goldilocks_ok. split; [done|]. exists b. split; [done|].
      rewrite Henc by done. f_equal. rewrite <- Hz. change 8%nat with GOLDILOCKS_BYTES.
      rewrite <- Hl. apply split_le_combine.
    + intros (Hz&b&->&Hb). rewrite Henc in Hb by done. injection Hb as <-. auto.
Qed.

(** (Goldilocks arithmetic).  On canonical operands the four operations
    return the canonical representative of the field operation; on any other
    operand, and for the inverse of zero, they raise [ProofV3Error]. *)
Theorem goldilocks_operations_refine_field x y :
  canonical x -> canonical y ->
  (exists r, goldilocks_add (PInt x) (PInt y) = Ok r /\ canonical r
             /\ toF r = Zmod.add (toF x) (toF y)) /\
  (exists r, goldilocks_sub (PInt x) (PInt y) = Ok r /\ canonical r
             /\ toF r = Zmod.sub (toF x) (toF y)) /\
  (exists r, goldilocks_mul (PInt x) (PInt y) = Ok r /\ canonical r
             /\ toF r = Zmod.mul (toF x) (toF y)) /\
  (x <> 0 -> exists r, goldilocks_inv (PInt x) = Ok r /\ canonical r
             /\ Zmod.mul (toF x) (toF r) = Zmod.one /\ x * r mod GOLDILOCKS_MODULUS = 1).
Proof.
  intros Hx Hy. unfold goldilocks_add, goldilocks_sub, goldilocks_mul, goldilocks_inv.
  rewrite !canonical_goldilocks_int by done. simpl.
  split_and!; [eexists; split_and!; [done|auto with vrt|by autorewrite with toF]..|].
  intros H0. rewrite (proj2 (Z.eqb_neq x 0)) by done.
  assert (toF x <> Zmod.zero) as Hnz by by rewrite toF_zero_iff.
  assert (Zmod.mul (toF x) (toF (_inv_pow x)) = Zmod.one) as Hinv.
  { rewrite toF_inv_pow by done. field. done. }
  exists (_inv_pow x). split_and!; [done|auto with vrt|done|].
  rewrite <- toF_mul, <- toF_1 in Hinv. apply toF_eq in Hinv. rewrite Hinv. by vm_compute.
Qed.

Lemma goldilocks_operations_refine_field_witness :
  canonical 5 /\ canonical (GOLDILOCKS_MODULUS - 3) /\
  exists r, goldilocks_inv (PInt 5) = Ok r /\ canonical r
            /\ Zmod.mul (toF 5) (toF r) = Zmod.one /\ 5 * r mod GOLDILOCKS_MODULUS = 1.
Proof.
  assert (canonical 5) as H5 by (split; reflexivity || by vm_compute).
  assert (canonical (GOLDILOCKS_MODULUS - 3)) as H3 by (split; by vm_compute).
  split; [done|]. split; [done|].
  apply (goldilocks_operations_refine_field 5 (GOLDILOCKS_MODULUS - 3) H5 H3). lia.
Defined.

Lemma goldilocks_inv_int z :
  canonical z -> z <> 0 -> goldilocks_inv (PInt z) = Ok (_inv_pow z).
Proof.
  intros Hz H0. unfold goldilocks_inv. rewrite canonical_goldilocks_int by done. simpl.
  by rewrite (proj2 (Z.eqb_neq z 0)).
Qed.

Lemma goldilocks_inv_mod_ok z w :
  goldilocks_inv (PInt (z mod GOLDILOCKS_MODULUS)) = Ok w <->
  toF z <> Zmod.zero /\ w = _inv_pow (z mod GOLDILOCKS_MODULUS).
Proof.
  unfold goldilocks_inv. rewrite canonical_goldilocks_int by auto with vrt. simpl.
  rewrite <- (toF_mod z), toF_zero_iff by auto with vrt.
  destruct (Z.eqb_spec (z mod GOLDILOCKS_MODULUS) 0); naive_solver.
Qed.

Lemma toF_inv_mod z :
  toF z <> Zmod.zero -> toF (_inv_pow (z mod GOLDILOCKS_MODULUS)) = Zmod.inv (toF z).
Proof. intros Hz. rewrite toF_inv_pow; by rewrite toF_mod. Qed.
