(* ===== verification/Merkle.v ===== *)
(** * Goldilocks Merkle trees ([verallm/proof_v3/goldilocks_merkle_reference.py])

    The definitions of the commitment scheme that every argument of the proof
    system opens: validation of rows and indices with their fast paths, the
    tree, the canonical sibling schedule, multi-openings and their verifier.
    The theorems about them are in [MerkleTheory]. *)

From Stdlib Require Import ZArith Lia.
From stdpp Require Import base gmap list strings pretty sorting.
From coqutil Require Import Word.LittleEndianList.
From S2P Require Import Prelude Sha256 Field.

Local Open Scope Z_scope.

Definition GOLDILOCKS_MERKLE_REFERENCE_ABI_V3 : string := "goldilocks.merkle.reference.v1".
Definition GOLDILOCKS_MERKLE_REFERENCE_DIGEST_BYTES : nat := 32.
Definition MAX_GOLDILOCKS_MERKLE_REFERENCE_LEAF_COUNT : Z := MAX_GOLDILOCKS_REFERENCE_DOMAIN_SIZE.
Definition MAX_GOLDILOCKS_MERKLE_REFERENCE_LEAF_WIDTH : Z := Z.shiftl 1 12.
Definition MAX_GOLDILOCKS_MERKLE_REFERENCE_FIELD_VALUES : Z := Z.shiftl 1 21.

Definition _LEAF_DOMAIN : bytes := b_lit "VERATHOS/PROOF_V3/GOLDILOCKS_MERKLE/V1/LEAF/SHA256".
Definition _NODE_DOMAIN : bytes := b_lit "VERATHOS/PROOF_V3/GOLDILOCKS_MERKLE/V1/NODE/SHA256".
Definition _ROOT_DOMAIN : bytes := b_lit "VERATHOS/PROOF_V3/GOLDILOCKS_MERKLE/V1/ROOT/SHA256".

(** [len(l)] *)
Definition zlen {A} (l : list A) : Z := Z.of_nat (length l).

(** A tuple of integers, and a tuple of such tuples, as Python values. *)
Definition py_ints (l : list Z) : pyval := PTuple (PInt <$> l).
Definition py_rows (rows : list (list Z)) : pyval := PTuple (py_ints <$> rows).

(** ** Validation of inputs *)

Definition _integer (value : pyval) (name : string) : res Z :=
  match value with
  | PInt z => Ok z
  | PBool _ => raise ProofV3Error (name +:+ " must be an integer, not boolean")
  | _ => raise ProofV3Error (name +:+ " must be an integer")
  end.

Definition _fixed_bytes (value : pyval) (len : nat) (name : string) : res bytes :=
  match value with
  | PBytes encoded =>
      if negb (length encoded =? len)%nat then
        raise ProofV3Error (name +:+ " must be exactly " +:+ pretty (N.of_nat len) +:+ " bytes")
      else Ok encoded
  | _ => raise ProofV3Error (name +:+ " must be bytes")
  end.

Definition _binding_digest (value : pyval) (name : string) : res bytes :=
  _fixed_bytes value GOLDILOCKS_MERKLE_REFERENCE_DIGEST_BYTES name.

Definition _leaf_count (value : pyval) (name : string) : res Z :=
  count ← _integer value name;
  if (count <? 1) || (MAX_GOLDILOCKS_NATIVE_DOMAIN_SIZE <? count) || not_power_of_two count then
    raise ProofV3Error "Merkle leaf_count must be a power of two within the CPU reference cap"
  else Ok count.

Definition _leaf_width (value : pyval) (name : string) : res Z :=
  width ← _integer value name;
  if (width <? 1) || (MAX_GOLDILOCKS_MERKLE_REFERENCE_LEAF_WIDTH <? width) then
    raise ProofV3Error "Merkle leaf_width is outside the CPU reference cap"
  else Ok width.

Definition _materialize_iterable (value : pyval) (name : string) (maximum : Z)
    : res (list pyval) :=
  match value with
  | PTuple items | PList items =>
      if maximum <? zlen items then
        raise ProofV3Error (name +:+ " exceeds the CPU reference cap")
      else Ok items
  | _ => raise ProofV3Error (name +:+ " must be an iterable")
  end.

(** [width is not None and n != width] *)
Definition differs (expected : option Z) (n : Z) : bool :=
  match expected with Some w => negb (n =? w) | None => false end.

Definition _field_row (value : pyval) (name : string) (width : option Z) : res (list Z) :=
  items ← _materialize_iterable value name MAX_GOLDILOCKS_MERKLE_REFERENCE_LEAF_WIDTH;
  if bool_decide (items = []) then raise ProofV3Error (name +:+ " must not be empty")
  else if differs width (zlen items) then
    raise ProofV3Error (name +:+ " must contain exactly " +:+ pretty (default 0 width) +:+ " field elements")
  else imapR canonical_goldilocks name items.

(** The fast path of [_field_rows]: a tuple of tuples of canonical [int]s is
    returned as it is. *)
Definition plain_int (v : pyval) : option Z := match v with PInt z => Some z | _ => None end.
Definition plain_row (v : pyval) : option (list Z) :=
  match v with PTuple items => mapM plain_int items | _ => None end.
Definition in_field (z : Z) : bool := (0 <=? z) && (z <? GOLDILOCKS_MODULUS).

Definition field_rows_fast (value : pyval) (expected_count width : option Z)
    : option (list (list Z)) :=
  match value with
  | PTuple (((PTuple (item0 :: items0)) :: _) as rows) =>
      if (MAX_GOLDILOCKS_MERKLE_REFERENCE_LEAF_COUNT <? zlen rows)
         || differs expected_count (zlen rows) then None
      else
        let fast_width := default (zlen (item0 :: items0)) width in
        if (fast_width =? 1) && (zlen rows <=? MAX_GOLDILOCKS_MERKLE_REFERENCE_FIELD_VALUES) then
          flat ← mapM plain_row rows;
          if forallb (fun r => (zlen r =? 1) && forallb in_field r) flat then Some flat else None
        else if (1 <=? fast_width) && (fast_width <=? MAX_GOLDILOCKS_MERKLE_REFERENCE_LEAF_WIDTH)
                && (zlen rows * fast_width <=? MAX_GOLDILOCKS_MERKLE_REFERENCE_FIELD_VALUES) then
          flat ← mapM plain_row rows;
          if forallb (fun r => (zlen r =? fast_width) && forallb in_field r) flat
          then Some flat else None
        else None
  | _ => None
  end.

(** The reference loop: the first row fixes the width of the others. *)
Fixpoint field_rows_loop (name : string) (rows : list pyval) (index : nat)
    (expected_width : option Z) (total_values : Z) : res (list (list Z) * option Z) :=
  match rows with
  | [] => Ok ([], expected_width)
  | row :: rows =>
      normalized_row ← _field_row row (name_at name index) expected_width;
      let expected_width := Some (default (zlen normalized_row) expected_width) in
      let total_values := total_values + zlen normalized_row in
      if MAX_GOLDILOCKS_MERKLE_REFERENCE_FIELD_VALUES <? total_values then
        raise ProofV3Error (name +:+ " exceeds the CPU field-value reference cap")
      else
        rest ← field_rows_loop name rows (S index) expected_width total_values;
        Ok (normalized_row :: rest.1, rest.2)
  end.

Definition field_rows_slow (value : pyval) (name : string) (expected_count width : option Z)
    : res (list (list Z)) :=
  rows ← _materialize_iterable value name MAX_GOLDILOCKS_MERKLE_REFERENCE_FIELD_VALUES;
  if bool_decide (rows = []) then raise ProofV3Error (name +:+ " must not be empty")
  else if differs expected_count (zlen rows) then
    raise ProofV3Error (name +:+ " must contain exactly " +:+ pretty (default 0 expected_count) +:+ " rows")
  else
    normalized ← field_rows_loop name rows 0 width 0;
    match normalized.2 with
    | None => raise AssertionError ""
    | Some expected_width => _leaf_width (PInt expected_width) "Merkle leaf_width" ≫= fun _ =>
        Ok normalized.1
    end.

Definition _field_rows (value : pyval) (name : string) (expected_count width : option Z)
    : res (list (list Z)) :=
  match field_rows_fast value expected_count width with
  | Some rows => Ok rows
  | None => field_rows_slow value name expected_count width
  end.

Definition encode_goldilocks_merkle_leaf_reference (values : pyval) : res bytes :=
  row ← _field_row values "Merkle leaf" None;
  encoded ← mapR (fun v => goldilocks_to_bytes (PInt v)) row;
  Ok (concat encoded).

(** Indices: strictly increasing, inside the tree. *)
Fixpoint increasing_below (previous leaf_count : Z) (items : list Z) : bool :=
  match items with
  | [] => true
  | item :: items => (previous <? item) && (item <? leaf_count)
                     && increasing_below item leaf_count items
  end.

Definition indices_fast (value : pyval) (leaf_count : Z) : option (list Z) :=
  match value with
  | PTuple items =>
      if (0 <? zlen items) && (zlen items <=? leaf_count) then
        flat ← mapM plain_int items;
        if increasing_below (-1) leaf_count flat then Some flat else None
      else None
  | _ => None
  end.

Fixpoint check_indices (name : string) (index : nat) (previous : option Z) (leaf_count : Z)
    (entries : list Z) : res unit :=
  match entries with
  | [] => Ok tt
  | entry :: entries =>
      if (entry <? 0) || (leaf_count <=? entry) then
        raise ProofV3Error (name_at name index +:+ " is outside the Merkle tree")
      else if match previous with Some p => entry <=? p | None => false end then
        raise ProofV3Error
          (name +:+ " must be strictly increasing without duplicates or reordering")
      else check_indices name (S index) (Some entry) leaf_count entries
  end.

Definition indices_slow (value : pyval) (leaf_count : Z) (name : string) : res (list Z) :=
  entries ← _materialize_iterable value name leaf_count;
  if bool_decide (entries = []) then raise ProofV3Error (name +:+ " must not be empty")
  else
    normalized ← imapR _integer name entries;
    check_indices name 0 None leaf_count normalized ≫= fun _ =>
    Ok normalized.

Definition _indices (value : pyval) (leaf_count : Z) (name : string) : res (list Z) :=
  match indices_fast value leaf_count with
  | Some indices => Ok indices
  | None => indices_slow value leaf_count name
  end.

(** ** The compiled backend

    The entry points of [c_multiopen.py], which calls a C library compiled at run
    time: each answers [None] when no compiler is available, and a reconstruction
    otherwise answers the raw root or a nonzero error code.  [no_compiler] and
    [Multiopen.compiled_backend] are the two machines. *)
Class MultiopenBackend := {
  c_sibling_coordinates : Z -> list Z -> option (list (Z * Z));
  c_reconstruct_w1 :
    bytes -> bytes -> Z -> list Z -> list Z -> list Z -> list Z -> bytes -> res (option (bytes + Z));
  c_reconstruct_wn :
    bytes -> bytes -> Z -> list Z -> list Z -> Z -> list Z -> list Z -> bytes ->
    res (option (bytes + Z));
}.

(** The machine without a compiler. *)
Definition no_compiler : MultiopenBackend :=
  {| c_sibling_coordinates := fun _ _ => None;
     c_reconstruct_w1 := fun _ _ _ _ _ _ _ _ => Ok None;
     c_reconstruct_wn := fun _ _ _ _ _ _ _ _ _ => Ok None |}.

(** ** The canonical sibling schedule *)

Definition _height (leaf_count : Z) : nat := Z.to_nat (bit_length leaf_count - 1).

Definition sibling (i : Z) : Z := Z.lxor i 1.
Definition parent (i : Z) : Z := i / 2.

(** [sorted(index ^ 1 for index in current if (index ^ 1) not in current)] *)
Definition missing_siblings (current : gset Z) : list Z :=
  merge_sort Z.le (elements (filter (.∉ current) (set_map sibling current : gset Z))).

Fixpoint sibling_schedule (levels : nat) (level : Z) (current : gset Z) : list (Z * Z) :=
  match levels with
  | O => []
  | S levels =>
      (pair level <$> missing_siblings current)
      ++ sibling_schedule levels (level + 1) (set_map parent current)
  end.

Definition _expected_sibling_coordinates `{MultiopenBackend} (leaf_count : Z) (indices : list Z)
    : list (Z * Z) :=
  match c_sibling_coordinates leaf_count indices with
  | Some compiled => compiled
  | None => sibling_schedule (_height leaf_count) 0 (list_to_set indices)
  end.

(** ** Siblings and multi-openings *)

Record GoldilocksMerkleSiblingReference := MkSibling {
  sib_level : Z;
  sib_index : Z;
  sib_digest : bytes;
}.

Definition outside_uint32 (z : Z) : bool := (z <? 0) || (Z.shiftl 1 32 <=? z).

(** The constructor, with [__post_init__]. *)
Definition GoldilocksMerkleSiblingReference_new (level index digest : pyval)
    : res GoldilocksMerkleSiblingReference :=
  level ← _integer level "Merkle sibling level";
  index ← _integer index "Merkle sibling index";
  if outside_uint32 level then raise ProofV3Error "Merkle sibling level is outside uint32"
  else if outside_uint32 index then raise ProofV3Error "Merkle sibling index is outside uint32"
  else
    digest ← _fixed_bytes digest GOLDILOCKS_MERKLE_REFERENCE_DIGEST_BYTES "Merkle sibling digest";
    Ok (MkSibling level index digest).

(** [_from_trusted_wire]: the constructor without its checks. *)
Definition _from_trusted_wire (level index : Z) (digest : bytes)
    : GoldilocksMerkleSiblingReference := MkSibling level index digest.

Definition coordinates (siblings : list GoldilocksMerkleSiblingReference) : list (Z * Z) :=
  (fun node => (sib_level node, sib_index node)) <$> siblings.

Record GoldilocksMerkleMultiOpeningReference := MkOpening {
  mo_binding_digest : bytes;
  mo_leaf_count : Z;
  mo_leaf_width : Z;
  mo_indices : list Z;
  mo_rows : list (list Z);
  mo_siblings : list GoldilocksMerkleSiblingReference;
}.

Definition GoldilocksMerkleMultiOpeningReference_new `{MultiopenBackend}
    (binding_digest leaf_count leaf_width indices rows : pyval)
    (raw_siblings : list GoldilocksMerkleSiblingReference) (abi_id : string)
    : res GoldilocksMerkleMultiOpeningReference :=
  if negb (bool_decide (abi_id = GOLDILOCKS_MERKLE_REFERENCE_ABI_V3)) then
    raise ProofV3Error "Merkle multiproof ABI is unsupported"
  else
    binding_digest ← _binding_digest binding_digest "Merkle binding_digest";
    leaf_count ← _leaf_count leaf_count "Merkle leaf_count";
    leaf_width ← _leaf_width leaf_width "Merkle leaf_width";
    indices ← _indices indices leaf_count "Merkle multiproof indices";
    rows ← _field_rows rows "Merkle multiproof rows" (Some (zlen indices)) (Some leaf_width);
    if MAX_GOLDILOCKS_MERKLE_REFERENCE_LEAF_COUNT <? zlen raw_siblings then
      raise ProofV3Error "Merkle multiproof siblings exceeds the CPU reference cap"
    else if negb (bool_decide (coordinates raw_siblings
                               = _expected_sibling_coordinates leaf_count indices)) then
      raise ProofV3Error
        "Merkle multiproof sibling coordinates are incomplete, duplicate, or reordered"
    else Ok (MkOpening binding_digest leaf_count leaf_width indices rows raw_siblings).

Section Merkle.
Context `{Digest}.

(** ** Hashing *)

Definition _tree_header (binding_digest : bytes) (leaf_count leaf_width : Z) : bytes :=
  binding_digest ++ pack_I leaf_count ++ pack_I leaf_width.

Definition _leaf_hash (binding_digest : bytes) (leaf_count leaf_width index : Z)
    (row : list Z) : res bytes :=
  leaf ← encode_goldilocks_merkle_leaf_reference (py_ints row);
  Ok (sha256 (_LEAF_DOMAIN ++ _tree_header binding_digest leaf_count leaf_width
              ++ pack_I index ++ leaf)).

Definition _parent_hash (binding_digest : bytes)
    (leaf_count leaf_width parent_level parent_index : Z) (l r : bytes) : res bytes :=
  l ← _fixed_bytes (PBytes l) GOLDILOCKS_MERKLE_REFERENCE_DIGEST_BYTES "left node";
  r ← _fixed_bytes (PBytes r) GOLDILOCKS_MERKLE_REFERENCE_DIGEST_BYTES "right node";
  Ok (sha256 (_NODE_DOMAIN ++ _tree_header binding_digest leaf_count leaf_width
              ++ pack_I parent_level ++ pack_I parent_index ++ l ++ r)).

Definition _commitment_hash (binding_digest : bytes) (leaf_count leaf_width : Z)
    (raw_root : bytes) : res bytes :=
  raw_root ← _fixed_bytes (PBytes raw_root) GOLDILOCKS_MERKLE_REFERENCE_DIGEST_BYTES
               "Merkle raw root";
  Ok (sha256 (_ROOT_DOMAIN ++ _tree_header binding_digest leaf_count leaf_width ++ raw_root)).

(** ** The tree *)

(** One pass over [range(0, len(current), 2)]. *)
Fixpoint parent_row (binding_digest : bytes) (leaf_count leaf_width parent_level index : Z)
    (current : list bytes) : res (list bytes) :=
  match current with
  | [] => Ok []
  | [_] => raise IndexError "tuple index out of range"
  | l :: r :: current =>
      node ← _parent_hash binding_digest leaf_count leaf_width parent_level index l r;
      rest ← parent_row binding_digest leaf_count leaf_width parent_level (index + 1) current;
      Ok (node :: rest)
  end.

(** [while len(current) > 1]; the row at least halves, so its length is
    enough fuel. *)
Fixpoint build_levels_loop (fuel : nat) (binding_digest : bytes)
    (leaf_count leaf_width parent_level : Z) (current : list bytes)
    : res (list (list bytes)) :=
  if 1 <? zlen current then
    match fuel with
    | O => raise AssertionError "fuel"
    | S fuel =>
        next ← parent_row binding_digest leaf_count leaf_width parent_level 0 current;
        rest ← build_levels_loop fuel binding_digest leaf_count leaf_width
                 (parent_level + 1) next;
        Ok (next :: rest)
    end
  else Ok [].

Fixpoint leaf_row (binding_digest : bytes) (leaf_count leaf_width index : Z)
    (rows : list (list Z)) : res (list bytes) :=
  match rows with
  | [] => Ok []
  | row :: rows =>
      leaf ← _leaf_hash binding_digest leaf_count leaf_width index row;
      rest ← leaf_row binding_digest leaf_count leaf_width (index + 1) rows;
      Ok (leaf :: rest)
  end.

Definition _build_levels (binding_digest : bytes) (rows : list (list Z)) (leaf_width : Z)
    : res (list (list bytes)) :=
  let leaf_count := zlen rows in
  current ← leaf_row binding_digest leaf_count leaf_width 0 rows;
  rest ← build_levels_loop (length rows) binding_digest leaf_count leaf_width 1 current;
  Ok (current :: rest).

Record GoldilocksMerkleTreeReference := MkTree {
  mt_binding_digest : bytes;
  mt_leaf_count : Z;
  mt_leaf_width : Z;
  mt_commitment : bytes;
  mt_rows : list (list Z);
  mt_levels : list (list bytes);
}.

Fixpoint normalized_levels_loop (level : nat) (leaf_count : Z) (raw_levels : list pyval)
    : res (list (list bytes)) :=
  match raw_levels with
  | [] => Ok []
  | raw_nodes :: raw_levels =>
      let name := ("Merkle tree level " +:+ pretty (N.of_nat level))%string in
      let expected_nodes := Z.shiftr leaf_count (Z.of_nat level) in
      nodes ← _materialize_iterable raw_nodes name expected_nodes;
      if negb (zlen nodes =? expected_nodes) then
        raise ProofV3Error (name +:+ " has an unexpected node count")
      else
        row ← imapR (fun node nm => _fixed_bytes node GOLDILOCKS_MERKLE_REFERENCE_DIGEST_BYTES nm)
                name nodes;
        rest ← normalized_levels_loop (S level) leaf_count raw_levels;
        Ok (row :: rest)
  end.

Definition _normalized_levels (value : pyval) (leaf_count : Z) : res (list (list bytes)) :=
  let expected_levels := Z.of_nat (_height leaf_count) + 1 in
  raw_levels ← _materialize_iterable value "Merkle tree levels" expected_levels;
  if negb (zlen raw_levels =? expected_levels) then
    raise ProofV3Error "Merkle tree has an unexpected number of levels"
  else normalized_levels_loop 0 leaf_count raw_levels.

(** [levels[-1][0]] *)
Definition raw_root (levels : list (list bytes)) : res bytes :=
  match last levels with
  | Some (root :: _) => Ok root
  | _ => raise IndexError "tuple index out of range"
  end.

(** The constructor, with [__post_init__]: rebuild and compare every level. *)
Definition GoldilocksMerkleTreeReference_new
    (binding_digest leaf_count leaf_width commitment rows levels : pyval)
    : res GoldilocksMerkleTreeReference :=
  binding_digest ← _binding_digest binding_digest "Merkle binding_digest";
  leaf_count ← _leaf_count leaf_count "Merkle leaf_count";
  leaf_width ← _leaf_width leaf_width "Merkle leaf_width";
  rows ← _field_rows rows "Merkle tree rows" (Some leaf_count) (Some leaf_width);
  levels ← _normalized_levels levels leaf_count;
  expected_levels ← _build_levels binding_digest rows leaf_width;
  if negb (bool_decide (levels = expected_levels)) then
    raise ProofV3Error "Merkle tree levels do not match canonical rows"
  else
    commitment ← _fixed_bytes commitment GOLDILOCKS_MERKLE_REFERENCE_DIGEST_BYTES
                   "Merkle commitment";
    root ← raw_root levels;
    expected_commitment ← _commitment_hash binding_digest leaf_count leaf_width root;
    if negb (bool_decide (commitment = expected_commitment)) then
      raise ProofV3Error "Merkle commitment does not match canonical rows"
    else Ok (MkTree binding_digest leaf_count leaf_width commitment rows levels).

Definition from_rows (rows binding_digest : pyval) : res GoldilocksMerkleTreeReference :=
  normalized_rows ← _field_rows rows "Merkle tree rows" None None;
  leaf_count ← _leaf_count (PInt (zlen normalized_rows)) "Merkle leaf_count";
  leaf_width ← _leaf_width (PInt (zlen (default [] (head normalized_rows)))) "Merkle leaf_width";
  binding ← _binding_digest binding_digest "Merkle binding_digest";
  levels ← _build_levels binding normalized_rows leaf_width;
  root ← raw_root levels;
  commitment ← _commitment_hash binding leaf_count leaf_width root;
  GoldilocksMerkleTreeReference_new (PBytes binding) (PInt leaf_count) (PInt leaf_width)
    (PBytes commitment) (py_rows normalized_rows)
    (PTuple ((fun level => PTuple (PBytes <$> level)) <$> levels)).

(** [self.levels[level][index]] *)
Definition node_at (levels : list (list bytes)) (level index : Z) : res bytes :=
  match levels !! Z.to_nat level ≫= (.!! Z.to_nat index) with
  | Some node => Ok node
  | None => raise IndexError "tuple index out of range"
  end.

Definition tree_open `{MultiopenBackend} (self : GoldilocksMerkleTreeReference)
    (indices : pyval) : res GoldilocksMerkleMultiOpeningReference :=
  selected ← _indices indices (mt_leaf_count self) "Merkle opening indices";
  siblings ← mapR (fun '(level, index) =>
                digest ← node_at (mt_levels self) level index;
                GoldilocksMerkleSiblingReference_new (PInt level) (PInt index) (PBytes digest))
              (_expected_sibling_coordinates (mt_leaf_count self) selected);
  rows ← mapR (fun index => match mt_rows self !! Z.to_nat index with
                            | Some row => Ok row
                            | None => raise IndexError "tuple index out of range"
                            end) selected;
  GoldilocksMerkleMultiOpeningReference_new (PBytes (mt_binding_digest self))
    (PInt (mt_leaf_count self)) (PInt (mt_leaf_width self)) (py_ints selected)
    (py_rows rows) siblings GOLDILOCKS_MERKLE_REFERENCE_ABI_V3.

(** ** Verification *)

(** [for parent_index in sorted({index // 2 for index in active_indices})] *)
Fixpoint parents_loop (node_prefix : bytes) (level : Z) (current : gmap Z bytes)
    (parent_indices : list Z) (parents : gmap Z bytes) : res (gmap Z bytes) :=
  match parent_indices with
  | [] => Ok parents
  | parent_index :: parent_indices =>
      match current !! (parent_index * 2), current !! (parent_index * 2 + 1) with
      | Some l, Some r =>
          parents_loop node_prefix level current parent_indices
            (<[parent_index := sha256 (node_prefix ++ pack_I (level + 1) ++ pack_I parent_index
                                       ++ l ++ r)]> parents)
      | _, _ => raise ProofV3VerificationError "Merkle opening is missing a sibling node"
      end
  end.

(** [for sibling_index in by_level.get(level, ())]; the digests not yet
    consumed stand for [sibling_offset]. *)
Fixpoint insert_siblings (current : gmap Z bytes) (sibling_indices : list Z)
    (digests : list bytes) : res (gmap Z bytes * list bytes) :=
  match sibling_indices, digests with
  | [], _ => Ok (current, digests)
  | i :: sibling_indices, d :: digests =>
      insert_siblings (<[i := d]> current) sibling_indices digests
  | _ :: _, [] => raise IndexError "tuple index out of range"
  end.

Definition at_level (level : Z) (coords : list (Z * Z)) : list Z :=
  snd <$> filter (fun c => c.1 = level) coords.

Fixpoint reconstruct_loop (levels : nat) (level : Z) (node_prefix : bytes)
    (coords : list (Z * Z)) (current : gmap Z bytes) (digests : list bytes)
    : res (gmap Z bytes * list bytes) :=
  match levels with
  | O => Ok (current, digests)
  | S levels =>
      let active_indices := dom current in
      inserted ← insert_siblings current (at_level level coords) digests;
      parents ← parents_loop node_prefix level inserted.1
                  (merge_sort Z.le (elements (set_map parent active_indices : gset Z))) ∅;
      reconstruct_loop levels (level + 1) node_prefix coords parents inserted.2
  end.

(** The Python reconstruction of the raw root from the leaf digests. *)
Definition reconstruct (node_prefix : bytes) (leaf_count : Z) (coords : list (Z * Z))
    (current : gmap Z bytes) (digests : list bytes) : res bytes :=
  final ← reconstruct_loop (_height leaf_count) 0 node_prefix coords current digests;
  match final.1 !! 0 with
  | Some root =>
      if bool_decide (final.2 = []) && bool_decide (dom final.1 = {[0]}) then Ok root
      else raise ProofV3VerificationError "Merkle opening reconstruction is incomplete"
  | None => raise ProofV3VerificationError "Merkle opening reconstruction is incomplete"
  end.

(** [for index, row in zip(indices, rows, strict=True)] over leaf digests. *)
Fixpoint leaf_digests (leaf_hash : Z -> list Z -> res bytes) (indices : list Z)
    (rows : list (list Z)) (current : gmap Z bytes) : res (gmap Z bytes) :=
  match indices, rows with
  | [], [] => Ok current
  | index :: indices, row :: rows =>
      leaf ← leaf_hash index row;
      leaf_digests leaf_hash indices rows (<[index := leaf]> current)
  | _, _ => raise ValueError "zip() argument lengths differ"
  end.

Definition width1_value (row : list Z) : res Z :=
  match row with
  | [value] => if in_field value then Ok value
               else raise ProofV3VerificationError "Merkle opening row value is not canonical"
  | _ => raise ProofV3VerificationError "Merkle opening row width is unexpected"
  end.

Definition leaf_hash_w1 (leaf_prefix : bytes) (index : Z) (row : list Z) : res bytes :=
  value ← width1_value row;
  Ok (sha256 (leaf_prefix ++ pack_I index ++ pack_Q value)).

Definition leaf_hash_wn (leaf_prefix : bytes) (index : Z) (row : list Z) : res bytes :=
  leaf ← encode_goldilocks_merkle_leaf_reference (py_ints row);
  Ok (sha256 (leaf_prefix ++ pack_I index ++ leaf)).

Definition check_root (root binding : bytes) (leaf_count leaf_width : Z) (raw : bytes)
    : res unit :=
  actual_root ← _commitment_hash binding leaf_count leaf_width raw;
  require (bool_decide (root = actual_root)) ProofV3VerificationError
    "Merkle opening does not match commitment".

(** The part of the verifier after the metadata checks. *)
Definition verify_reconstruction `{MultiopenBackend} (root binding : bytes)
    (leaf_count leaf_width : Z) (indices : list Z) (coords : list (Z * Z))
    (opening : GoldilocksMerkleMultiOpeningReference) : res unit :=
  let header := _tree_header binding leaf_count leaf_width in
  let leaf_prefix := _LEAF_DOMAIN ++ header in
  let node_prefix := _NODE_DOMAIN ++ header in
  sibling_digests ← mapR (fun node => _fixed_bytes (PBytes (sib_digest node))
                            GOLDILOCKS_MERKLE_REFERENCE_DIGEST_BYTES "sibling digest")
                      (mo_siblings opening);
  let python leaf_hash :=
    current ← leaf_digests leaf_hash indices (mo_rows opening) ∅;
    raw ← reconstruct node_prefix leaf_count coords current sibling_digests;
    check_root root binding leaf_count leaf_width raw in
  let compiled_or (result : option (bytes + Z)) leaf_hash :=
    match result with
    | Some (inl raw) => check_root root binding leaf_count leaf_width raw
    | Some (inr _) =>
        raise ProofV3VerificationError "Merkle opening reconstruction is incomplete"
    | None => python leaf_hash
    end in
  if leaf_width =? 1 then
    row_values ← mapR width1_value (mo_rows opening);
    result ← c_reconstruct_w1 leaf_prefix node_prefix leaf_count indices row_values
               coords.*1 coords.*2 (concat sibling_digests);
    compiled_or result (leaf_hash_w1 leaf_prefix)
  else
    result ← c_reconstruct_wn leaf_prefix node_prefix leaf_count indices
               (concat (mo_rows opening)) leaf_width coords.*1 coords.*2
               (concat sibling_digests);
    compiled_or result (leaf_hash_wn leaf_prefix).

(** [opening = None] stands for an object of another type. *)
Definition verify_goldilocks_merkle_multiopening_reference `{MultiopenBackend}
    (commitment : pyval) (opening : option GoldilocksMerkleMultiOpeningReference)
    (expected_binding_digest expected_leaf_count expected_leaf_width expected_indices : pyval)
    : res unit :=
  expected ← reraise_as [] [ProofV3Error] ProofV3VerificationError
               "Merkle verifier expectation is malformed"
    (expected_binding ← _binding_digest expected_binding_digest
                          "expected Merkle binding_digest";
     leaf_count ← _leaf_count expected_leaf_count "expected Merkle leaf_count";
     leaf_width ← _leaf_width expected_leaf_width "expected Merkle leaf_width";
     indices ← _indices expected_indices leaf_count "expected Merkle indices";
     root ← _fixed_bytes commitment GOLDILOCKS_MERKLE_REFERENCE_DIGEST_BYTES
              "expected Merkle commitment";
     Ok (expected_binding, leaf_count, leaf_width, indices, root));
  let '(expected_binding, leaf_count, leaf_width, indices, root) := expected in
  match opening with
  | None => raise ProofV3VerificationError "Merkle opening has an unexpected type"
  | Some opening =>
      if negb (bool_decide (mo_binding_digest opening = expected_binding)) then
        raise ProofV3VerificationError "Merkle opening binding_digest is unexpected"
      else if negb (mo_leaf_count opening =? leaf_count)
              || negb (mo_leaf_width opening =? leaf_width) then
        raise ProofV3VerificationError "Merkle opening tree metadata is unexpected"
      else if negb (bool_decide (mo_indices opening = indices)) then
        raise ProofV3VerificationError "Merkle opening indices are unexpected"
      else
        let expected_coordinates := _expected_sibling_coordinates leaf_count indices in
        if negb (bool_decide (coordinates (mo_siblings opening) = expected_coordinates)) then
          raise ProofV3VerificationError
            "Merkle opening sibling coordinates are incomplete, duplicate, or reordered"
        else verify_reconstruction root expected_binding leaf_count leaf_width indices
               expected_coordinates opening
  end.
End Merkle.
