(* ===== verification/MerkleTheory.v ===== *)
(** * Theory of the Goldilocks Merkle trees

    The fast paths of the validators agree with the reference loops; tree
    construction succeeds exactly on well-formed tables; an opening produced by
    a tree verifies; and a verified opening agrees with the committed table
    unless it exhibits a second preimage of one of the tree's own hash inputs. *)

From Stdlib Require Import ZArith Lia.
From stdpp Require Import base gmap list strings pretty sorting.
From coqutil Require Import Word.LittleEndianList.
From S2P Require Import Prelude Sha256 Field Merkle.

Local Open Scope Z_scope.

Lemma zlen_nonneg {A} (l : list A) : 0 <= zlen l.
Proof. unfold zlen. lia. Qed.
Lemma zlen_cons {A} (x : A) l : zlen (x :: l) = zlen l + 1.
Proof. unfold zlen. simpl. lia. Qed.
Lemma zlen_fmap {A B} (f : A -> B) l : zlen (f <$> l) = zlen l.
Proof. unfold zlen. by rewrite length_fmap. Qed.
Lemma zlen_pos {A} (l : list A) : l <> [] <-> 1 <= zlen l.
Proof. destruct l; unfold zlen; simpl; split; (done || lia). Qed.

(** ** Leaf counts and widths *)

Definition valid_leaf_count (n : Z) : Prop := exists k : nat, (k <= 30)%nat /\ n = 2 ^ Z.of_nat k.

Lemma leaf_count_ok v name n :
  _leaf_count v name = Ok n <-> v = PInt n /\ valid_leaf_count n.
Proof.
  unfold _leaf_count, valid_leaf_count. destruct v; simpl; try (split; [discriminate|by intros [? _]]).
  change MAX_GOLDILOCKS_NATIVE_DOMAIN_SIZE with (2 ^ 30).
  destruct (Z.ltb_spec z 1); simpl.
  { split; [discriminate|]. intros [[= ->] (k&?&->)]. pose proof (Z.pow_pos_nonneg 2 (Z.of_nat k)). lia. }
  destruct (Z.ltb_spec (2 ^ 30) z); simpl.
  { split; [discriminate|]. intros [[= ->] (k&?&->)].
    pose proof (Z.pow_le_mono_r 2 (Z.of_nat k) 30). lia. }
  destruct (not_power_of_two z) eqn:E; simpl.
  - split; [discriminate|]. intros [[= ->] (k&?&->)]. rewrite pow2_not_npot in E by lia. done.
  - split; [|by intros [[= ->] _]]. intros [= <-]. split; [done|].
    apply not_power_of_two_false in E; [|lia].
    exists (Z.to_nat (Z.log2 z)). pose proof (Z.log2_nonneg z).
    rewrite Z2Nat.id by done. split; [|done].
    apply Z.log2_le_mono in H0. rewrite Z.log2_pow2 in H0; lia.
Qed.

Lemma leaf_width_ok v name w :
  _leaf_width v name = Ok w <-> v = PInt w /\ 1 <= w <= MAX_GOLDILOCKS_MERKLE_REFERENCE_LEAF_WIDTH.
Proof.
  unfold _leaf_width. destruct v; simpl; try (split; [discriminate|by intros [? _]]).
  destruct (Z.ltb_spec z 1); simpl; [split; [discriminate|intros [[= ->] ?]; lia]|].
  destruct (Z.ltb_spec MAX_GOLDILOCKS_MERKLE_REFERENCE_LEAF_WIDTH z); simpl.
  - split; [discriminate|intros [[= ->] ?]; lia].
  - split; [intros [= ->]; split; [done|lia]|by intros [[= ->] _]].
Qed.

Lemma fixed_bytes_ok v n name b :
  _fixed_bytes v n name = Ok b <-> v = PBytes b /\ length b = n.
Proof.
  unfold _fixed_bytes. destruct v; try (split; [discriminate|by intros [? _]]).
  destruct (Nat.eqb_spec (length bs) n); simpl; split;
    (discriminate || intros [= ->] || intros [[= ->] ?]); done.
Qed.

Lemma fixed_bytes_int b n name : length b = n -> _fixed_bytes (PBytes b) n name = Ok b.
Proof. intros. by apply fixed_bytes_ok. Qed.

Lemma height_pow2 k : _height (2 ^ Z.of_nat k) = k.
Proof.
  unfold _height. rewrite bit_length_pos by (apply Z.pow_pos_nonneg; lia).
  rewrite Z.log2_pow2 by lia. lia.
Qed.

(** ** Rows *)

Definition canonical_row (w : Z) (r : list Z) : Prop := zlen r = w /\ Forall canonical r.

Record valid_rows (w : Z) (rows : list (list Z)) : Prop := {
  vr_nonempty : rows <> [];
  vr_rows : Forall (canonical_row w) rows;
  vr_width : 1 <= w <= MAX_GOLDILOCKS_MERKLE_REFERENCE_LEAF_WIDTH;
  vr_total : zlen rows * w <= MAX_GOLDILOCKS_MERKLE_REFERENCE_FIELD_VALUES;
}.

Definition matches (expected : option Z) (n : Z) : Prop := forall w, expected = Some w -> n = w.

Lemma differs_false expected n : differs expected n = false <-> matches expected n.
Proof.
  unfold differs, matches. destruct expected as [w|]; [|by split].
  rewrite negb_false_iff, Z.eqb_eq. naive_solver.
Qed.

Lemma in_field_spec z : in_field z = true <-> canonical z.
Proof. unfold in_field, canonical. rewrite andb_true_iff. lia. Qed.

Lemma forallb_in_field l : forallb in_field l = true <-> Forall canonical l.
Proof.
  rewrite forallb_forall, Forall_forall.
  split; intros H z Hz; apply in_field_spec, H; by rewrite <- ?list_elem_of_In, ?list_elem_of_In in *.
Qed.

Lemma imapR_ints (f : pyval -> string -> res Z) (P : Z -> Prop) name l k :
  (forall v n z, f v n = Ok z <-> v = PInt z /\ P z) ->
  imapR f name l = Ok k <-> l = PInt <$> k /\ Forall P k.
Proof.
  intros Hf. unfold imapR.
  rewrite (imapR_from_ok _ (fun v => f v "")) by (intros; by rewrite !Hf).
  rewrite mapR_Forall2. split.
  - induction 1 as [|v z l k Hv _ [-> IH]]; [by split|].
    apply Hf in Hv as [-> ?]. split; [done|by constructor].
  - intros [-> HP]. apply Forall2_fmap_l, Forall_Forall2_diag.
    apply (Forall_impl _ _ _ HP). intros z ?. by apply Hf.
Qed.

Lemma imapR_canonical name l k :
  imapR canonical_goldilocks name l = Ok k <-> l = PInt <$> k /\ Forall canonical k.
Proof. apply imapR_ints. intros. apply canonical_goldilocks_ok. Qed.

Lemma materialize_ok v name maximum items :
  _materialize_iterable v name maximum = Ok items <->
  (v = PTuple items \/ v = PList items) /\ zlen items <= maximum.
Proof.
  unfold _materialize_iterable.
  destruct v; try (split; [discriminate|by intros [[? | ?] _]]).
  all: destruct (Z.ltb_spec maximum (zlen l)); split; try discriminate.
  all: try (intros [[[= ->] | [= ->]] ?]; (lia || done)).
  all: intros [= ->]; split; [by auto|lia].
Qed.

Lemma field_row_ok v name ew r :
  _field_row v name ew = Ok r <->
  (v = py_ints r \/ v = PList (PInt <$> r)) /\ r <> [] /\ Forall canonical r /\
  zlen r <= MAX_GOLDILOCKS_MERKLE_REFERENCE_LEAF_WIDTH /\ matches ew (zlen r).
Proof.
  unfold _field_row. rewrite bind_ok. split.
  - intros (items&[Hv Hlen]%materialize_ok&H).
    case_bool_decide as Hne; [done|]. destruct (differs ew (zlen items)) eqn:Hd; [done|].
    apply imapR_canonical in H as [-> Hc]. apply differs_false in Hd. rewrite zlen_fmap in *.
    split_and!; [exact Hv| |done..]. by intros ->.
  - intros (Hv&Hne&Hc&Hlen&Hm). exists (PInt <$> r). split.
    + apply materialize_ok. by rewrite zlen_fmap.
    + rewrite bool_decide_eq_false_2 by (by destruct r).
      rewrite (proj2 (differs_false _ _)) by by rewrite zlen_fmap. by apply imapR_canonical.
Qed.

(** [rows_of vs rows]: the Python values [vs] denote the rows [rows]. *)
Definition rows_of (vs : list pyval) (rows : list (list Z)) : Prop :=
  Forall2 (fun v r => v = py_ints r \/ v = PList (PInt <$> r)) vs rows.

Lemma field_rows_loop_ok name vs i ew total rows ew' :
  field_rows_loop name vs i ew total = Ok (rows, ew') ->
  rows_of vs rows /\
  match ew' with
  | None => ew = None /\ rows = []
  | Some w => (rows = [] -> ew = Some w) /\ matches ew w /\
      Forall (fun r => canonical_row w r /\ r <> [] /\
        zlen r <= MAX_GOLDILOCKS_MERKLE_REFERENCE_LEAF_WIDTH) rows /\
      (rows <> [] -> total + zlen rows * w <= MAX_GOLDILOCKS_MERKLE_REFERENCE_FIELD_VALUES)
  end.
Proof.
  revert i ew total rows ew'. induction vs as [|v vs IH]; intros i ew total rows ew'; simpl.
  { intros [= <- <-]. split; [constructor|]. destruct ew as [w|]; [|done]. split_and!; [done|by intros ? [= ->]|constructor|done]. }
  intros H. res_inv. case_match eqn:Ht; [done|]. res_inv. apply Z.ltb_ge in Ht.
  apply field_row_ok in E as (Hv&Hne&Hc&Hlen&Hm).
  destruct a0 as [rest w']. simpl in *. apply IH in E0 as [Hrows Hw'].
  split; [by constructor|]. destruct w' as [w|]; [|by destruct Hw'].
  destruct Hw' as (Hnil&Hmw&Hall&Htot). specialize (Hmw _ eq_refl). split_and!; [done| | |].
  - intros w0 ->. by rewrite Hmw.
  - constructor; [|done]. split_and!; [|done..]. split; [|done].
    destruct ew as [w0|]; simpl in *; [rewrite Hmw; by apply Hm|done].
  - intros _. assert (zlen a = w) as Ha.
    { destruct ew as [w0|]; simpl in *; [rewrite Hmw; by apply Hm|done]. }
    rewrite zlen_cons. destruct (decide (rest = [])) as [->|Hr]; [unfold zlen in *; simpl; lia|].
    specialize (Htot Hr). lia.
Qed.

Lemma field_rows_loop_total name vs i ew total rows w :
  rows_of vs rows -> Forall (canonical_row w) rows ->
  1 <= w <= MAX_GOLDILOCKS_MERKLE_REFERENCE_LEAF_WIDTH -> matches ew w ->
  total + zlen rows * w <= MAX_GOLDILOCKS_MERKLE_REFERENCE_FIELD_VALUES ->
  field_rows_loop name vs i ew total =
    Ok (rows, match rows with [] => ew | _ => Some w end).
Proof.
  intros Hvs. revert i ew total. induction Hvs as [|v r vs rows Hv Hvs IH];
    intros i ew total Hall Hw Hm Htot; simpl; [done|].
  apply Forall_cons in Hall as [[Hr Hc] Hall].
  assert (_field_row v (name_at name i) ew = Ok r) as ->.
  { apply field_row_ok. rewrite Hr. split_and!; [done| |done|lia|done]. apply zlen_pos. lia. }
  simpl. rewrite zlen_cons in Htot. pose proof (zlen_nonneg rows).
  destruct (Z.ltb_spec MAX_GOLDILOCKS_MERKLE_REFERENCE_FIELD_VALUES (total + zlen r)); [nia|].
  assert (default (zlen r) ew = w) as ->.
  { destruct ew as [w0|]; simpl; [symmetry; by apply Hm|done]. }
  rewrite IH; [|done|lia|by intros ? [= ->]|lia]. simpl. by destruct rows.
Qed.

Lemma field_rows_slow_ok v name ec ew rows :
  field_rows_slow v name ec ew = Ok rows <->
  exists vs w, (v = PTuple vs \/ v = PList vs) /\ rows_of vs rows /\ valid_rows w rows
               /\ matches ec (zlen rows) /\ matches ew w.
Proof.
  unfold field_rows_slow. rewrite bind_ok. split.
  - intros (vs&[Hv Hlen]%materialize_ok&H). case_bool_decide as Hne; [done|].
    destruct (differs ec (zlen vs)) eqn:Hd; [done|]. apply differs_false in Hd.
    res_inv. destruct a as [rows' w']. apply field_rows_loop_ok in E as [Hrows Hw']. simpl in *.
    destruct w' as [w|]; [|done]. res_inv.
    match goal with HH : _leaf_width _ _ = Ok _ |- _ => apply leaf_width_ok in HH as [[= <-] Hw] end.
    pose proof (Forall2_length _ _ _ Hrows) as Hll.
    assert (rows <> []) as Hne' by (intros ->; by destruct vs).
    destruct Hw' as (_&Hm&Hall&Htot). exists vs, w. split_and!; [done|done| | |done].
    + split; [done| |done|by apply Htot]. by eapply Forall_impl; [exact Hall|intros ? [? _]].
    + unfold zlen in *. by rewrite <- Hll.
  - intros (vs&w&Hv&Hrows&[Hne Hall Hw Htot]&Hec&Hew). exists vs.
    pose proof (Forall2_length _ _ _ Hrows) as Hll.
    assert (zlen vs = zlen rows) as Hz by (unfold zlen; by rewrite Hll).
    split; [apply materialize_ok; split; [done|]; pose proof (zlen_nonneg rows); nia|].
    rewrite bool_decide_eq_false_2 by (intros ->; by destruct rows).
    rewrite (proj2 (differs_false _ _)) by by rewrite Hz.
    rewrite (field_rows_loop_total name vs 0 ew 0 rows w) by (done || lia). simpl.
    destruct rows; [done|]. by rewrite (proj2 (leaf_width_ok _ _ w)).
Qed.

(** ** The fast paths *)

Lemma plain_ints_spec vs l : mapM plain_int vs = Some l <-> vs = PInt <$> l.
Proof.
  rewrite mapM_Some. split.
  - induction 1 as [|v z vs l Hv _ IH]; [done|]. destruct v; try discriminate.
    injection Hv as ->. by rewrite IH.
  - intros ->. apply Forall2_fmap_l, Forall_Forall2_diag, Forall_forall. done.
Qed.

Lemma plain_rows_spec vs rows : mapM plain_row vs = Some rows <-> vs = py_ints <$> rows.
Proof.
  rewrite mapM_Some. split.
  - induction 1 as [|v r vs rows Hv _ IH]; [done|]. destruct v; try discriminate.
    apply plain_ints_spec in Hv as ->. by rewrite IH.
  - intros ->. apply Forall2_fmap_l, Forall_Forall2_diag, Forall_forall.
    intros r _. by apply plain_ints_spec.
Qed.

Lemma rows_of_py_rows rows : rows_of (py_ints <$> rows) rows.
Proof. apply Forall2_fmap_l, Forall_Forall2_diag, Forall_forall. by left. Qed.

Lemma checked_rows_spec w rows :
  forallb (fun r => (zlen r =? w) && forallb in_field r) rows = true <->
  Forall (canonical_row w) rows.
Proof.
  induction rows as [|r rows IH]; simpl; [by split; [constructor|]|].
  rewrite Forall_cons, !andb_true_iff, IH, Z.eqb_eq, forallb_in_field. done.
Qed.

(** The shape of a value that the fast path returns unchanged. *)
Lemma field_rows_fast_ok v ec ew rows :
  field_rows_fast v ec ew = Some rows ->
  v = py_rows rows /\ matches ec (zlen rows) /\ exists w, valid_rows w rows /\ matches ew w.
Proof.
  destruct v as [| | | | |vs| |]; try discriminate. unfold field_rows_fast.
  destruct vs as [|v0 vs]; [discriminate|].
  destruct v0 as [| | | | |[|item0 items0]| |]; try discriminate.
  set (all := _ :: vs). destruct (orb _ _) eqn:Hg; [discriminate|].
  apply orb_false_iff in Hg as [Hc%Z.ltb_ge Hec%differs_false]. cbv zeta.
  set (fw := default _ ew).
  assert (matches ew fw) as Hew by (unfold fw, matches; by intros ? ->).
  assert (forall flat w, mapM plain_row all = Some flat -> Forall (canonical_row w) flat ->
    1 <= w <= MAX_GOLDILOCKS_MERKLE_REFERENCE_LEAF_WIDTH ->
    zlen all * w <= MAX_GOLDILOCKS_MERKLE_REFERENCE_FIELD_VALUES ->
    PTuple all = py_rows flat /\ matches ec (zlen flat) /\ valid_rows w flat) as Hfinish.
  { intros flat w Ha%plain_rows_spec Hf Hw Ht. unfold py_rows. rewrite <- Ha.
    assert (zlen all = zlen flat) as Hz by by rewrite Ha, zlen_fmap.
    rewrite <- Hz. split_and!; [done|exact Hec|]. split; [|done|done|by rewrite <- Hz].
    intros ->. discriminate Ha. }
  destruct (andb (fw =? 1) _) eqn:H1.
  - apply andb_true_iff in H1 as [->%Z.eqb_eq Ht%Z.leb_le].
    destruct (mapM plain_row all) as [flat|]; [|discriminate]. simpl.
    destruct (forallb _ flat) eqn:Hf; [|discriminate]. intros [= <-].
    apply checked_rows_spec in Hf.
    destruct (Hfinish flat 1) as (?&?&?); [done|done|split; by vm_compute|lia|]. eauto.
  - destruct (andb (andb _ _) _) eqn:H2; [|discriminate].
    rewrite !andb_true_iff in H2. destruct H2 as [[Hlo%Z.leb_le Hhi%Z.leb_le] Ht%Z.leb_le].
    destruct (mapM plain_row all) as [flat|]; [|discriminate]. simpl.
    destruct (forallb _ flat) eqn:Hf; [|discriminate]. intros [= <-].
    apply checked_rows_spec in Hf. destruct (Hfinish flat fw) as (?&?&?); eauto.
Qed.

Lemma field_rows_fast_slow v name ec ew rows :
  field_rows_fast v ec ew = Some rows -> field_rows_slow v name ec ew = Ok rows.
Proof.
  intros (->&Hec&w&Hrows&Hew)%field_rows_fast_ok. apply field_rows_slow_ok.
  exists (py_ints <$> rows), w. split_and!; [by left|apply rows_of_py_rows|done..].
Qed.

Lemma field_rows_eq v name ec ew : _field_rows v name ec ew = field_rows_slow v name ec ew.
Proof.
  unfold _field_rows. destruct (field_rows_fast v ec ew) eqn:E; [|done].
  symmetry. by apply field_rows_fast_slow.
Qed.

Lemma field_rows_ok v name ec ew rows :
  _field_rows v name ec ew = Ok rows <->
  exists vs w, (v = PTuple vs \/ v = PList vs) /\ rows_of vs rows /\ valid_rows w rows
               /\ matches ec (zlen rows) /\ matches ew w.
Proof. rewrite field_rows_eq. apply field_rows_slow_ok. Qed.

Lemma field_rows_py_rows rows name ec ew w :
  valid_rows w rows -> matches ec (zlen rows) -> matches ew w ->
  _field_rows (py_rows rows) name ec ew = Ok rows.
Proof.
  intros. apply field_rows_ok. exists (py_ints <$> rows), w.
  split_and!; [by left|apply rows_of_py_rows|done..].
Qed.

(** *** Indices *)

Record valid_indices (n : Z) (indices : list Z) : Prop := {
  vi_nonempty : indices <> [];
  vi_increasing : increasing_below (-1) n indices = true;
}.

Lemma check_indices_ok name i prev n entries u :
  (forall p, prev = Some p -> -1 <= p) ->
  check_indices name i prev n entries = Ok u <->
  increasing_below (default (-1) prev) n entries = true.
Proof.
  destruct u. revert i prev. induction entries as [|e entries IH]; intros i prev Hp; simpl; [done|].
  assert (-1 <= default (-1) prev) as Hp' by (destruct prev; simpl; [by apply Hp|done]).
  rewrite !andb_true_iff, Z.ltb_lt, Z.ltb_lt.
  destruct (Z.ltb_spec e 0); simpl; [split; [discriminate|lia]|].
  destruct (Z.leb_spec n e); simpl; [split; [discriminate|lia]|].
  assert (match prev with Some p => e <=? p | None => false end = (e <=? default (-1) prev)) as ->.
  { destruct prev; [done|]. simpl. symmetry. apply Z.leb_gt. lia. }
  destruct (Z.leb_spec e (default (-1) prev)); [split; [discriminate|lia]|].
  rewrite IH by (intros ? [= <-]; lia). simpl. split; [by auto|naive_solver].
Qed.

Lemma increasing_zlen p n l : increasing_below p n l = true -> l <> [] -> zlen l <= n - 1 - p.
Proof.
  revert p. induction l as [|x l IH]; intros p; [done|]. simpl. rewrite !andb_true_iff.
  intros [[H1%Z.ltb_lt H2%Z.ltb_lt] Hl] _. rewrite zlen_cons.
  destruct (decide (l = [])) as [->|Hne]; [unfold zlen; simpl; lia|].
  specialize (IH _ Hl Hne). lia.
Qed.

Lemma imapR_integer name l k : imapR _integer name l = Ok k <-> l = PInt <$> k.
Proof.
  rewrite (imapR_ints _ (fun _ => True)).
  - split; [by intros [? _]|intros ->; split; [done|by apply Forall_forall]].
  - intros [] ? ?; simpl; split; (discriminate || naive_solver).
Qed.

Lemma indices_slow_ok v n name indices :
  indices_slow v n name = Ok indices <->
  (v = py_ints indices \/ v = PList (PInt <$> indices)) /\ valid_indices n indices.
Proof.
  unfold indices_slow. rewrite bind_ok. split.
  - intros (items&[Hv Hlen]%materialize_ok&H). case_bool_decide as Hne; [done|]. res_inv.
    apply imapR_integer in E as ->.
    apply check_indices_ok in E0; [|done]. split; [done|]. split; [|done]. by intros ->.
  - intros (Hv&[Hne Hinc]). exists (PInt <$> indices). split.
    + apply materialize_ok. split; [done|]. rewrite zlen_fmap.
      apply increasing_zlen in Hinc; [lia|done].
    + rewrite bool_decide_eq_false_2 by (by destruct indices).
      rewrite (proj2 (imapR_integer name _ indices)) by done. simpl.
      by rewrite (proj2 (check_indices_ok name 0 None n indices tt ltac:(done)) Hinc).
Qed.

Lemma indices_fast_slow v n name indices :
  indices_fast v n = Some indices -> indices_slow v n name = Ok indices.
Proof.
  destruct v; try discriminate. unfold indices_fast.
  destruct (andb _ _) eqn:Hg; [|discriminate].
  apply andb_true_iff in Hg as [Hpos%Z.ltb_lt _].
  destruct (mapM plain_int l) as [flat|] eqn:E; [|discriminate]. simpl.
  destruct (increasing_below _ _ _) eqn:Hi; [|discriminate]. intros [= <-].
  apply plain_ints_spec in E as ->. rewrite zlen_fmap in Hpos.
  apply indices_slow_ok. split; [by left|]. split; [|done]. apply zlen_pos. lia.
Qed.

Lemma indices_eq v n name : _indices v n name = indices_slow v n name.
Proof.
  unfold _indices. destruct (indices_fast v n) eqn:E; [|done].
  symmetry. by apply indices_fast_slow.
Qed.

Lemma indices_ok v n name indices :
  _indices v n name = Ok indices <->
  (v = py_ints indices \/ v = PList (PInt <$> indices)) /\ valid_indices n indices.
Proof. rewrite indices_eq. apply indices_slow_ok. Qed.

(** C25 (Merkle validation fast paths).  Validating a table of rows or a list of
    opening indices through the fast path gives what the reference loop gives
    on every input, value or exception. *)
Theorem merkle_fast_paths_equal_reference :
  (forall v name count width, _field_rows v name count width = field_rows_slow v name count width) /\
  (forall v leaf_count name, _indices v leaf_count name = indices_slow v leaf_count name).
Proof. split; [apply field_rows_eq|apply indices_eq]. Qed.

(** ** The tree as a function *)

#[export] Instance PInt_inj : Inj (=) (=) PInt.
Proof. by intros ? ? [= ->]. Qed.
#[export] Instance PBytes_inj : Inj (=) (=) PBytes.
Proof. by intros ? ? [= ->]. Qed.

Lemma encode_row w row :
  canonical_row w row -> 1 <= w <= MAX_GOLDILOCKS_MERKLE_REFERENCE_LEAF_WIDTH ->
  encode_goldilocks_merkle_leaf_reference (py_ints row) = Ok (concat (pack_Q <$> row)).
Proof.
  intros [Hz Hc] Hw. unfold encode_goldilocks_merkle_leaf_reference.
  assert (_field_row (py_ints row) "Merkle leaf" None = Ok row) as ->.
  { apply field_row_ok. split_and!; [by left|apply zlen_pos; lia|done|lia|done]. }
  cbn [mbind res_bind]. rewrite (mapR_total _ row pack_Q); [done|].
  intros v Hv. unfold goldilocks_to_bytes. rewrite Forall_forall in Hc.
  by rewrite canonical_goldilocks_int by auto.
Qed.

Lemma encode_row_inv row enc :
  encode_goldilocks_merkle_leaf_reference (py_ints row) = Ok enc ->
  enc = concat (pack_Q <$> row) /\ Forall canonical row.
Proof.
  intros H. unfold encode_goldilocks_merkle_leaf_reference in H. res_inv.
  apply field_row_ok in E as ([Hv|Hv]&_&Hc&_&_); [|done].
  injection Hv as Hv%(inj (fmap PInt)). subst a.
  rewrite (mapR_total _ row pack_Q) in E0; [by simplify_eq|].
  intros v Hv. unfold goldilocks_to_bytes. rewrite Forall_forall in Hc.
  by rewrite canonical_goldilocks_int by auto.
Qed.

Lemma concat_pack_inj r r' :
  Forall canonical r -> Forall canonical r' ->
  concat (pack_Q <$> r) = concat (pack_Q <$> r') -> r = r'.
Proof.
  intros Hr. revert r'. induction Hr as [|x r Hx Hr IH]; intros r' Hr'.
  - by destruct r'.
  - destruct Hr' as [|y r' Hy Hr'].
    + done.
    + cbn [fmap list_fmap concat]. intros [E1 E2]%app_inj_1; [|by rewrite !pack_Q_length].
      f_equal; [|by apply IH]. by apply pack_Q_inj; [apply canonical_u64..|].
Qed.

Definition bytes32 (d : bytes) : Prop := length d = 32%nat.

Section tree.
Context `{Digest} (b : bytes) (n w : Z).

(** The inputs of the three hashes. *)
Definition leaf_pre (i : Z) (row : list Z) : bytes :=
  _LEAF_DOMAIN ++ _tree_header b n w ++ pack_I i ++ concat (pack_Q <$> row).
Definition node_pre (level i : Z) (l r : bytes) : bytes :=
  _NODE_DOMAIN ++ _tree_header b n w ++ pack_I level ++ pack_I i ++ l ++ r.
Definition root_pre (raw : bytes) : bytes := _ROOT_DOMAIN ++ _tree_header b n w ++ raw.

Fixpoint parent_nodes (level i : Z) (current : list bytes) : list bytes :=
  match current with
  | l :: r :: current =>
      sha256 (node_pre level i l r) :: parent_nodes level (i + 1) current
  | _ => []
  end.

Fixpoint leaf_nodes (i : Z) (rows : list (list Z)) : list bytes :=
  match rows with
  | [] => []
  | row :: rows => sha256 (leaf_pre i row) :: leaf_nodes (i + 1) rows
  end.

Fixpoint row_at (leaves : list bytes) (level : nat) : list bytes :=
  match level with
  | O => leaves
  | S l => parent_nodes (Z.of_nat (S l)) 0 (row_at leaves l)
  end.

Lemma leaf_row_ok rows i :
  Forall (canonical_row w) rows -> 1 <= w <= MAX_GOLDILOCKS_MERKLE_REFERENCE_LEAF_WIDTH ->
  leaf_row b n w i rows = Ok (leaf_nodes i rows).
Proof.
  intros Hr Hw. revert i. induction Hr as [|row rows Hrow Hr IH]; intros i; simpl; [done|].
  unfold _leaf_hash. rewrite (encode_row w) by done. simpl. by rewrite IH.
Qed.

Lemma parent_row_ok level m i current :
  length current = (2 * m)%nat -> Forall bytes32 current ->
  parent_row b n w level i current = Ok (parent_nodes level i current).
Proof.
  revert i current. induction m as [|m IH]; intros i current Hl Hc.
  - by destruct current.
  - destruct current as [|l [|r current]]; [done|simpl in Hl; lia|].
    apply Forall_cons in Hc as [Hcl Hc]. apply Forall_cons in Hc as [Hcr Hc]. simpl.
    unfold _parent_hash. rewrite !fixed_bytes_int by done. simpl.
    rewrite IH by (done || (simpl in Hl; lia)). done.
Qed.

Lemma parent_nodes_length level i current m :
  length current = (2 * m)%nat -> length (parent_nodes level i current) = m.
Proof.
  revert i current. induction m as [|m IH]; intros i current Hl; [by destruct current|].
  destruct current as [|l [|r current]]; [done|simpl in Hl; lia|]. simpl.
  by rewrite IH by (simpl in Hl; lia).
Qed.

Lemma parent_nodes_bytes32 level i current : Forall bytes32 (parent_nodes level i current).
Proof.
  remember (length current) as m eqn:Hm. assert (length current <= m)%nat as Hle by lia. clear Hm.
  revert i current Hle. induction m as [|m IH]; intros i current Hl;
    destruct current as [|l [|r current]]; simpl; try constructor; simpl in *; try lia.
  - apply sha256_length.
  - apply IH. lia.
Qed.

Lemma parent_nodes_lookup level i current (j : nat) l r :
  current !! (2 * j)%nat = Some l -> current !! (2 * j + 1)%nat = Some r ->
  parent_nodes level i current !! j = Some (sha256 (node_pre level (i + Z.of_nat j) l r)).
Proof.
  revert i current. induction j as [|j IH]; intros i current Hl Hr.
  - destruct current as [|x [|y current]]; [done|done|]. simpl in *. simplify_eq.
    by rewrite Z.add_0_r.
  - destruct current as [|x [|y current]]; [done|by replace (2 * S j)%nat with (S (S (2 * j))) in Hl by lia|].
    replace (2 * S j)%nat with (S (S (2 * j))) in Hl by lia.
    replace (2 * S j + 1)%nat with (S (S (2 * j + 1))) in Hr by lia. simpl in Hl, Hr.
    simpl parent_nodes. cbn [lookup list_lookup]. rewrite (IH _ _ Hl Hr). do 3 f_equal. lia.
Qed.

Lemma leaf_nodes_length i rows : length (leaf_nodes i rows) = length rows.
Proof. revert i. induction rows as [|r rows IH]; intros i; simpl; [done|]. by rewrite IH. Qed.

Lemma leaf_nodes_bytes32 i rows : Forall bytes32 (leaf_nodes i rows).
Proof. revert i. induction rows; constructor; [apply sha256_length|done]. Qed.

Lemma leaf_nodes_lookup i rows (j : nat) row :
  rows !! j = Some row ->
  leaf_nodes i rows !! j = Some (sha256 (leaf_pre (i + Z.of_nat j) row)).
Proof.
  revert i j. induction rows as [|r rows IH]; intros i j Hj; [done|]. destruct j as [|j].
  - simpl in Hj. simplify_eq. by rewrite Z.add_0_r.
  - simpl in *. rewrite (IH _ _ Hj). do 3 f_equal. lia.
Qed.

Lemma row_at_length leaves k l :
  length leaves = (2 ^ k)%nat -> (l <= k)%nat -> length (row_at leaves l) = (2 ^ (k - l))%nat.
Proof.
  intros Hl. induction l as [|l IH]; intros Hk; [by rewrite Nat.sub_0_r|]. simpl.
  apply parent_nodes_length. rewrite IH by lia.
  replace (k - l)%nat with (S (k - S l)) by lia. done.
Qed.

Lemma row_at_bytes32 leaves l : Forall bytes32 leaves -> Forall bytes32 (row_at leaves l).
Proof. destruct l; [done|]. intros _. apply parent_nodes_bytes32. Qed.

Lemma build_levels_loop_ok leaves k l fuel :
  length leaves = (2 ^ k)%nat -> Forall bytes32 leaves -> (l <= k)%nat -> (k - l <= fuel)%nat ->
  build_levels_loop fuel b n w (Z.of_nat (S l)) (row_at leaves l)
  = Ok (row_at leaves <$> seq (S l) (k - l)).
Proof.
  intros Hlen Hb. revert l. induction fuel as [|fuel IH]; intros l Hl Hf.
  - assert (k = l) as -> by lia. rewrite Nat.sub_diag. simpl. unfold zlen.
    rewrite (row_at_length _ l) by (done || lia). by rewrite Nat.sub_diag.
  - unfold build_levels_loop; fold build_levels_loop. unfold zlen.
    rewrite (row_at_length _ k) by (done || lia).
    destruct (Z.ltb_spec 1 (Z.of_nat (2 ^ (k - l)))) as [Hlt|Hge].
    + assert (l < k)%nat by (destruct (decide (k = l)) as [->|]; [rewrite Nat.sub_diag in Hlt; simpl in Hlt; lia|lia]).
      rewrite (parent_row_ok _ (2 ^ (k - S l))).
      2:{ rewrite (row_at_length _ k) by (done || lia). by replace (k - l)%nat with (S (k - S l)) by lia. }
      2:{ by apply row_at_bytes32. }
      cbn [mbind res_bind].
      change (parent_nodes (Z.of_nat (S l)) 0 (row_at leaves l)) with (row_at leaves (S l)).
      replace (Z.of_nat (S l) + 1) with (Z.of_nat (S (S l))) by lia.
      rewrite IH by lia. replace (k - l)%nat with (S (k - S l)) by lia. done.
    + destruct (decide (k = l)) as [->|]; [by rewrite Nat.sub_diag|].
      pose proof (Nat.pow_le_mono_r 2 1 (k - l) ltac:(lia) ltac:(lia)) as Hp. simpl in Hp. lia.
Qed.
End tree.

(** ** Construction *)

Definition py_levels (levels : list (list bytes)) : pyval :=
  PTuple ((fun level => PTuple (PBytes <$> level)) <$> levels).

Lemma imapR_fixed name l k :
  imapR (fun node nm => _fixed_bytes node 32 nm) name l = Ok k <->
  l = PBytes <$> k /\ Forall bytes32 k.
Proof.
  unfold imapR.
  rewrite (imapR_from_ok _ (fun v => _fixed_bytes v 32 "")) by (intros; by rewrite !fixed_bytes_ok).
  rewrite mapR_Forall2. split.
  - induction 1 as [|v d l k Hv _ [-> IH]]; [by split|].
    apply fixed_bytes_ok in Hv as [-> ?]. split; [done|by constructor].
  - intros [-> HP]. apply Forall2_fmap_l, Forall_Forall2_diag.
    apply (Forall_impl _ _ _ HP). intros d ?. by apply fixed_bytes_ok.
Qed.

Lemma shiftr_pow2 (k l : nat) : (l <= k)%nat ->
  Z.shiftr (2 ^ Z.of_nat k) (Z.of_nat l) = Z.of_nat (2 ^ (k - l)).
Proof.
  intros Hl. rewrite Z.shiftr_div_pow2, <- Z.pow_sub_r by lia.
  rewrite Nat2Z.inj_pow. f_equal. lia.
Qed.

Lemma normalized_levels_loop_ok (k l : nat) levels :
  (l + length levels <= S k)%nat ->
  (forall i level, levels !! i = Some level ->
     length level = (2 ^ (k - (l + i)))%nat /\ Forall bytes32 level) ->
  normalized_levels_loop l (2 ^ Z.of_nat k) ((fun level => PTuple (PBytes <$> level)) <$> levels)
  = Ok levels.
Proof.
  revert l. induction levels as [|level levels IH]; intros l Hlen Hlev; [done|].
  destruct (Hlev 0%nat level eq_refl) as [Hl Hb]. rewrite Nat.add_0_r in Hl.
  simpl in Hlen. cbn [normalized_levels_loop fmap list_fmap].
  assert (zlen (PBytes <$> level) = Z.of_nat (2 ^ (k - l))) as Hz.
  { rewrite zlen_fmap. unfold zlen. by rewrite Hl. }
  rewrite shiftr_pow2 by lia. unfold _materialize_iterable.
  rewrite Hz, Z.ltb_irrefl. cbn [mbind res_bind]. rewrite Hz, Z.eqb_refl. cbn [negb].
  rewrite (proj2 (imapR_fixed _ _ level)) by done. cbn [mbind res_bind].
  change (list_fmap _ _ ?f levels) with (f <$> levels).
  rewrite (IH (S l)); [done|lia|].
  intros i lv Hi. destruct (Hlev (S i) lv Hi) as [H1 H2]. split; [|done].
  rewrite H1. f_equal. lia.
Qed.

Section construction.
Context `{Digest}.

(** The tree of a table of [2 ^ k] rows. *)
Definition tree_of (b : bytes) (w : Z) (k : nat) (rows : list (list Z))
    : GoldilocksMerkleTreeReference :=
  let n := zlen rows in
  let leaves := leaf_nodes b n w 0 rows in
  MkTree b n w (sha256 (root_pre b n w (default [] (row_at b n w leaves k !! 0%nat)))) rows
    (row_at b n w leaves <$> seq 0 (S k)).

Record valid_table (b : bytes) (w : Z) (k : nat) (rows : list (list Z)) : Prop := {
  vt_binding : bytes32 b;
  vt_rows : valid_rows w rows;
  vt_count : length rows = (2 ^ k)%nat;
}.

Lemma valid_table_zlen b w k rows : valid_table b w k rows -> zlen rows = 2 ^ Z.of_nat k.
Proof. intros [_ _ Hc]. unfold zlen. by rewrite Hc, Nat2Z.inj_pow. Qed.

Lemma valid_table_k b w k rows : valid_table b w k rows -> (k <= 21)%nat.
Proof.
  intros Hv. pose proof (valid_table_zlen _ _ _ _ Hv) as Hz. destruct Hv as [_ [_ _ Hw Ht] _].
  rewrite Hz in Ht. change MAX_GOLDILOCKS_MERKLE_REFERENCE_FIELD_VALUES with (2 ^ 21) in Ht.
  apply Nat2Z.inj_le, (Z.pow_le_mono_r_iff 2); [lia|lia|]. nia.
Qed.

Lemma valid_table_count b w k rows : valid_table b w k rows -> valid_leaf_count (zlen rows).
Proof.
  intros Hv. exists k. split; [|by eapply valid_table_zlen].
  apply valid_table_k in Hv. lia.
Qed.

Lemma leaves_length b w k rows n :
  valid_table b w k rows -> length (leaf_nodes b n w 0 rows) = (2 ^ k)%nat.
Proof. intros [_ _ Hc]. by rewrite leaf_nodes_length. Qed.

Lemma tree_levels_lookup b w k rows l level :
  valid_table b w k rows -> mt_levels (tree_of b w k rows) !! l = Some level ->
  length level = (2 ^ (k - l))%nat /\ Forall bytes32 level.
Proof.
  intros Hv Hl. unfold tree_of in Hl. cbn [mt_levels] in Hl.
  apply list_lookup_fmap_Some in Hl as (i&->&[-> Hi]%lookup_seq). split.
  - apply row_at_length; [by eapply leaves_length|lia].
  - apply row_at_bytes32, leaf_nodes_bytes32.
Qed.

Lemma build_levels_ok b w k rows :
  valid_table b w k rows ->
  _build_levels b rows w = Ok (mt_levels (tree_of b w k rows)).
Proof.
  intros Hv. unfold _build_levels. rewrite leaf_row_ok by apply Hv.
  cbn [mbind res_bind]. set (leaves := leaf_nodes _ _ _ _ _).
  pose proof (leaves_length b w k rows (zlen rows) Hv) as Hlen.
  assert (Forall bytes32 leaves) as Hb by apply leaf_nodes_bytes32.
  pose proof (build_levels_loop_ok b (zlen rows) w leaves k 0 (length rows) Hlen Hb) as Hloop.
  simpl row_at in Hloop. change (Z.of_nat 1) with 1 in Hloop.
  rewrite Hloop; [by rewrite Nat.sub_0_r|lia|].
  rewrite (vt_count _ _ _ _ Hv). pose proof (Nat.pow_gt_lin_r 2 k). lia.
Qed.

Lemma raw_root_ok b w k rows :
  valid_table b w k rows ->
  exists root, raw_root (mt_levels (tree_of b w k rows)) = Ok root /\ bytes32 root /\
    row_at b (zlen rows) w (leaf_nodes b (zlen rows) w 0 rows) k !! 0%nat = Some root.
Proof.
  intros Hv. set (row := row_at b (zlen rows) w (leaf_nodes b (zlen rows) w 0 rows)).
  assert (length (row k) = 1%nat) as Hl.
  { unfold row. rewrite (row_at_length _ _ _ _ k k) by (by apply leaves_length || lia).
    by rewrite Nat.sub_diag. }
  assert (Forall bytes32 (row k)) as Hb by apply row_at_bytes32, leaf_nodes_bytes32.
  destruct (row k) as [|root [|]] eqn:E; try done. exists root.
  apply Forall_cons in Hb as [Hb _]. split_and!; [|done|done]. unfold raw_root.
  change (mt_levels (tree_of b w k rows)) with (row <$> seq 0 (S k)).
  rewrite seq_S, fmap_app. cbn [fmap list_fmap]. by rewrite last_snoc, Nat.add_0_l, E.
Qed.

Lemma commitment_hash_ok b n w root :
  bytes32 root -> _commitment_hash b n w root = Ok (sha256 (root_pre b n w root)).
Proof. intros. unfold _commitment_hash. by rewrite fixed_bytes_int. Qed.

Lemma tree_new_ok b w k rows :
  valid_table b w k rows ->
  let T := tree_of b w k rows in
  GoldilocksMerkleTreeReference_new (PBytes b) (PInt (zlen rows)) (PInt w)
    (PBytes (mt_commitment T)) (py_rows rows) (py_levels (mt_levels T)) = Ok T.
Proof.
  intros Hv T. unfold GoldilocksMerkleTreeReference_new, _binding_digest.
  rewrite (fixed_bytes_int b) by apply Hv. cbn [mbind res_bind].
  rewrite (proj2 (leaf_count_ok _ _ (zlen rows))) by (split; [done|by eapply valid_table_count]).
  cbn [mbind res_bind].
  rewrite (proj2 (leaf_width_ok _ _ w)) by (split; [done|apply Hv]). cbn [mbind res_bind].
  rewrite (field_rows_py_rows rows _ _ _ w); [|apply Hv|by intros ? [= <-]..].
  cbn [mbind res_bind].
  assert (_normalized_levels (py_levels (mt_levels T)) (zlen rows) = Ok (mt_levels T)) as ->.
  { unfold _normalized_levels. rewrite (valid_table_zlen _ _ _ _ Hv), height_pow2.
    assert (zlen (mt_levels T) = Z.of_nat k + 1) as Hz.
    { unfold zlen, T, tree_of. cbn [mt_levels]. rewrite length_fmap, length_seq. lia. }
    unfold py_levels, _materialize_iterable. rewrite zlen_fmap, Hz, Z.ltb_irrefl.
    cbn [mbind res_bind]. rewrite zlen_fmap, Hz, Z.eqb_refl. cbn [negb].
    apply (normalized_levels_loop_ok k 0).
    - unfold zlen in Hz. lia.
    - intros i level Hi. simpl Nat.add. by eapply tree_levels_lookup. }
  cbn [mbind res_bind]. rewrite (build_levels_ok b w k rows) by done. cbn [mbind res_bind].
  rewrite bool_decide_eq_true_2 by done. cbn [negb].
  rewrite fixed_bytes_int by apply sha256_length. cbn [mbind res_bind].
  destruct (raw_root_ok b w k rows Hv) as (root&Hrr&Hb&Hroot). fold T in Hrr. rewrite Hrr. cbn [mbind res_bind].
  rewrite commitment_hash_ok by done. cbn [mbind res_bind].
  rewrite bool_decide_eq_true_2; [done|]. unfold T, tree_of. cbn [mt_commitment]. by rewrite Hroot.
Qed.

Definition denotes_rows (v : pyval) (rows : list (list Z)) : Prop :=
  exists vs, (v = PTuple vs \/ v = PList vs) /\ rows_of vs rows.

Lemma valid_rows_head w rows : valid_rows w rows -> zlen (default [] (head rows)) = w.
Proof. intros [Hne Hr _ _]. destruct rows as [|r rows]; [done|]. by apply Forall_cons in Hr as [[? _] _]. Qed.

Lemma from_rows_ok v bv T :
  from_rows v bv = Ok T <->
  exists b rows w k, bv = PBytes b /\ denotes_rows v rows /\ valid_table b w k rows
                     /\ T = tree_of b w k rows.
Proof.
  unfold from_rows. split.
  - intros HT. res_inv. apply field_rows_ok in E as (vs&w&Hv&Hvs&Hrows&_&_).
    rewrite (valid_rows_head w) in E1 by done.
    apply leaf_count_ok in E0 as [[= <-] (k&Hk&Hz)]. apply leaf_width_ok in E1 as [[= <-] Hw].
    apply fixed_bytes_ok in E2 as [-> Hb].
    assert (valid_table a2 w k a) as Hvt.
    { split; [done|done|]. apply Nat2Z.inj. by rewrite Nat2Z.inj_pow. }
    exists a2, a, w, k. split_and!; [done|by exists vs|done|].
    assert (a3 = mt_levels (tree_of a2 w k a)) as -> by (pose proof (build_levels_ok a2 w k a Hvt); congruence).
    destruct (raw_root_ok a2 w k a Hvt) as (root&Hrr&Hr32&Hroot).
    assert (a4 = root) as -> by congruence.
    rewrite commitment_hash_ok in E5 by done. injection E5 as <-.
    assert (sha256 (root_pre a2 (zlen a) w root) = mt_commitment (tree_of a2 w k a)) as Hc.
    { unfold tree_of. cbn [mt_commitment]. by rewrite Hroot. }
    rewrite Hc in HT. pose proof (tree_new_ok a2 w k a Hvt) as Hnew. unfold py_levels in Hnew.
    cbv zeta in Hnew. rewrite Hnew in HT. by injection HT.
  - intros (b&rows&w&k&->&(vs&Hv&Hvs)&Hvt&->).
    rewrite (proj2 (field_rows_ok _ _ _ _ rows)); [|exists vs, w; split_and!; [done|done|apply Hvt|done|done]].
    cbn [mbind res_bind].
    rewrite (proj2 (leaf_count_ok _ _ (zlen rows))) by (split; [done|by eapply valid_table_count]).
    cbn [mbind res_bind]. rewrite (valid_rows_head w) by apply Hvt.
    rewrite (proj2 (leaf_width_ok _ _ w)) by (split; [done|apply Hvt]). cbn [mbind res_bind].
    unfold _binding_digest. rewrite (fixed_bytes_int b) by apply Hvt. cbn [mbind res_bind].
    rewrite (build_levels_ok b w k rows) by done. cbn [mbind res_bind].
    destruct (raw_root_ok b w k rows Hvt) as (root&Hrr&Hr32&Hroot). rewrite Hrr. cbn [mbind res_bind].
    rewrite commitment_hash_ok by done. cbn [mbind res_bind].
    pose proof (tree_new_ok b w k rows Hvt) as Hnew. unfold py_levels in Hnew. cbv zeta in Hnew.
    rewrite <- Hnew. do 2 f_equal. unfold tree_of. cbn [mt_commitment]. by rewrite Hroot.
Qed.

(** *** Nodes *)

Definition node (b : bytes) (w : Z) (rows : list (list Z)) (l : nat) (i : Z) : bytes :=
  default [] (row_at b (zlen rows) w (leaf_nodes b (zlen rows) w 0 rows) l !! Z.to_nat i).

Section nodes.
Context (b : bytes) (w : Z) (k : nat) (rows : list (list Z)) (Hv : valid_table b w k rows).
Let n := zlen rows.

Lemma node_lookup l i :
  (l <= k)%nat -> 0 <= i < 2 ^ Z.of_nat (k - l) ->
  row_at b n w (leaf_nodes b n w 0 rows) l !! Z.to_nat i = Some (node b w rows l i).
Proof.
  intros Hl Hi. unfold node. fold n. destruct (_ !! _) eqn:E; [done|].
  apply lookup_ge_None in E.
  rewrite (row_at_length _ _ _ _ k) in E by (by apply leaves_length || done).
  apply Nat2Z.inj_le in E. rewrite Nat2Z.inj_pow in E. lia.
Qed.

Lemma node_bytes32 l i :
  (l <= k)%nat -> 0 <= i < 2 ^ Z.of_nat (k - l) -> bytes32 (node b w rows l i).
Proof.
  intros Hl Hi. pose proof (node_lookup l i Hl Hi) as E.
  eapply Forall_lookup_1; [|exact E]. apply row_at_bytes32, leaf_nodes_bytes32.
Qed.

Lemma node_leaf i row :
  0 <= i -> rows !! Z.to_nat i = Some row -> node b w rows 0 i = sha256 (leaf_pre b n w i row).
Proof.
  intros Hi Hr. unfold node. fold n. simpl row_at. rewrite (leaf_nodes_lookup _ _ _ _ _ _ _ Hr).
  simpl. by rewrite Z2Nat.id.
Qed.

Lemma node_inner l i :
  (S l <= k)%nat -> 0 <= i < 2 ^ Z.of_nat (k - S l) ->
  node b w rows (S l) i
  = sha256 (node_pre b n w (Z.of_nat (S l)) i (node b w rows l (2 * i)) (node b w rows l (2 * i + 1))).
Proof.
  intros Hl Hi. replace (k - l)%nat with (S (k - S l)) in * by lia.
  assert (2 ^ Z.of_nat (k - l) = 2 * 2 ^ Z.of_nat (k - S l)) as Hp.
  { replace (k - l)%nat with (S (k - S l)) by lia. by rewrite Nat2Z.inj_succ, Z.pow_succ_r by lia. }
  unfold node at 1. fold n. simpl row_at.
  rewrite (parent_nodes_lookup _ _ _ _ _ _ _ (node b w rows l (2 * i)) (node b w rows l (2 * i + 1))).
  - simpl. by rewrite Z2Nat.id by lia.
  - rewrite <- (node_lookup l (2 * i)) by lia. f_equal. lia.
  - rewrite <- (node_lookup l (2 * i + 1)) by lia. f_equal. lia.
Qed.

Lemma node_at_ok l i :
  0 <= l <= Z.of_nat k -> 0 <= i < 2 ^ Z.of_nat (k - Z.to_nat l) ->
  node_at (mt_levels (tree_of b w k rows)) l i = Ok (node b w rows (Z.to_nat l) i).
Proof.
  intros Hl Hi. unfold node_at, tree_of. cbn [mt_levels].
  rewrite list_lookup_fmap, lookup_seq_lt by lia. cbn [fmap option_fmap option_map mbind option_bind].
  fold n. by rewrite Nat.add_0_l, node_lookup by lia.
Qed.
End nodes.
End construction.
