(* ===== verification/Multiopen.v ===== *)
(** * The compiled Merkle reconstruction ([c_multiopen.c], [c_multiopen.py])

    The C functions that the verifier of [Merkle] calls when a compiler is
    available, and the ctypes wrappers that pack their arguments.  An array of
    (index, digest) entries, [work_idx] and [work_dig] in the C code, is a list.
    The C function [sha256] (OpenSSL's, or the portable one of the file) is the
    function of the class [Digest], which [hashlib.sha256] is an instance of.
    Reads outside the arrays do not occur: the callers pass one row per index
    and 32 bytes per sibling. *)

From Stdlib Require Import ZArith Lia.
From stdpp Require Import base gmap list strings sorting.
From coqutil Require Import Word.LittleEndianList.
From S2P Require Import Prelude Sha256 Field Merkle.

Local Open Scope Z_scope.

(** [l], [m] elements at a time. *)
Fixpoint chunks_of {A} (fuel m : nat) (l : list A) : list (list A) :=
  match fuel with
  | O => []
  | S fuel => match l with [] => [] | _ => take m l :: chunks_of fuel m (drop m l) end
  end.

(** An entry of the work arrays, and a sibling: level, index, digest. *)
Notation entry := (Z * bytes)%type.
Notation sibling_node := (Z * Z * bytes)%type.

(** [sizeof(msg)] *)
Definition MSG_SIZE : Z := 448.

(** [int64_t] loops that halve their variable run at most this often. *)
Definition INT64_HALVINGS : nat := 64.

(** ** [sibling_coordinates] *)

(** The partners that are not active, each active index looking at its two
    neighbours; [previous] is [cur[i-1]]. *)
Fixpoint partners (previous : option Z) (cur : list Z) : list Z :=
  match cur with
  | [] => []
  | x :: rest =>
      let partner := Z.lxor x 1 in
      let have := bool_decide (previous = Some partner) || bool_decide (head rest = Some partner) in
      if have then partners (Some x) rest else partner :: partners (Some x) rest
  end.

(** The parents without repetition; [last] is [cur[m-1]]. *)
Fixpoint dedupe_parents (last : option Z) (cur : list Z) : list Z :=
  match cur with
  | [] => []
  | x :: rest =>
      let parent := Z.shiftr x 1 in
      if bool_decide (last = Some parent) then dedupe_parents last rest
      else parent :: dedupe_parents (Some parent) rest
  end.

(** [while (size > 1)] *)
Fixpoint coordinates_loop (fuel : nat) (size level : Z) (cur : list Z) : list (Z * Z) :=
  match fuel with
  | O => []
  | S fuel =>
      if size <=? 1 then []
      else (pair level <$> partners None cur)
           ++ coordinates_loop fuel (Z.shiftr size 1) (level + 1) (dedupe_parents None cur)
  end.

(** The wrapper gives the C code room for [64 * k + 8] coordinates. *)
Definition sibling_coordinates (leaf_count : Z) (indices : list Z) : option (list (Z * Z)) :=
  let cap := zlen indices * 64 + 8 in
  let coordinates := coordinates_loop INT64_HALVINGS leaf_count 0 indices in
  if cap <? zlen coordinates then None else Some coordinates.

Section Multiopen.
Context `{Digest}.

(** ** [reconstruct_multiopen_wn] *)

(** The loop over the leaves. *)
Fixpoint leaf_entries (leaf_prefix : bytes) (width : nat) (indices values : list Z) : list entry :=
  match indices with
  | [] => []
  | index :: indices =>
      (index, sha256 (leaf_prefix ++ pack_I index ++ concat (pack_Q <$> take width values)))
        :: leaf_entries leaf_prefix width indices (drop width values)
  end.

(** [while (pos > 0 && work_idx[pos-1] > sidx)]: shift entries up from the end,
    so the array is read backwards. *)
Fixpoint shift_up (sidx : Z) (digest : bytes) (backwards : list entry) : list entry :=
  match backwards with
  | [] => [(sidx, digest)]
  | (i, d) :: rest =>
      if sidx <? i then (i, d) :: shift_up sidx digest rest else (sidx, digest) :: (i, d) :: rest
  end.

Definition insert_entry (sidx : Z) (digest : bytes) (work : list entry) : list entry :=
  reverse (shift_up sidx digest (reverse work)).

(** [while (sib_off < n_sib && sib_levels[sib_off] == level)]; the siblings not
    yet consumed stand for [sib_off]. *)
Fixpoint merge_siblings (level : Z) (siblings : list sibling_node) (work : list entry)
    : list entry * list sibling_node :=
  match siblings with
  | (l, i, d) :: rest =>
      if l =? level then merge_siblings level rest (insert_entry i d work) else (work, siblings)
  | [] => (work, [])
  end.

(** Every parent needs both children; [None] is the return with code 2. *)
Fixpoint pair_up (node_prefix : bytes) (level : Z) (work : list entry) : option (list entry) :=
  match work with
  | [] => Some []
  | [_] => None
  | (i, l) :: (j, r) :: rest =>
      if negb (j =? i + 1) || negb (Z.land i 1 =? 0) then None
      else
        let parent := Z.shiftr i 1 in
        let out := sha256 (node_prefix ++ pack_I (level + 1) ++ pack_I parent ++ l ++ r) in
        parents ← pair_up node_prefix level rest;
        Some ((parent, out) :: parents)
  end.

(** [while (level_size > 1)] *)
Fixpoint reduce_loop (fuel : nat) (node_prefix : bytes) (level_size level : Z)
    (siblings : list sibling_node) (work : list entry) : option (list entry * list sibling_node) :=
  match fuel with
  | O => Some (work, siblings)
  | S fuel =>
      if level_size <=? 1 then Some (work, siblings)
      else
        let '(work, siblings) := merge_siblings level siblings work in
        work ← pair_up node_prefix level work;
        reduce_loop fuel node_prefix (Z.shiftr level_size 1) (level + 1) siblings work
  end.

(** The raw root, or the error code. *)
Definition reconstruct_multiopen_wn (leaf_prefix node_prefix : bytes) (leaf_count : Z)
    (indices values : list Z) (width : Z) (siblings : list sibling_node) : bytes + Z :=
  if (width <? 1) || (MSG_SIZE <? zlen leaf_prefix + 4 + 8 * width) then inr 4
  else
    match reduce_loop INT64_HALVINGS node_prefix leaf_count 0 siblings
            (leaf_entries leaf_prefix (Z.to_nat width) indices values) with
    | None => inr 2
    | Some ([(index, root)], []) => if index =? 0 then inl root else inr 3
    | Some _ => inr 3
    end.

Definition reconstruct_multiopen_w1 (leaf_prefix node_prefix : bytes) (leaf_count : Z)
    (indices values : list Z) (siblings : list sibling_node) : bytes + Z :=
  reconstruct_multiopen_wn leaf_prefix node_prefix leaf_count indices values 1 siblings.

(** ** The wrappers *)

(** [array.array("Q", values)] *)
Definition u64_array (values : list Z) : res (list Z) :=
  if forallb (fun v => (0 <=? v) && (v <? Z.shiftl 1 64)) values then Ok values
  else raise OverflowError "int too big to convert".

Definition sibling_nodes (sib_levels sib_indices : list Z) (sib_digests : bytes) : list sibling_node :=
  zip (zip sib_levels sib_indices) (chunks_of (length sib_digests) 32 sib_digests).

Definition reconstruct_wn (leaf_prefix node_prefix : bytes) (leaf_count : Z) (indices values : list Z)
    (leaf_width : Z) (sib_levels sib_indices : list Z) (sib_digests : bytes) : res (option (bytes + Z)) :=
  if negb (zlen values =? zlen indices * leaf_width) then Ok None
  else
    values ← u64_array values;
    Ok (Some (reconstruct_multiopen_wn leaf_prefix node_prefix leaf_count indices values leaf_width
                (sibling_nodes sib_levels sib_indices sib_digests))).

Definition reconstruct_w1 (leaf_prefix node_prefix : bytes) (leaf_count : Z) (indices values : list Z)
    (sib_levels sib_indices : list Z) (sib_digests : bytes) : res (option (bytes + Z)) :=
  values ← u64_array values;
  Ok (Some (reconstruct_multiopen_w1 leaf_prefix node_prefix leaf_count indices values
              (sibling_nodes sib_levels sib_indices sib_digests))).

(** The machine with a compiler. *)
Definition compiled_backend : MultiopenBackend :=
  {| c_sibling_coordinates := sibling_coordinates;
     c_reconstruct_w1 := reconstruct_w1;
     c_reconstruct_wn := reconstruct_wn |}.
End Multiopen.
