(* ===== verification/MerkleBinding.v ===== *)
(** * Openings of the Goldilocks Merkle trees

    The interface of the backend, the verifier's reconstruction loop, and what
    its acceptance means: an opening that a tree produces is accepted against
    the tree's commitment, and an accepted opening shows the committed rows
    unless it exhibits a second preimage of an input the tree hashed. *)

From Stdlib Require Import ZArith Lia.
From stdpp Require Import base gmap list strings sorting.
From coqutil Require Import Word.LittleEndianList.
From S2P Require Import Prelude Sha256 Field Merkle MerkleTheory.

Local Open Scope Z_scope.

(** ** The sibling schedule *)

Lemma sibling_involutive i : sibling (sibling i) = i.
Proof. unfold sibling. by rewrite Z.lxor_assoc, Z.lxor_nilpotent, Z.lxor_0_r. Qed.

#[export] Instance sibling_inj : Inj (=) (=) sibling.
Proof. intros x y E. by rewrite <- (sibling_involutive x), E, sibling_involutive. Qed.

(** [i ^ 1] is the other child of [i // 2]. *)
Lemma sibling_cases i :
  (i = 2 * parent i /\ sibling i = 2 * parent i + 1) \/
  (i = 2 * parent i + 1 /\ sibling i = 2 * parent i).
Proof.
  unfold parent, sibling. pose proof (Z.div_mod i 2 ltac:(lia)) as Hd.
  pose proof (Z.mod_pos_bound i 2 ltac:(lia)).
  assert (forall q, Z.lxor (2 * q) 1 = 2 * q + 1) as Hx.
  { intros q. apply Z.bits_inj_iff. intros j.
    destruct (Z.lt_trichotomy j 0) as [?|[->|?]]; [by rewrite !Z.testbit_neg_r by lia| |].
    - rewrite Z.lxor_spec, Z.testbit_even_0, Z.testbit_odd_0. done.
    - replace j with (Z.succ (j - 1)) by lia.
      rewrite Z.lxor_spec, Z.testbit_even_succ, Z.testbit_odd_succ by lia.
      rewrite (Z.bits_above_log2 1) by (simpl; lia). by rewrite xorb_false_r. }
  destruct (decide (i mod 2 = 0)) as [E|E].
  - left. replace (i / 2) with (i / 2) by done. split; [lia|]. rewrite Hd, E, Z.add_0_r at 1. apply Hx.
  - right. assert (i = 2 * (i / 2) + 1) as Hi by lia. split; [done|].
    rewrite Hi at 1. rewrite <- Hx, Z.lxor_assoc, Z.lxor_nilpotent. apply Z.lxor_0_r.
Qed.

Lemma elem_of_missing_siblings i cur :
  i ∈ missing_siblings cur <-> sibling i ∈ cur /\ i ∉ cur.
Proof.
  unfold missing_siblings. rewrite merge_sort_Permutation, elem_of_elements, elem_of_filter, elem_of_map.
  split.
  - intros [Hn (j&->&Hj)]. by rewrite sibling_involutive.
  - intros [Hs Hn]. split; [done|]. exists (sibling i). by rewrite sibling_involutive.
Qed.

Lemma at_level_app l xs ys : at_level l (xs ++ ys) = at_level l xs ++ at_level l ys.
Proof. unfold at_level. by rewrite filter_app, fmap_app. Qed.

Lemma at_level_pair l xs : at_level l (pair l <$> xs) = xs.
Proof.
  unfold at_level. induction xs as [|x xs IH]; [done|]. cbn [fmap list_fmap].
  rewrite filter_cons_True by done. cbn [fmap list_fmap snd]. by f_equal.
Qed.

Lemma at_level_other l (coords : list (Z * Z)) :
  Forall (fun c => c.1 <> l) coords -> at_level l coords = [].
Proof.
  intros Hc. unfold at_level. induction Hc as [|c cs Hc _ IH]; [done|].
  by rewrite filter_cons_False.
Qed.

Lemma schedule_levels m l cur :
  Forall (fun c => l <= c.1 < l + Z.of_nat m) (sibling_schedule m l cur).
Proof.
  revert l cur. induction m as [|m IH]; intros l cur; simpl; [constructor|].
  apply Forall_app. split.
  - apply Forall_fmap, Forall_forall. intros x _. simpl. lia.
  - eapply Forall_impl; [apply IH|]. simpl. intros. lia.
Qed.

(** The schedule splits at each level into what was consumed and what remains. *)
Lemma at_level_schedule pre m l cur :
  Forall (fun c => c.1 < l) pre ->
  at_level l (pre ++ sibling_schedule (S m) l cur) = missing_siblings cur.
Proof.
  intros Hpre. simpl. rewrite !at_level_app, at_level_pair.
  rewrite (at_level_other l pre) by (eapply Forall_impl; [exact Hpre|simpl; lia]).
  rewrite (at_level_other l (sibling_schedule _ _ _)).
  - by rewrite app_nil_r.
  - eapply Forall_impl; [apply schedule_levels|]. simpl. lia.
Qed.

Lemma parent_bound i (m : nat) : 0 <= i < 2 ^ Z.of_nat (S m) -> 0 <= parent i < 2 ^ Z.of_nat m.
Proof.
  intros Hi. rewrite Nat2Z.inj_succ, Z.pow_succ_r in Hi by lia. unfold parent.
  split; [apply Z.div_pos; lia|]. apply Z.div_lt_upper_bound; lia.
Qed.

Lemma sibling_bound i (m : nat) : 0 <= i < 2 ^ Z.of_nat (S m) -> 0 <= sibling i < 2 ^ Z.of_nat (S m).
Proof.
  intros Hi. pose proof (parent_bound i m Hi) as Hp. rewrite Nat2Z.inj_succ, Z.pow_succ_r in * by lia.
  destruct (sibling_cases i) as [[? ->]|[? ->]]; lia.
Qed.

(** [below m s]: every index of [s] is a node of a row of [2 ^ m]. *)
Definition below (m : nat) (s : gset Z) : Prop := forall i, i ∈ s -> 0 <= i < 2 ^ Z.of_nat m.

Lemma below_parents m s : below (S m) s -> below m (set_map parent s).
Proof. intros Hs i (j&->&Hj)%elem_of_map. by apply parent_bound, Hs. Qed.

(** ** The steps of the loop *)

Lemma insert_siblings_inv xs cur ds cur' rest :
  insert_siblings cur xs ds = Ok (cur', rest) ->
  dom cur' = dom cur ∪ list_to_set xs /\
  (forall i, i ∉ xs -> cur' !! i = cur !! i) /\
  exists used, ds = used ++ rest /\ length used = length xs /\
    forall i d, cur' !! i = Some d -> d ∈ used \/ cur !! i = Some d.
Proof.
  revert cur ds. induction xs as [|x xs IH]; intros cur ds Hi; simpl in Hi.
  { injection Hi as -> ->. split; [set_solver|]. split; [done|]. exists []. split_and!; auto. }
  destruct ds as [|d ds]; [discriminate|]. apply IH in Hi as (Hd&Hc&used&->&Hl&Hu).
  split; [|split].
  - rewrite Hd, dom_insert_L. set_solver.
  - intros i Hi. rewrite Hc by set_solver. apply lookup_insert_ne. set_solver.
  - exists (d :: used). split_and!; [done|simpl; by rewrite Hl|].
    intros i d' [?|Hl']%Hu; [left; set_solver|].
    apply lookup_insert_Some in Hl' as [[-> ->]|[_ ?]]; [left; set_solver|by right].
Qed.

Lemma insert_siblings_total xs f cur rest :
  exists cur', insert_siblings cur xs ((f <$> xs) ++ rest) = Ok (cur', rest) /\
    (forall i, i ∈ xs -> cur' !! i = Some (f i)) /\ (forall i, i ∉ xs -> cur' !! i = cur !! i).
Proof.
  revert cur. induction xs as [|x xs IH]; intros cur.
  { exists cur. split_and!; [done|set_solver|done]. }
  cbn [insert_siblings fmap list_fmap app]. change (list_fmap _ _ f xs) with (f <$> xs).
  destruct (IH (<[x:=f x]> cur)) as (cur'&->&Hin&Hout). exists cur'. split_and!; [done| |].
  - intros i [->|Hi]%elem_of_cons; [|by apply Hin].
    destruct (decide (x ∈ xs)); [by apply Hin|]. rewrite Hout by done. by rewrite lookup_insert_eq.
  - intros i [Hne Hi]%not_elem_of_cons. rewrite Hout by done. by apply lookup_insert_ne.
Qed.

Section loop.
Context `{Digest} (np : bytes).

Lemma parents_loop_inv l cur ps acc out :
  parents_loop np l cur ps acc = Ok out ->
  dom out = dom acc ∪ list_to_set ps /\
  (forall p, p ∉ ps -> out !! p = acc !! p) /\
  forall p, p ∈ ps -> exists x y, cur !! (p * 2) = Some x /\ cur !! (p * 2 + 1) = Some y /\
    out !! p = Some (sha256 (np ++ pack_I (l + 1) ++ pack_I p ++ x ++ y)).
Proof.
  revert acc. induction ps as [|p ps IH]; intros acc Hp; simpl in Hp.
  { injection Hp as ->. split_and!; [set_solver|done|set_solver]. }
  destruct (cur !! (p * 2)) as [x|] eqn:Ex; [|discriminate].
  destruct (cur !! (p * 2 + 1)) as [y|] eqn:Ey; [|discriminate].
  apply IH in Hp as (Hd&Hout&Hin). split_and!.
  - rewrite Hd, dom_insert_L. set_solver.
  - intros q [Hne Hq]%not_elem_of_cons. rewrite Hout by done. by apply lookup_insert_ne.
  - intros q Hq. destruct (decide (q ∈ ps)) as [|Hn]; [by apply Hin|].
    apply elem_of_cons in Hq as [->|]; [|done]. exists x, y. split_and!; [done|done|].
    rewrite Hout by done. by rewrite lookup_insert_eq.
Qed.

Lemma parents_loop_total l cur ps acc :
  (forall p, p ∈ ps -> is_Some (cur !! (p * 2)) /\ is_Some (cur !! (p * 2 + 1))) ->
  exists out, parents_loop np l cur ps acc = Ok out.
Proof.
  revert acc. induction ps as [|p ps IH]; intros acc Hp; simpl; [by eexists|].
  destruct (Hp p) as [[x ->] [y ->]]; [set_solver|]. apply IH. set_solver.
Qed.
End loop.

(** ** The loop over a committed tree *)

Lemma elem_of_sorted (p : Z) (s : gset Z) : p ∈ merge_sort Z.le (elements s) <-> p ∈ s.
Proof. by rewrite merge_sort_Permutation, elem_of_elements. Qed.

Lemma below_zero_singleton s : below 0 s -> s <> ∅ -> s = {[0]}.
Proof.
  intros Hs Hne. apply set_choose_L in Hne as [i Hi].
  assert (forall j, j ∈ s -> j = 0) as H0 by (intros j Hj%Hs; simpl in Hj; lia).
  apply set_eq. intros j. rewrite elem_of_singleton. split; [apply H0|].
  intros ->. by rewrite <- (H0 i).
Qed.

Section committed.
Context `{Digest} (b : bytes) (w : Z) (k : nat) (rows : list (list Z)).
Context (Hv : valid_table b w k rows).
Let n := zlen rows.
Let np := _NODE_DOMAIN ++ _tree_header b n w.
Let node := node b w rows.

(** The strings hashed by the honest committer. *)
Definition node_inputs : list bytes :=
  mjoin ((fun l : nat =>
    (fun i => node_pre b n w (Z.of_nat (S l)) i (node l (2 * i)) (node l (2 * i + 1)))
      <$> seqZ 0 (2 ^ Z.of_nat (k - S l))) <$> seq 0 k).
Definition leaf_inputs : list bytes := imap (fun i row => leaf_pre b n w (Z.of_nat i) row) rows.
Definition tree_inputs : list bytes := root_pre b n w (node k 0) :: leaf_inputs ++ node_inputs.

Lemma node_input l i :
  (S l <= k)%nat -> 0 <= i < 2 ^ Z.of_nat (k - S l) ->
  node_pre b n w (Z.of_nat (S l)) i (node l (2 * i)) (node l (2 * i + 1)) ∈ tree_inputs.
Proof.
  intros Hl Hi. apply elem_of_cons; right. apply elem_of_app; right.
  apply list_elem_of_join. eexists. split; [|apply list_elem_of_fmap; exists l; split; [done|]].
  - apply list_elem_of_fmap. exists i. split; [done|]. apply elem_of_seqZ. lia.
  - apply elem_of_seq. lia.
Qed.

Lemma leaf_input (i : nat) row :
  rows !! i = Some row -> leaf_pre b n w (Z.of_nat i) row ∈ tree_inputs.
Proof.
  intros Hi. apply elem_of_cons; right. apply elem_of_app; left.
  apply elem_of_lookup_imap. by exists i, row.
Qed.

Lemma root_input : root_pre b n w (node k 0) ∈ tree_inputs.
Proof. apply elem_of_cons. by left. Qed.

Lemma children_bound l p :
  (S l <= k)%nat -> 0 <= p < 2 ^ Z.of_nat (k - S l) ->
  0 <= 2 * p < 2 ^ Z.of_nat (k - l) /\ 0 <= 2 * p + 1 < 2 ^ Z.of_nat (k - l).
Proof.
  intros Hl Hp. replace (k - l)%nat with (S (k - S l)) by lia.
  rewrite Nat2Z.inj_succ, Z.pow_succ_r by lia. lia.
Qed.

Lemma node_input_eq l p x y :
  np ++ pack_I (Z.of_nat l + 1) ++ pack_I p ++ x ++ y = node_pre b n w (Z.of_nat (S l)) p x y.
Proof.
  unfold np, node_pre. replace (Z.of_nat l + 1) with (Z.of_nat (S l)) by lia.
  by rewrite <- app_assoc.
Qed.

Definition agrees (l : nat) (cur : gmap Z bytes) : Prop := map_Forall (fun i d => d = node l i) cur.

Definition honest_digests (coords : list (Z * Z)) : list bytes :=
  (fun c => node (Z.to_nat c.1) c.2) <$> coords.

Lemma honest_digests_level l xs :
  honest_digests (pair (Z.of_nat l) <$> xs) = node l <$> xs.
Proof.
  unfold honest_digests. rewrite <- list_fmap_compose. apply list_fmap_ext.
  intros _ x _. simpl. by rewrite Nat2Z.id.
Qed.

(** One level of the honest run. *)
Lemma honest_level l m cur cur' :
  (l + S m = k)%nat -> below (S m) (dom cur) -> agrees l cur ->
  (forall i, i ∈ missing_siblings (dom cur) -> cur' !! i = Some (node l i)) ->
  (forall i, i ∉ missing_siblings (dom cur) -> cur' !! i = cur !! i) ->
  exists parents,
    parents_loop np (Z.of_nat l) cur'
      (merge_sort Z.le (elements (set_map parent (dom cur) : gset Z))) ∅ = Ok parents
    /\ dom parents = set_map parent (dom cur) /\ agrees (S l) parents.
Proof.
  intros Hlm Hb Ha Hin Hout.
  assert (forall i, i ∈ dom cur -> cur' !! i = Some (node l i)) as Hcur.
  { intros i Hi. rewrite Hout by (rewrite elem_of_missing_siblings; tauto).
    apply elem_of_dom in Hi as [d Hd]. rewrite Hd. f_equal. by apply Ha. }
  assert (forall i, i ∈ dom cur -> cur' !! sibling i = Some (node l (sibling i))) as Hsib.
  { intros i Hi. destruct (decide (sibling i ∈ dom cur)); [by apply Hcur|].
    apply Hin, elem_of_missing_siblings. by rewrite sibling_involutive. }
  assert (forall p, p ∈ (set_map parent (dom cur) : gset Z) ->
    cur' !! (p * 2) = Some (node l (2 * p)) /\ cur' !! (p * 2 + 1) = Some (node l (2 * p + 1))) as Hp.
  { intros p (i&->&Hi)%elem_of_map. specialize (Hcur i Hi). specialize (Hsib i Hi).
    rewrite (Z.mul_comm (parent i)).
    destruct (sibling_cases i) as [[E Es]|[E Es]]; rewrite Es in Hsib; rewrite E in Hcur at 1.
    - split; [|done]. rewrite Hcur. by rewrite E at 1.
    - split; [done|]. rewrite Hcur. by rewrite E at 1. }
  destruct (parents_loop_total np (Z.of_nat l) cur'
    (merge_sort Z.le (elements (set_map parent (dom cur) : gset Z))) ∅) as [parents Hpar].
  { intros p Hpe%elem_of_sorted. by destruct (Hp p Hpe) as [-> ->]. }
  exists parents. split; [done|]. apply parents_loop_inv in Hpar as (Hd&Hno&Hyes). split.
  - rewrite Hd, dom_empty_L. apply set_eq. intros p.
    rewrite elem_of_union, elem_of_list_to_set, elem_of_sorted. set_solver.
  - intros p d Hpd. assert (p ∈ (set_map parent (dom cur) : gset Z)) as Hpe.
    { destruct (decide (p ∈ merge_sort Z.le (elements (set_map parent (dom cur) : gset Z)))) as [Hm|Hm].
      - by apply elem_of_sorted.
      - rewrite Hno in Hpd by done. by rewrite lookup_empty in Hpd. }
    destruct (Hyes p ltac:(by apply elem_of_sorted)) as (x&y&Hx&Hy&Ho).
    destruct (Hp p Hpe) as [Hx' Hy']. rewrite Hpd in Ho. apply (inj Some) in Ho as ->.
    rewrite Hx' in Hx. rewrite Hy' in Hy. apply (inj Some) in Hx as <-, Hy as <-.
    rewrite node_input_eq. symmetry. apply (node_inner b w k rows Hv); [lia|].
    apply (below_parents _ _ Hb) in Hpe. by replace (k - S l)%nat with m by lia.
Qed.

Lemma honest_loop m l cur pre :
  (l + m = k)%nat -> below m (dom cur) -> agrees l cur -> Forall (fun c => c.1 < Z.of_nat l) pre ->
  let tail := sibling_schedule m (Z.of_nat l) (dom cur) in
  exists final, reconstruct_loop m (Z.of_nat l) np (pre ++ tail) cur (honest_digests tail)
                = Ok (final, []) /\
    below 0 (dom final) /\ (dom cur <> ∅ -> dom final <> ∅) /\ agrees k final.
Proof.
  revert l cur pre. induction m as [|m IH]; intros l cur pre Hlm Hb Ha Hpre tail.
  { exists cur. assert (l = k) as -> by lia. split_and!; done. }
  subst tail. cbn [reconstruct_loop]. rewrite at_level_schedule by done.
  cbn [sibling_schedule]. unfold honest_digests. rewrite fmap_app.
  change ((fun c : Z * Z => node (Z.to_nat c.1) c.2) <$> ?cs) with (honest_digests cs).
  rewrite honest_digests_level.
  destruct (insert_siblings_total (missing_siblings (dom cur)) (node l) cur
    (honest_digests (sibling_schedule m (Z.of_nat l + 1) (set_map parent (dom cur)))))
    as (cur'&->&Hin&Hout). cbn [mbind res_bind fst snd].
  destruct (honest_level l m cur cur') as (parents&->&Hd&Hpa); [done..|].
  cbn [mbind res_bind]. replace (Z.of_nat l + 1) with (Z.of_nat (S l)) by lia.
  rewrite (app_assoc pre), <- Hd.
  destruct (IH (S l) parents (pre ++ (pair (Z.of_nat l) <$> missing_siblings (dom cur))))
    as (final&Hf&Hb0&Hne&Hfa); [lia| |done| |].
  - rewrite Hd. by apply below_parents.
  - apply Forall_app. split; [eapply Forall_impl; [exact Hpre|simpl; lia]|].
    apply Forall_fmap, Forall_forall. intros x _. simpl. lia.
  - exists final. split_and!; [exact Hf|done| |done]. intros Hc. apply Hne. rewrite Hd.
    apply set_choose_L in Hc as [i Hi]. intros He.
    assert (parent i ∈ (set_map parent (dom cur) : gset Z)) as Hpi by (apply elem_of_map; eauto).
    rewrite He in Hpi. set_solver.
Qed.

(** Opposite direction: what a successful run says of its input. *)
Lemma binding_level l m cur cur' parents :
  (l + S m = k)%nat -> below (S m) (dom cur) -> map_Forall (fun _ => bytes32) cur' ->
  (forall i, i ∈ dom cur -> cur' !! i = cur !! i) ->
  parents_loop np (Z.of_nat l) cur'
    (merge_sort Z.le (elements (set_map parent (dom cur) : gset Z))) ∅ = Ok parents ->
  agrees (S l) parents ->
  second_preimage tree_inputs \/ agrees l cur.
Proof.
  intros Hlm Hb H32 Hsame Hpar Ha. apply parents_loop_inv in Hpar as (_&_&Hyes).
  destruct (decide (map_Forall (fun i d => d = node l i) cur)) as [|Hn]; [by right|left].
  apply map_not_Forall in Hn as (i&d&Hi&Hne); [|tc_solve].
  assert (i ∈ dom cur) as Hid by by apply elem_of_dom.
  assert (parent i ∈ (set_map parent (dom cur) : gset Z)) as Hp by (apply elem_of_map; eauto).
  destruct (Hyes (parent i)) as (x&y&Hx&Hy&Ho); [by apply elem_of_sorted|].
  apply Ha in Ho. rewrite node_input_eq in Ho.
  apply (below_parents _ _ Hb) in Hp. assert (m = k - S l)%nat as Em by lia. rewrite Em in Hp.
  unfold node in Ho. rewrite (node_inner b w k rows Hv) in Ho by (done || lia). fold node in Ho.
  destruct (sha256_inj_or _ _ _ (node_input l (parent i) ltac:(lia) Hp) Ho) as [E|]; [|done].
  unfold node_pre in E. do 4 apply app_inv_head in E.
  destruct (children_bound l (parent i)) as [Hb1 Hb2]; [lia|done|].
  apply app_inj_1 in E as [E1 E2].
  2:{ rewrite (H32 _ _ Hx). symmetry. apply (node_bytes32 b w k rows Hv); [lia|done]. }
  exfalso. apply Hne. specialize (Hsame i Hid). rewrite Hi in Hsame.
  rewrite (Z.mul_comm (parent i)) in Hx, Hy.
  destruct (sibling_cases i) as [[E _]|[E _]]; rewrite <- E in *; congruence.
Qed.

Lemma binding_loop m l cur ds pre final rest :
  (l + m = k)%nat -> below m (dom cur) -> Forall (fun c => c.1 < Z.of_nat l) pre ->
  map_Forall (fun _ => bytes32) cur -> Forall bytes32 ds ->
  reconstruct_loop m (Z.of_nat l) np (pre ++ sibling_schedule m (Z.of_nat l) (dom cur)) cur ds
    = Ok (final, rest) ->
  agrees k final -> second_preimage tree_inputs \/ agrees l cur.
Proof.
  revert l cur ds pre. induction m as [|m IH]; intros l cur ds pre Hlm Hb Hpre H32 Hds Hrun Ha.
  { right. injection Hrun as -> ->. by assert (l = k) as -> by lia. }
  cbn [reconstruct_loop] in Hrun. rewrite at_level_schedule in Hrun by done.
  apply bind_ok in Hrun as ([cur' ds']&Hins&Hrun). apply bind_ok in Hrun as (parents&Hpar&Hrun).
  cbn [fst snd] in *. apply insert_siblings_inv in Hins as (_&Hsame&used&Hds'&_&Hused).
  rewrite Hds' in Hds. apply Forall_app in Hds as [Hds1 Hds2].
  assert (map_Forall (fun _ => bytes32) cur') as H32'.
  { intros i d [Hd|Hd]%Hused; [|by eapply H32]. rewrite Forall_forall in Hds1. by apply Hds1. }
  pose proof (parents_loop_inv _ _ _ _ _ _ Hpar) as (Hdp&Hno&Hyes).
  assert (dom parents = set_map parent (dom cur)) as Hd.
  { rewrite Hdp, dom_empty_L. apply set_eq. intros p.
    rewrite elem_of_union, elem_of_list_to_set, elem_of_sorted. set_solver. }
  cbn [sibling_schedule] in Hrun. rewrite (app_assoc pre), <- Hd in Hrun.
  replace (Z.of_nat l + 1) with (Z.of_nat (S l)) in Hrun by lia.
  apply IH in Hrun as [|Hpa]; [by left| |lia|..|done|done].
  - eapply binding_level; [exact Hlm|exact Hb|exact H32'| |exact Hpar|exact Hpa].
    intros i Hi. apply Hsame. rewrite elem_of_missing_siblings. tauto.
  - rewrite Hd. by apply below_parents.
  - apply Forall_app. split; [eapply Forall_impl; [exact Hpre|simpl; lia]|].
    apply Forall_fmap, Forall_forall. intros x _. simpl. lia.
  - intros p d Hpd. assert (p ∈ dom parents) as Hp by by apply elem_of_dom.
    rewrite Hd in Hp. destruct (Hyes p) as (x&y&_&_&Ho); [by apply elem_of_sorted|].
    rewrite Hpd in Ho. apply (inj Some) in Ho as ->. apply sha256_length.
Qed.
End committed.

(** ** Leaves *)

Lemma increasing_bounds p n l :
  increasing_below p n l = true -> Forall (fun i => p < i < n) l /\ NoDup l.
Proof.
  revert p. induction l as [|x l IH]; intros p; simpl; [split; constructor|].
  rewrite !andb_true_iff. intros [[H1%Z.ltb_lt H2%Z.ltb_lt] Hl].
  apply IH in Hl as [Hf Hd]. split.
  - constructor; [lia|]. eapply Forall_impl; [exact Hf|simpl; lia].
  - constructor; [|done]. intros Hx. rewrite Forall_forall in Hf. specialize (Hf x Hx). lia.
Qed.

Lemma valid_indices_facts n l :
  valid_indices n l -> l <> [] /\ Forall (fun i => 0 <= i < n) l /\ NoDup l.
Proof.
  intros [Hne Hi]. apply increasing_bounds in Hi as [Hf Hd]. split_and!; [done| |done].
  eapply Forall_impl; [exact Hf|simpl; lia].
Qed.

Lemma valid_indices_below k l : valid_indices (2 ^ Z.of_nat k) l -> below k (list_to_set l).
Proof.
  intros (_&Hf&_)%valid_indices_facts i Hi%elem_of_list_to_set.
  rewrite Forall_forall in Hf. by apply Hf.
Qed.

Lemma leaf_digests_inv lh idx rows cur out :
  leaf_digests lh idx rows cur = Ok out -> NoDup idx ->
  dom out = dom cur ∪ list_to_set idx /\
  (forall i, i ∉ idx -> out !! i = cur !! i) /\
  Forall2 (fun i row => exists d, lh i row = Ok d /\ out !! i = Some d) idx rows.
Proof.
  revert rows cur. induction idx as [|i idx IH]; intros [|row rows] cur Hl Hd; try discriminate.
  { injection Hl as ->. split; [set_solver|]. by split. }
  cbn [leaf_digests] in Hl. apply bind_ok in Hl as (d&Hd'&Hl). apply NoDup_cons in Hd as [Hni Hd].
  destruct (IH _ _ Hl Hd) as (Hdom&Hout&Hf). split_and!.
  - rewrite Hdom, dom_insert_L. set_solver.
  - intros j [Hne Hj]%not_elem_of_cons. rewrite Hout by done. by apply lookup_insert_ne.
  - constructor; [|done]. exists d. split; [done|]. rewrite Hout by done. by rewrite lookup_insert_eq.
Qed.

Lemma leaf_digests_total lh idx rows cur :
  Forall2 (fun i row => is_ok (lh i row) = true) idx rows ->
  exists out, leaf_digests lh idx rows cur = Ok out.
Proof.
  intros Hf. revert cur. induction Hf as [|i row idx rows Hok Hf IH]; intros cur; simpl; [by eexists|].
  destruct (lh i row); [|discriminate]. apply IH.
Qed.

Section leaves.
Context `{Digest} (b : bytes) (n w : Z).
Let lp := _LEAF_DOMAIN ++ _tree_header b n w.

(** The leaf hash that the Python path of the verifier uses. *)
Definition leaf_hash_of : Z -> list Z -> res bytes :=
  if w =? 1 then leaf_hash_w1 lp else leaf_hash_wn lp.

Lemma leaf_prefix_eq i row :
  lp ++ pack_I i ++ concat (pack_Q <$> row) = leaf_pre b n w i row.
Proof. unfold lp, leaf_pre. by rewrite <- app_assoc. Qed.

Lemma width1_value_ok row v : width1_value row = Ok v <-> row = [v] /\ canonical v.
Proof.
  unfold width1_value. destruct row as [|x [|]]; try (split; [discriminate|by intros [? _]]).
  destruct (in_field x) eqn:E.
  - apply in_field_spec in E. split; [by intros [= ->]|by intros [[= ->] _]].
  - split; [discriminate|]. intros [[= ->] Hc%in_field_spec]. congruence.
Qed.

Lemma leaf_hash_inv i row d :
  leaf_hash_of i row = Ok d -> Forall canonical row /\ d = sha256 (leaf_pre b n w i row).
Proof.
  unfold leaf_hash_of, leaf_hash_w1, leaf_hash_wn. intros Hl. destruct (w =? 1).
  - apply bind_ok in Hl as (v&[-> Hv]%width1_value_ok&[= <-]). split; [constructor; [done|constructor]|].
    rewrite <- leaf_prefix_eq. cbn [fmap list_fmap concat]. by rewrite app_nil_r.
  - apply bind_ok in Hl as (e&[-> Hc]%encode_row_inv&Hl). rewrite leaf_prefix_eq in Hl. by injection Hl.
Qed.

Lemma leaf_hash_ok i row :
  canonical_row w row -> 1 <= w <= MAX_GOLDILOCKS_MERKLE_REFERENCE_LEAF_WIDTH ->
  leaf_hash_of i row = Ok (sha256 (leaf_pre b n w i row)).
Proof.
  intros [Hz Hc] Hw. unfold leaf_hash_of. destruct (Z.eqb_spec w 1) as [E|].
  - rewrite E in Hz. destruct row as [|v [|]]; unfold zlen in Hz; try (simpl in Hz; lia).
    apply Forall_cons in Hc as [Hc _]. unfold leaf_hash_w1.
    rewrite (proj2 (width1_value_ok [v] v) (conj eq_refl Hc)). cbn [mbind res_bind].
    rewrite <- leaf_prefix_eq. cbn [fmap list_fmap concat]. by rewrite app_nil_r.
  - unfold leaf_hash_wn. rewrite (encode_row w) by done. cbn [mbind res_bind].
    by rewrite leaf_prefix_eq.
Qed.
End leaves.

Definition denotes_ints (v : pyval) (l : list Z) : Prop := v = py_ints l \/ v = PList (PInt <$> l).

(** ** The backend's contract *)

Definition schedule_of (n : Z) (idx : list Z) : list (Z * Z) :=
  sibling_schedule (_height n) 0 (list_to_set idx).

Definition agrees_with {A} (compiled : A + Z) (python : res A) : Prop :=
  match compiled with inl a => python = Ok a | inr _ => is_ok python = false end.

(** What the verifier calls, for rows of width [w]. *)
Definition reconstruct_answer `{MultiopenBackend} (lp np : bytes) (n : Z) (idx : list Z) (w : Z)
    (rows : list (list Z)) (coords : list (Z * Z)) (digests : list bytes) : res (option (bytes + Z)) :=
  if w =? 1 then c_reconstruct_w1 lp np n idx (concat rows) coords.*1 coords.*2 (concat digests)
  else c_reconstruct_wn lp np n idx (concat rows) w coords.*1 coords.*2 (concat digests).

(** What a backend computes on the inputs that the verifier has checked: for
    rows of a width that it serves, what the Python code computes; for wider
    rows, an error code. *)
Class MultiopenLaws `{Digest} `{MultiopenBackend} := {
  served : Z -> bool;
  served_1 : served 1 = true;
  sibling_coordinates_law n idx coords :
    valid_leaf_count n -> valid_indices n idx -> c_sibling_coordinates n idx = Some coords ->
    coords = schedule_of n idx;
  reconstruct_law b n w idx rows digests :
    bytes32 b -> valid_leaf_count n -> valid_indices n idx -> 1 <= w <= MAX_GOLDILOCKS_MERKLE_REFERENCE_LEAF_WIDTH ->
    Forall (canonical_row w) rows -> length rows = length idx ->
    Forall bytes32 digests -> length digests = length (schedule_of n idx) ->
    let np := _NODE_DOMAIN ++ _tree_header b n w in
    match reconstruct_answer (_LEAF_DOMAIN ++ _tree_header b n w) np n idx w rows (schedule_of n idx) digests with
    | Err _ => False
    | Ok None => served w = true
    | Ok (Some out) =>
        if served w then agrees_with out (cur ← leaf_digests (leaf_hash_of b n w) idx rows ∅;
                                          reconstruct np n (schedule_of n idx) cur digests)
        else exists code, out = inr code
    end;
}.

#[export] Instance no_compiler_laws `{Digest} : @MultiopenLaws _ no_compiler.
Proof.
  refine {| served := fun _ => true |}; [done|done|].
  intros b n w idx rows digests _ _ _ _ _ _ _ _. unfold reconstruct_answer. by destruct (w =? 1).
Defined.

(** ** What acceptance means *)

(** The rows of an opening that its constructor checked. *)
Definition well_formed_opening (o : GoldilocksMerkleMultiOpeningReference) : Prop :=
  Forall (canonical_row (mo_leaf_width o)) (mo_rows o)
  /\ length (mo_rows o) = length (mo_indices o).

Lemma opening_new_well_formed `{MultiopenBackend} bd lc lw ix rs sibs abi o :
  GoldilocksMerkleMultiOpeningReference_new bd lc lw ix rs sibs abi = Ok o ->
  well_formed_opening o.
Proof.
  unfold GoldilocksMerkleMultiOpeningReference_new. intros Ho.
  case_match; [discriminate|]. res_inv. repeat (case_match; [discriminate|]). res_inv.
  apply field_rows_ok in E3 as (vs&w&_&_&[_ Hr _ _]&Hc&Hw).
  specialize (Hc _ eq_refl). specialize (Hw _ eq_refl). simplify_eq.
  split; [done|]. simpl. unfold zlen in Hc. lia.
Qed.

Section verifier.
Context `{Digest} `{MultiopenBackend} `{!MultiopenLaws}.

Lemma expected_coordinates_python n idx :
  valid_leaf_count n -> valid_indices n idx -> _expected_sibling_coordinates n idx = schedule_of n idx.
Proof.
  intros Hn Hi. unfold _expected_sibling_coordinates. destruct (c_sibling_coordinates n idx) eqn:E; [|done].
  by apply sibling_coordinates_law in E.
Qed.

Lemma mapR_digests m l ds :
  mapR (fun node => _fixed_bytes (PBytes (sib_digest node)) 32 m) l = Ok ds <->
  ds = sib_digest <$> l /\ Forall bytes32 ds.
Proof.
  rewrite mapR_Forall2. split.
  - induction 1 as [|s d l ds Hs _ [-> IH]]; [by split|].
    apply fixed_bytes_ok in Hs as [[= <-] ?]. split; [done|by constructor].
  - intros [-> Hf]. rewrite Forall_fmap in Hf. apply Forall2_fmap_r, Forall_Forall2_diag.
    apply (Forall_impl _ _ _ Hf). intros s ?. by apply fixed_bytes_ok.
Qed.

Lemma check_root_ok root b n w raw u :
  check_root root b n w raw = Ok u <-> bytes32 raw /\ root = sha256 (root_pre b n w raw).
Proof.
  unfold check_root, _commitment_hash, root_pre. rewrite bind_ok. split.
  - intros (h&Hh&Hr%require_ok%bool_decide_eq_true). apply bind_ok in Hh as (r&Hf&Hh).
    apply fixed_bytes_ok in Hf as [Hr' Hl]. apply (inj PBytes) in Hr' as <-.
    split; [done|]. rewrite Hr. by injection Hh.
  - intros [Hl ->]. eexists. rewrite fixed_bytes_int by done. cbn [mbind res_bind].
    split; [reflexivity|]. apply require_ok. by apply bool_decide_eq_true.
Qed.

(** The run that acceptance stands for. *)
Definition accepting_run (root b : bytes) (n w : Z) (idx : list Z)
    (rows : list (list Z)) (coords : list (Z * Z)) (digests : list bytes) : Prop :=
  exists cur raw, leaf_digests (leaf_hash_of b n w) idx rows ∅ = Ok cur
    /\ reconstruct (_NODE_DOMAIN ++ _tree_header b n w) n coords cur digests = Ok raw
    /\ bytes32 raw /\ root = sha256 (root_pre b n w raw).

Lemma compiled_or_ok root b n w idx rows coords digests (answer : res (option (bytes + Z))) :
  match answer with
  | Err _ => False
  | Ok None => served w = true
  | Ok (Some out) =>
      if served w then agrees_with out (cur ← leaf_digests (leaf_hash_of b n w) idx rows ∅;
                                        reconstruct (_NODE_DOMAIN ++ _tree_header b n w) n coords cur digests)
      else exists code, out = inr code
  end ->
  (result ← answer;
   match result with
   | Some (inl raw) => check_root root b n w raw
   | Some (inr _) =>
       raise ProofV3VerificationError "Merkle opening reconstruction is incomplete"
   | None =>
       current ← leaf_digests (leaf_hash_of b n w) idx rows ∅;
       raw ← reconstruct (_NODE_DOMAIN ++ _tree_header b n w) n coords current digests;
       check_root root b n w raw
   end) = Ok tt <-> served w = true /\ accepting_run root b n w idx rows coords digests.
Proof.
  unfold accepting_run. intros Hlaw. destruct answer as [[[raw|code]|]|]; [| | |done]; cbn [mbind res_bind].
  - destruct (served w); [|by destruct Hlaw].
    cbn [agrees_with] in Hlaw. apply bind_ok in Hlaw as (cur&Hl&Hr). cbv beta in Hr.
    rewrite check_root_ok. split; [by intros [? ?]; split; [|exists cur, raw]|].
    intros (_&cur'&raw'&Hl'&Hr'&?). assert (cur' = cur) as -> by congruence.
    by assert (raw' = raw) as <- by congruence.
  - split; [discriminate|]. intros (Hs&cur&raw&Hl&Hr&_). rewrite Hs in Hlaw. cbn [agrees_with] in Hlaw.
    rewrite Hl in Hlaw. cbn [mbind res_bind] in Hlaw. by rewrite Hr in Hlaw.
  - rewrite bind_ok. split.
    + intros (cur&Hl&Hr). apply bind_ok in Hr as (raw&Hr&[? ?]%check_root_ok). eauto 10.
    + intros (_&cur&raw&Hl&Hr&?&?). exists cur. split; [done|]. rewrite Hr.
      cbn [mbind res_bind]. by apply check_root_ok.
Qed.

Lemma verify_reconstruction_ok root b n w idx o :
  bytes32 b -> valid_leaf_count n -> valid_indices n idx ->
  1 <= w <= MAX_GOLDILOCKS_MERKLE_REFERENCE_LEAF_WIDTH ->
  Forall (canonical_row w) (mo_rows o) -> length (mo_rows o) = length idx ->
  length (mo_siblings o) = length (schedule_of n idx) ->
  verify_reconstruction root b n w idx (schedule_of n idx) o = Ok tt <->
  served w = true /\ Forall bytes32 (sib_digest <$> mo_siblings o) /\
  accepting_run root b n w idx (mo_rows o) (schedule_of n idx) (sib_digest <$> mo_siblings o).
Proof.
  intros Hb Hn Hi Hw Hr Hlen Hsib. unfold verify_reconstruction. rewrite bind_ok.
  setoid_rewrite mapR_digests.
  destruct (decide (Forall bytes32 (sib_digest <$> mo_siblings o))) as [H32|H32].
  2:{ split; [|by intros (_&?&_)]. by intros (ds&[-> ?]&_). }
  transitivity (served w = true /\ accepting_run root b n w idx (mo_rows o) (schedule_of n idx) (sib_digest <$> mo_siblings o));
    [|tauto].
  rewrite <- (compiled_or_ok _ _ _ _ _ _ _ _ _ (reconstruct_law b n w idx (mo_rows o) (sib_digest <$> mo_siblings o)
    Hb Hn Hi Hw Hr Hlen H32 ltac:(by rewrite length_fmap))).
  unfold leaf_hash_of, reconstruct_answer. destruct (Z.eqb_spec w 1) as [E|].
  - subst w. assert (mapR width1_value (mo_rows o) = Ok (concat (mo_rows o))) as ->.
    { apply mapR_Forall2. clear -Hr. induction Hr as [|r rs [Hz Hc] _ IH]; [constructor|].
      destruct r as [|v [|]]; unfold zlen in Hz; try (simpl in Hz; lia). simpl.
      constructor; [|done]. apply width1_value_ok. split; [done|]. by apply Forall_cons in Hc as [? _]. }
    split; [intros (ds&[-> _]&Hrun)|intros Hrun; eexists; split; [by split|]]; exact Hrun.
  - split; [intros (ds&[-> _]&Hrun)|intros Hrun; eexists; split; [by split|]]; exact Hrun.
Qed.

Record expectation (c eb en ew ei : pyval) (root b : bytes) (n w : Z) (idx : list Z) : Prop := {
  ex_binding : eb = PBytes b /\ bytes32 b;
  ex_count : en = PInt n /\ valid_leaf_count n;
  ex_width : ew = PInt w /\ 1 <= w <= MAX_GOLDILOCKS_MERKLE_REFERENCE_LEAF_WIDTH;
  ex_indices : denotes_ints ei idx /\ valid_indices n idx;
  ex_root : c = PBytes root /\ bytes32 root;
}.

Record matching_opening (o : GoldilocksMerkleMultiOpeningReference)
    (root b : bytes) (n w : Z) (idx : list Z) : Prop := {
  ma_binding : mo_binding_digest o = b;
  ma_count : mo_leaf_count o = n;
  ma_width : mo_leaf_width o = w;
  ma_indices : mo_indices o = idx;
  ma_coordinates : coordinates (mo_siblings o) = schedule_of n idx;
  ma_digests : Forall bytes32 (sib_digest <$> mo_siblings o);
  ma_run : accepting_run root b n w idx (mo_rows o) (schedule_of n idx)
             (sib_digest <$> mo_siblings o);
}.

Lemma verify_ok c o eb en ew ei :
  well_formed_opening o ->
  verify_goldilocks_merkle_multiopening_reference c (Some o) eb en ew ei = Ok tt <->
  exists root b n w idx, expectation c eb en ew ei root b n w idx
    /\ matching_opening o root b n w idx /\ served w = true.
Proof.
  intros [Hrows Hlen]. unfold verify_goldilocks_merkle_multiopening_reference.
  rewrite bind_ok. setoid_rewrite reraise_as_ok. split.
  - intros ([[[[b n] w] idx] root]&He&Hm). res_inv.
    apply fixed_bytes_ok in E as Hb. apply leaf_count_ok in E0 as Hn.
    apply leaf_width_ok in E1 as Hw. apply indices_ok in E2 as Hi. apply fixed_bytes_ok in E3 as Hr.
    destruct (bool_decide (mo_binding_digest o = b)) eqn:Eb; [|discriminate]. cbn [negb] in Hm.
    destruct (Z.eqb_spec (mo_leaf_count o) n); [|discriminate]. cbn [negb orb] in Hm.
    destruct (Z.eqb_spec (mo_leaf_width o) w); [|discriminate]. cbn [negb] in Hm.
    destruct (bool_decide (mo_indices o = idx)) eqn:Ei; [|discriminate]. cbn [negb] in Hm.
    rewrite expected_coordinates_python in Hm by (apply Hn || apply Hi).
    destruct (bool_decide (coordinates _ = _)) eqn:Ec; [|discriminate]. cbn [negb] in Hm.
    apply bool_decide_eq_true in Eb, Ei, Ec. subst.
    apply verify_reconstruction_ok in Hm as (Hs&H32&Hrun);
      [|apply Hb|apply Hn|apply Hi|apply Hw|done|done|by rewrite <- Ec; unfold coordinates; rewrite length_fmap].
    eexists _, _, _, _, _. split; [split; [exact Hb|exact Hn|exact Hw|exact Hi|exact Hr]|].
    by split.
  - intros (root&b&n&w&idx&[[-> Hb] [-> Hn] [-> Hw] [Hi Hiv] [-> Hr]]&
            [Mb Mn Mw Mi Mc Md Mr]&Hs).
    exists (b, n, w, idx, root). split.
    + unfold _binding_digest. rewrite (fixed_bytes_int b) by done. cbn [mbind res_bind].
      rewrite (proj2 (leaf_count_ok _ _ n)) by done. cbn [mbind res_bind].
      rewrite (proj2 (leaf_width_ok _ _ w)) by done. cbn [mbind res_bind].
      rewrite (proj2 (indices_ok ei _ _ idx)) by done. cbn [mbind res_bind].
      by rewrite (fixed_bytes_int root) by done.
    + rewrite Mb, Mn, Mw, Mi, !bool_decide_eq_true_2, !Z.eqb_refl by done. cbn [negb orb].
      rewrite expected_coordinates_python, bool_decide_eq_true_2 by done. cbn [negb].
      rewrite Mi in Hlen. rewrite Mw in Hrows. apply verify_reconstruction_ok; try done.
      rewrite <- Mc. unfold coordinates. by rewrite length_fmap.
Qed.
End verifier.

(** ** Completeness *)

Lemma schedule_bounds m l cur :
  below m cur ->
  Forall (fun c => l <= c.1 < l + Z.of_nat m /\ 0 <= c.2 < 2 ^ (Z.of_nat m - (c.1 - l)))
    (sibling_schedule m l cur).
Proof.
  revert l cur. induction m as [|m IH]; intros l cur Hb; cbn [sibling_schedule]; [constructor|].
  apply Forall_app. split.
  - apply Forall_fmap, Forall_forall. intros i [Hs _]%elem_of_missing_siblings.
    apply Hb, sibling_bound in Hs. rewrite sibling_involutive in Hs. simpl.
    rewrite Z.sub_diag, Z.sub_0_r. split; [lia|done].
  - eapply Forall_impl; [apply IH; by apply below_parents|]. simpl. intros c [Hc Hi].
    split; [lia|]. replace (Z.of_nat (S m) - (c.1 - l)) with (Z.of_nat m - (c.1 - (l + 1))) by lia. done.
Qed.

Section tree_theorems.
Context `{Digest} (b : bytes) (w : Z) (k : nat) (rows : list (list Z)).
Context (Hv : valid_table b w k rows).
Let n := zlen rows.

Definition selected_rows (idx : list Z) : list (list Z) :=
  (fun i => default [] (rows !! Z.to_nat i)) <$> idx.

Lemma n_pow2 : n = 2 ^ Z.of_nat k.
Proof. by eapply valid_table_zlen. Qed.

Lemma row_lookup i : 0 <= i < n -> exists row, rows !! Z.to_nat i = Some row /\ canonical_row w row.
Proof.
  intros Hi. destruct (rows !! Z.to_nat i) as [row|] eqn:E.
  - exists row. split; [done|]. destruct (vt_rows _ _ _ _ Hv) as [_ Hr _ _].
    by eapply Forall_lookup_1 in Hr.
  - apply lookup_ge_None in E. unfold n, zlen in Hi. lia.
Qed.

Lemma selected_rows_lookup idx :
  valid_indices n idx ->
  Forall2 (fun i row => rows !! Z.to_nat i = Some row /\ canonical_row w row) idx (selected_rows idx).
Proof.
  intros (_&Hf&_)%valid_indices_facts. unfold selected_rows.
  apply Forall2_fmap_r, Forall_Forall2_diag. eapply Forall_impl; [exact Hf|].
  intros i (row&Hi&Hr)%row_lookup. cbv beta delta [compose]. by rewrite Hi.
Qed.

Lemma selected_rows_valid idx : valid_indices n idx -> valid_rows w (selected_rows idx).
Proof.
  intros Hi. pose proof (vt_rows _ _ _ _ Hv) as [_ _ Hw Ht].
  pose proof (selected_rows_lookup idx Hi) as Hsel. destruct Hi as [Hne Hinc]. split.
  - unfold selected_rows. by destruct idx.
  - eapply Forall2_Forall_r; [exact Hsel|]. apply Forall_forall. by intros i _ row [_ ?].
  - done.
  - apply increasing_zlen in Hinc; [|done]. unfold selected_rows. rewrite zlen_fmap.
    fold n in Ht. nia.
Qed.

Lemma open_ok `{MultiopenBackend} `{!MultiopenLaws} v idx :
  denotes_ints v idx -> valid_indices n idx ->
  zlen (schedule_of n idx) <= MAX_GOLDILOCKS_MERKLE_REFERENCE_LEAF_COUNT ->
  tree_open (tree_of b w k rows) v =
    Ok (MkOpening b n w idx (selected_rows idx)
          ((fun c => MkSibling c.1 c.2 (node b w rows (Z.to_nat c.1) c.2)) <$> schedule_of n idx)).
Proof.
  intros Hden Hidx Hlen. unfold tree_open. cbn [mt_leaf_count tree_of].
  rewrite (proj2 (indices_ok v _ _ idx) (conj Hden Hidx)). cbn [mbind res_bind].
  rewrite expected_coordinates_python by (done || by eapply valid_table_count). fold n.
  rewrite (mapR_total _ _ (fun c => MkSibling c.1 c.2 (node b w rows (Z.to_nat c.1) c.2))).
  2:{ pose proof (schedule_bounds k 0 (list_to_set idx)) as Hsb.
      assert (below k (list_to_set idx)) as Hbel by (apply valid_indices_below; by rewrite <- n_pow2).
      specialize (Hsb Hbel). rewrite Forall_forall in Hsb. intros [l i] Hc.
      unfold schedule_of in Hc. rewrite n_pow2, height_pow2 in Hc.
      apply Hsb in Hc as [Hl Hi]. cbn [fst snd] in *.
      pose proof (valid_table_k _ _ _ _ Hv) as Hk.
      assert (0 <= i < 2 ^ Z.of_nat (k - Z.to_nat l)) as Hi'.
      { by replace (Z.of_nat (k - Z.to_nat l)) with (Z.of_nat k - (l - 0)) by lia. }
      rewrite (node_at_ok b w k rows Hv l i) by lia. cbn [mbind res_bind].
      assert (2 ^ Z.of_nat (k - Z.to_nat l) <= 2 ^ 21) as Hp by (apply Z.pow_le_mono_r; lia).
      unfold GoldilocksMerkleSiblingReference_new. cbn [_integer mbind res_bind].
      unfold outside_uint32. change (Z.shiftl 1 32) with (2 ^ 32).
      rewrite !(proj2 (Z.ltb_ge _ _)), !(proj2 (Z.leb_gt _ _)) by lia. cbn [orb].
      rewrite fixed_bytes_int; [done|]. apply (node_bytes32 b w k rows Hv); [lia|done]. }
  cbn [mbind res_bind].
  rewrite (mapR_total _ _ (fun i => default [] (rows !! Z.to_nat i))).
  2:{ apply valid_indices_facts in Hidx as (_&Hf&_). rewrite Forall_forall in Hf.
      intros i Hi%Hf. cbn [mt_rows tree_of]. by destruct (row_lookup i Hi) as (row&->&_). }
  cbn [mbind res_bind mt_binding_digest mt_leaf_width tree_of]. fold n. fold (selected_rows idx).
  unfold GoldilocksMerkleMultiOpeningReference_new, _binding_digest.
  rewrite bool_decide_eq_true_2 by done. cbn [negb].
  rewrite fixed_bytes_int by apply Hv. cbn [mbind res_bind].
  rewrite (proj2 (leaf_count_ok _ _ n)) by (split; [done|by eapply valid_table_count]).
  cbn [mbind res_bind].
  rewrite (proj2 (leaf_width_ok _ _ w)) by (split; [done|apply Hv]). cbn [mbind res_bind].
  rewrite (proj2 (indices_ok _ _ _ idx)) by (split; [by left|done]). cbn [mbind res_bind].
  rewrite (field_rows_py_rows _ _ _ _ w).
  2:{ by apply selected_rows_valid. }
  2:{ intros ? [= <-]. unfold selected_rows. by rewrite zlen_fmap. }
  2:{ by intros ? [= <-]. }
  cbn [mbind res_bind]. rewrite zlen_fmap, (proj2 (Z.ltb_ge _ _)) by done.
  rewrite expected_coordinates_python by (done || by eapply valid_table_count).
  rewrite bool_decide_eq_true_2; [done|].
  unfold coordinates. rewrite <- list_fmap_compose. rewrite <- (list_fmap_id (schedule_of n idx)) at 2.
  apply list_fmap_ext. by intros _ [] _.
Qed.

Lemma honest_leaves idx cur :
  valid_indices n idx -> leaf_digests (leaf_hash_of b n w) idx (selected_rows idx) ∅ = Ok cur ->
  dom cur = list_to_set idx /\ agrees b w rows 0 cur.
Proof.
  intros Hidx Hl. pose proof (selected_rows_lookup idx Hidx) as Hsel.
  apply leaf_digests_inv in Hl as (Hd&_&Hf); [|by eapply valid_indices_facts].
  rewrite dom_empty_L, union_empty_l_L in Hd. split; [done|].
  intros i d Hi. assert (i ∈ (list_to_set idx : gset Z)) as Hx by (rewrite <- Hd; by apply elem_of_dom).
  apply elem_of_list_to_set, list_elem_of_lookup in Hx as [j Hj].
  destruct (Forall2_lookup_l _ _ _ _ _ Hf Hj) as (row&Hrow&d'&Hh&Hd').
  pose proof (Forall2_lookup_lr _ _ _ _ _ _ Hsel Hj Hrow) as [Hrow' _].
  rewrite Hi in Hd'. apply (inj Some) in Hd' as <-. apply leaf_hash_inv in Hh as [_ ->].
  symmetry. apply (node_leaf b w rows); [|done].
  apply valid_indices_facts in Hidx as (_&Hb&_). eapply Forall_lookup_1 in Hb; [|done]. lia.
Qed.

Lemma honest_run idx :
  valid_indices n idx ->
  accepting_run (mt_commitment (tree_of b w k rows)) b n w idx (selected_rows idx)
    (schedule_of n idx) (honest_digests b w rows (schedule_of n idx)).
Proof.
  intros Hidx. pose proof (selected_rows_lookup idx Hidx) as Hsel.
  destruct (leaf_digests_total (leaf_hash_of b n w) idx (selected_rows idx) ∅) as [cur Hcur].
  { eapply Forall2_impl; [exact Hsel|]. intros i row [_ Hr]. rewrite leaf_hash_ok; [done|done|apply Hv]. }
  destruct (honest_leaves idx cur Hidx Hcur) as [Hd Ha].
  unfold schedule_of. rewrite n_pow2, height_pow2.
  destruct (honest_loop b w k rows Hv k 0 cur []) as (final&Hf&Hb&Hne&Hfa);
    [lia| |done|constructor|].
  { rewrite Hd. apply valid_indices_below. by rewrite <- n_pow2. }
  rewrite app_nil_l in Hf. change (Z.of_nat 0) with 0 in Hf. rewrite Hd in Hf.
  assert (dom final = {[0]}) as Hd0.
  { apply below_zero_singleton; [done|]. apply Hne. rewrite Hd.
    apply valid_indices_facts in Hidx as (Hnil&_&_). destruct idx; [done|]. set_solver. }
  assert (is_Some (final !! 0)) as [raw Hraw] by (apply elem_of_dom; rewrite Hd0; set_solver).
  exists cur, raw. rewrite <- n_pow2. split; [done|]. pose proof (Hfa 0 raw Hraw) as Eraw.
  split_and!.
  - unfold reconstruct. rewrite n_pow2, height_pow2. rewrite <- n_pow2. fold n in Hf. rewrite Hf.
    cbn [mbind res_bind fst snd]. rewrite Hraw, !bool_decide_eq_true_2 by done. done.
  - rewrite Eraw. apply (node_bytes32 b w k rows Hv); [done|]. by rewrite Nat.sub_diag.
  - cbn [mt_commitment tree_of]. by rewrite Eraw.
Qed.

Lemma committed_rows root idx rows' coords digests :
  root = mt_commitment (tree_of b w k rows) ->
  valid_indices n idx -> coords = schedule_of n idx -> Forall bytes32 digests ->
  accepting_run root b n w idx rows' coords digests ->
  Forall2 (fun i row => rows !! Z.to_nat i = Some row) idx rows'
  \/ second_preimage (tree_inputs b w k rows).
Proof.
  intros -> Hidx -> H32 (cur&raw&Hl&Hrec&Hraw&Hroot).
  pose proof (root_input b w k rows) as Hri.
  destruct (sha256_inj_or _ _ _ Hri (eq_sym Hroot)) as [E|]; [|by right].
  unfold root_pre in E. do 2 apply app_inv_head in E.
  apply leaf_digests_inv in Hl as (Hd&_&Hf); [|by eapply valid_indices_facts].
  rewrite dom_empty_L, union_empty_l_L in Hd.
  unfold reconstruct in Hrec. apply bind_ok in Hrec as ([final rest]&Hloop&Hend).
  cbn [fst snd] in *. destruct (final !! 0) as [raw'|] eqn:Hf0; [|discriminate].
  destruct (bool_decide (rest = []) && _) eqn:Hok; [|discriminate].
  apply andb_true_iff in Hok as [_ Hdom%bool_decide_eq_true].
  apply (inj Ok) in Hend as ->.
  unfold schedule_of in Hloop. rewrite n_pow2, height_pow2, <- n_pow2, <- Hd in Hloop.
  assert (second_preimage (tree_inputs b w k rows) \/ agrees b w rows 0 cur) as [|Ha]; [|by right|].
  { eapply (binding_loop b w k rows Hv k 0 cur digests []); [lia| |constructor| |done|exact Hloop|].
    - rewrite Hd. apply valid_indices_below. by rewrite <- n_pow2.
    - intros i d Hi. assert (i ∈ idx) as [j Hj]%list_elem_of_lookup.
      { apply (elem_of_list_to_set (C := gset Z)). rewrite <- Hd. by apply elem_of_dom. }
      destruct (Forall2_lookup_l _ _ _ _ _ Hf Hj) as (row&_&d'&Hh&Hd').
      rewrite Hi in Hd'. apply (inj Some) in Hd' as ->. apply leaf_hash_inv in Hh as [_ ->].
      apply sha256_length.
    - intros i d Hi. assert (i ∈ dom final) as Hx by by apply elem_of_dom.
      rewrite Hdom in Hx. apply elem_of_singleton in Hx as ->. congruence. }
  destruct (decide (Forall2 (fun i row => rows !! Z.to_nat i = Some row) idx rows')) as [|Hn];
    [by left|right].
  assert (exists j i row, idx !! j = Some i /\ rows' !! j = Some row /\ rows !! Z.to_nat i <> Some row)
    as (j&i&row&Hj&Hrow&Hne).
  { clear -Hf Hn. induction Hf as [|i row idx rows' _ Hf IH]; [by destruct Hn|].
    destruct (decide (rows !! Z.to_nat i = Some row)); [|by exists 0%nat, i, row].
    destruct IH as (j&i'&row'&?&?&?); [by intros ?; apply Hn; constructor|].
    by exists (S j), i', row'. }
  destruct (Forall2_lookup_lr _ _ _ _ _ _ Hf Hj Hrow) as (d&Hh&Hd').
  apply leaf_hash_inv in Hh as [Hc ->]. apply Ha in Hd'.
  apply valid_indices_facts in Hidx as (_&Hb&_). eapply Forall_lookup_1 in Hb; [|exact Hj].
  destruct (row_lookup i Hb) as (row0&Hrow0&Hc0).
  rewrite (node_leaf b w rows i row0) in Hd' by (lia || done).
  pose proof (leaf_input b w k rows (Z.to_nat i) row0 Hrow0) as Hin.
  rewrite Z2Nat.id in Hin by lia.
  destruct (sha256_inj_or _ _ _ Hin Hd') as [E'|]; [|done].
  unfold leaf_pre in E'. do 3 apply app_inv_head in E'.
  apply concat_pack_inj in E' as ->; [done|done|by apply Hc0].
Qed.
End tree_theorems.

Lemma header_inj b n w x b' n' w' x' :
  bytes32 b -> bytes32 b' -> valid_leaf_count n -> valid_leaf_count n' ->
  1 <= w <= MAX_GOLDILOCKS_MERKLE_REFERENCE_LEAF_WIDTH ->
  1 <= w' <= MAX_GOLDILOCKS_MERKLE_REFERENCE_LEAF_WIDTH ->
  _tree_header b n w ++ x = _tree_header b' n' w' ++ x' -> b = b' /\ n = n' /\ w = w' /\ x = x'.
Proof.
  assert (forall n, valid_leaf_count n -> 0 <= n < 2 ^ 32) as Hcount.
  { intros m (k&Hk&->). split; [by apply Z.pow_nonneg|]. apply Z.pow_lt_mono_r; lia. }
  assert (forall w, 1 <= w <= MAX_GOLDILOCKS_MERKLE_REFERENCE_LEAF_WIDTH -> 0 <= w < 2 ^ 32) as Hwidth.
  { intros v. change MAX_GOLDILOCKS_MERKLE_REFERENCE_LEAF_WIDTH with (2 ^ 12). lia. }
  intros Hb Hb' Hn Hn' Hw Hw'. unfold _tree_header. rewrite <- !app_assoc.
  intros [-> E]%app_inj_1; [|by rewrite Hb, Hb'].
  apply app_inj_1 in E as [En E]; [|by rewrite !pack_I_length].
  apply app_inj_1 in E as [Ew ->]; [|by rewrite !pack_I_length].
  apply pack_I_inj in En as ->; [|by auto..]. by apply pack_I_inj in Ew as ->; [|by auto..].
Qed.

(** The strings hashed while building a tree. *)
Definition inputs_of_tree `{Digest} (T : GoldilocksMerkleTreeReference) : list bytes :=
  tree_inputs (mt_binding_digest T) (mt_leaf_width T) (_height (mt_leaf_count T)) (mt_rows T).

(** An accepted opening against the commitment of a tree. *)
Lemma accepted_opening `{Digest} `{MultiopenBackend} `{!MultiopenLaws} rv bv T o eb en ew ei :
  from_rows rv bv = Ok T -> well_formed_opening o ->
  verify_goldilocks_merkle_multiopening_reference (PBytes (mt_commitment T)) (Some o) eb en ew ei
    = Ok tt ->
  (eb = PBytes (mt_binding_digest T) /\ en = PInt (mt_leaf_count T) /\ ew = PInt (mt_leaf_width T)
   /\ denotes_ints ei (mo_indices o) /\ valid_indices (mt_leaf_count T) (mo_indices o)
   /\ Forall2 (fun i row => mt_rows T !! Z.to_nat i = Some row) (mo_indices o) (mo_rows o))
  \/ second_preimage (inputs_of_tree T).
Proof.
  intros (b&rows&w&k&->&_&Hv&->)%from_rows_ok Hwf Hver.
  apply verify_ok in Hver as (root&b'&n'&w'&idx&[[-> Hb] [-> Hn] [-> Hw] [Hi Hiv] [Hroot _]]&
    [_ _ _ Mi _ Md Mr]&_); [|done].
  apply (inj PBytes) in Hroot as <-. unfold inputs_of_tree. cbn [mt_rows mt_binding_digest
    mt_leaf_width mt_leaf_count tree_of]. rewrite Mi.
  rewrite (valid_table_zlen _ _ _ _ Hv), height_pow2, <- (valid_table_zlen _ _ _ _ Hv).
  pose proof Mr as (cur&raw&_&_&_&Hroot).
  destruct (sha256_inj_or _ _ _ (root_input b w k rows) (eq_sym Hroot)) as [E|]; [|by right].
  unfold root_pre in E. apply app_inv_head in E.
  apply header_inj in E as (->&->&->&_); [|done|apply Hv|done|by eapply valid_table_count|done|apply Hv].
  destruct (committed_rows b w k rows Hv (mt_commitment (tree_of b w k rows)) idx (mo_rows o)
    (schedule_of (zlen rows) idx) (sib_digest <$> mo_siblings o)) as [Hsel|]; [done..| |by right].
  by left.
Qed.

(** The opening of a tree at the indices [idx]. *)
Definition opening_of `{Digest} (T : GoldilocksMerkleTreeReference) (idx : list Z)
    : GoldilocksMerkleMultiOpeningReference :=
  MkOpening (mt_binding_digest T) (mt_leaf_count T) (mt_leaf_width T) idx (selected_rows (mt_rows T) idx)
    ((fun c => MkSibling c.1 c.2 (node (mt_binding_digest T) (mt_leaf_width T) (mt_rows T) (Z.to_nat c.1) c.2))
       <$> schedule_of (mt_leaf_count T) idx).

Lemma opening_of_well_formed `{Digest} rv bv T idx :
  from_rows rv bv = Ok T -> valid_indices (mt_leaf_count T) idx -> well_formed_opening (opening_of T idx).
Proof.
  intros (b&rows&w&k&->&_&Hv&->)%from_rows_ok Hidx.
  cbn [mt_rows mt_binding_digest mt_leaf_width mt_leaf_count tree_of] in *.
  split; cbn; [|by unfold selected_rows; rewrite length_fmap].
  eapply Forall2_Forall_r; [exact (selected_rows_lookup b w k rows Hv idx Hidx)|].
  apply Forall_forall. by intros i _ row [_ ?].
Qed.

(** A tree opens what its schedule allows; the verifier accepts the opening when
    its backend serves rows of that width. *)
Lemma tree_opens `{Digest} `{MultiopenBackend} `{!MultiopenLaws} rv bv T v idx :
  from_rows rv bv = Ok T -> denotes_ints v idx -> valid_indices (mt_leaf_count T) idx ->
  zlen (schedule_of (mt_leaf_count T) idx) <= MAX_GOLDILOCKS_MERKLE_REFERENCE_LEAF_COUNT ->
  tree_open T v = Ok (opening_of T idx)
  /\ (verify_goldilocks_merkle_multiopening_reference (PBytes (mt_commitment T)) (Some (opening_of T idx))
        (PBytes (mt_binding_digest T)) (PInt (mt_leaf_count T)) (PInt (mt_leaf_width T)) v = Ok tt
      <-> served (mt_leaf_width T) = true).
Proof.
  intros HT Hden Hidx Hlen. pose proof (opening_of_well_formed _ _ _ _ HT Hidx) as Hwf.
  apply from_rows_ok in HT as (b&rows&w&k&->&_&Hv&->).
  cbn [mt_rows mt_binding_digest mt_leaf_width mt_leaf_count mt_commitment tree_of] in *.
  split; [by apply (open_ok b w k rows Hv)|]. rewrite verify_ok by done. split.
  { intros (root&b'&n&w'&idx'&[_ _ [[= <-] _] _ _]&_&Hs). exact Hs. }
  intros Hs. eexists _, b, (zlen rows), w, idx. split; [|split; [|done]].
  - split; [split; [done|apply Hv]|split; [done|by eapply valid_table_count]|
      split; [done|apply Hv]|done|split; [done|apply sha256_length]].
  - assert (forall cs, sib_digest <$> ((fun c => MkSibling c.1 c.2 (node b w rows (Z.to_nat c.1) c.2)) <$> cs)
      = honest_digests b w rows cs) as Hdig.
    { intros cs. unfold honest_digests. by rewrite <- list_fmap_compose. }
    split; try done; cbn [mo_siblings mo_rows opening_of mt_rows mt_binding_digest mt_leaf_width mt_leaf_count tree_of].
    + unfold coordinates. rewrite <- list_fmap_compose. rewrite <- (list_fmap_id (schedule_of _ idx)) at 2.
      apply list_fmap_ext. by intros _ [] _.
    + rewrite Hdig. unfold honest_digests. apply Forall_fmap.
      pose proof (schedule_bounds k 0 (list_to_set idx)) as Hsb. unfold schedule_of.
      rewrite (valid_table_zlen _ _ _ _ Hv) in Hidx |- *. rewrite height_pow2.
      eapply Forall_impl; [by apply Hsb, valid_indices_below|]. intros [l i] [Hl Hi]. cbn in *.
      apply (node_bytes32 b w k rows Hv); [lia|].
      by replace (Z.of_nat (k - Z.to_nat l)) with (Z.of_nat k - (l - 0)) by lia.
    + rewrite Hdig. by apply honest_run.
Qed.

(** C9 (Merkle binding).  An opening that the verifier accepts against the
    commitment of an honestly built tree is for that tree's binding digest, leaf
    count and leaf width, and reveals exactly the committed rows at the queried
    indices; otherwise it exhibits a string that collides with one of the
    strings hashed to build the tree. *)
Theorem merkle_binding `{Digest} `{MultiopenBackend} `{!MultiopenLaws} rv bv T o eb en ew ei :
  from_rows rv bv = Ok T -> well_formed_opening o ->
  verify_goldilocks_merkle_multiopening_reference (PBytes (mt_commitment T)) (Some o) eb en ew ei
    = Ok tt ->
  (eb = PBytes (mt_binding_digest T) /\ en = PInt (mt_leaf_count T) /\ ew = PInt (mt_leaf_width T)
   /\ denotes_ints ei (mo_indices o)
   /\ Forall2 (fun i row => mt_rows T !! Z.to_nat i = Some row) (mo_indices o) (mo_rows o))
  \/ second_preimage (inputs_of_tree T).
Proof.
  intros HT Hwf Hver. destruct (accepted_opening rv bv T o eb en ew ei HT Hwf Hver) as [(?&?&?&?&_&?)|]; [by left|by right].
Qed.

(** ** Commitments bind whole trees *)

Lemma all_indices_valid n : 1 <= n -> valid_indices n (seqZ 0 n).
Proof.
  intros Hn. split; [by intros E%(f_equal length); rewrite length_seqZ in E; simpl in E; lia|].
  assert (forall (m : nat) p q, p < q -> q + Z.of_nat m <= n ->
    increasing_below p n (seqZ q (Z.of_nat m)) = true) as Haux.
  { induction m as [|m IH]; intros p q Hp Hq; [done|].
    rewrite seqZ_cons by lia. cbn [increasing_below].
    rewrite (proj2 (Z.ltb_lt p q)), (proj2 (Z.ltb_lt q n)) by lia. cbn [andb].
    replace (Z.pred (Z.of_nat (S m))) with (Z.of_nat m) by lia. apply IH; lia. }
  specialize (Haux (Z.to_nat n) (-1) 0). rewrite Z2Nat.id in Haux by lia. apply Haux; lia.
Qed.

Lemma selected_all rows : selected_rows rows (seqZ 0 (zlen rows)) = rows.
Proof.
  apply list_eq. intros i. unfold selected_rows. rewrite list_lookup_fmap.
  destruct (decide (i < length rows)%nat) as [Hi|Hi].
  - rewrite lookup_seqZ_lt by (unfold zlen; lia). cbn. rewrite Z.add_0_l, Nat2Z.id.
    by destruct (lookup_lt_is_Some_2 rows i Hi) as [r ->].
  - rewrite lookup_seqZ_ge by (unfold zlen; lia). symmetry. by apply lookup_ge_None_2; lia.
Qed.

(** Two honestly built trees with one commitment are the same tree, up to a
    second preimage. *)
Lemma commitment_binds_tree `{Digest} rv bv T rv' bv' T' :
  from_rows rv bv = Ok T -> from_rows rv' bv' = Ok T' -> mt_commitment T' = mt_commitment T ->
  T' = T \/ second_preimage (inputs_of_tree T).
Proof.
  intros (b&rows&w&k&->&_&Hv&->)%from_rows_ok (b'&rows'&w'&k'&->&_&Hv'&->)%from_rows_ok Hc.
  pose proof (valid_table_zlen _ _ _ _ Hv) as Hz. pose proof (valid_table_zlen _ _ _ _ Hv') as Hz'.
  assert (valid_indices (zlen rows') (seqZ 0 (zlen rows'))) as Hidx.
  { apply all_indices_valid. rewrite Hz'. pose proof (Z.pow_pos_nonneg 2 (Z.of_nat k')). lia. }
  pose proof (honest_run b' w' k' rows' Hv' _ Hidx) as Hrun.
  unfold inputs_of_tree. cbn [mt_rows mt_binding_digest mt_leaf_width mt_leaf_count tree_of].
  rewrite Hz, height_pow2. pose proof Hrun as (cur&raw&_&_&_&Hroot). rewrite Hc in Hroot.
  destruct (sha256_inj_or _ _ _ (root_input b w k rows) (eq_sym Hroot)) as [E|]; [|by right].
  unfold root_pre in E. apply app_inv_head in E.
  apply header_inj in E as (->&En&->&_);
    [|apply Hv'|apply Hv|by eapply valid_table_count|by eapply valid_table_count|apply Hv'|apply Hv].
  assert (k' = k) as ->.
  { rewrite Hz, Hz' in En. apply Z.pow_inj_r in En; lia. }
  rewrite Hc in Hrun. rewrite En in Hrun, Hidx.
  destruct (committed_rows b w k rows Hv (mt_commitment (tree_of b w k rows))
    (seqZ 0 (zlen rows)) (selected_rows rows' (seqZ 0 (zlen rows)))
    (schedule_of (zlen rows) (seqZ 0 (zlen rows)))
    (honest_digests b w rows' (schedule_of (zlen rows) (seqZ 0 (zlen rows))))) as [Hsel|];
    [done|done|done| |done| |by right].
  { unfold honest_digests. apply Forall_fmap.
    pose proof (schedule_bounds k 0 (list_to_set (seqZ 0 (zlen rows)))) as Hsb. unfold schedule_of.
    rewrite Hz, height_pow2 in *. eapply Forall_impl; [by apply Hsb, valid_indices_below|].
    intros [l i] [Hl Hi]. cbn in *. apply (node_bytes32 b w k rows' Hv'); [lia|].
    by replace (Z.of_nat (k - Z.to_nat l)) with (Z.of_nat k - (l - 0)) by lia. }
  left. f_equal. transitivity (selected_rows rows' (seqZ 0 (zlen rows))).
  { rewrite <- En. symmetry. apply selected_all. }
  transitivity (selected_rows rows (seqZ 0 (zlen rows))); [|apply selected_all].
  apply Forall2_eq_fmap. eapply Forall2_impl; [exact Hsel|]. by intros i row ->.
Qed.

(** (Merkle construction).  [from_rows] succeeds exactly on a table of
    [2 ^ k] rows of one width, all canonical and within the caps, under a
    32-byte binding; it then returns the tree whose levels are the iterated
    parent hashes of the leaf hashes and whose commitment is the hash of the
    header and root.  Every other input raises. *)
Theorem merkle_construction `{Digest} rv bv T :
  from_rows rv bv = Ok T <->
  exists b rows w k, bv = PBytes b /\ denotes_rows rv rows /\ valid_table b w k rows
                     /\ T = tree_of b w k rows.
Proof. apply from_rows_ok. Qed.

(** ** Witnesses *)

#[local] Existing Instance checksum_digest.

Definition example_rows : list (list Z) := [[5]; [7]; [11]; [13]].
Definition example_tree : GoldilocksMerkleTreeReference := tree_of (zero_bytes 32) 1 2 example_rows.
Definition example_opening : GoldilocksMerkleMultiOpeningReference :=
  match tree_open (H0 := no_compiler) example_tree (py_ints [1; 2]) with
  | Ok o => o
  | Err _ => MkOpening [] 0 0 [] [] []
  end.

Lemma example_from_rows :
  from_rows (py_rows example_rows) (PBytes (zero_bytes 32)) = Ok example_tree.
Proof. vm_compute. reflexivity. Qed.

Lemma example_well_formed : well_formed_opening example_opening.
Proof.
  assert (mo_rows example_opening = [[7]; [11]]) as Er by (vm_compute; reflexivity).
  assert (mo_leaf_width example_opening = 1) as Ew by (vm_compute; reflexivity).
  assert (mo_indices example_opening = [1; 2]) as Ei by (vm_compute; reflexivity).
  split; rewrite Er; [rewrite Ew|by rewrite Ei].
  repeat constructor; by vm_compute.
Qed.

Lemma merkle_binding_witness :
  mo_rows example_opening = [[7]; [11]] /\
  ((PBytes (zero_bytes 32) = PBytes (mt_binding_digest example_tree)
    /\ PInt 4 = PInt (mt_leaf_count example_tree) /\ PInt 1 = PInt (mt_leaf_width example_tree)
    /\ denotes_ints (py_ints [1; 2]) (mo_indices example_opening)
    /\ Forall2 (fun i row => mt_rows example_tree !! Z.to_nat i = Some row)
         (mo_indices example_opening) (mo_rows example_opening))
   \/ second_preimage (inputs_of_tree example_tree)).
Proof.
  split; [vm_compute; reflexivity|].
  pose proof (merkle_binding (H := checksum_digest) (H0 := no_compiler) (py_rows example_rows)
    (PBytes (zero_bytes 32)) example_tree example_opening (PBytes (zero_bytes 32)) (PInt 4) (PInt 1)
    (py_ints [1; 2]) example_from_rows example_well_formed) as Hbinding.
  refine (Hbinding _). vm_compute. reflexivity.
Defined.
