(* ===== verification/MultiopenTheory.v ===== *)
(** * The compiled reconstruction against the Python one

    The C code keeps an array of entries sorted by index where the Python code
    keeps a dict; on the inputs that the verifier has checked the two walk
    through the same levels.  They differ in one place: the C code hashes a leaf
    in a buffer of 448 bytes and refuses wider rows. *)

From Stdlib Require Import ZArith Lia.
From stdpp Require Import base gmap list strings sorting.
From coqutil Require Import Word.LittleEndianList.
From S2P Require Import Prelude Sha256 Field Merkle MerkleTheory Multiopen MerkleBinding.

Local Open Scope Z_scope.

(** ** Strictly increasing lists *)

Notation increasing := (StronglySorted Z.lt).

Lemma increasing_le l : increasing l -> StronglySorted Z.le l.
Proof. induction 1 as [|x l _ IH Hx]; constructor; [done|]. eapply Forall_impl; [exact Hx|simpl; lia]. Qed.

Lemma increasing_nodup l : increasing l -> NoDup l.
Proof.
  induction 1 as [|x l _ IH Hx]; constructor; [|done]. intros Hin. rewrite Forall_forall in Hx. specialize (Hx x Hin). lia.
Qed.

(** An increasing list is determined by its elements. *)
Lemma increasing_unique l l' : increasing l -> increasing l' -> (forall x, x ∈ l <-> x ∈ l') -> l = l'.
Proof.
  intros Hl Hl' Hx. apply (StronglySorted_unique Z.le); [by apply increasing_le..|].
  apply NoDup_Permutation; [by apply increasing_nodup..|done].
Qed.

Lemma sorted_elements_increasing (s : gset Z) : increasing (merge_sort Z.le (elements s)).
Proof.
  assert (NoDup (merge_sort Z.le (elements s))) as Hd by (rewrite merge_sort_Permutation; apply NoDup_elements).
  pose proof (Sorted_merge_sort Z.le (elements s)) as Hs. apply Sorted_StronglySorted in Hs; [|intros x y z; lia].
  induction Hs as [|x l Hs IH Hx]; [constructor|]. apply NoDup_cons in Hd as [Hn Hd]. constructor; [by apply IH|].
  rewrite Forall_forall in Hx |- *. intros y Hy. specialize (Hx y Hy).
  destruct (decide (x = y)) as [->|]; [done|lia].
Qed.

Lemma increasing_below_sorted p n l : increasing_below p n l = true -> increasing l.
Proof.
  revert p. induction l as [|x l IH]; intros p Hl; [constructor|]. cbn [increasing_below] in Hl.
  apply andb_true_iff in Hl as [_ Hl]. constructor; [by eapply IH|].
  apply increasing_bounds in Hl as [Hf _]. eapply Forall_impl; [exact Hf|simpl; lia].
Qed.

(** ** Sibling coordinates *)

Lemma shiftr_1 x : Z.shiftr x 1 = parent x.
Proof. unfold parent. by rewrite Z.shiftr_div_pow2. Qed.

Lemma sibling_double p : sibling (2 * p) = 2 * p + 1.
Proof. destruct (sibling_cases (2 * p)) as [[? E]|[? E]]; lia. Qed.

Lemma parent_double p : parent (2 * p) = p.
Proof. destruct (sibling_cases (2 * p)) as [[? E]|[? E]]; lia. Qed.

Lemma parent_sibling i : parent (sibling i) = parent i.
Proof. pose proof (sibling_cases (sibling i)) as Hc. rewrite sibling_involutive in Hc. pose proof (sibling_cases i). lia. Qed.

Lemma sibling_of_consecutive x y : x < y -> y <> sibling x -> sibling x < sibling y /\ x < sibling y.
Proof. intros Hxy Hne. destruct (sibling_cases x) as [[? E]|[? E]], (sibling_cases y) as [[? E']|[? E']]; lia. Qed.

Lemma sibling_near x : sibling x = x + 1 \/ sibling x = x - 1.
Proof. destruct (sibling_cases x) as [[? E]|[? E]]; lia. Qed.

Lemma head_or_not x rest : increasing (x :: rest) -> (head rest = Some (sibling x) <-> sibling x ∈ rest /\ x < sibling x).
Proof.
  intros [Hs Hx]%StronglySorted_inv. rewrite Forall_forall in Hx. split.
  - destruct rest as [|y rest]; [done|]. intros [= E]. specialize (Hx y). set_solver.
  - intros [Hin Hlt]. destruct rest as [|y rest]; [set_solver|]. cbn. f_equal.
    apply StronglySorted_inv in Hs as [_ Hy]. rewrite Forall_forall in Hy.
    apply elem_of_cons in Hin as [E|Hin]; [done|]. specialize (Hy _ Hin). specialize (Hx y ltac:(set_solver)).
    destruct (sibling_near x); lia.
Qed.

Lemma elem_of_partners cur previous y :
  increasing cur -> Forall (fun x => from_option (fun p => p < x) True previous) cur ->
  y ∈ partners previous cur <-> sibling y ∈ cur /\ y ∉ cur /\ previous <> Some y.
Proof.
  intros Hs. revert previous. induction Hs as [|x rest Hs IH Hx]; intros previous Hp; [set_solver|].
  apply Forall_cons in Hp as [Hpx Hp]. cbn [partners]. fold (sibling x).
  assert (Forall (fun z => from_option (fun p => p < z) True (Some x)) rest) as Hp' by exact Hx.
  specialize (IH (Some x) Hp'). pose proof (head_or_not x rest ltac:(by constructor)) as Hh.
  rewrite Forall_forall in Hx.
  assert (forall z, z ∈ rest -> previous <> Some (sibling z)) as Hprev.
  { intros z Hz ->. cbn in *. specialize (Hx z Hz). destruct (sibling_near z); lia. }
  assert (y ∈ partners (Some x) rest <-> sibling y ∈ rest /\ y ∉ rest /\ y <> x) as IH'.
  { rewrite IH. split; intros (?&?&?); split_and!; congruence. }
  clear IH. assert (y = sibling x <-> sibling y = x) as Hswap.
  { split; [intros ->; apply sibling_involutive|intros <-; by rewrite sibling_involutive]. }
  assert (sibling y ∈ rest -> previous <> Some y) as Hpy.
  { intros Hy. rewrite <- (sibling_involutive y). by apply Hprev. }
  assert (sibling x <> x) by (destruct (sibling_near x); lia).
  assert (previous = Some (sibling x) -> sibling x < x) as Hpl by (intros ->; done).
  assert (sibling x ∈ rest -> x < sibling x) as Hrl by apply Hx.
  repeat case_bool_decide; cbn [orb]; rewrite ?elem_of_cons, IH', ?not_elem_of_cons;
    destruct (decide (y = sibling x)) as [->|]; rewrite ?sibling_involutive in *; naive_solver lia.
Qed.

Lemma partners_increasing cur previous :
  increasing cur -> Forall (fun x => from_option (fun p => p < x) True previous) cur -> increasing (partners previous cur).
Proof.
  intros Hs. revert previous. induction Hs as [|x rest Hs IH Hx]; intros previous Hp; [constructor|].
  cbn [partners]. fold (sibling x). specialize (IH (Some x) Hx).
  pose proof (head_or_not x rest ltac:(by constructor)) as Hh. case_match eqn:E; [done|].
  apply orb_false_iff in E as [_ E%bool_decide_eq_false]. constructor; [done|]. apply Forall_forall. intros y Hy.
  apply elem_of_partners in Hy as (Hy&_&_); [|done..]. rewrite Forall_forall in Hx. specialize (Hx _ Hy).
  rewrite <- (sibling_involutive y). apply (sibling_of_consecutive x (sibling y)); [done|]. intros Ey. rewrite Ey in *. tauto.
Qed.

Lemma partners_ok cur : increasing cur -> partners None cur = missing_siblings (list_to_set cur).
Proof.
  intros Hs. assert (Forall (fun x => from_option (fun p => p < x) True None) cur) as Hp by (apply Forall_true; intros; exact I).
  apply increasing_unique; [by apply partners_increasing|apply sorted_elements_increasing|].
  intros y. rewrite elem_of_partners, elem_of_missing_siblings, !elem_of_list_to_set by done. naive_solver.
Qed.

Lemma parent_le x y : x <= y -> parent x <= parent y.
Proof. intros Hxy. apply Z.div_le_mono; lia. Qed.

Lemma dedupe_spec cur previous :
  increasing cur -> Forall (fun x => from_option (fun p => p <= parent x) True previous) cur ->
  increasing (dedupe_parents previous cur) /\
  (forall p, p ∈ dedupe_parents previous cur <-> previous <> Some p /\ exists x, x ∈ cur /\ p = parent x) /\
  Forall (fun p => from_option (fun q => q < p) True previous) (dedupe_parents previous cur).
Proof.
  intros Hs. revert previous. induction Hs as [|x rest Hs IH Hx]; intros previous Hp.
  { split_and!; [constructor|set_solver|constructor]. }
  apply Forall_cons in Hp as [Hpx Hp]. cbn [dedupe_parents]. rewrite shiftr_1.
  case_bool_decide as E.
  - destruct (IH previous Hp) as (Hi&He&Hf). split_and!; [done| |done]. intros p. rewrite He. set_solver.
  - destruct (IH (Some (parent x))) as (Hi&He&Hf).
    { eapply Forall_impl; [exact Hx|]. intros y Hy. apply parent_le. simpl in Hy. lia. }
    split_and!; [by constructor| |].
    + intros p. rewrite elem_of_cons, He. split.
      * intros [->|(Hne&y&Hy&->)]; [set_solver|]. split; [|set_solver]. intros ->.
        rewrite Forall_forall in Hp, Hx. specialize (Hx y Hy). specialize (Hp y Hy). cbn in *.
        pose proof (parent_le x y). assert (parent y = parent x) by lia. congruence.
      * intros (Hne&y&Hy&->). destruct (decide (parent y = parent x)); [by left|right].
        split; [congruence|]. set_solver.
    + constructor.
      * destruct previous as [q|]; [|done]. cbn in *. assert (q <> parent x) by congruence. lia.
      * destruct previous as [q|]; [|apply Forall_true; intros; exact I]. cbn in *.
        eapply Forall_impl; [exact Hf|]. simpl. lia.
Qed.

Lemma dedupe_ok cur :
  increasing cur -> increasing (dedupe_parents None cur)
  /\ (list_to_set (dedupe_parents None cur) : gset Z) = set_map parent (list_to_set cur : gset Z).
Proof.
  intros Hs. destruct (dedupe_spec cur None Hs) as (Hi&He&_); [apply Forall_true; intros; exact I|]. split; [done|].
  apply set_eq. intros p. rewrite elem_of_list_to_set, He, elem_of_map. set_solver.
Qed.

Lemma pow2_S_gt m : (2 ^ Z.of_nat (S m) <=? 1) = false.
Proof. apply Z.leb_gt. rewrite Nat2Z.inj_succ, Z.pow_succ_r by lia. pose proof (Z.pow_pos_nonneg 2 (Z.of_nat m)). lia. Qed.

Lemma pow2_half m : Z.shiftr (2 ^ Z.of_nat (S m)) 1 = 2 ^ Z.of_nat m.
Proof. rewrite Z.shiftr_div_pow2, Nat2Z.inj_succ, Z.pow_succ_r, Z.mul_comm, Z.pow_1_r, Z.div_mul by lia. done. Qed.

Lemma coordinates_loop_ok fuel m level cur :
  (m < fuel)%nat -> increasing cur ->
  coordinates_loop fuel (2 ^ Z.of_nat m) level cur = sibling_schedule m level (list_to_set cur).
Proof.
  revert m level cur. induction fuel as [|fuel IH]; intros m level cur Hm Hs; [lia|].
  destruct m as [|m]; [done|]. cbn [coordinates_loop sibling_schedule].
  rewrite pow2_S_gt, pow2_half, partners_ok by done. f_equal.
  destruct (dedupe_ok cur Hs) as [Hi <-]. apply IH; [lia|done].
Qed.

(** The C schedule is the Python one. *)
Lemma sibling_coordinates_ok n idx coords :
  valid_leaf_count n -> valid_indices n idx -> sibling_coordinates n idx = Some coords -> coords = schedule_of n idx.
Proof.
  intros (k&Hk&->) [_ Hi]. unfold sibling_coordinates. destruct (_ <? _); [discriminate|]. intros E%(inj Some). rewrite <- E.
  unfold schedule_of. rewrite height_pow2. apply coordinates_loop_ok; [unfold INT64_HALVINGS; lia|].
  by eapply increasing_below_sorted.
Qed.

(** ** Entries and dicts *)

(** The array holds the entries of the dict, sorted by index. *)
Definition tracks (work : list entry) (cur : gmap Z bytes) : Prop :=
  increasing work.*1 /\ forall i d, (i, d) ∈ work <-> cur !! i = Some d.

Lemma elem_of_fst (work : list entry) i d : (i, d) ∈ work -> i ∈ work.*1.
Proof. intros Hin. apply list_elem_of_fmap. by exists (i, d). Qed.

Lemma tracks_dom work cur i : tracks work cur -> i ∈ work.*1 <-> i ∈ dom cur.
Proof.
  intros [_ Hw]. rewrite list_elem_of_fmap, elem_of_dom. split.
  - intros ([j d]&->&Hin). exists d. by apply Hw.
  - intros [d Hd%Hw]. by exists (i, d).
Qed.

Lemma shift_up_perm s d work : shift_up s d work ≡ₚ (s, d) :: work.
Proof.
  induction work as [|[i x] work IH]; [done|]. cbn [shift_up]. destruct (s <? i); [|done].
  etransitivity; [exact (perm_skip (i, x) IH)|apply Permutation_swap].
Qed.

Lemma shift_up_sorted s d work :
  StronglySorted Z.gt work.*1 -> s ∉ work.*1 -> StronglySorted Z.gt (shift_up s d work).*1.
Proof.
  induction work as [|[i x] work IH]; intros Hs Hn; [by repeat constructor|]. cbn [fmap list_fmap shift_up] in *.
  apply StronglySorted_inv in Hs as [Hs Hi]. apply not_elem_of_cons in Hn as [Hne Hn]. simpl in Hne, Hi.
  destruct (Z.ltb_spec s i); cbn [fmap list_fmap fst].
  - constructor; [by apply IH|]. apply Forall_forall. intros y. change (list_fmap _ _ fst ?l) with (l.*1).
    rewrite shift_up_perm. intros [->|Hy]%elem_of_cons; [simpl; lia|]. rewrite Forall_forall in Hi. by apply Hi.
  - constructor; [by constructor|]. constructor; [lia|]. eapply Forall_impl; [exact Hi|simpl; lia].
Qed.

Lemma StronglySorted_reverse {A} (R : relation A) l : StronglySorted R l -> StronglySorted (flip R) (reverse l).
Proof.
  induction 1 as [|x l _ IH Hx]; [constructor|]. rewrite reverse_cons. apply StronglySorted_app_2; [|done|by repeat constructor].
  intros y z Hy ->%list_elem_of_singleton. rewrite elem_of_reverse in Hy. rewrite Forall_forall in Hx. by apply Hx.
Qed.

Lemma insert_tracks work cur s d :
  tracks work cur -> cur !! s = None -> tracks (insert_entry s d work) (<[s := d]> cur).
Proof.
  intros Ht Hs. pose proof Ht as [Hi Hw].
  assert (s ∉ work.*1) as Hn by (rewrite (tracks_dom work cur s Ht), not_elem_of_dom; done).
  unfold insert_entry. split.
  - rewrite fmap_reverse.
    assert (StronglySorted Z.gt (shift_up s d (reverse work)).*1) as Hg.
    { apply shift_up_sorted; rewrite fmap_reverse; [|by rewrite elem_of_reverse].
      apply StronglySorted_reverse in Hi. clear -Hi. induction Hi as [|x l _ IH Hx]; constructor; [done|].
      eapply Forall_impl; [exact Hx|]. unfold flip. intros. lia. }
    apply StronglySorted_reverse in Hg. clear -Hg. induction Hg as [|x l _ IH Hx]; constructor; [done|].
    eapply Forall_impl; [exact Hx|]. unfold flip. intros. lia.
  - intros i x. rewrite elem_of_reverse, shift_up_perm, elem_of_cons, elem_of_reverse, Hw, lookup_insert_Some.
    split; [intros [[= -> ->]|Hx]; [by left|right; split; [congruence|done]]|]. intros [[-> ->]|[_ ?]]; [by left|by right].
Qed.

(** The siblings of one level. *)
Lemma merge_ok l xs ds rest rest_ds work cur :
  length ds = length xs -> NoDup xs -> (forall x, x ∈ xs -> cur !! x = None) ->
  Forall (fun s : sibling_node => s.1.1 <> l) rest -> tracks work cur ->
  exists work' cur', merge_siblings l (zip (pair l <$> xs) ds ++ rest) work = (work', rest)
    /\ insert_siblings cur xs (ds ++ rest_ds) = Ok (cur', rest_ds) /\ tracks work' cur'.
Proof.
  revert ds work cur. induction xs as [|x xs IH]; intros [|d ds] work cur Hlen Hd Hn Hrest Ht; try discriminate.
  - exists work, cur. split_and!; [|done..]. destruct Hrest as [|[[l' i] d] rest Hne _]; [done|].
    cbn in *. by rewrite (proj2 (Z.eqb_neq l' l)).
  - apply NoDup_cons in Hd as [Hx Hd].
    destruct (IH ds (insert_entry x d work) (<[x := d]> cur)) as (work'&cur'&Hm&Hi&Ht').
    + by injection Hlen.
    + done.
    + intros y Hy. rewrite lookup_insert_ne by (intros ->; done). apply Hn. set_solver.
    + done.
    + apply insert_tracks; [done|]. apply Hn. set_solver.
    + exists work', cur'. split_and!; [|done|done]. cbn [fmap list_fmap zip_with app merge_siblings].
      by rewrite Z.eqb_refl.
Qed.

(** ** Levels *)

Lemma even_land i : i = 2 * parent i -> Z.land i 1 = 0.
Proof. intros ->. change 1 with (Z.ones 1). rewrite Z.land_ones, Z.mul_comm by lia. by apply Z.mod_mul. Qed.

Section levels.
Context `{Digest} (np : bytes).

Definition parent_digest (l p : Z) (x y : bytes) : bytes :=
  sha256 (np ++ pack_I (l + 1) ++ pack_I p ++ x ++ y).

(** On a sorted array closed under siblings, every parent gets its digest. *)
Lemma pair_up_ok l work :
  increasing work.*1 -> (forall i, i ∈ work.*1 -> sibling i ∈ work.*1) ->
  exists ps, pair_up np l work = Some ps /\ increasing ps.*1 /\
    forall p d, (p, d) ∈ ps <-> exists x y, (2 * p, x) ∈ work /\ (2 * p + 1, y) ∈ work /\ d = parent_digest l p x y.
Proof.
  remember (length work) as len eqn:E. assert (length work <= len)%nat as Hlen by lia. clear E. revert work Hlen.
  induction len as [|len IH]; intros work Hlen Hs Hc.
  { destruct work; [|simpl in Hlen; lia]. exists []. split_and!; [done|constructor|]. set_solver. }
  destruct work as [|[i x] work]; [exists []; split_and!; [done|constructor|set_solver]|].
  cbn [fmap list_fmap fst] in Hs, Hc. change (list_fmap _ _ fst ?l) with (l.*1) in *.
  apply StronglySorted_inv in Hs as [Hs Hi]. rewrite Forall_forall in Hi.
  assert (sibling i ∈ work.*1) as Hsi.
  { pose proof (Hc i ltac:(set_solver)) as Hin. apply elem_of_cons in Hin as [E|Hin]; [destruct (sibling_near i); lia|done]. }
  destruct (sibling_cases i) as [[Ei Es]|[Ei Es]]; [|specialize (Hi _ Hsi); lia].
  destruct work as [|[j y] work]; [set_solver|]. cbn [fmap list_fmap fst] in Hs, Hc, Hi, Hsi.
  change (list_fmap _ _ fst ?l) with (l.*1) in *. apply StronglySorted_inv in Hs as [Hs Hj]. rewrite Forall_forall in Hj.
  assert (j = 2 * parent i + 1) as ->.
  { specialize (Hi j ltac:(set_solver)). apply elem_of_cons in Hsi as [?|Hsi]; [lia|]. specialize (Hj _ Hsi). lia. }
  destruct (IH work) as (ps&Hps&Hinc&Hin); [simpl in Hlen; lia|done| |].
  { intros z Hz. specialize (Hj z Hz). pose proof (Hc z ltac:(set_solver)) as Hin. apply elem_of_cons in Hin as [Ez|[Ez|Hin]%elem_of_cons].
    - apply (f_equal sibling) in Ez. rewrite sibling_involutive in Ez. lia.
    - rewrite <- Es in Ez. apply (inj sibling) in Ez. lia.
    - done. }
  exists ((parent i, parent_digest l (parent i) x y) :: ps). cbn [pair_up].
  rewrite (proj2 (Z.eqb_eq (2 * parent i + 1) (i + 1))), even_land, Hps, shiftr_1 by lia. cbn [negb orb Z.eqb mbind option_bind].
  assert (forall p, p ∈ ps.*1 -> parent i < p) as Hlt.
  { intros p ([p' d]&->&(x'&y'&Hx&_&_)%Hin)%list_elem_of_fmap. cbn [fst].
    specialize (Hj (2 * p') ltac:(by eapply elem_of_fst)). lia. }
  split_and!; [done|constructor; [done|by apply Forall_forall]|]. intros p d. rewrite elem_of_cons, Hin. split.
  - intros [[= -> ->]|(x'&y'&Hx&Hy&->)]; [exists x, y|exists x', y'; set_solver].
    rewrite <- Ei. split_and!; [set_solver..|done].
  - intros (x'&y'&Hx&Hy&->). destruct (decide (p = parent i)) as [->|Hne].
    + left. f_equal. rewrite <- Ei in Hx. f_equal.
      * apply elem_of_cons in Hx as [[=]|[[=]|Hx]%elem_of_cons]; [done|lia|].
        specialize (Hj i ltac:(by eapply elem_of_fst)). lia.
      * apply elem_of_cons in Hy as [[=]|[[=]|Hy]%elem_of_cons]; [lia|done|].
        specialize (Hj (2 * parent i + 1) ltac:(by eapply elem_of_fst)). lia.
    + right. exists x', y'.
      apply elem_of_cons in Hx as [[= ? _]|[[= ? _]|Hx]%elem_of_cons]; [lia..|].
      apply elem_of_cons in Hy as [[= ? _]|[[= ? _]|Hy]%elem_of_cons]; [lia..|]. done.
Qed.

Lemma tracks_intro work cur :
  increasing work.*1 -> Forall (fun e : entry => cur !! e.1 = Some e.2) work -> dom cur = list_to_set work.*1 ->
  tracks work cur.
Proof.
  intros Hi Hf Hd. rewrite Forall_forall in Hf. split; [done|]. intros i d. split; [by intros Hin%Hf|].
  intros Hid. assert (i ∈ dom cur) as Hin by by apply elem_of_dom.
  rewrite Hd, elem_of_list_to_set, list_elem_of_fmap in Hin. destruct Hin as ([j d']&->&Hin).
  pose proof (Hf _ Hin) as Hj. cbn in *. congruence.
Qed.

(** The parents of a level in both codes. *)
Lemma parents_ok l active work cur :
  tracks work cur -> dom cur = active ∪ list_to_set (missing_siblings active) ->
  exists ps parents, pair_up np l work = Some ps
    /\ parents_loop np l cur (merge_sort Z.le (elements (set_map parent active : gset Z))) ∅ = Ok parents
    /\ dom parents = set_map parent active /\ tracks ps parents.
Proof.
  intros Ht Hd. pose proof Ht as [Hs Hw].
  assert (forall i, i ∈ dom cur <-> i ∈ active \/ sibling i ∈ active) as Hdom.
  { intros i. rewrite Hd, elem_of_union, elem_of_list_to_set, elem_of_missing_siblings.
    destruct (decide (i ∈ active)); tauto. }
  assert (forall p, 2 * p ∈ dom cur <-> p ∈ (set_map parent active : gset Z)) as Hleft.
  { intros p. rewrite Hdom, elem_of_map. split.
    - intros [Hi|Hi]; eexists; (split; [|exact Hi]); by rewrite ?parent_sibling, parent_double.
    - intros (i&->&Hi). destruct (sibling_cases i) as [[E _]|[E E']]; [left; by rewrite <- E|right].
      rewrite <- E'. by rewrite sibling_involutive. }
  assert (forall i, i ∈ dom cur -> sibling i ∈ dom cur) as Hclosed.
  { intros i. rewrite !Hdom, sibling_involutive. tauto. }
  destruct (pair_up_ok l work Hs) as (ps&Hps&Hinc&Hin).
  { intros i. rewrite !(tracks_dom work cur) by done. apply Hclosed. }
  assert (forall p, p ∈ (set_map parent active : gset Z) ->
    exists x y, cur !! (p * 2) = Some x /\ cur !! (p * 2 + 1) = Some y) as Hboth.
  { intros p Hp. apply Hleft in Hp as Hl. apply Hclosed in Hl as Hr.
    rewrite sibling_double in Hr. rewrite (Z.mul_comm p). apply elem_of_dom in Hl as [x Hx], Hr as [y Hy]. eauto. }
  destruct (parents_loop_total np l cur (merge_sort Z.le (elements (set_map parent active : gset Z))) ∅) as [parents Hpar].
  { intros p Hp%elem_of_sorted. destruct (Hboth p Hp) as (x&y&->&->). by split. }
  pose proof (parents_loop_inv _ _ _ _ _ _ Hpar) as (Hdp&_&Hyes).
  assert (dom parents = set_map parent active) as Hdp'.
  { rewrite Hdp, dom_empty_L, union_empty_l_L. apply set_eq. intros p. by rewrite elem_of_list_to_set, elem_of_sorted. }
  exists ps, parents. split_and!; [done..|]. apply tracks_intro; [done| |].
  - apply Forall_forall. intros [p d] (x&y&Hx&Hy&->)%Hin. apply Hw in Hx, Hy.
    destruct (Hyes p) as (x'&y'&Hx'&Hy'&Ho); [apply elem_of_sorted, Hleft, elem_of_dom; eauto|].
    cbn [fst snd]. rewrite Ho. rewrite (Z.mul_comm p) in Hx', Hy'. unfold parent_digest. congruence.
  - rewrite Hdp'. apply set_eq. intros p. rewrite elem_of_list_to_set. split.
    + intros Hp. destruct (Hboth p Hp) as (x&y&Hx&Hy). rewrite (Z.mul_comm p) in Hx, Hy. apply Hw in Hx, Hy.
      eapply elem_of_fst, Hin. eauto 10.
    + intros ([p' d]&->&(x&y&Hx&_&_)%Hin)%list_elem_of_fmap. apply Hw in Hx. apply Hleft, elem_of_dom. eauto.
Qed.

(** The level loops walk together. *)
Lemma reduce_loop_ok fuel m l pre work cur ds :
  (m < fuel)%nat -> tracks work cur -> Forall (fun c => c.1 < l) pre ->
  length ds = length (sibling_schedule m l (dom cur)) ->
  exists work' cur', reduce_loop fuel np (2 ^ Z.of_nat m) l (zip (sibling_schedule m l (dom cur)) ds) work = Some (work', [])
    /\ reconstruct_loop m l np (pre ++ sibling_schedule m l (dom cur)) cur ds = Ok (cur', [])
    /\ tracks work' cur'.
Proof.
  revert m l pre work cur ds. induction fuel as [|fuel IH]; intros m l pre work cur ds Hm Ht Hpre Hlen; [lia|].
  destruct m as [|m]. { exists work, cur. destruct ds; [|discriminate]. by split_and!. }
  cbn [reduce_loop reconstruct_loop]. rewrite pow2_S_gt, pow2_half, at_level_schedule by done.
  cbn [sibling_schedule] in *. set (miss := missing_siblings (dom cur)) in *.
  rewrite length_app, length_fmap in Hlen.
  assert (exists d1 d2, ds = d1 ++ d2 /\ length d1 = length miss) as (d1&d2&->&Hd1).
  { exists (take (length miss) ds), (drop (length miss) ds). split; [by rewrite take_drop|]. rewrite length_take. lia. }
  rewrite zip_with_app by (rewrite length_fmap; done).
  destruct (merge_ok l miss d1 (zip (sibling_schedule m (l + 1) (set_map parent (dom cur))) d2) d2 work cur)
    as (work1&cur1&Hmerge&Hins&Ht1).
  { done. }
  { apply increasing_nodup, sorted_elements_increasing. }
  { intros x [_ Hx]%elem_of_missing_siblings. by apply not_elem_of_dom. }
  { apply Forall_forall. intros [c d] Hin%elem_of_zip_l.
    pose proof (schedule_levels m (l + 1) (set_map parent (dom cur))) as Hsl. rewrite Forall_forall in Hsl.
    specialize (Hsl _ Hin). cbn. lia. }
  { done. }
  rewrite Hmerge, Hins. cbn [mbind res_bind fst snd].
  destruct (parents_ok l (dom cur) work1 cur1 Ht1) as (ps&parents&->&->&Hdp&Htp).
  { by apply insert_siblings_inv in Hins as (?&_&_). }
  cbn [mbind res_bind option_bind]. rewrite app_assoc, <- Hdp.
  apply IH; [lia|done| |].
  - apply Forall_app. split; [eapply Forall_impl; [exact Hpre|simpl; lia]|].
    apply Forall_fmap, Forall_forall. intros x _. simpl. lia.
  - rewrite length_app in Hlen. rewrite Hdp. lia.
Qed.
End levels.

(** ** The root *)

Section root.
Context `{Digest}.

(** From tracking states, the two codes give the same answer. *)
Lemma root_ok np n idx work cur digests :
  valid_leaf_count n -> tracks work cur -> dom cur = list_to_set idx -> length digests = length (schedule_of n idx) ->
  agrees_with
    (match reduce_loop INT64_HALVINGS np n 0 (zip (schedule_of n idx) digests) work with
     | None => inr 2
     | Some ([(index, root)], []) => if index =? 0 then inl root else inr 3
     | Some _ => inr 3
     end)
    (reconstruct np n (schedule_of n idx) cur digests).
Proof.
  intros (k&Hk&->) Ht Hd Hlen. unfold reconstruct, schedule_of in *. rewrite height_pow2, <- Hd in *.
  destruct (reduce_loop_ok np INT64_HALVINGS k 0 [] work cur digests) as (work'&cur'&->&Hrec&Ht');
    [unfold INT64_HALVINGS; lia|done|constructor|done|]. pose proof Ht' as [Hs Hw].
  rewrite app_nil_l in Hrec. rewrite Hrec. cbn [mbind res_bind fst snd]. rewrite (bool_decide_eq_true_2 ([] = [])) by done.
  destruct work' as [|[i d] [|[j d'] work']].
  - cbn [agrees_with]. destruct (cur' !! 0) eqn:E; [|done]. apply Hw in E. set_solver.
  - assert (dom cur' = {[i]}) as Hi.
    { apply set_eq. intros j. rewrite <- (tracks_dom [(i, d)] cur') by done. set_solver. }
    assert (cur' !! i = Some d) as Hc by (apply Hw; set_solver).
    destruct (Z.eqb_spec i 0) as [->|Hne]; cbn [agrees_with].
    + by rewrite Hc, Hi, bool_decide_eq_true_2.
    + destruct (cur' !! 0) eqn:E; [|done]. apply elem_of_dom_2 in E. set_solver.
  - cbn [agrees_with]. destruct (cur' !! 0) as [r|] eqn:E; [|done]. rewrite bool_decide_eq_false_2; [done|]. intros Hd0.
    assert (forall x, x ∈ i :: j :: work'.*1 -> x = 0) as Hall.
    { intros x Hx. apply (elem_of_singleton (C := gset Z)). rewrite <- Hd0. by apply (tracks_dom _ _ x Ht'). }
    cbn in Hs. apply StronglySorted_inv in Hs as [_ Hlt]. apply Forall_cons in Hlt as [Hlt _].
    rewrite (Hall i), (Hall j) in Hlt by set_solver. lia.
Qed.

(** The hashed leaves are the dict of the Python code. *)
Lemma leaf_entries_ok b n w idx rows cur :
  1 <= w <= MAX_GOLDILOCKS_MERKLE_REFERENCE_LEAF_WIDTH -> valid_indices n idx -> Forall (canonical_row w) rows ->
  leaf_digests (leaf_hash_of b n w) idx rows ∅ = Ok cur ->
  tracks (leaf_entries (_LEAF_DOMAIN ++ _tree_header b n w) (Z.to_nat w) idx (concat rows)) cur.
Proof.
  intros Hw Hidx Hr Hl. pose proof (valid_indices_facts _ _ Hidx) as (_&_&Hnd).
  destruct (leaf_digests_inv _ _ _ _ _ Hl Hnd) as (Hd&_&Hf). rewrite dom_empty_L, union_empty_l_L in Hd.
  assert ((leaf_entries (_LEAF_DOMAIN ++ _tree_header b n w) (Z.to_nat w) idx (concat rows)).*1 = idx
    /\ Forall (fun e : entry => cur !! e.1 = Some e.2)
         (leaf_entries (_LEAF_DOMAIN ++ _tree_header b n w) (Z.to_nat w) idx (concat rows))) as [Hfst Hall].
  { clear Hl Hd Hidx Hnd. induction Hf as [|i row idx rows (d&Hh&Hi) Hf IH]; [by split|].
    apply Forall_cons in Hr as [[Hz Hc] Hr]. destruct (IH Hr) as [IHf IHa]. cbn [leaf_entries concat].
    assert (length row = Z.to_nat w) as Hlen by (unfold zlen in Hz; lia).
    rewrite take_app_length', drop_app_length' by done. split; [by cbn; f_equal|]. constructor; [|done].
    cbn [fst snd]. rewrite Hi, leaf_prefix_eq. by apply leaf_hash_inv in Hh as [_ ->]. }
  apply tracks_intro; [|done|by rewrite Hfst]. rewrite Hfst. destruct Hidx as [_ Hi]. by eapply increasing_below_sorted.
Qed.

Lemma leaf_prefix_zlen b n w : bytes32 b -> zlen (_LEAF_DOMAIN ++ _tree_header b n w) = 90.
Proof. intros Hb. unfold zlen, _tree_header. rewrite !length_app, !pack_I_length, Hb. reflexivity. Qed.

Lemma compiled_reconstruct_ok b n w idx rows digests :
  bytes32 b -> valid_leaf_count n -> valid_indices n idx -> 1 <= w <= MAX_GOLDILOCKS_MERKLE_REFERENCE_LEAF_WIDTH ->
  Forall (canonical_row w) rows -> length rows = length idx -> length digests = length (schedule_of n idx) ->
  let np := _NODE_DOMAIN ++ _tree_header b n w in
  let out := reconstruct_multiopen_wn (_LEAF_DOMAIN ++ _tree_header b n w) np n idx (concat rows) w
               (zip (schedule_of n idx) digests) in
  if w <=? 44 then agrees_with out (cur ← leaf_digests (leaf_hash_of b n w) idx rows ∅;
                                    reconstruct np n (schedule_of n idx) cur digests)
  else out = inr 4.
Proof.
  intros Hb Hn Hidx Hw Hr Hlen Hd np out. unfold out, reconstruct_multiopen_wn. rewrite leaf_prefix_zlen by done.
  unfold MSG_SIZE. rewrite (proj2 (Z.ltb_ge w 1)) by lia. cbn [orb].
  destruct (Z.leb_spec w 44); [rewrite (proj2 (Z.ltb_ge _ _)) by lia|by rewrite (proj2 (Z.ltb_lt _ _)) by lia].
  destruct (leaf_digests_total (leaf_hash_of b n w) idx rows ∅) as [cur Hcur].
  { apply Forall2_same_length_lookup_2; [done|]. intros j i row _ Hrow.
    eapply Forall_lookup_1 in Hr; [|exact Hrow]. by rewrite leaf_hash_ok. }
  rewrite Hcur. cbn [mbind res_bind]. apply root_ok; [done|by apply leaf_entries_ok| |done].
  apply leaf_digests_inv in Hcur as (Hdom&_&_); [|by eapply valid_indices_facts]. by rewrite Hdom, dom_empty_L, union_empty_l_L.
Qed.

(** ** The wrappers *)

Lemma u64_array_ok values : Forall canonical values -> u64_array values = Ok values.
Proof.
  intros Hc. unfold u64_array. assert (forallb (fun v => (0 <=? v) && (v <? Z.shiftl 1 64)) values = true) as ->; [|done].
  induction Hc as [|v values [Hv1 Hv2] _ IH]; [done|]. cbn [forallb]. rewrite IH, andb_true_r.
  change GOLDILOCKS_MODULUS with (Z.shiftl 1 64 - 4294967295) in Hv2. apply andb_true_iff. lia.
Qed.

Lemma chunks_of_concat {A} m (ls : list (list A)) fuel :
  (0 < m)%nat -> Forall (fun l => length l = m) ls -> (length (concat ls) <= fuel)%nat ->
  chunks_of fuel m (concat ls) = ls.
Proof.
  intros Hm Hls. revert fuel. induction Hls as [|l ls Hl Hls IH]; intros fuel Hf; [by destruct fuel|].
  cbn [concat] in *. rewrite length_app in Hf. destruct fuel as [|fuel]; [lia|].
  cbn [chunks_of]. destruct (l ++ concat ls) as [|x xs] eqn:E.
  { apply (f_equal length) in E. rewrite length_app in E. simpl in E. lia. }
  rewrite <- E, take_app_length', drop_app_length' by done. rewrite IH by lia. done.
Qed.

Lemma sibling_nodes_ok (coords : list (Z * Z)) digests :
  Forall bytes32 digests -> sibling_nodes coords.*1 coords.*2 (concat digests) = zip coords digests.
Proof. intros Hd. unfold sibling_nodes. by rewrite zip_fst_snd, chunks_of_concat by (exact Hd || lia). Qed.

Lemma canonical_values w rows : Forall (canonical_row w) rows -> Forall canonical (concat rows).
Proof. induction 1 as [|r rows [_ Hc] _ IH]; cbn [concat]; [constructor|]. by apply Forall_app. Qed.

Lemma concat_zlen w rows : Forall (canonical_row w) rows -> zlen (concat rows) = zlen rows * w.
Proof.
  induction 1 as [|r rows [Hz _] _ IH]; [done|]. cbn [concat]. rewrite zlen_cons. unfold zlen in *. rewrite length_app. lia.
Qed.
End root.

(** The machine with a compiler satisfies the interface for rows of at most 44
    values. *)
#[export] Instance compiled_laws `{Digest} : @MultiopenLaws _ compiled_backend.
Proof.
  refine {| served := fun w => w <=? 44 |}; [done|exact sibling_coordinates_ok|].
  intros b n w idx rows digests Hb Hn Hidx Hw Hr Hlen H32 Hd np.
  pose proof (compiled_reconstruct_ok b n w idx rows digests Hb Hn Hidx Hw Hr Hlen Hd) as Hok.
  assert (reconstruct_answer (_LEAF_DOMAIN ++ _tree_header b n w) np n idx w rows (schedule_of n idx) digests
    = Ok (Some (reconstruct_multiopen_wn (_LEAF_DOMAIN ++ _tree_header b n w) np n idx (concat rows) w
                  (zip (schedule_of n idx) digests)))) as ->.
  { unfold reconstruct_answer. cbn [c_reconstruct_w1 c_reconstruct_wn compiled_backend]. unfold reconstruct_w1, reconstruct_wn.
    rewrite u64_array_ok, sibling_nodes_ok by (done || by eapply canonical_values). cbn [mbind res_bind].
    destruct (Z.eqb_spec w 1) as [->|]; [done|].
    rewrite (concat_zlen w) by done. unfold zlen at 1. rewrite Hlen. fold (zlen idx). by rewrite Z.eqb_refl. }
  cbv zeta in Hok. destruct (w <=? 44); [exact Hok|]. by exists 4.
Defined.

(** C23 (Merkle completeness).  For every tree that the code builds and every
    valid set of indices whose sibling schedule is within the cap, opening the
    tree succeeds, with and without a compiler, and gives the same opening, which
    shows the rows of the tree at those indices.  Without a compiler the verifier
    accepts it against the commitment; with one, it accepts it exactly when the
    rows have at most 44 values: the C code hashes a leaf in a buffer of 448
    bytes and refuses wider rows, which the Python code serves up to 4096. *)
Theorem merkle_completeness `{Digest} rv bv T v idx :
  from_rows rv bv = Ok T -> denotes_ints v idx -> valid_indices (mt_leaf_count T) idx ->
  zlen (schedule_of (mt_leaf_count T) idx) <= MAX_GOLDILOCKS_MERKLE_REFERENCE_LEAF_COUNT ->
  exists o,
    tree_open (H0 := no_compiler) T v = Ok o /\ tree_open (H0 := compiled_backend) T v = Ok o
    /\ mo_rows o = selected_rows (mt_rows T) idx
    /\ verify_goldilocks_merkle_multiopening_reference (H0 := no_compiler) (PBytes (mt_commitment T)) (Some o)
         (PBytes (mt_binding_digest T)) (PInt (mt_leaf_count T)) (PInt (mt_leaf_width T)) v = Ok tt
    /\ (verify_goldilocks_merkle_multiopening_reference (H0 := compiled_backend) (PBytes (mt_commitment T)) (Some o)
          (PBytes (mt_binding_digest T)) (PInt (mt_leaf_count T)) (PInt (mt_leaf_width T)) v = Ok tt
        <-> mt_leaf_width T <= 44).
Proof.
  intros HT Hden Hidx Hlen. exists (opening_of T idx).
  destruct (tree_opens (H0 := no_compiler) rv bv T v idx HT Hden Hidx Hlen) as [Ho Hv].
  destruct (tree_opens (H0 := compiled_backend) rv bv T v idx HT Hden Hidx Hlen) as [Ho' Hv'].
  split_and!; [done|done|done|by apply Hv|]. rewrite Hv'. apply Z.leb_le.
Qed.

(** C24 (two reconstructions).  On an opening whose constructor checked it, and
    whatever the verifier expects, the verifier that calls the C code accepts
    exactly what the verifier in Python accepts, among the openings of rows of at
    most 44 values; it accepts no wider row. *)
Theorem merkle_backend_equivalence `{Digest} c o eb en ew ei :
  well_formed_opening o ->
  verify_goldilocks_merkle_multiopening_reference (H0 := compiled_backend) c (Some o) eb en ew ei = Ok tt <->
  verify_goldilocks_merkle_multiopening_reference (H0 := no_compiler) c (Some o) eb en ew ei = Ok tt
  /\ mo_leaf_width o <= 44.
Proof.
  intros Hwf. rewrite !verify_ok by done. cbn [served compiled_laws no_compiler_laws]. split.
  - intros (root&b&n&w&idx&He&Hm&Hw%Z.leb_le). split; [by exists root, b, n, w, idx|]. by rewrite (ma_width _ _ _ _ _ _ Hm).
  - intros ((root&b&n&w&idx&He&Hm&_)&Hw). exists root, b, n, w, idx. split_and!; [done..|].
    rewrite (ma_width _ _ _ _ _ _ Hm) in Hw. by apply Z.leb_le.
Qed.

(** ** Witnesses *)

#[local] Existing Instance checksum_digest.

Lemma merkle_completeness_witness :
  exists o,
    tree_open (H0 := no_compiler) example_tree (py_ints [0; 3]) = Ok o
    /\ tree_open (H0 := compiled_backend) example_tree (py_ints [0; 3]) = Ok o
    /\ mo_rows o = selected_rows (mt_rows example_tree) [0; 3]
    /\ verify_goldilocks_merkle_multiopening_reference (H0 := no_compiler) (PBytes (mt_commitment example_tree)) (Some o)
         (PBytes (mt_binding_digest example_tree)) (PInt (mt_leaf_count example_tree)) (PInt (mt_leaf_width example_tree))
         (py_ints [0; 3]) = Ok tt
    /\ (verify_goldilocks_merkle_multiopening_reference (H0 := compiled_backend) (PBytes (mt_commitment example_tree)) (Some o)
          (PBytes (mt_binding_digest example_tree)) (PInt (mt_leaf_count example_tree)) (PInt (mt_leaf_width example_tree))
          (py_ints [0; 3]) = Ok tt <-> mt_leaf_width example_tree <= 44).
Proof.
  pose proof (merkle_completeness (H := checksum_digest) (py_rows example_rows) (PBytes (zero_bytes 32)) example_tree
    (py_ints [0; 3]) [0; 3] example_from_rows) as Hcomplete.
  refine (Hcomplete _ _ _).
  - by left.
  - split; [done|reflexivity].
  - vm_compute. discriminate.
Defined.

Lemma merkle_backend_equivalence_witness :
  verify_goldilocks_merkle_multiopening_reference (H0 := compiled_backend)
    (PBytes (mt_commitment example_tree)) (Some example_opening)
    (PBytes (zero_bytes 32)) (PInt 4) (PInt 1) (PList [PInt 1; PInt 2]) = Ok tt.
Proof.
  pose proof (merkle_backend_equivalence (H := checksum_digest)
    (PBytes (mt_commitment example_tree)) example_opening (PBytes (zero_bytes 32)) (PInt 4) (PInt 1)
    (PList [PInt 1; PInt 2]) example_well_formed) as Hequiv.
  refine (proj2 Hequiv _). split; [vm_compute; reflexivity|vm_compute; discriminate].
Defined.

(** The two machines on a row of 45 values: Python accepts, the C code does not. *)
Definition wide_tree : GoldilocksMerkleTreeReference := tree_of (zero_bytes 32) 45 1 [seqZ 0 45; seqZ 1 45].

Definition verify_wide (backend : MultiopenBackend) : res unit :=
  o ← tree_open (H0 := backend) wide_tree (py_ints [1]);
  verify_goldilocks_merkle_multiopening_reference (H0 := backend) (PBytes (mt_commitment wide_tree)) (Some o)
    (PBytes (zero_bytes 32)) (PInt 2) (PInt 45) (py_ints [1]).

Example wide_row_verdicts :
  verify_wide no_compiler = Ok tt
  /\ verify_wide compiled_backend = raise ProofV3VerificationError "Merkle opening reconstruction is incomplete".
Proof. split; vm_compute; reflexivity. Qed.
