(* ===== verification/Poly.v ===== *)
(** * Polynomials and multilinear tables over the Goldilocks field

    The algebra shared by the sumcheck, lookup, memory and low-degree
    components: finite sums and products, polynomials as coefficient lists with
    the root bound, and tables of columns folded one variable at a time. *)

From Stdlib Require Import ZArith Lia Zmod Field.
From stdpp Require Import base list sets.
From S2P Require Import Prelude Field.

Declare Scope F_scope.
Delimit Scope F_scope with F.
Infix "+" := (Zmod.add (m := GOLDILOCKS_MODULUS)) : F_scope.
Infix "*" := (Zmod.mul (m := GOLDILOCKS_MODULUS)) : F_scope.
Infix "-" := (Zmod.sub (m := GOLDILOCKS_MODULUS)) : F_scope.
Notation "0" := (Zmod.zero (m := GOLDILOCKS_MODULUS)) : F_scope.
Notation "1" := (Zmod.one (m := GOLDILOCKS_MODULUS)) : F_scope.
Local Open Scope F_scope.

(** ** Sums and products *)

Lemma F_add_0_l (a : F) : 0 + a = a.
Proof. ring. Qed.

Definition fsum (l : list F) : F := foldr (fun a b => a + b) 0 l.
Definition fprod (l : list F) : F := foldr (fun a b => a * b) 1 l.

Lemma fsum_app l k : fsum (l ++ k) = fsum l + fsum k.
Proof. induction l as [|x l IH]; simpl; [ring|]. rewrite IH. ring. Qed.

Lemma fprod_app l k : fprod (l ++ k) = fprod l * fprod k.
Proof. induction l as [|x l IH]; simpl; [ring|]. rewrite IH. ring. Qed.

#[export] Instance fsum_perm : Proper ((≡ₚ) ==> (=)) fsum.
Proof. induction 1; simpl; [done|congruence|ring|congruence]. Qed.

#[export] Instance fprod_perm : Proper ((≡ₚ) ==> (=)) fprod.
Proof. induction 1; simpl; [done|congruence|ring|congruence]. Qed.

Lemma fprod_zero l : fprod l = 0 <-> 0 ∈ l.
Proof.
  induction l as [|x l IH]; simpl.
  - split; [by intros ?%F_one_neq_zero|set_solver].
  - rewrite elem_of_cons, <- IH. split.
    + intros [->|]%F_mul_zero; auto.
    + intros [<-| ->]; ring.
Qed.

(** ** Polynomials *)

Fixpoint peval (p : list F) (x : F) : F :=
  match p with
  | [] => 0
  | c :: p => c + x * peval p x
  end.

Fixpoint padd (p q : list F) : list F :=
  match p, q with
  | [], q => q
  | p, [] => p
  | a :: p, b :: q => (a + b) :: padd p q
  end.

Definition pscale (c : F) (p : list F) : list F := (fun a => c * a) <$> p.

Fixpoint pmul (p q : list F) : list F :=
  match p with
  | [] => []
  | a :: p => padd (pscale a q) (0 :: pmul p q)
  end.

Definition psub (p q : list F) : list F := padd p (pscale (0 - 1) q).

Lemma peval_padd p q x : peval (padd p q) x = peval p x + peval q x.
Proof. revert q. induction p as [|a p IH]; intros [|b q]; simpl; [ring..|]. rewrite IH. ring. Qed.

Lemma peval_pscale c p x : peval (pscale c p) x = c * peval p x.
Proof.
  induction p as [|a p IH]; [simpl; ring|].
  change (pscale c (a :: p)) with ((c * a) :: pscale c p). simpl. rewrite IH. ring.
Qed.

Lemma peval_psub p q x : peval (psub p q) x = peval p x - peval q x.
Proof. unfold psub. rewrite peval_padd, peval_pscale. ring. Qed.

Lemma peval_pmul p q x : peval (pmul p q) x = peval p x * peval q x.
Proof.
  induction p as [|a p IH]; simpl; [ring|]. rewrite peval_padd, peval_pscale. simpl. rewrite IH. ring.
Qed.

Lemma padd_length p q : length (padd p q) = Nat.max (length p) (length q).
Proof. revert q. induction p as [|a p IH]; intros [|b q]; simpl; [done..|]. by rewrite IH. Qed.

Lemma pscale_length c p : length (pscale c p) = length p.
Proof. apply length_fmap. Qed.

Lemma psub_length p q : length (psub p q) = Nat.max (length p) (length q).
Proof. unfold psub. by rewrite padd_length, pscale_length. Qed.

Lemma pmul_length p q : q <> [] -> (length (pmul p q) <= length p + length q - 1)%nat.
Proof.
  intros Hq. assert (0 < length q)%nat by (destruct q; simpl; [done|lia]).
  induction p as [|a p IH]; simpl; [lia|]. rewrite padd_length, pscale_length. simpl.
  destruct p; simpl in *; lia.
Qed.

(** Division by [x - r]. *)
Fixpoint pquot (p : list F) (r : F) : list F :=
  match p with
  | [] => []
  | _ :: p => padd p (pscale r (pquot p r))
  end.

Lemma pquot_length p r : length (pquot p r) = Nat.pred (length p).
Proof.
  induction p as [|a p IH]; simpl; [done|]. rewrite padd_length, pscale_length, IH. lia.
Qed.

Lemma pquot_spec p r x : peval p x = peval p r + (x - r) * peval (pquot p r) x.
Proof.
  induction p as [|a p IH]; simpl; [ring|]. rewrite peval_padd, peval_pscale.
  rewrite IH at 1. rewrite IH. ring.
Qed.

Lemma many_roots rs p :
  NoDup rs -> (length p <= length rs)%nat -> (forall r, r ∈ rs -> peval p r = 0) ->
  forall x, peval p x = 0.
Proof.
  revert p. induction rs as [|r rs IH]; intros p Hnd Hlen Hroots x.
  { destruct p; [done|simpl in Hlen; lia]. }
  apply NoDup_cons in Hnd as [Hr Hnd].
  rewrite (pquot_spec p r), (Hroots r) by set_solver.
  assert (forall y, peval (pquot p r) y = 0) as Hq.
  { apply IH; [done|rewrite pquot_length; simpl in Hlen; lia|]. intros s Hs.
    pose proof (Hroots s ltac:(set_solver)) as H0. rewrite (pquot_spec p r), (Hroots r) in H0 by set_solver.
    assert ((s - r) * peval (pquot p r) s = 0) as Hm by (rewrite <- H0; ring).
    apply F_mul_zero in Hm as [->%F_sub_zero|]; done. }
  rewrite Hq. ring.
Qed.

(** Two polynomials with [d] coefficients that are different functions agree at
    fewer than [d] points. *)
Lemma agreement_bound d p q rs x :
  (length p <= d)%nat -> (length q <= d)%nat -> peval p x <> peval q x ->
  NoDup rs -> (forall r, r ∈ rs -> peval p r = peval q r) -> (length rs < d)%nat.
Proof.
  intros Hp Hq Hne Hnd Hag. destruct (decide (length rs < d)%nat) as [|Hge]; [done|exfalso].
  apply Hne, F_sub_zero. rewrite <- peval_psub. apply (many_roots rs); [done| |].
  - rewrite psub_length. lia.
  - intros r Hr. rewrite peval_psub. by apply F_sub_zero, Hag.
Qed.

(** A function given by a polynomial of [d] coefficients. *)
Definition is_poly (d : nat) (f : F -> F) : Prop :=
  exists p, (length p <= d)%nat /\ forall x, f x = peval p x.

Lemma is_poly_const d c : (1 <= d)%nat -> is_poly d (fun _ => c).
Proof. exists [c]. split; [done|]. intros x. simpl. ring. Qed.

Lemma is_poly_zero d : is_poly d (fun _ => 0).
Proof. exists []. split; [simpl; lia|done]. Qed.

Lemma is_poly_ext d f g : (forall x, f x = g x) -> is_poly d f -> is_poly d g.
Proof. intros Hfg (p&Hp&Hf). exists p. split; [done|]. intros x. by rewrite <- Hfg. Qed.

Lemma is_poly_add d f g : is_poly d f -> is_poly d g -> is_poly d (fun x => f x + g x).
Proof.
  intros (p&Hp&Hf) (q&Hq&Hg). exists (padd p q). split; [rewrite padd_length; lia|].
  intros x. by rewrite peval_padd, Hf, Hg.
Qed.

Lemma is_poly_mul d e f g : is_poly (S d) f -> is_poly e g -> is_poly (d + e) (fun x => f x * g x).
Proof.
  intros (p&Hp&Hf) (q&Hq&Hg). destruct (decide (q = [])) as [->|Hne].
  { apply (is_poly_ext _ (fun _ => 0)); [intros x; rewrite Hg; simpl; ring|apply is_poly_zero]. }
  exists (pmul p q). split; [pose proof (pmul_length p q Hne); lia|]. intros x. by rewrite peval_pmul, Hf, Hg.
Qed.

Lemma is_poly_linear a b : is_poly 2 (fun x => a + x * b).
Proof. exists [a; b]. split; [done|]. intros x. simpl. ring. Qed.

Lemma is_poly_sum {A} d (f : A -> F -> F) l :
  (forall a, a ∈ l -> is_poly d (f a)) -> is_poly d (fun x => fsum ((fun a => f a x) <$> l)).
Proof.
  induction l as [|a l IH]; intros Hl; simpl; [apply is_poly_zero|].
  apply is_poly_add; [apply Hl; set_solver|]. apply IH. set_solver.
Qed.

(** ** Tables of columns

    A sumcheck runs over a table whose column [i] lists the factors of the
    [i]-th summand.  Folding binds the most significant index bit. *)

Abbreviation columns := (list (list F)).

Definition lerp (r : F) (lo hi : F) : F := lo + r * (hi - lo).
Definition fold_columns (r : F) (cols : columns) : columns :=
  zip_with (zip_with (lerp r)) (lo_half cols) (hi_half cols).
Definition total (cols : columns) : F := fsum (fprod <$> cols).

Definition fold_all (rs : list F) (cols : columns) : columns :=
  fold_left (fun cols r => fold_columns r cols) rs cols.

Lemma fold_columns_length r cols m :
  length cols = (2 * m)%nat -> length (fold_columns r cols) = m.
Proof.
  intros Hl. unfold fold_columns. rewrite length_zip_with, (length_lo_half _ m), (length_hi_half _ m) by done. lia.
Qed.

Lemma lo_half_lookup {A} (l : list A) i x : lo_half l !! i = Some x -> x ∈ l.
Proof. intros Hi%list_elem_of_lookup_2. unfold lo_half in Hi. rewrite <- (app_halves l). apply elem_of_app. by left. Qed.
Lemma hi_half_lookup {A} (l : list A) i x : hi_half l !! i = Some x -> x ∈ l.
Proof. intros Hi%list_elem_of_lookup_2. rewrite <- (app_halves l). apply elem_of_app. by right. Qed.

Definition width (d : nat) (cols : columns) : Prop := Forall (fun c => length c = d) cols.

Lemma width_elem d cols c : width d cols -> c ∈ cols -> length c = d.
Proof. unfold width. rewrite Forall_forall. auto. Qed.

Lemma fold_columns_width d r cols : width d cols -> width d (fold_columns r cols).
Proof.
  intros Hc. apply Forall_lookup. intros i c Hi. unfold fold_columns in Hi.
  apply lookup_zip_with_Some in Hi as (lo&hi&->&Hlo%lo_half_lookup&Hhi%hi_half_lookup).
  rewrite length_zip_with, (width_elem d cols lo), (width_elem d cols hi) by done. lia.
Qed.

Lemma zip_lerp_0 (lo hi : list F) : length lo = length hi -> zip_with (lerp 0) lo hi = lo.
Proof.
  revert hi. induction lo as [|a lo IH]; intros [|b hi] Hl; try done. simpl.
  rewrite IH by (simpl in Hl; lia). f_equal. unfold lerp. ring.
Qed.

Lemma zip_lerp_1 (lo hi : list F) : length lo = length hi -> zip_with (lerp 1) lo hi = hi.
Proof.
  revert hi. induction lo as [|a lo IH]; intros [|b hi] Hl; try done. simpl.
  rewrite IH by (simpl in Hl; lia). f_equal. unfold lerp. ring.
Qed.

Lemma fold_columns_0 d m cols :
  width d cols -> length cols = (2 * m)%nat -> fold_columns 0 cols = lo_half cols.
Proof.
  intros Hw Hl. apply list_eq_same_length with (n := m); [by apply length_lo_half|by apply fold_columns_length|].
  intros i x y Hi Hx Hy. unfold fold_columns in Hx.
  apply lookup_zip_with_Some in Hx as (lo&hi&->&Hlo&Hhi).
  rewrite zip_lerp_0; [congruence|].
  apply lo_half_lookup in Hlo. apply hi_half_lookup in Hhi.
  by rewrite (width_elem d cols lo), (width_elem d cols hi).
Qed.

Lemma fold_columns_1 d m cols :
  width d cols -> length cols = (2 * m)%nat -> fold_columns 1 cols = hi_half cols.
Proof.
  intros Hw Hl. apply list_eq_same_length with (n := m); [by apply length_hi_half|by apply fold_columns_length|].
  intros i x y Hi Hx Hy. unfold fold_columns in Hx.
  apply lookup_zip_with_Some in Hx as (lo&hi&->&Hlo&Hhi).
  rewrite zip_lerp_1; [congruence|].
  apply lo_half_lookup in Hlo. apply hi_half_lookup in Hhi.
  by rewrite (width_elem d cols lo), (width_elem d cols hi).
Qed.

(** A table's sum is the sum of its round polynomial at 0 and at 1. *)
Lemma total_split d m cols :
  width d cols -> length cols = (2 * m)%nat ->
  total cols = total (fold_columns 0 cols) + total (fold_columns 1 cols).
Proof.
  intros Hw Hl. rewrite (fold_columns_0 d m), (fold_columns_1 d m) by done.
  unfold total. by rewrite <- fsum_app, <- fmap_app, app_halves.
Qed.

(** The round polynomial of a table with [d] factors has degree at most [d]. *)
Lemma fprod_lerp_poly d lo hi :
  length lo = d -> length hi = d -> is_poly (S d) (fun z => fprod (zip_with (lerp z) lo hi)).
Proof.
  revert lo hi. induction d as [|d IH]; intros [|a lo] [|b hi] Hlo Hhi; try done.
  { simpl. by apply is_poly_const. }
  simpl. apply (is_poly_mul 1); [|apply IH; simpl in *; lia].
  apply (is_poly_ext _ (fun x => a + x * (b - a))); [done|apply is_poly_linear].
Qed.

Lemma round_poly d cols :
  width d cols -> is_poly (S d) (fun z => total (fold_columns z cols)).
Proof.
  intros Hw. unfold total.
  apply (is_poly_ext _ (fun z => fsum ((fun p => fprod (zip_with (lerp z) p.1 p.2))
    <$> zip (lo_half cols) (hi_half cols)))).
  - intros z. f_equal. unfold fold_columns.
    generalize (lo_half cols) (hi_half cols). intros lo. induction lo as [|a lo IH]; intros [|b hi]; try done.
    cbn. f_equal. apply IH.
  - apply is_poly_sum. intros [lo hi] Hz. cbn.
    assert (lo ∈ lo_half cols) as Hlo by by eapply elem_of_zip_l.
    assert (hi ∈ hi_half cols) as Hhi by by eapply elem_of_zip_r.
    apply list_elem_of_lookup in Hlo as [i Hlo%lo_half_lookup].
    apply list_elem_of_lookup in Hhi as [j Hhi%hi_half_lookup].
    apply fprod_lerp_poly; by eapply width_elem.
Qed.

Lemma fold_all_length rs cols :
  length cols = (2 ^ length rs)%nat -> length (fold_all rs cols) = 1%nat.
Proof.
  revert cols. induction rs as [|r rs IH]; intros cols Hl; [done|]. simpl. apply IH.
  by apply fold_columns_length.
Qed.
