(* ===== verification/Validate.v ===== *)
(** * Shared input validation

    The helpers of [verallm/proof_v3/goldilocks_linear_relation_reference.py]
    and [goldilocks_fold_sumcheck_reference.py] that the argument systems import
    to check their inputs. *)

From Stdlib Require Import ZArith Lia.
From Stdlib Require Import Strings.Byte.
From stdpp Require Import base list strings pretty.
From S2P Require Import Prelude Field Merkle MerkleTheory.

Local Open Scope Z_scope.

Definition _ZERO32 : bytes := zero_bytes GOLDILOCKS_MERKLE_REFERENCE_DIGEST_BYTES.

Definition _fixed32 (value : pyval) (name : string) (nonzero : bool) : res bytes :=
  match value with
  | PBytes b =>
      if negb (length b =? GOLDILOCKS_MERKLE_REFERENCE_DIGEST_BYTES)%nat then
        raise ProofV3Error (name +:+ " must be exactly 32 bytes")
      else if nonzero && bool_decide (b = _ZERO32) then
        raise ProofV3Error (name +:+ " must not be zero")
      else Ok b
  | _ => raise ProofV3Error (name +:+ " must be bytes")
  end.

Definition _integer (value : pyval) (name : string) : res Z :=
  match value with
  | PBool _ => raise ProofV3Error (name +:+ " must be an integer, not boolean")
  | PInt z => Ok z
  | _ => raise ProofV3Error (name +:+ " must be an integer")
  end.

Definition _u32 (value : pyval) (name : string) (positive : bool) : res Z :=
  integer ← _integer value name;
  if (integer <? (if positive then 1 else 0)) || (Z.shiftl 1 32 <=? integer) then
    raise ProofV3Error
      (name +:+ " must be a " +:+ (if positive then "positive " else "") +:+ "unsigned 32-bit integer")
  else Ok integer.

Definition _int8 (value : pyval) (name : string) : res Z :=
  integer ← _integer value name;
  if (integer <? -128) || (127 <? integer) then
    raise ProofV3Error (name +:+ " must be a signed 8-bit integer")
  else Ok integer.

Definition _field_encode_signed (value : Z) : Z := value mod GOLDILOCKS_MODULUS.

Definition _next_power_of_two (value : Z) (name : string) : res Z :=
  if value <? 1 then raise ProofV3Error (name +:+ " must be positive")
  else Ok (Z.shiftl 1 (bit_length (value - 1))).

(** [_field] of the sumcheck module. *)
Definition _field (value : pyval) (name : string) : res Z :=
  integer ← _integer value name;
  if negb ((0 <=? integer) && (integer <? GOLDILOCKS_MODULUS)) then
    raise ProofV3Error (name +:+ " must be a canonical Goldilocks element")
  else Ok integer.

(** [tuple(_field(v, name) for v in values)] *)
Definition _fields (values : list pyval) (name : string) : res (list Z) :=
  mapR (fun v => _field v name) values.

(** [b == v] for bytes and a Python value. *)
Definition py_eq_bytes (b : bytes) (v : pyval) : bool :=
  match v with PBytes c => bool_decide (b = c) | _ => false end.

(** ** Lemmas *)

Lemma py_eq_bytes_spec b v : py_eq_bytes b v = true <-> v = PBytes b.
Proof.
  unfold py_eq_bytes. destruct v; try (split; discriminate). rewrite bool_decide_eq_true. naive_solver.
Qed.

Lemma fixed32_ok v name nz b :
  _fixed32 v name nz = Ok b <-> v = PBytes b /\ bytes32 b /\ (nz = true -> b <> _ZERO32).
Proof.
  unfold _fixed32, bytes32. destruct v; try (split; [discriminate|by intros [? _]]).
  destruct (Nat.eqb_spec (length bs) GOLDILOCKS_MERKLE_REFERENCE_DIGEST_BYTES) as [E|E]; cbn [negb].
  - destruct nz; cbn [andb].
    + case_bool_decide as Hz; split.
      * discriminate.
      * intros ([= ->]&_&Hn). by specialize (Hn eq_refl).
      * by intros [= ->].
      * by intros ([= ->]&_).
    + split; [by intros [= ->]|by intros ([= ->]&_)].
  - split; [discriminate|]. by intros ([= ->]&?&_).
Qed.

Lemma fixed32_bytes b name : bytes32 b -> _fixed32 (PBytes b) name false = Ok b.
Proof. intros. by apply fixed32_ok. Qed.

Lemma field_ok v name z : _field v name = Ok z <-> v = PInt z /\ canonical z.
Proof.
  unfold _field, canonical. destruct v; simpl; try (split; [discriminate|by intros [? _]]).
  destruct (Z.leb_spec 0 z0); simpl; [|split; [discriminate|intros [[= ->] ?]; lia]].
  destruct (Z.ltb_spec z0 GOLDILOCKS_MODULUS); simpl.
  - split; [intros [= ->]; by split|by intros [[= ->] _]].
  - split; [discriminate|intros [[= ->] ?]; lia].
Qed.

Lemma field_int z name : canonical z -> _field (PInt z) name = Ok z.
Proof. intros. by apply field_ok. Qed.

Lemma fields_ok vs name l : _fields vs name = Ok l <-> vs = PInt <$> l /\ Forall canonical l.
Proof.
  unfold _fields. rewrite mapR_Forall2. split.
  - induction 1 as [|v z vs l Hv _ [-> IH]]; [by split|].
    apply field_ok in Hv as [-> ?]. split; [done|by constructor].
  - intros [-> Hc]. apply Forall2_fmap_l, Forall_Forall2_diag.
    apply (Forall_impl _ _ _ Hc). intros z ?. by apply field_int.
Qed.

Lemma fields_int l name : Forall canonical l -> _fields (PInt <$> l) name = Ok l.
Proof. intros. by apply fields_ok. Qed.

(** [_next_power_of_two] returns the least power of two that is not below its
    argument. *)
Lemma next_power_of_two_spec v name :
  1 <= v -> exists k, 0 <= k /\ _next_power_of_two v name = Ok (2 ^ k)
    /\ v <= 2 ^ k /\ forall j, 0 <= j -> v <= 2 ^ j -> 2 ^ k <= 2 ^ j.
Proof.
  intros Hv. unfold _next_power_of_two. rewrite (proj2 (Z.ltb_ge _ _)) by lia.
  destruct (decide (v = 1)) as [->|Hne].
  { exists 0. split_and!; [done|done|done|]. intros j Hj _. apply Z.pow_le_mono_r; lia. }
  rewrite bit_length_pos by lia. rewrite Z.shiftl_1_l. pose proof (Z.log2_nonneg (v - 1)).
  exists (Z.log2 (v - 1) + 1). pose proof (Z.log2_spec (v - 1) ltac:(lia)) as [Hlo Hhi].
  rewrite <- Z.add_1_r in Hhi. split_and!; [lia|done|lia|]. intros j Hj Hvj.
  apply Z.pow_le_mono_r; [lia|].
  assert (Z.log2 (v - 1) < j); [|lia]. apply (Z.pow_lt_mono_r_iff 2); lia.
Qed.
