(* ===== verification/Sumcheck.v ===== *)
(** * The sumcheck argument

    The interactive core shared by [goldilocks_fold_sumcheck_reference.py] and
    [goldilocks_product_sumcheck_reference.py], over the field: round messages
    are the values of the round polynomial at [0 .. d], the verifier checks
    [v 0 + v 1] against the running claim and continues with the interpolated
    value at the challenge.  [Interpolation] is the interface that the two
    protocols' interpolation formulas implement. *)

From Stdlib Require Import ZArith Lia Zmod Field.
From stdpp Require Import base list sets.
From S2P Require Import Prelude Field Poly.

Local Open Scope F_scope.

Definition pt (i : nat) : F := toF (Z.of_nat i).

(** The values of [f] at [0 .. d]. *)
Definition samples (d : nat) (f : F -> F) : list F := (fun i => f (pt i)) <$> seq 0 (S d).

Lemma samples_length d f : length (samples d f) = S d.
Proof. unfold samples. by rewrite length_fmap, length_seq. Qed.

Lemma samples_lookup d f i : (i <= d)%nat -> samples d f !! i = Some (f (pt i)).
Proof. intros. unfold samples. by rewrite list_lookup_fmap, lookup_seq_lt by lia. Qed.

(** The first [2 ^ 32] naturals are distinct field elements. *)
Lemma pt_inj i j : (Z.of_nat i < 2 ^ 32)%Z -> (Z.of_nat j < 2 ^ 32)%Z -> pt i = pt j -> i = j.
Proof.
  intros Hi Hj E. pose proof modulus_bounds. apply toF_inj in E; [lia|unfold canonical; lia..].
Qed.

Lemma pt_0 : pt 0 = 0.
Proof. apply toF_0. Qed.
Lemma pt_1 : pt 1 = 1.
Proof. apply toF_1. Qed.

(** The interpolation of [d + 1] values at the points [0 .. d]. *)
Class Interpolation (d : nat) (interp : list F -> F -> F) : Prop := {
  interp_degree : (Z.of_nat d < 2 ^ 31)%Z;
  interp_poly v : length v = S d -> is_poly (S d) (interp v);
  interp_at v i x : length v = S d -> v !! i = Some x -> interp v (pt i) = x;
}.

Section interpolation.
Context (d : nat) (interp : list F -> F -> F) `{!Interpolation d interp}.

Lemma points_nodup : NoDup (pt <$> seq 0 (S d)).
Proof.
  pose proof (interp_degree (d := d)). apply NoDup_fmap_2_strong; [|apply NoDup_seq].
  intros i j Hi%elem_of_seq Hj%elem_of_seq. apply pt_inj; lia.
Qed.

Lemma interp_samples f z : is_poly (S d) f -> interp (samples d f) z = f z.
Proof.
  intros (p&Hp&Hf). destruct (interp_poly (samples d f) (samples_length d f)) as (q&Hq&Hi).
  rewrite Hi, Hf. destruct (decide (peval q z = peval p z)) as [|Hne]; [done|exfalso].
  pose proof (agreement_bound (S d) q p (pt <$> seq 0 (S d)) z Hq Hp Hne points_nodup) as Hb.
  rewrite length_fmap, length_seq in Hb. enough (S d < S d)%nat by lia. apply Hb.
  intros r (i&->&Hr%elem_of_seq)%list_elem_of_fmap. rewrite <- Hi, <- Hf.
  apply interp_at; [apply samples_length|]. apply samples_lookup. lia.
Qed.

(** Different messages agree at no more than [d] challenges. *)
Lemma interp_agreement v w rs :
  length v = S d -> length w = S d -> v <> w -> NoDup rs ->
  (forall r, r ∈ rs -> interp v r = interp w r) -> (length rs <= d)%nat.
Proof.
  intros Hv Hw Hne Hnd Hag.
  destruct (interp_poly v Hv) as (p&Hp&Hvp), (interp_poly w Hw) as (q&Hq&Hwq).
  assert (exists i x y, v !! i = Some x /\ w !! i = Some y /\ x <> y) as (i&x&y&Hx&Hy&Hxy).
  { clear -Hv Hw Hne. revert w d Hv Hw Hne.
    induction v as [|a v IH]; intros [|b w] [|e] Hv Hw Hne; try done.
    - destruct v, w; try done. exists 0%nat, a, b. split_and!; [done..|congruence].
    - destruct (decide (a = b)) as [->|]; [|by exists 0%nat, a, b].
      destruct (IH w e) as (i&x&y&?&?&?); [simpl in *; lia..|congruence|]. by exists (S i), x, y. }
  assert (length rs < S d)%nat; [|lia].
  apply (agreement_bound (S d) p q rs (pt i)); [done|done| |done|].
  - rewrite <- Hvp, <- Hwq, (interp_at v i x), (interp_at w i y) by done. done.
  - intros r Hr. rewrite <- Hvp, <- Hwq. by apply Hag.
Qed.

(** ** The rounds *)

Definition at01 (v : list F) : F := match v with a :: b :: _ => a + b | _ => 0 end.

Fixpoint run (claim : F) (msgs : list (list F)) (rs : list F) : option F :=
  match msgs, rs with
  | [], [] => Some claim
  | v :: msgs, r :: rs => if decide (at01 v = claim) then run (interp v r) msgs rs else None
  | _, _ => None
  end.

Definition honest (cols : columns) : list F := samples d (fun z => total (fold_columns z cols)).

Fixpoint honest_msgs (cols : columns) (rs : list F) : list (list F) :=
  match rs with
  | [] => []
  | r :: rs => honest cols :: honest_msgs (fold_columns r cols) rs
  end.

(** In some round the message is not the honest one, and the challenge is one
    of the at most [d] points where the two interpolations meet. *)
Fixpoint lucky (cols : columns) (msgs : list (list F)) (rs : list F) : Prop :=
  match msgs, rs with
  | v :: msgs, r :: rs =>
      (v <> honest cols /\ interp v r = interp (honest cols) r)
      \/ lucky (fold_columns r cols) msgs rs
  | _, _ => False
  end.

Lemma honest_length cols : length (honest cols) = S d.
Proof. apply samples_length. Qed.

Lemma interp_honest cols r : width d cols -> interp (honest cols) r = total (fold_columns r cols).
Proof. intros Hw. by apply (interp_samples (fun z => total (fold_columns z cols))), round_poly. Qed.

Lemma at01_honest m cols :
  (1 <= d)%nat -> width d cols -> length cols = (2 * m)%nat -> at01 (honest cols) = total cols.
Proof.
  intros Hd Hw Hl. unfold honest. destruct d as [|d']; [lia|].
  change (total (fold_columns (pt 0) cols) + total (fold_columns (pt 1) cols) = total cols).
  by rewrite pt_0, pt_1, <- (total_split (S d') m).
Qed.

Lemma run_sound claim cols msgs rs final :
  (1 <= d)%nat -> width d cols -> length cols = (2 ^ length msgs)%nat ->
  run claim msgs rs = Some final -> final = total (fold_all rs cols) ->
  claim = total cols \/ lucky cols msgs rs.
Proof.
  intros Hd. revert claim cols rs. induction msgs as [|v msgs IH]; intros claim cols rs Hw Hl Hrun Hfin.
  { destruct rs; [|done]. injection Hrun as ->. by left. }
  destruct rs as [|r rs]; [done|]. simpl in Hrun.
  destruct (decide (at01 v = claim)) as [<-|]; [|done]. simpl.
  destruct (decide (v = honest cols)) as [->|Hne].
  { left. by apply (at01_honest (2 ^ length msgs)). }
  destruct (IH (interp v r) (fold_columns r cols) rs) as [E|]; [..|by right; right]; [| |done|done|].
  - by apply fold_columns_width.
  - by apply fold_columns_length.
  - right. left. split; [done|]. by rewrite E, interp_honest.
Qed.

Lemma run_complete cols rs :
  (1 <= d)%nat -> width d cols -> length cols = (2 ^ length rs)%nat ->
  run (total cols) (honest_msgs cols rs) rs = Some (total (fold_all rs cols)).
Proof.
  intros Hd. revert cols. induction rs as [|r rs IH]; intros cols Hw Hl; [done|]. simpl.
  rewrite decide_True by by apply (at01_honest (2 ^ length rs)). rewrite interp_honest by done.
  apply IH; [by apply fold_columns_width|by apply fold_columns_length].
Qed.
End interpolation.
