(* ===== verification/Tables.v ===== *)
(** * Integer tables as columns of field elements

    [columns_of n tabs] reads [n] rows of the integer tables [tabs] as columns,
    and the code's [_mle_fold] and [_mle_eval] on the tables are [fold_columns]
    and its iteration on the columns. *)

From Stdlib Require Import ZArith Lia Zmod Field.
From stdpp Require Import base list sets strings.
From S2P Require Import Prelude Field Merkle Poly Sumcheck FoldSumcheck.

Local Open Scope Z_scope.

Definition column_at (tabs : list (list Z)) (i : nat) : list F := (fun t => toF (nth i t 0)) <$> tabs.
Definition columns_of (n : nat) (tabs : list (list Z)) : columns := column_at tabs <$> seq 0 n.

Lemma columns_of_length n tabs : length (columns_of n tabs) = n.
Proof. unfold columns_of. by rewrite length_fmap, length_seq. Qed.

Lemma columns_of_width n tabs : width (length tabs) (columns_of n tabs).
Proof.
  unfold width, columns_of. apply Forall_fmap, Forall_forall. intros i _.
  unfold compose, column_at. apply length_fmap.
Qed.

Lemma total_columns n tabs : total (columns_of n tabs) = fsum ((fun i => fprod (column_at tabs i)) <$> seq 0 n).
Proof. unfold total, columns_of. by rewrite <- list_fmap_compose. Qed.

Lemma list_nth_seq (l : list Z) : l = (fun i => nth i l 0) <$> seq 0 (length l).
Proof.
  apply list_eq. intros i. rewrite list_lookup_fmap.
  destruct (decide (i < length l)%nat) as [Hi|Hi].
  - rewrite lookup_seq_lt by done. cbn. destruct (lookup_lt_is_Some_2 l i Hi) as [x Hx].
    rewrite Hx. f_equal. symmetry. by apply nth_lookup_Some.
  - rewrite lookup_seq_ge, lookup_ge_None_2 by lia. done.
Qed.

Lemma nth_lo_half (t : list Z) m i :
  length t = (2 * m)%nat -> (i < m)%nat -> lo_half t !! i = Some (nth i t 0).
Proof.
  intros Hl Hi. unfold lo_half. rewrite Hl, (Nat.mul_comm 2), Nat.div_mul by done.
  rewrite lookup_take_lt by done. destruct (lookup_lt_is_Some_2 t i) as [x Hx]; [lia|].
  rewrite Hx. f_equal. symmetry. by apply nth_lookup_Some.
Qed.

Lemma nth_hi_half (t : list Z) m i :
  length t = (2 * m)%nat -> (i < m)%nat -> hi_half t !! i = Some (nth (m + i) t 0).
Proof.
  intros Hl Hi. unfold hi_half. rewrite Hl, (Nat.mul_comm 2), Nat.div_mul by done.
  rewrite lookup_drop. destruct (lookup_lt_is_Some_2 t (m + i)) as [x Hx]; [lia|].
  rewrite Hx. f_equal. symmetry. by apply nth_lookup_Some.
Qed.

Lemma halves_zip (t : list Z) m :
  length t = (2 * m)%nat ->
  zip (lo_half t) (hi_half t) = (fun i => (nth i t 0, nth (m + i) t 0)) <$> seq 0 m.
Proof.
  intros Hl. apply list_eq_same_length with (n := m).
  - by rewrite length_fmap, length_seq.
  - rewrite length_zip_with, (length_lo_half _ m), (length_hi_half _ m) by done. lia.
  - intros i [x y] q Hi Hx Hy. apply lookup_zip_with_Some in Hx as (a&b&E&Ha&Hb).
    rewrite (nth_lo_half t m) in Ha by done. rewrite (nth_hi_half t m) in Hb by done.
    rewrite list_lookup_fmap, lookup_seq_lt in Hy by done. cbn in Hy. simplify_eq. done.
Qed.

Lemma zip_fmap_seq {A B} (f : nat -> A) (g : nat -> B) n :
  zip (f <$> seq 0 n) (g <$> seq 0 n) = (fun i => (f i, g i)) <$> seq 0 n.
Proof.
  generalize 0%nat. induction n as [|n IH]; intros s; [done|].
  cbn [seq]. cbn [fmap list_fmap zip_with]. f_equal. apply IH.
Qed.

Lemma mle_fold_length t c m : length t = (2 * m)%nat -> length (_mle_fold t c) = m.
Proof.
  intros Hl. unfold _mle_fold.
  rewrite length_zip_with, (length_lo_half _ m), (length_hi_half _ m) by done. lia.
Qed.

Lemma mle_fold_nth t c m i :
  length t = (2 * m)%nat -> (i < m)%nat ->
  nth i (_mle_fold t c) 0 = (nth i t 0 + c * (nth (m + i) t 0 - nth i t 0)) mod GOLDILOCKS_MODULUS.
Proof.
  intros Hl Hi. apply nth_lookup_Some. unfold _mle_fold. apply lookup_zip_with_Some.
  exists (nth i t 0), (nth (m + i) t 0).
  split_and!; [done|by apply (nth_lo_half _ m)|by apply nth_hi_half].
Qed.

Lemma mle_fold_canonical t c : Forall canonical (_mle_fold t c).
Proof.
  apply Forall_lookup. intros i x Hx. unfold _mle_fold in Hx.
  apply lookup_zip_with_Some in Hx as (a&b&->&_). apply mod_canonical.
Qed.

Lemma toF_mle_fold_nth t c m i :
  length t = (2 * m)%nat -> (i < m)%nat ->
  toF (nth i (_mle_fold t c) 0) = lerp (toF c) (toF (nth i t 0)) (toF (nth (m + i) t 0)).
Proof. intros. rewrite (mle_fold_nth t c m) by done. unfold lerp. by autorewrite with toF. Qed.

Definition all_length (n : nat) (tabs : list (list Z)) : Prop := Forall (fun t => length t = n) tabs.

Lemma columns_fold m tabs c :
  all_length (2 * m) tabs ->
  fold_columns (toF c) (columns_of (2 * m) tabs) = columns_of m ((fun t => _mle_fold t c) <$> tabs).
Proof.
  intros Hl. unfold fold_columns, lo_half, hi_half. rewrite columns_of_length.
  rewrite (Nat.mul_comm 2), Nat.div_mul, (Nat.mul_comm m) by done.
  apply list_eq_same_length with (n := m); [apply columns_of_length| |].
  { rewrite length_zip_with, length_take, length_drop, columns_of_length. lia. }
  intros i x y Hi Hx Hy. apply lookup_zip_with_Some in Hx as (lo&hi&->&Hlo&Hhi).
  rewrite lookup_take_lt in Hlo by done. rewrite lookup_drop in Hhi.
  unfold columns_of in *. rewrite list_lookup_fmap, lookup_seq_lt in Hlo, Hhi, Hy by lia.
  cbn in Hlo, Hhi, Hy. simplify_eq. unfold column_at. rewrite <- list_fmap_compose.
  induction Hl as [|t tabs Ht _ IH]; [done|]. cbn. f_equal; [|apply IH].
  by rewrite (toF_mle_fold_nth t c m).
Qed.

Lemma all_length_fold m tabs c :
  all_length (2 * m) tabs -> all_length m ((fun t => _mle_fold t c) <$> tabs).
Proof.
  intros Hl. apply Forall_fmap. eapply Forall_impl; [exact Hl|]. intros t Ht. by apply mle_fold_length.
Qed.

Lemma columns_fold_all point tabs :
  all_length (2 ^ length point) tabs ->
  fold_all (toF <$> point) (columns_of (2 ^ length point) tabs)
  = columns_of 1 ((fun t => fold_left _mle_fold point t) <$> tabs).
Proof.
  revert tabs. induction point as [|c point IH]; intros tabs Hl.
  { cbn. by rewrite list_fmap_id. }
  cbn [length Nat.pow] in *. change (fold_all (toF <$> c :: point) ?x)
    with (fold_all (toF <$> point) (fold_columns (toF c) x)).
  replace (2 ^ length point + (2 ^ length point + 0))%nat with (2 * 2 ^ length point)%nat in * by lia.
  rewrite columns_fold by done. rewrite IH by by apply all_length_fold.
  by rewrite <- list_fmap_compose.
Qed.

(** [_mle_eval] of a table of [2 ^ |point|] values returns its multilinear
    extension at the point. *)
Lemma mle_eval_ok t point :
  length t = (2 ^ length point)%nat -> Forall canonical t ->
  exists v, _mle_eval t point = Ok v /\ canonical v
    /\ v = nth 0 (fold_left _mle_fold point t) 0.
Proof.
  intros Hl Hc. unfold _mle_eval.
  assert (length (fold_left _mle_fold point t) = 1%nat /\ Forall canonical (fold_left _mle_fold point t))
    as [H1 H2].
  { revert t Hl Hc. induction point as [|c point IH]; intros t Hl Hc; [done|]. cbn [fold_left].
    apply IH; [by apply mle_fold_length|apply mle_fold_canonical]. }
  destruct (fold_left _mle_fold point t) as [|v [|]]; try done.
  exists v. split_and!; [done| |done]. by apply Forall_cons in H2 as [? _].
Qed.

Lemma toF_fold_sum {A} (g : A -> Z) l a :
  toF (fold_left (fun acc p => acc + g p) l a) = Zmod.add (toF a) (fsum ((fun p => toF (g p)) <$> l)).
Proof.
  revert a. induction l as [|p l IH]; intros a; cbn [fold_left fmap list_fmap fsum foldr]; [ring|].
  rewrite IH, toF_add. change (list_fmap _ _ ?f l) with (f <$> l). unfold fsum. ring.
Qed.
