(* ===== verification/FoldSumcheckTheory.v ===== *)
(** * Completeness and soundness of the fold sumcheck *)

From Stdlib Require Import ZArith Lia Zmod Field.
From stdpp Require Import base list sets strings.
From coqutil Require Import Word.LittleEndianList.
From S2P Require Import Prelude Sha256 Field Merkle MerkleTheory MerkleBinding Poly Validate Sumcheck FoldSumcheck Tables.

Local Open Scope Z_scope.

(** ** Interpolation at 0, 1, 2 *)

Definition half : F := toF ((GOLDILOCKS_MODULUS + 1) / 2).

Lemma half_spec : Zmod.mul (toF 2) half = Zmod.one.
Proof. unfold half. rewrite <- toF_mul, <- toF_1. apply toF_eq. by vm_compute. Qed.

Definition interp2 (v : list F) (z : F) : F :=
  match v with
  | [a; b; c] =>
      (a * ((z - 1) * (z - toF 2)) * half - b * (z * (z - toF 2)) + c * (z * (z - 1)) * half)%F
  | _ => Zmod.zero
  end.

#[export] Instance interp2_interpolation : Interpolation 2 interp2.
Proof.
  pose proof half_spec as Hh.
  assert (toF 2 = Zmod.add Zmod.one Zmod.one) as H2 by (rewrite <- toF_1, <- toF_add; reflexivity).
  split; [reflexivity| |].
  - intros [|a [|b [|c []]]] Hl; try discriminate Hl.
    exists [a; (toF 2 * b - (a * (1 + toF 2) + c) * half)%F; ((a + c) * half - b)%F].
    split; [reflexivity|]. intros x. cbn [interp2 peval]. ring [Hh].
  - intros [|a [|b [|c []]]] i x Hl Hi; try discriminate Hl.
    assert (pt 2 = toF 2) as Hp2 by reflexivity.
    destruct i as [|[|[|]]]; cbn in Hi; try discriminate Hi; apply (inj Some) in Hi as <-; cbn [interp2].
    + rewrite pt_0. ring [Hh].
    + rewrite pt_1. ring.
    + rewrite Hp2, H2 in *. ring [Hh].
Qed.

Definition msg2 (g : Z * Z * Z) : list F := let '(g0, g1, g2) := g in [toF g0; toF g1; toF g2].

Lemma lagrange_012_interp g z : toF (lagrange_eval_012 g z) = interp2 (msg2 g) (toF z).
Proof.
  destruct g as [[g0 g1] g2]. unfold lagrange_eval_012, msg2, interp2, half. cbv zeta.
  autorewrite with toF. rewrite toF_1. ring.
Qed.

Lemma lagrange_012_canonical g z : canonical (lagrange_eval_012 g z).
Proof. destruct g as [[g0 g1] g2]. apply mod_canonical. Qed.

(** ** One round *)

Section theory.
Context `{Digest}.

Lemma challenge_cases seed i :
  (exists c, _challenge seed i = Ok c /\ canonical c)
  \/ _challenge seed i = raise ProofV3Error "unable to derive a fold-sumcheck challenge".
Proof.
  unfold _challenge, rejection_sample. destruct (rejection_loop _ _ _ _) as [c|] eqn:E; [left|by right].
  exists c. split; [done|]. apply rejection_loop_accepts in E as [Hlt%Z.ltb_lt (j&_&->)].
  split; [|done]. apply le_combine_bound.
Qed.

Lemma challenge_canonical seed i c : _challenge seed i = Ok c -> canonical c.
Proof. destruct (challenge_cases seed i) as [(c'&->&?)| ->]; [by intros [= <-]|done]. Qed.

Lemma round_step_sum l g0 g1 g2 :
  exists h0 h1 h2, fold_left round_step l (g0, g1, g2) = (h0, h1, h2)
    /\ toF h0 = Zmod.add (toF g0) (fsum ((fun p => Zmod.mul (toF p.1.1) (toF p.2.1)) <$> l))
    /\ toF h1 = Zmod.add (toF g1) (fsum ((fun p => Zmod.mul (toF p.1.2) (toF p.2.2)) <$> l))
    /\ toF h2 = Zmod.add (toF g2) (fsum ((fun p =>
         Zmod.mul (lerp (toF 2) (toF p.1.1) (toF p.1.2)) (lerp (toF 2) (toF p.2.1) (toF p.2.2))) <$> l)).
Proof.
  revert g0 g1 g2. induction l as [|[[xl xh] [fl fh]] l IH]; intros g0 g1 g2.
  { exists g0, g1, g2. cbn [fmap list_fmap fsum foldr]. split_and!; [done|ring..]. }
  cbn [fold_left round_step]. cbv zeta.
  match goal with |- context [fold_left round_step l (?a, ?b, ?c)] =>
    destruct (IH a b c) as (h0&h1&h2&->&E0&E1&E2) end.
  exists h0, h1, h2. split; [done|]. rewrite E0, E1, E2. cbn [fmap list_fmap fsum foldr fst snd].
  change (list_fmap _ _ ?f l) with (f <$> l). unfold lerp.
  autorewrite with toF. unfold fsum. split_and!; ring.
Qed.

Lemma round_step_canonical l g :
  (let '(g0, g1, g2) := g in canonical g0 /\ canonical g1 /\ canonical g2) ->
  let '(h0, h1, h2) := fold_left round_step l g in canonical h0 /\ canonical h1 /\ canonical h2.
Proof.
  revert g. induction l as [|[[xl xh] [fl fh]] l IH]; intros g Hg; [done|]. cbn [fold_left].
  apply IH. destruct g as [[g0 g1] g2]. cbn. auto with vrt.
Qed.

Definition canonical_triple (g : Z * Z * Z) : Prop :=
  let '(g0, g1, g2) := g in canonical g0 /\ canonical g1 /\ canonical g2.

Lemma round_evaluations_canonical xs fs : canonical_triple (round_evaluations xs fs).
Proof. apply round_step_canonical. pose proof modulus_pos. repeat split; done. Qed.

Lemma honest_sample m xs fs z :
  length xs = (2 * m)%nat -> length fs = (2 * m)%nat ->
  total (fold_columns (toF z) (columns_of (2 * m) [xs; fs]))
  = fsum ((fun i => Zmod.mul (lerp (toF z) (toF (nth i xs 0)) (toF (nth (m + i) xs 0)))
                             (lerp (toF z) (toF (nth i fs 0)) (toF (nth (m + i) fs 0)))) <$> seq 0 m).
Proof.
  intros Hx Hf. rewrite columns_fold by by repeat constructor. rewrite total_columns. f_equal.
  apply list_fmap_ext. intros j i [-> Hi]%lookup_seq. cbn [fmap list_fmap column_at fprod foldr].
  rewrite (toF_mle_fold_nth xs z m), (toF_mle_fold_nth fs z m) by (done || lia). ring.
Qed.

Lemma round_evaluations_honest m xs fs :
  length xs = (2 * m)%nat -> length fs = (2 * m)%nat ->
  msg2 (round_evaluations xs fs) = honest 2 (columns_of (2 * m) [xs; fs]).
Proof.
  intros Hx Hf. unfold round_evaluations. rewrite (halves_zip xs m), (halves_zip fs m) by done.
  rewrite zip_fmap_seq.
  destruct (round_step_sum ((fun i => ((nth i xs 0, nth (m + i) xs 0), (nth i fs 0, nth (m + i) fs 0)))
    <$> seq 0 m) 0 0 0) as (h0&h1&h2&->&E0&E1&E2).
  unfold msg2, honest, samples. cbn [seq fmap list_fmap]. rewrite E0, E1, E2, toF_0.
  change (pt 0) with (toF 0). change (pt 1) with (toF 1). change (pt 2) with (toF 2).
  rewrite !honest_sample by done. rewrite <- !list_fmap_compose. unfold compose. cbn [fst snd].
  assert (forall a b, lerp (toF 0) a b = a) as L0 by (intros; unfold lerp; rewrite toF_0; ring).
  assert (forall a b, lerp (toF 1) a b = b) as L1 by (intros; unfold lerp; rewrite toF_1; ring).
  f_equal; [|f_equal; [|f_equal]]; rewrite F_add_0_l; f_equal; apply list_fmap_ext;
    intros ? i _; by rewrite ?L0, ?L1.
Qed.

Lemma claimed_total n xs fs :
  length xs = n -> length fs = n ->
  toF (claimed_sum_of xs fs) = total (columns_of n [xs; fs]).
Proof.
  intros Hx Hf. unfold claimed_sum_of. rewrite toF_mod.
  rewrite (toF_fold_sum (fun p => p.1 * p.2 mod GOLDILOCKS_MODULUS)), toF_0, F_add_0_l, total_columns.
  f_equal. rewrite (list_nth_seq xs), (list_nth_seq fs) at 1. rewrite Hx, Hf, zip_fmap_seq.
  rewrite <- list_fmap_compose. apply list_fmap_ext. intros _ i _.
  unfold compose. cbn [fst snd column_at fmap list_fmap fprod foldr]. autorewrite with toF. ring.
Qed.

(** The final check compares with the product of the folded tables. *)
Lemma final_total point xs fs x f :
  length xs = (2 ^ length point)%nat -> length fs = (2 ^ length point)%nat ->
  Forall canonical xs -> Forall canonical fs ->
  _mle_eval xs point = Ok x -> _mle_eval fs point = Ok f ->
  toF (x * f mod GOLDILOCKS_MODULUS)
  = total (fold_all (toF <$> point) (columns_of (2 ^ length point) [xs; fs])).
Proof.
  intros Hx Hf Hcx Hcf Ex Ef.
  destruct (mle_eval_ok xs point Hx Hcx) as (x'&Ex'&_&->).
  destruct (mle_eval_ok fs point Hf Hcf) as (f'&Ef'&_&->).
  rewrite Ex in Ex'. rewrite Ef in Ef'. apply (inj Ok) in Ex' as ->, Ef' as ->.
  rewrite columns_fold_all by by repeat constructor. rewrite total_columns.
  cbn [seq fmap list_fmap column_at fprod fsum foldr]. autorewrite with toF. ring.
Qed.

(** ** The verifier's loop is [run] *)

Lemma verify_rounds_run tr i claim rounds final point :
  canonical claim -> verify_rounds tr i claim rounds = Ok (final, point) ->
  run interp2 (toF claim) (msg2 <$> rounds) (toF <$> point) = Some (toF final)
  /\ length point = length rounds /\ canonical final.
Proof.
  revert tr i claim final point. induction rounds as [|[[g0 g1] g2] rounds IH];
    intros tr i claim final point Hc Hv; cbn [verify_rounds] in Hv.
  { apply (inj Ok) in Hv. injection Hv as <- <-. done. }
  destruct (Z.eqb_spec ((g0 + g1) mod GOLDILOCKS_MODULUS) claim) as [Hclaim|]; cbn [negb] in Hv; [|discriminate].
  apply bind_ok in Hv as (c&Hch&Hv). apply bind_ok in Hv as ([fin rest]&Hrest&Hv).
  apply (inj Ok) in Hv. injection Hv as <- <-. cbn [fst snd] in *.
  apply IH in Hrest as (Hrun&Hlen&Hfin); [|apply lagrange_012_canonical].
  split_and!; [|cbn [length]; by f_equal|done]. cbn [fmap list_fmap run].
  rewrite decide_True.
  2:{ rewrite <- Hclaim, toF_mod, toF_add. done. }
  by rewrite <- lagrange_012_interp.
Qed.

(** The prover's loop either fails to derive a challenge or produces rounds
    that the verifier's loop follows to the value of the folded tables. *)
Lemma prove_rounds_complete k fuel tr i xs fs claim :
  length xs = (2 ^ k)%nat -> length fs = (2 ^ k)%nat -> (k <= fuel)%nat -> canonical claim ->
  toF claim = total (columns_of (2 ^ k) [xs; fs]) ->
  prove_rounds fuel tr i xs fs = raise ProofV3Error "unable to derive a fold-sumcheck challenge"
  \/ exists rounds final point, prove_rounds fuel tr i xs fs = Ok rounds
       /\ verify_rounds tr i claim rounds = Ok (final, point)
       /\ length rounds = k /\ length point = k /\ Forall canonical_triple rounds /\ canonical final
       /\ toF final = total (fold_all (toF <$> point) (columns_of (2 ^ k) [xs; fs])).
Proof.
  revert fuel tr i xs fs claim. induction k as [|k IH]; intros fuel tr i xs fs claim Hx Hf Hfuel Hc Ht.
  { right. exists [], claim, []. split; [|done].
    destruct fuel; unfold prove_rounds, zlen; by rewrite Hx. }
  destruct fuel as [|fuel]; [lia|]. unfold prove_rounds; fold prove_rounds.
  assert (0 < 2 ^ k)%nat as Hpos by (apply Nat.neq_0_lt_0, Nat.pow_nonzero; done).
  assert (2 ^ S k = 2 * 2 ^ k)%nat as Hpow by done. rewrite Hpow in *.
  rewrite (proj2 (Z.ltb_lt 1 (zlen xs))) by (unfold zlen; lia).
  set (g := round_evaluations xs fs). cbv zeta. set (tr' := absorb tr g).
  pose proof (round_evaluations_honest (2 ^ k) xs fs Hx Hf) as Hg. fold g in Hg.
  destruct (challenge_cases tr' i) as [(c&Ec&Hcc)|Ec]; rewrite Ec; [|by left]. cbn [mbind res_bind].
  assert (width 2 (columns_of (2 * 2 ^ k) [xs; fs])) as Hw by exact (columns_of_width _ [xs; fs]).
  assert (toF (lagrange_eval_012 g c)
    = total (columns_of (2 ^ k) [_mle_fold xs c; _mle_fold fs c])) as Hnext.
  { rewrite lagrange_012_interp, Hg, (interp_honest 2 interp2) by done.
    by rewrite columns_fold by by repeat constructor. }
  destruct (IH fuel tr' (i + 1) (_mle_fold xs c) (_mle_fold fs c) (lagrange_eval_012 g c)
    (mle_fold_length xs c _ Hx) (mle_fold_length fs c _ Hf) ltac:(lia)
    (lagrange_012_canonical g c) Hnext)
    as [E|(rounds&final&point&E&Ev&Hlr&Hlp&Hct&Hcf&Hfin)].
  { left. by rewrite E. }
  right. rewrite E. cbn [mbind res_bind]. exists (g :: rounds), final, (c :: point).
  pose proof (round_evaluations_canonical xs fs) as Hgc. fold g in Hgc.
  split_and!; [done| |by rewrite <- Hlr|by rewrite <- Hlp|by constructor|done|].
  - pose proof (at01_honest 2 interp2 (2 ^ k)%nat (columns_of (2 * 2 ^ k) [xs; fs]) ltac:(lia) Hw
      (columns_of_length _ _)) as H01.
    rewrite <- Hg, <- Ht in H01. cbn [verify_rounds].
    destruct g as [[g0 g1] g2] eqn:Eg. cbn [msg2 at01] in H01.
    assert ((g0 + g1) mod GOLDILOCKS_MODULUS = claim) as ->.
    { to_field. by rewrite <- H01. }
    rewrite Z.eqb_refl. cbn [negb]. cbv zeta. fold tr'. rewrite Ec. cbn [mbind res_bind].
    by rewrite Ev.
  - change (fold_all (toF <$> c :: point) ?x) with (fold_all (toF <$> point) (fold_columns (toF c) x)).
    by rewrite columns_fold by by repeat constructor.
Qed.
End theory.

(** ** Table lengths and commitments *)

Lemma table_length_ok n : bad_table_length n = false <-> exists k : nat, (1 <= k)%nat /\ n = 2 ^ Z.of_nat k.
Proof.
  unfold bad_table_length. rewrite orb_false_iff, Z.ltb_ge. split.
  - intros [Hn Hp]. apply not_power_of_two_false in Hp; [|lia].
    pose proof (Z.log2_le_mono 2 n Hn) as Hl. change (Z.log2 2) with 1 in Hl.
    exists (Z.to_nat (Z.log2 n)). rewrite Z2Nat.id by lia. split; [lia|done].
  - intros (k&Hk&->). rewrite pow2_not_npot by lia. split; [|done].
    change 2 with (2 ^ 1) at 1. apply Z.pow_le_mono_r; lia.
Qed.

Lemma variables_pow2 k : bit_length (2 ^ Z.of_nat k) - 1 = Z.of_nat k.
Proof. rewrite bit_length_pos by (apply Z.pow_pos_nonneg; lia). rewrite Z.log2_pow2; lia. Qed.

Lemma denotes_py_rows rows rows' : denotes_rows (py_rows rows) rows' -> rows' = rows.
Proof.
  intros (vs&[E|E]&Hvs); [|done]. unfold py_rows in E. injection E as <-.
  revert rows' Hvs. induction rows as [|r rows IH]; intros rows' Hvs; inversion Hvs as [|? r' ? rs' Hr Hrs]; subst; [done|].
  f_equal; [|by apply IH]. destruct Hr as [E|E]; [|done]. unfold py_ints in E. injection E as E.
  by apply (inj (fmap PInt)) in E.
Qed.

Lemma from_py_rows `{Digest} rows bv T : from_rows (py_rows rows) bv = Ok T -> mt_rows T = rows.
Proof. intros (b&rows'&w&k&->&Hd&_&->)%from_rows_ok. by apply denotes_py_rows in Hd. Qed.

Lemma column_rows_inj xs ys : column_rows xs = column_rows ys -> xs = ys.
Proof.
  unfold column_rows. revert ys. induction xs as [|x xs IH]; intros [|y ys] E; try done.
  injection E as -> E. f_equal. by apply IH.
Qed.

Lemma column_table `{Digest} b xs k :
  bytes32 b -> Forall canonical xs -> length xs = (2 ^ k)%nat -> (k <= 21)%nat ->
  exists T, from_rows (py_rows (column_rows xs)) (PBytes b) = Ok T /\ mt_rows T = column_rows xs.
Proof.
  intros Hb Hc Hl Hk. exists (tree_of b 1 k (column_rows xs)). split; [|done].
  apply from_rows_ok. exists b, (column_rows xs), 1, k. split_and!; [done| | |done].
  - exists (py_ints <$> column_rows xs). split; [by left|]. apply rows_of_py_rows.
  - split; [done| |unfold column_rows; by rewrite length_fmap]. split.
    + unfold column_rows. destruct xs; [|done]. simpl in Hl. pose proof (Nat.pow_nonzero 2 k). lia.
    + unfold column_rows. apply Forall_fmap. eapply Forall_impl; [exact Hc|].
      intros x Hx. split; [done|by constructor].
    + split; by vm_compute.
    + rewrite Z.mul_1_r. unfold column_rows. rewrite zlen_fmap. unfold zlen.
      rewrite Hl, Nat2Z.inj_pow.
      change MAX_GOLDILOCKS_MERKLE_REFERENCE_FIELD_VALUES with (2 ^ 21). apply Z.pow_le_mono_r; lia.
Qed.

Definition inner_product (xs fs : list Z) : Z := foldr Z.add 0 (zip_with Z.mul xs fs).

Lemma inner_product_total xs fs n :
  length xs = n -> length fs = n -> total (columns_of n [xs; fs]) = toF (inner_product xs fs).
Proof.
  intros Hx Hf. rewrite total_columns. unfold inner_product.
  revert fs n Hx Hf. induction xs as [|x xs IH]; intros [|f fs] n Hx Hf; subst n; try done.
  cbn [length seq fmap list_fmap column_at fprod fsum foldr zip_with].
  rewrite toF_add, toF_mul. simpl in Hf.
  rewrite <- (IH fs (length xs)) by (done || lia). rewrite <- fmap_S_seq.
  change (list_fmap nat F ?g ?l) with (g <$> l). rewrite <- list_fmap_compose. cbn [nth].
  unfold fsum. ring_simplify. f_equal.
Qed.

Lemma claimed_inner xs fs : length xs = length fs -> claimed_sum_of xs fs = inner_product xs fs mod GOLDILOCKS_MODULUS.
Proof.
  intros Hl. apply toF_inj; [apply mod_canonical..|]. rewrite toF_mod.
  rewrite (claimed_total (length xs)) by done. by apply inner_product_total.
Qed.

Section fold_theorems.
Context `{Digest}.

Lemma commit_ok sd vs T :
  commit_goldilocks_fold_sumcheck_x_v3 sd vs = Ok T <->
  exists xs d (k : nat), vs = PInt <$> xs /\ Forall canonical xs /\ length xs = (2 ^ k)%nat
    /\ (1 <= k <= 20)%nat /\ sd = PBytes d /\ bytes32 d /\ d <> _ZERO32
    /\ from_rows (py_rows (column_rows xs)) (PBytes (sha256 (_COMMIT_DOMAIN ++ d))) = Ok T.
Proof.
  unfold commit_goldilocks_fold_sumcheck_x_v3. cbv zeta. split.
  - intros Hc. destruct (bad_table_length (zlen vs)) eqn:Hb; [discriminate|].
    apply table_length_ok in Hb as (k&Hk&Hz).
    destruct (Z.ltb_spec MAX_GOLDILOCKS_FOLD_SUMCHECK_VARIABLES_V3 (bit_length (zlen vs) - 1)) as [|Hcap]; [discriminate|].
    apply bind_ok in Hc as (xs&[-> Hxs]%fields_ok&Hc).
    apply bind_ok in Hc as (d&(->&Hd&Hnz)%fixed32_ok&Hc).
    rewrite Hz, variables_pow2 in Hcap. rewrite zlen_fmap in Hz.
    exists xs, d, k. split_and!; try done.
    + apply Nat2Z.inj. by rewrite Nat2Z.inj_pow.
    + unfold MAX_GOLDILOCKS_FOLD_SUMCHECK_VARIABLES_V3 in Hcap. lia.
    + by apply Hnz.
  - intros (xs&d&k&->&Hc&Hl&Hk&->&Hd&Hnz&HT).
    assert (zlen (PInt <$> xs) = 2 ^ Z.of_nat k) as Hz.
    { rewrite zlen_fmap. unfold zlen. by rewrite Hl, Nat2Z.inj_pow. }
    rewrite Hz, variables_pow2, (proj2 (table_length_ok _)) by (exists k; split; [lia|done]).
    rewrite (proj2 (Z.ltb_ge _ _)) by (unfold MAX_GOLDILOCKS_FOLD_SUMCHECK_VARIABLES_V3; lia).
    rewrite fields_int by done. cbn [mbind res_bind].
    by rewrite (proj2 (fixed32_ok _ _ _ d)).
Qed.

Lemma transcript_seed_ok sd xc vn fd s seed :
  _transcript_seed sd xc vn fd s = Ok seed -> exists d c n f, sd = PBytes d /\ xc = PBytes c
    /\ vn = PBytes n /\ fd = PBytes f
    /\ seed = sha256 (_TRANSCRIPT_DOMAIN ++ d ++ c ++ n ++ f ++ pack_Q s).
Proof.
  unfold _transcript_seed. intros Hs.
  apply bind_ok in Hs as (d&(->&_&_)%fixed32_ok&Hs). apply bind_ok in Hs as (c&(->&_&_)%fixed32_ok&Hs).
  apply bind_ok in Hs as (n&(->&_&_)%fixed32_ok&Hs). apply bind_ok in Hs as (f&(->&_&_)%fixed32_ok&Hs).
  apply (inj Ok) in Hs. by exists d, c, n, f.
Qed.

Lemma round_items_ok rounds :
  Forall canonical_triple rounds ->
  allR round_item_ok (py_triple <$> rounds) = Ok true
  /\ mapM round_triple (py_triple <$> rounds) = Some rounds.
Proof.
  induction 1 as [|[[g0 g1] g2] rounds (H0&H1&H2) _ [IH1 IH2]]; [done|].
  apply in_field_spec in H0, H1, H2.
  cbn [fmap list_fmap allR mapM py_triple]. change (list_fmap _ _ ?f rounds) with (f <$> rounds).
  cbn [round_item_ok length Nat.eqb allR _integer mbind res_bind]. rewrite H0, H1, H2.
  cbn [mbind res_bind]. split; [done|]. cbn [round_triple mbind option_bind]. by rewrite IH2.
Qed.

Lemma fold_proof_new_ok s rounds opening :
  canonical s -> Forall canonical_triple rounds -> (length rounds <= 20)%nat ->
  GoldilocksFoldSumcheckProofV3_new (PInt s) (PTuple (py_triple <$> rounds)) (py_ints opening)
  = Ok (MkFoldProof s rounds (PInt <$> opening)).
Proof.
  intros Hs Hr Hl. unfold GoldilocksFoldSumcheckProofV3_new. rewrite field_int by done.
  cbn [mbind res_bind]. destruct (round_items_ok rounds Hr) as [-> Hm]. cbn [mbind res_bind].
  rewrite zlen_fmap, (proj2 (Z.ltb_ge _ _)).
  - unfold py_ints. by rewrite Hm.
  - unfold zlen, MAX_GOLDILOCKS_FOLD_SUMCHECK_VARIABLES_V3. lia.
Qed.

Lemma from_rows_commitment rv bv T : from_rows rv bv = Ok T -> bytes32 (mt_commitment T).
Proof. intros (b&rows&w&k&_&_&_&->)%from_rows_ok. apply sha256_length. Qed.

Lemma rows_equal_column xs : rows_equal (PInt <$> xs) (column_rows xs) = true.
Proof.
  unfold rows_equal, column_rows. rewrite !length_fmap, Nat.eqb_refl. cbn [andb].
  induction xs as [|x xs IH]; [done|]. cbn [fmap list_fmap zip_with forallb fst snd py_eq_int].
  by rewrite Z.eqb_refl.
Qed.

Lemma column_firsts xs : mapR first_of_row (column_rows xs) = Ok xs.
Proof.
  unfold column_rows. induction xs as [|x xs IH]; [done|].
  cbn [fmap list_fmap mapR first_of_row mbind res_bind]. change (list_fmap _ _ ?f xs) with (f <$> xs).
  by rewrite IH.
Qed.

(** What an accepting verifier has checked. *)
Lemma verify_fold_ok pf sd xc factor nonce expected :
  verify_goldilocks_fold_sumcheck_v3 (Some pf) sd xc factor nonce expected = Ok tt ->
  exists fs xs d T fd seed final point x f,
    factor = PInt <$> fs /\ Forall canonical fs /\ fp_x_full_opening pf = PInt <$> xs
    /\ Forall canonical xs /\ length xs = length fs
    /\ length fs = (2 ^ length (fp_round_polynomials pf))%nat
    /\ (1 <= length (fp_round_polynomials pf))%nat
    /\ expected = PInt (fp_claimed_sum pf) /\ canonical (fp_claimed_sum pf)
    /\ sd = PBytes d /\ xc = PBytes (mt_commitment T)
    /\ from_rows (py_rows (column_rows xs)) (PBytes (sha256 (_COMMIT_DOMAIN ++ d))) = Ok T
    /\ factor_digest_v3 factor = Ok fd
    /\ _transcript_seed sd xc nonce (PBytes fd) (fp_claimed_sum pf) = Ok seed
    /\ verify_rounds seed 1 (fp_claimed_sum pf) (fp_round_polynomials pf) = Ok (final, point)
    /\ _mle_eval xs point = Ok x /\ _mle_eval fs point = Ok f
    /\ final = x * f mod GOLDILOCKS_MODULUS.
Proof.
  unfold verify_goldilocks_fold_sumcheck_v3. rewrite reraise_as_ok. cbv zeta. intros Hv.
  apply bind_ok in Hv as (fs&[-> Hcf]%fields_ok&Hv).
  destruct (bad_table_length (zlen fs)) eqn:Hb; [discriminate|].
  apply table_length_ok in Hb as (k&Hk&Hz). rewrite Hz, variables_pow2 in Hv.
  destruct (Z.eqb_spec (zlen (fp_round_polynomials pf)) (Z.of_nat k)) as [Hr|]; [|discriminate].
  cbn [negb] in Hv. apply bind_ok in Hv as (e&[-> He]%field_ok&Hv).
  destruct (Z.eqb_spec (fp_claimed_sum pf) e) as [<-|]; [|discriminate]. cbn [negb] in Hv.
  apply bind_ok in Hv as (c&(->&Hc32&_)%fixed32_ok&Hv).
  apply bind_ok in Hv as (fd&Hfd&Hv). apply bind_ok in Hv as (seed&Hseed&Hv).
  apply bind_ok in Hv as ([final point]&Hrounds&Hv). cbn [fst snd] in Hv.
  apply bind_ok in Hv as (f&Hf&Hv).
  destruct (Z.eqb_spec (zlen (fp_x_full_opening pf)) (2 ^ Z.of_nat k)) as [Hlo|]; [|discriminate].
  cbn [negb] in Hv. apply bind_ok in Hv as (xs&[Hxs Hcx]%fields_ok&Hv).
  apply bind_ok in Hv as (d&(->&_&_)%fixed32_ok&Hv). apply bind_ok in Hv as (T&HT&Hv).
  destruct (py_eq_bytes (mt_commitment T) (PBytes c)) eqn:Hcc; [|discriminate]. cbn [negb] in Hv.
  apply py_eq_bytes_spec in Hcc. apply bind_ok in Hv as (x&Hx&Hv).
  apply require_ok in Hv as ->%Z.eqb_eq.
  assert (length (fp_round_polynomials pf) = k) as Hrk by (unfold zlen in Hr; lia).
  exists fs, xs, d, T, fd, seed, (x * f mod GOLDILOCKS_MODULUS), point, x, f. rewrite Hrk.
  split_and!; try done.
  - rewrite Hxs, zlen_fmap in Hlo. unfold zlen in *. lia.
  - unfold zlen in Hz. apply Nat2Z.inj. by rewrite Nat2Z.inj_pow.
Qed.
End fold_theorems.

(** C10 (fold sumcheck soundness).  Let [T] commit to the table [xs].  If the
    verifier accepts a proof against [T]'s commitment, then the sum it was asked
    to confirm is the inner product of [xs] with the public factor, or one of
    the verifier's own challenges is a point where the prover's round message
    and the honest one, two different quadratics, meet, or the opening collides
    with the hashes of [T]. *)
Theorem fold_sumcheck_sound `{Digest} sd xs T pf factor nonce expected :
  commit_goldilocks_fold_sumcheck_x_v3 sd (PInt <$> xs) = Ok T ->
  verify_goldilocks_fold_sumcheck_v3 (Some pf) sd (PBytes (mt_commitment T)) factor nonce expected
    = Ok tt ->
  exists fs, factor = PInt <$> fs /\
    ((length fs = length xs /\ expected = PInt (inner_product xs fs mod GOLDILOCKS_MODULUS))
     \/ (exists fd seed final point, factor_digest_v3 factor = Ok fd
          /\ _transcript_seed sd (PBytes (mt_commitment T)) nonce (PBytes fd) (fp_claimed_sum pf) = Ok seed
          /\ verify_rounds seed 1 (fp_claimed_sum pf) (fp_round_polynomials pf) = Ok (final, point)
          /\ lucky 2 interp2 (columns_of (length xs) [xs; fs]) (msg2 <$> fp_round_polynomials pf)
               (toF <$> point))
     \/ second_preimage (inputs_of_tree T)).
Proof.
  intros HT Hv. apply commit_ok in HT as (xs'&d&k&Exs&Hcx&Hlx&Hk&->&Hd&_&HT).
  apply (inj (fmap PInt)) in Exs as <-.
  apply verify_fold_ok in Hv as (fs&ys&d'&T'&fd&seed&final&point&x&f&->&Hcf&_&Hcy&Hlen&Hpow&Hr1&
    ->&Hcs&Ed&ET&HT'&Hfd&Hseed&Hrounds&Hx&Hf&->).
  apply (inj PBytes) in Ed as <-. apply (inj PBytes) in ET.
  destruct (commitment_binds_tree _ _ _ _ _ _ HT HT' (eq_sym ET)) as [->|Hsp].
  - apply from_py_rows in HT as E1. apply from_py_rows in HT' as E2.
    rewrite E1 in E2. apply column_rows_inj in E2 as <-.
    exists fs. split; [done|].
    pose proof (verify_rounds_run _ _ _ _ _ _ Hcs Hrounds) as (Hrun&Hlp&_). rewrite <- Hlp in Hpow.
    assert (length xs = (2 ^ length point)%nat) as Hlx' by by rewrite Hlen.
    pose proof (final_total point xs fs x f Hlx' Hpow Hcx Hcf Hx Hf) as Hfin.
    destruct (run_sound 2 interp2 (toF (fp_claimed_sum pf)) (columns_of (length xs) [xs; fs])
      (msg2 <$> fp_round_polynomials pf) (toF <$> point)
      (toF (x * f mod GOLDILOCKS_MODULUS))) as [E|Hl]; [lia| | |exact Hrun| | |].
    + exact (columns_of_width _ [xs; fs]).
    + rewrite columns_of_length, length_fmap, <- Hlp. done.
    + by rewrite Hfin, Hlx'.
    + left. rewrite (inner_product_total xs fs) in E by done. split; [done|]. f_equal.
      apply toF_inj; [done|apply mod_canonical|]. by rewrite toF_mod.
    + right. left. by exists fd, seed, (x * f mod GOLDILOCKS_MODULUS), point.
  - exists fs. split; [done|]. by right; right.
Qed.

(** (sumcheck error bound).  Two different quadratic (respectively cubic, see
    the product sumcheck) round messages agree at no more than two challenges:
    of the [p] field elements, at most two are lucky for a cheating prover in
    any one round. *)
Theorem fold_sumcheck_lucky_bound v w rs :
  length v = 3%nat -> length w = 3%nat -> v <> w -> NoDup rs ->
  (forall r, r ∈ rs -> interp2 v r = interp2 w r) -> (length rs <= 2)%nat.
Proof. apply (interp_agreement 2 interp2). Qed.

(** C38 (fold sumcheck completeness).  For a committed table and a canonical
    factor of the same length, the prover returns a proof of the inner product
    that the verifier accepts, unless one of its challenge derivations exhausts
    its [2 ^ 16] rejection-sampling attempts. *)
Theorem fold_sumcheck_complete `{Digest} sd xs fs T nonce :
  commit_goldilocks_fold_sumcheck_x_v3 sd (PInt <$> xs) = Ok T ->
  length fs = length xs -> Forall canonical fs -> bytes32 nonce ->
  sha256 (concat (pack_Q <$> fs)) <> _ZERO32 ->
  prove_goldilocks_fold_sumcheck_v3 sd T (PInt <$> xs) (PInt <$> fs) (PBytes nonce)
    = raise ProofV3Error "unable to derive a fold-sumcheck challenge"
  \/ exists pf, prove_goldilocks_fold_sumcheck_v3 sd T (PInt <$> xs) (PInt <$> fs) (PBytes nonce) = Ok pf
       /\ fp_claimed_sum pf = inner_product xs fs mod GOLDILOCKS_MODULUS
       /\ verify_goldilocks_fold_sumcheck_v3 (Some pf) sd (PBytes (mt_commitment T)) (PInt <$> fs)
            (PBytes nonce) (PInt (inner_product xs fs mod GOLDILOCKS_MODULUS)) = Ok tt.
Proof.
  intros HT Hlen Hcf Hn Hfz. apply commit_ok in HT as (xs'&d&k&Exs&Hcx&Hlx&Hk&->&Hd&Hdz&HT).
  apply (inj (fmap PInt)) in Exs as <-. rewrite Hlx in Hlen.
  pose proof (from_py_rows _ _ _ HT) as Hrows. pose proof (from_rows_commitment _ _ _ HT) as Hcm.
  unfold prove_goldilocks_fold_sumcheck_v3. rewrite !length_fmap, Hlx, Hlen, Nat.eqb_refl. cbn [negb].
  assert (take (2 ^ k) (mt_rows T) = column_rows xs) as ->.
  { rewrite Hrows. apply take_ge. unfold column_rows. rewrite length_fmap. lia. }
  rewrite rows_equal_column. cbn [negb andb]. rewrite !fields_int by done. cbn [mbind res_bind]. cbv zeta.
  unfold factor_digest_v3. rewrite fields_int by done. cbn [mbind res_bind].
  rewrite claimed_inner by lia. set (s := inner_product xs fs mod GOLDILOCKS_MODULUS).
  assert (canonical s) as Hs by apply mod_canonical.
  set (fd := sha256 (concat (pack_Q <$> fs))) in *.
  assert (forall s', _transcript_seed (PBytes d) (PBytes (mt_commitment T)) (PBytes nonce) (PBytes fd) s'
    = Ok (sha256 (_TRANSCRIPT_DOMAIN ++ d ++ mt_commitment T ++ nonce ++ fd ++ pack_Q s'))) as Hseed.
  { intros s'. unfold _transcript_seed. rewrite (proj2 (fixed32_ok _ _ _ d) (conj eq_refl (conj Hd (fun _ => Hdz)))). cbn [mbind res_bind].
    rewrite !fixed32_bytes by done. cbn [mbind res_bind].
    by rewrite (proj2 (fixed32_ok _ _ _ fd) (conj eq_refl (conj (sha256_length _) (fun _ => Hfz)))). }
  rewrite Hseed, Hlx. cbn [mbind res_bind]. set (seed := sha256 (_TRANSCRIPT_DOMAIN ++ _)).
  destruct (prove_rounds_complete k (2 ^ k) seed 1 xs fs s) as
    [E|(rounds&final&point&E&Ev&Hlr&Hlp&Hct&Hcfin&Hfin)];
    [done|done|pose proof (Nat.pow_gt_lin_r 2 k); lia|done| | |].
  { unfold s. rewrite toF_mod. symmetry. by apply inner_product_total. }
  { left. by rewrite E. }
  right. rewrite E. cbn [mbind res_bind]. rewrite Hrows, column_firsts. cbn [mbind res_bind].
  rewrite fold_proof_new_ok by (done || lia).
  exists (MkFoldProof s rounds (PInt <$> xs)). split; [done|]. split; [done|].
  unfold verify_goldilocks_fold_sumcheck_v3. apply reraise_as_ok. cbv zeta.
  rewrite fields_int by done. cbn [mbind res_bind fp_round_polynomials fp_claimed_sum fp_x_full_opening].
  assert (zlen fs = 2 ^ Z.of_nat k) as Hzf by (unfold zlen; by rewrite Hlen, Nat2Z.inj_pow).
  rewrite Hzf, variables_pow2, (proj2 (table_length_ok _)) by (exists k; split; [lia|done]).
  assert (zlen rounds = Z.of_nat k) as -> by (unfold zlen; by rewrite Hlr).
  rewrite Z.eqb_refl. cbn [negb]. rewrite field_int by done. cbn [mbind res_bind].
  rewrite Z.eqb_refl. cbn [negb]. rewrite fixed32_bytes by done. cbn [mbind res_bind].
  unfold factor_digest_v3. rewrite (fields_int fs) by done. cbn [mbind res_bind]. fold fd.
  rewrite Hseed. cbn [mbind res_bind]. fold seed. rewrite Ev. cbn [mbind res_bind fst snd].
  assert (length xs = (2 ^ length point)%nat) as Hx2 by by rewrite Hlp.
  assert (length fs = (2 ^ length point)%nat) as Hf2 by by rewrite Hlp.
  destruct (mle_eval_ok fs point Hf2 Hcf) as (f&Ef&_&_).
  destruct (mle_eval_ok xs point Hx2 Hcx) as (x&Ex&_&_).
  rewrite Ef. cbn [mbind res_bind]. rewrite zlen_fmap.
  assert (zlen xs = 2 ^ Z.of_nat k) as -> by (unfold zlen; by rewrite Hlx, Nat2Z.inj_pow).
  rewrite Z.eqb_refl. cbn [negb]. rewrite fields_int by done. cbn [mbind res_bind].
  rewrite (proj2 (fixed32_ok _ _ _ d) (conj eq_refl (conj Hd (fun _ => Hdz)))). cbn [mbind res_bind]. rewrite HT. cbn [mbind res_bind].
  rewrite (proj2 (py_eq_bytes_spec _ _)) by done. cbn [negb]. rewrite Ex. cbn [mbind res_bind].
  apply require_ok, Z.eqb_eq. apply toF_inj; [done|apply mod_canonical|].
  rewrite Hfin, (final_total point xs fs x f) by done. by rewrite Hlp.
Qed.

(** ** Witnesses *)

#[local] Existing Instance checksum_digest.

Definition example_sd : pyval := PBytes (replicate 32 Byte.x01).
Definition example_nonce : bytes := replicate 32 Byte.x02.
Definition example_xs : list Z := [3; 5; 8; 13].
Definition example_fs : list Z := [2; 7; 1; 4].
Definition no_tree : GoldilocksMerkleTreeReference := MkTree [] 0 0 [] [] [].
Definition example_x_tree : GoldilocksMerkleTreeReference :=
  ok_or no_tree (commit_goldilocks_fold_sumcheck_x_v3 example_sd (PInt <$> example_xs)).
Definition example_fold_proof : GoldilocksFoldSumcheckProofV3 :=
  ok_or (MkFoldProof 0 [] [])
    (prove_goldilocks_fold_sumcheck_v3 example_sd example_x_tree (PInt <$> example_xs)
       (PInt <$> example_fs) (PBytes example_nonce)).

Lemma example_commit :
  commit_goldilocks_fold_sumcheck_x_v3 example_sd (PInt <$> example_xs) = Ok example_x_tree.
Proof. vm_compute. reflexivity. Qed.

Lemma fold_sumcheck_sound_witness :
  exists fs, PInt <$> example_fs = PInt <$> fs /\
    ((length fs = length example_xs
      /\ PInt 101 = PInt (inner_product example_xs fs mod GOLDILOCKS_MODULUS))
     \/ (exists fd seed final point, factor_digest_v3 (PInt <$> example_fs) = Ok fd
          /\ _transcript_seed example_sd (PBytes (mt_commitment example_x_tree)) (PBytes example_nonce)
               (PBytes fd) (fp_claimed_sum example_fold_proof) = Ok seed
          /\ verify_rounds seed 1 (fp_claimed_sum example_fold_proof)
               (fp_round_polynomials example_fold_proof) = Ok (final, point)
          /\ lucky 2 interp2 (columns_of (length example_xs) [example_xs; fs])
               (msg2 <$> fp_round_polynomials example_fold_proof) (toF <$> point))
     \/ second_preimage (inputs_of_tree example_x_tree)).
Proof.
  pose proof (fold_sumcheck_sound (H := checksum_digest) example_sd example_xs example_x_tree
    example_fold_proof (PInt <$> example_fs) (PBytes example_nonce) (PInt 101) example_commit) as Hs.
  refine (Hs _). vm_compute. reflexivity.
Defined.

Lemma fold_sumcheck_lucky_bound_witness :
  (length [pt 0; pt 1] <= 2)%nat /\ interp2 [toF 0; toF 0; toF 6] (pt 1) = interp2 [toF 0; toF 0; toF 0] (pt 1).
Proof.
  assert (forall r, r ∈ [pt 0; pt 1] ->
    interp2 [toF 0; toF 0; toF 6] r = interp2 [toF 0; toF 0; toF 0] r) as Hag.
  { intros r [->|[->|[]%not_elem_of_nil]%elem_of_cons]%elem_of_cons.
    - rewrite (interp_at (d := 2) (interp := interp2) [toF 0; toF 0; toF 6] 0 (toF 0)) by done.
      by rewrite (interp_at (d := 2) (interp := interp2) [toF 0; toF 0; toF 0] 0 (toF 0)).
    - rewrite (interp_at (d := 2) (interp := interp2) [toF 0; toF 0; toF 6] 1 (toF 0)) by done.
      by rewrite (interp_at (d := 2) (interp := interp2) [toF 0; toF 0; toF 0] 1 (toF 0)). }
  split; [|apply Hag; set_solver].
  refine (fold_sumcheck_lucky_bound [toF 0; toF 0; toF 6] [toF 0; toF 0; toF 0] [pt 0; pt 1]
    eq_refl eq_refl _ _ Hag).
  - by intros [= E].
  - apply NoDup_cons. split; [|apply NoDup_singleton]. rewrite list_elem_of_singleton.
    intros E. apply pt_inj in E; [discriminate|done|done].
Defined.

Lemma fold_sumcheck_complete_witness :
  prove_goldilocks_fold_sumcheck_v3 example_sd example_x_tree (PInt <$> example_xs)
    (PInt <$> example_fs) (PBytes example_nonce)
    = raise ProofV3Error "unable to derive a fold-sumcheck challenge"
  \/ exists pf, prove_goldilocks_fold_sumcheck_v3 example_sd example_x_tree (PInt <$> example_xs)
         (PInt <$> example_fs) (PBytes example_nonce) = Ok pf
       /\ fp_claimed_sum pf = inner_product example_xs example_fs mod GOLDILOCKS_MODULUS
       /\ verify_goldilocks_fold_sumcheck_v3 (Some pf) example_sd
            (PBytes (mt_commitment example_x_tree)) (PInt <$> example_fs) (PBytes example_nonce)
            (PInt (inner_product example_xs example_fs mod GOLDILOCKS_MODULUS)) = Ok tt.
Proof.
  pose proof (fold_sumcheck_complete (H := checksum_digest) example_sd example_xs example_fs
    example_x_tree example_nonce example_commit eq_refl) as Hc.
  refine (Hc _ eq_refl _).
  - repeat constructor; by vm_compute.
  - intros E. vm_compute in E. discriminate.
Defined.

(** ** The table guard of the prover

    The check fires only when both the rows and the row count differ: here it
    accepts a table that is not the committed one, of the same length, and
    returns a proof that the verifier refuses. *)

Definition guarded_tree : GoldilocksMerkleTreeReference :=
  ok_or no_tree (commit_goldilocks_fold_sumcheck_x_v3 example_sd (PInt <$> [3; 5])).

Definition mismatched_fold_proof : res GoldilocksFoldSumcheckProofV3 :=
  prove_goldilocks_fold_sumcheck_v3 example_sd guarded_tree (PInt <$> [4; 5])
    (PInt <$> [2; 7]) (PBytes example_nonce).

Definition mismatched_proof : GoldilocksFoldSumcheckProofV3 :=
  ok_or (MkFoldProof 0 [] []) mismatched_fold_proof.

(** (fold prover's table guard).  The prover's guard against a table that is
    not the committed one lets a different table of the same length through: the
    call returns a proof instead of raising, and that proof does not verify. *)
Theorem fold_prover_accepts_mismatched_table :
  mt_rows guarded_tree = column_rows [3; 5] /\
  exists pf, mismatched_fold_proof = Ok pf
    /\ verify_goldilocks_fold_sumcheck_v3 (Some pf) example_sd
         (PBytes (mt_commitment guarded_tree)) (PInt <$> [2; 7]) (PBytes example_nonce)
         (PInt (fp_claimed_sum pf))
       = raise ProofV3VerificationError
           "fold-sumcheck final evaluation does not match the commitment".
Proof.
  split; [vm_compute; reflexivity|]. exists mismatched_proof. split; vm_compute; reflexivity.
Qed.
