(* ===== verification/Roots.v ===== *)
(** * Roots of unity and discrete Fourier transforms over the Goldilocks field

    The algebra behind the radix-2 domains: principal roots of order [2 ^ k],
    the split of a polynomial into its even and odd part, and the inversion of
    the transform.  No Python code is modelled here. *)

From Stdlib Require Import ZArith Lia Zmod Field.
From stdpp Require Import base list sets.
From S2P Require Import Prelude Field Poly.

Local Open Scope F_scope.

(** ** Powers *)

Definition fpow (x : F) (n : nat) : F := Zmod.pow x (Z.of_nat n).

Lemma fpow_0 x : fpow x 0 = 1.
Proof. apply Zmod.pow_0_r. Qed.

Lemma fpow_S x n : fpow x (S n) = x * fpow x n.
Proof. unfold fpow. rewrite Nat2Z.inj_succ. apply Zmod.pow_succ_nonneg_r. lia. Qed.

Lemma fpow_1 x : fpow x 1 = x.
Proof. apply Zmod.pow_1_r. Qed.

Lemma fpow_add x n m : fpow x (n + m) = fpow x n * fpow x m.
Proof. unfold fpow. rewrite Nat2Z.inj_add. apply Zmod.pow_add_r_nonneg; lia. Qed.

Lemma fpow_mul x n m : fpow x (n * m) = fpow (fpow x n) m.
Proof. unfold fpow. rewrite Nat2Z.inj_mul. apply Zmod.pow_mul_r_nonneg; lia. Qed.

Lemma fpow_mul_l x y n : fpow (x * y) n = fpow x n * fpow y n.
Proof. apply Zmod.pow_mul_l_nonneg. lia. Qed.

Lemma fpow_1_l n : fpow 1 n = 1.
Proof. apply Zmod.pow_1_l. Qed.

Lemma fpow_square x n : fpow (x * x) n = fpow x (2 * n).
Proof. replace (2 * n)%nat with (n + n)%nat by lia. by rewrite fpow_add, fpow_mul_l. Qed.

Lemma toF_py_fpow b (e : nat) : toF (py_pow b (Z.of_nat e) GOLDILOCKS_MODULUS) = fpow (toF b) e.
Proof. apply toF_py_pow. lia. Qed.

Lemma F_mul_cancel_l (a b c : F) : a <> 0 -> a * b = a * c -> b = c.
Proof.
  intros Ha E. apply F_sub_zero. assert (a * (b - c) = 0) as [?|?]%F_mul_zero; [|done..].
  transitivity (a * b - a * c); [ring|]. rewrite E. ring.
Qed.

Lemma minus_one_ne_one : (0 - 1 : F) <> 1.
Proof.
  intros E. assert (toF (GOLDILOCKS_MODULUS - 1) = toF 1) as E'.
  { rewrite toF_sub, <- (toF_mod GOLDILOCKS_MODULUS), Z_mod_same_full, toF_0, toF_1. exact E. }
  apply toF_eq in E'. by vm_compute in E'.
Qed.

Lemma fpow_minus_one_odd j : fpow (0 - 1) (2 * j + 1) = 0 - 1.
Proof.
  rewrite fpow_add, fpow_1, fpow_mul. replace (fpow (0 - 1) 2) with (1 : F); [rewrite fpow_1_l; ring|].
  rewrite !fpow_S, fpow_0. ring.
Qed.

(** ** Principal roots of order [2 ^ k] *)

Definition principal (k : nat) (w : F) : Prop :=
  match k with O => w = 1 | S k => fpow w (2 ^ k) = 0 - 1 end.

Lemma principal_square k w : principal (S k) w -> principal k (w * w).
Proof.
  destruct k; cbn [principal]; intros E.
  - rewrite Nat.pow_0_r, fpow_1 in E. rewrite E. ring.
  - by rewrite fpow_square, <- Nat.pow_succ_r'.
Qed.

Lemma principal_order k w : principal k w -> fpow w (2 ^ k) = 1.
Proof.
  destruct k as [|k]; cbn [principal]; intros E; [by rewrite Nat.pow_0_r, fpow_1|].
  rewrite Nat.pow_succ_r', Nat.mul_comm, fpow_mul, E, !fpow_S, fpow_0. ring.
Qed.

Lemma principal_ne_one k w i : principal k w -> (0 < i < 2 ^ k)%nat -> fpow w i <> 1.
Proof.
  revert w i. induction k as [|k IH]; intros w i Hw Hi; [simpl in Hi; lia|].
  destruct (Nat.Even_or_Odd i) as [[j ->]|[j ->]].
  - rewrite <- fpow_square. apply IH; [by apply principal_square|]. simpl in Hi. lia.
  - intros E. assert (fpow w ((2 * j + 1) * 2 ^ k) = 1) as E1 by by rewrite fpow_mul, E, fpow_1_l.
    rewrite Nat.mul_comm, fpow_mul in E1. cbn [principal] in Hw.
    rewrite Hw, fpow_minus_one_odd in E1. by apply minus_one_ne_one.
Qed.

Lemma principal_nonzero k w : principal k w -> w <> 0.
Proof.
  intros Hw ->. pose proof (principal_order _ _ Hw) as E.
  destruct (2 ^ k)%nat eqn:E2; [pose proof (Nat.pow_nonzero 2 k); lia|].
  rewrite fpow_S in E. apply F_one_neq_zero. rewrite <- E. ring.
Qed.

Lemma principal_inverse k w u : principal k w -> w * u = 1 -> principal k u.
Proof.
  destruct k as [|k]; cbn [principal].
  - intros -> E. rewrite <- E. ring.
  - intros E Hu. assert (fpow w (2 ^ k) * fpow u (2 ^ k) = 1) as E1 by by rewrite <- fpow_mul_l, Hu, fpow_1_l.
    rewrite E in E1. transitivity ((0 - 1) * ((0 - 1) * fpow u (2 ^ k))); [ring|]. rewrite E1. ring.
Qed.

Lemma principal_half k w i : principal (S k) w -> fpow w (i + 2 ^ k) = 0 - fpow w i.
Proof. cbn [principal]. intros E. rewrite fpow_add, E. ring. Qed.

Lemma fpow_nonzero w n : w <> 0 -> fpow w n <> 0.
Proof.
  intros Hw. induction n as [|n IH]; [rewrite fpow_0; apply F_one_neq_zero|].
  rewrite fpow_S. by intros [|]%F_mul_zero.
Qed.

Lemma principal_inj k w i j :
  principal k w -> (i < 2 ^ k)%nat -> (j < 2 ^ k)%nat -> fpow w i = fpow w j -> i = j.
Proof.
  intros Hw. assert (forall i j, (i < j < 2 ^ k)%nat -> fpow w i <> fpow w j) as Hlt.
  { clear i j. intros i j Hij E. apply (principal_ne_one k w (j - i)); [done|lia|].
    apply (F_mul_cancel_l (fpow w i)); [by apply fpow_nonzero, (principal_nonzero k)|].
    rewrite <- fpow_add. replace (i + (j - i))%nat with j by lia. rewrite E. ring. }
  intros Hi Hj E. destruct (Nat.lt_trichotomy i j) as [?|[?|?]]; [|done|].
  - by destruct (Hlt i j ltac:(lia)).
  - by destruct (Hlt j i ltac:(lia)).
Qed.

(** ** Even and odd coefficients *)

Fixpoint evens {A} (l : list A) : list A :=
  match l with [] => [] | x :: l => x :: odds l end
with odds {A} (l : list A) : list A :=
  match l with [] => [] | _ :: l => evens l end.

Lemma evens_odds_length {A} (l : list A) m :
  length l = (2 * m)%nat -> length (evens l) = m /\ length (odds l) = m.
Proof.
  revert m. assert (forall n (l : list A), (length l <= n)%nat -> forall m, length l = (2 * m)%nat ->
    length (evens l) = m /\ length (odds l) = m) as Haux.
  { induction n as [|n IH]; intros [|x [|y k]] Hn [|m] E; try (simpl in *; lia); [done..|].
    simpl in Hn, E. destruct (IH k ltac:(lia) m ltac:(lia)). simpl. lia. }
  intros m. by apply (Haux (length l)).
Qed.

Lemma evens_lookup {A} (l : list A) i : evens l !! i = l !! (2 * i)%nat
with odds_lookup {A} (l : list A) i : odds l !! i = l !! (2 * i + 1)%nat.
Proof.
  - destruct l as [|x l]; [done|]. destruct i as [|i]; [done|].
    replace (2 * S i)%nat with (S (2 * i + 1)) by lia. simpl evens. rewrite !lookup_cons. apply odds_lookup.
  - destruct l as [|x l]; [done|]. replace (2 * i + 1)%nat with (S (2 * i)) by lia.
    simpl odds. rewrite lookup_cons. apply evens_lookup.
Qed.

Lemma fmap_evens {A B} (f : A -> B) l : f <$> evens l = evens (f <$> l)
with fmap_odds {A B} (f : A -> B) l : f <$> odds l = odds (f <$> l).
Proof.
  - destruct l as [|x l]; [done|]. simpl. f_equal. apply fmap_odds.
  - destruct l as [|x l]; [done|]. apply fmap_evens.
Qed.

Lemma evens_length_le {A} (l : list A) m :
  (length l <= 2 * m)%nat -> (length (evens l) <= m)%nat /\ (length (odds l) <= m)%nat.
Proof.
  revert m. assert (forall n (l : list A), (length l <= n)%nat -> forall m, (length l <= 2 * m)%nat ->
    (length (evens l) <= m)%nat /\ (length (odds l) <= m)%nat) as Haux.
  { induction n as [|n IH]; intros [|x [|y k]] Hn [|m] E; try (simpl in *; lia).
    simpl in Hn, E. destruct (IH k ltac:(lia) m ltac:(lia)). simpl. lia. }
  intros m. by apply (Haux (length l)).
Qed.

Lemma peval_split p x : peval p x = peval (evens p) (x * x) + x * peval (odds p) (x * x).
Proof.
  induction p as [|c p IH]; simpl; [ring|]. rewrite IH. ring.
Qed.

(** ** The transform and its inverse *)

Definition dft (k : nat) (w : F) (v : list F) : list F :=
  (fun i => peval v (fpow w i)) <$> seq 0 (2 ^ k).

Lemma dft_length k w v : length (dft k w v) = (2 ^ k)%nat.
Proof. unfold dft. by rewrite length_fmap, length_seq. Qed.

Lemma dft_lookup k w v i : (i < 2 ^ k)%nat -> dft k w v !! i = Some (peval v (fpow w i)).
Proof. intros Hi. unfold dft. by rewrite list_lookup_fmap, lookup_seq_lt. Qed.

(** The recurrence of the fast transform. *)
Lemma dft_split k w v :
  principal (S k) w ->
  dft (S k) w v =
    zip_with (fun i lr => lr.1 + lr.2 * fpow w i) (seq 0 (2 ^ k)) (zip (dft k (w * w) (evens v)) (dft k (w * w) (odds v)))
    ++ zip_with (fun i lr => lr.1 - lr.2 * fpow w i) (seq 0 (2 ^ k)) (zip (dft k (w * w) (evens v)) (dft k (w * w) (odds v))).
Proof.
  intros Hw. unfold dft. replace (2 ^ S k)%nat with (2 ^ k + 2 ^ k)%nat by (simpl; lia).
  rewrite seq_app, fmap_app. change (0 + 2 ^ k)%nat with (2 ^ k)%nat.
  assert (forall f : nat -> F * F -> F, zip_with f (seq 0 (2 ^ k))
    (zip ((fun i => peval (evens v) (fpow (w * w) i)) <$> seq 0 (2 ^ k))
         ((fun i => peval (odds v) (fpow (w * w) i)) <$> seq 0 (2 ^ k)))
    = (fun i => f i (peval (evens v) (fpow (w * w) i), peval (odds v) (fpow (w * w) i))) <$> seq 0 (2 ^ k)) as Hz.
  { intros f. generalize (seq 0 (2 ^ k)). intros l. induction l as [|a l IH]; [done|].
    cbn [fmap list_fmap zip_with]. f_equal. exact IH. }
  rewrite !Hz. f_equal.
  - apply list_fmap_ext. intros _ i _. cbn [fst snd]. rewrite peval_split, <- fpow_mul_l. ring.
  - rewrite <- (Nat.add_0_r (2 ^ k)) at 1. rewrite <- fmap_add_seq, <- list_fmap_compose.
    apply list_fmap_ext. intros _ i _. unfold compose. cbn [fst snd].
    rewrite peval_split, (Nat.add_comm (2 ^ k)), principal_half by done.
    replace ((0 - fpow w i) * (0 - fpow w i)) with (fpow (w * w) i) by (rewrite fpow_mul_l; ring). ring.
Qed.

Definition geometric (n : nat) (y : F) : F := fsum ((fun j => fpow y j) <$> seq 0 n).

Lemma geometric_spec n y : (y - 1) * geometric n y = fpow y n - 1.
Proof.
  unfold geometric. induction n as [|n IH]; [rewrite fpow_0; simpl; ring|].
  rewrite seq_S, fmap_app, fsum_app, fpow_S. set (g := fsum _) in *.
  transitivity ((y - 1) * g + (y - 1) * fpow y n); [simpl; ring|]. rewrite IH. ring.
Qed.

Lemma geometric_one n : geometric n 1 = toF (Z.of_nat n).
Proof.
  unfold geometric. induction n as [|n IH]; [symmetry; apply toF_0|].
  rewrite seq_S, fmap_app, fsum_app, IH. cbn [fmap list_fmap fsum foldr].
  rewrite fpow_1_l, Nat2Z.inj_succ, <- Z.add_1_r, toF_add, toF_1. ring.
Qed.

Lemma geometric_root k w e :
  principal k w -> (0 < e < 2 ^ k)%nat -> geometric (2 ^ k) (fpow w e) = 0.
Proof.
  intros Hw He. pose proof (geometric_spec (2 ^ k) (fpow w e)) as E.
  rewrite <- fpow_mul, Nat.mul_comm, fpow_mul, principal_order, fpow_1_l in E by done.
  assert ((fpow w e - 1) * geometric (2 ^ k) (fpow w e) = 0) as [H0|]%F_mul_zero; [rewrite E; ring| |done].
  exfalso. apply (principal_ne_one k w e); [done..|]. by apply (F_sub_zero (fpow w e) 1).
Qed.

(** [sum_j v(w^j) y^j] *)
Definition dual (n : nat) (w : F) (v : list F) (y : F) : F :=
  fsum ((fun j => peval v (fpow w j) * fpow y j) <$> seq 0 n).

Lemma peval_fmap_seq (f : nat -> F) n y :
  peval (f <$> seq 0 n) y = fsum ((fun j => f j * fpow y j) <$> seq 0 n).
Proof.
  revert f. induction n as [|n IH]; intros f; [done|].
  rewrite <- cons_seq. cbn [fmap list_fmap peval fsum foldr].
  change (list_fmap nat F ?g ?l) with (g <$> l). rewrite <- fmap_S_seq, <- !list_fmap_compose.
  rewrite (IH (f ∘ S)), fpow_0. unfold compose.
  assert (forall l, fsum ((fun j => f (S j) * fpow y (S j)) <$> l)
    = y * fsum ((fun j => f (S j) * fpow y j) <$> l)) as ->.
  { intros l. induction l as [|a l IHl]; cbn [fmap list_fmap fsum foldr]; [ring|].
    unfold fsum in IHl. change (list_fmap nat F ?g ?l) with (g <$> l). rewrite IHl, fpow_S. ring. }
  ring.
Qed.

Lemma dual_cons n w c v y : dual n w (c :: v) y = c * geometric n y + dual n w v (w * y).
Proof.
  unfold dual, geometric. generalize (seq 0 n). intros l.
  induction l as [|j l IH]; cbn [fmap list_fmap fsum foldr]; [ring|].
  unfold fsum in IH. change (list_fmap nat F ?g ?l) with (g <$> l). rewrite IH.
  cbn [peval]. rewrite fpow_mul_l. ring.
Qed.

Lemma dual_nil n w y : dual n w [] y = 0.
Proof.
  unfold dual. generalize (seq 0 n). intros l.
  induction l as [|j l IH]; cbn [fmap list_fmap fsum foldr]; [done|].
  unfold fsum in IH. change (list_fmap nat F ?g ?l) with (g <$> l). rewrite IH. simpl. ring.
Qed.

Section inversion.
Context (k : nat) (w u : F) (Hw : principal k w) (Hwu : w * u = 1).
Local Abbreviation n := (2 ^ k)%nat.

Lemma dual_beyond v e : (0 < e)%nat -> (e + length v <= n)%nat -> dual n w v (fpow w e) = 0.
Proof.
  revert e. induction v as [|c v IH]; intros e He Hl; [apply dual_nil|]. simpl in Hl.
  rewrite dual_cons, (geometric_root k w e), <- fpow_S, IH by (done || lia). ring.
Qed.

Lemma dual_pick v i :
  (i < length v <= n)%nat -> dual n w v (fpow u i) = toF (Z.of_nat n) * nth i v 0.
Proof.
  revert v. induction i as [|i IH]; intros [|c v] Hl; simpl in Hl; try lia; rewrite dual_cons.
  - rewrite fpow_0, geometric_one. replace (w * 1) with (fpow w 1) by (rewrite fpow_1; ring).
    rewrite dual_beyond by lia. simpl. ring.
  - assert (principal k u) as Hu by by eapply principal_inverse.
    rewrite (geometric_root k u (S i)) by (done || lia).
    rewrite fpow_S. replace (w * (u * fpow u i)) with (w * u * fpow u i) by ring.
    rewrite Hwu. replace (1 * fpow u i) with (fpow u i) by ring. rewrite IH by lia. simpl. ring.
Qed.

(** Transforming forth with [w] and back with [1 / w] multiplies by [2 ^ k]. *)
Lemma dft_dft v : length v = n -> dft k u (dft k w v) = (fun x => toF (Z.of_nat n) * x) <$> v.
Proof.
  intros Hv. apply list_eq_same_length with (n := n); [by rewrite length_fmap|apply dft_length|].
  intros i x y Hi Hx Hy. rewrite dft_lookup in Hx by done. apply (inj Some) in Hx as <-.
  rewrite list_lookup_fmap in Hy. unfold dft. rewrite peval_fmap_seq. fold (dual n w v (fpow u i)).
  rewrite dual_pick by lia. destruct (v !! i) as [z|] eqn:E; [|done]. apply (inj Some) in Hy as <-.
  f_equal. by apply nth_lookup_Some.
Qed.
End inversion.

Lemma two_pow_nonzero k : (k <= 32)%nat -> toF (Z.of_nat (2 ^ k)) <> 0.
Proof.
  intros Hk. rewrite toF_zero_iff; rewrite Nat2Z.inj_pow.
  - pose proof (Z.pow_pos_nonneg 2 (Z.of_nat k)). lia.
  - split; [lia|]. pose proof modulus_bounds.
    pose proof (Z.pow_le_mono_r 2 (Z.of_nat k) 32 ltac:(lia) ltac:(lia)). lia.
Qed.

(** ** Values of a polynomial on a coset *)

Definition coset_values (k : nat) (s w : F) (p : list F) : list F :=
  (fun i => peval p (s * fpow w i)) <$> seq 0 (2 ^ k).

(** [p (t x)] as a polynomial, times [c]. *)
Fixpoint substitute (t c : F) (p : list F) : list F :=
  match p with [] => [] | a :: p => (c * a) :: substitute t (c * t) p end.

Lemma substitute_length t c p : length (substitute t c p) = length p.
Proof. revert c. induction p as [|a p IH]; intros c; simpl; by rewrite ?IH. Qed.

Lemma peval_substitute t c p x : peval (substitute t c p) x = c * peval p (t * x).
Proof. revert c. induction p as [|a p IH]; intros c; simpl; [ring|]. rewrite IH. ring. Qed.

Lemma substitute_substitute t t' c c' p :
  t * t' = 1 -> substitute t c (substitute t' c' p) = (fun a => (c * c') * a) <$> p.
Proof.
  intros Ht. revert c c'. induction p as [|a p IH]; intros c c'; simpl; [done|]. f_equal; [ring|].
  rewrite IH. replace (c * t * (c' * t')) with (c * c'); [done|].
  transitivity (c * c' * (t * t')); [rewrite Ht|]; ring.
Qed.

Lemma coset_values_dft k s w p : coset_values k s w p = dft k w (substitute s 1 p).
Proof.
  apply list_fmap_ext. intros _ i _. rewrite peval_substitute. ring.
Qed.

Lemma coset_values_length k s w p : length (coset_values k s w p) = (2 ^ k)%nat.
Proof. unfold coset_values. by rewrite length_fmap, length_seq. Qed.

Lemma coset_values_lookup k s w p i :
  (i < 2 ^ k)%nat -> coset_values k s w p !! i = Some (peval p (s * fpow w i)).
Proof. intros Hi. unfold coset_values. by rewrite list_lookup_fmap, lookup_seq_lt. Qed.

Lemma coset_values_ext k s w p q :
  (forall x, peval p x = peval q x) -> coset_values k s w p = coset_values k s w q.
Proof. intros E. apply list_fmap_ext. intros _ i _. apply E. Qed.

(** The polynomial with [2 ^ k] coefficients that takes the values [v]. *)
Definition interpolate (k : nat) (s w : F) (v : list F) : list F :=
  substitute (Zmod.inv s) (Zmod.inv (toF (Z.of_nat (2 ^ k)))) (dft k (Zmod.inv w) v).

Section coset.
Context (k : nat) (s w : F) (Hk : (k <= 32)%nat) (Hs : s <> 0) (Hw : principal k w).

Lemma root_inverse : w * Zmod.inv w = 1.
Proof. pose proof (principal_nonzero k w Hw). field. done. Qed.

Lemma interpolate_length v : length (interpolate k s w v) = (2 ^ k)%nat.
Proof. unfold interpolate. by rewrite substitute_length, dft_length. Qed.

Lemma interpolate_coset_values p :
  length p = (2 ^ k)%nat -> interpolate k s w (coset_values k s w p) = p.
Proof.
  intros Hp. unfold interpolate. pose proof (two_pow_nonzero k Hk) as Hn.
  rewrite coset_values_dft, (dft_dft k w) by (done || apply root_inverse || by rewrite substitute_length).
  rewrite <- (list_fmap_id p) at 2. generalize (toF (Z.of_nat (2 ^ k))) as n, Hn. intros n Hn0.
  assert (forall c d e p, d * c * e = 1 -> substitute (Zmod.inv s) d ((fun x => c * x) <$> substitute s e p) = id <$> p)
    as Haux.
  { clear -Hs. intros c d e p. revert d e. induction p as [|a p IH]; intros d e E; [done|]. simpl. f_equal.
    - transitivity (d * c * e * a); [ring|]. rewrite E. unfold id. ring.
    - apply IH. transitivity (d * c * e); [field; done|done]. }
  apply Haux. field. done.
Qed.

Lemma coset_values_interpolate v :
  length v = (2 ^ k)%nat -> coset_values k s w (interpolate k s w v) = v.
Proof.
  intros Hv. unfold interpolate. pose proof (two_pow_nonzero k Hk) as Hn.
  rewrite coset_values_dft, substitute_substitute by (field; done).
  assert (Zmod.inv w * w = 1) as Hwu by (rewrite <- root_inverse; ring).
  assert (principal k (Zmod.inv w)) as Hu by (eapply principal_inverse; [done|apply root_inverse]).
  pose proof (dft_dft k (Zmod.inv w) w Hu Hwu v Hv) as E.
  apply list_eq_same_length with (n := (2 ^ k)%nat); [done|apply dft_length|].
  intros i x y Hi Hx Hy. rewrite dft_lookup in Hx by done. apply (inj Some) in Hx as <-.
  change (peval ((fun a => ?c * a) <$> ?p) ?x) with (peval (pscale c p) x). rewrite peval_pscale.
  apply (f_equal (.!! i)) in E. rewrite dft_lookup, list_lookup_fmap, Hy in E by done.
  apply (inj Some) in E. rewrite E. field. done.
Qed.

(** Polynomials with [2 ^ k] coefficients are determined by their values. *)
Lemma coset_values_inj p q :
  length p = (2 ^ k)%nat -> length q = (2 ^ k)%nat ->
  coset_values k s w p = coset_values k s w q -> p = q.
Proof.
  intros Hp Hq E. rewrite <- (interpolate_coset_values p), <- (interpolate_coset_values q) by done. by rewrite E.
Qed.
End coset.

(** ** Folding a polynomial *)

(** [even + beta * odd], the polynomial of the folded values. *)
Definition pfold (beta : F) (p : list F) : list F := padd (evens p) (pscale beta (odds p)).

Lemma pfold_length beta p m : (length p <= 2 * m)%nat -> (length (pfold beta p) <= m)%nat.
Proof. intros [? ?]%evens_length_le. unfold pfold. rewrite padd_length, pscale_length. lia. Qed.

Lemma pfold_length_eq beta p m : length p = (2 * m)%nat -> length (pfold beta p) = m.
Proof. intros [H1 H2]%evens_odds_length. unfold pfold. rewrite padd_length, pscale_length, H1, H2. lia. Qed.

Lemma pfold_values p beta x h :
  x <> 0 -> toF 2 * h = 1 ->
  peval (pfold beta p) (x * x)
  = (peval p x + peval p (0 - x)) * h + beta * ((peval p x - peval p (0 - x)) * h * Zmod.inv x).
Proof.
  intros Hx Hh. unfold pfold. rewrite peval_padd, peval_pscale, (peval_split p x), (peval_split p (0 - x)).
  replace ((0 - x) * (0 - x)) with (x * x) by ring.
  set (a := peval (evens p) (x * x)). set (b := peval (odds p) (x * x)).
  assert (toF 2 = 1 + 1) as H2 by (rewrite <- toF_1, <- toF_add; reflexivity). rewrite H2 in Hh.
  transitivity ((1 + 1) * h * a + beta * ((1 + 1) * h * (x * Zmod.inv x) * b)); [|ring].
  rewrite Hh. replace (x * Zmod.inv x) with (1 : F) by (field; done). ring.
Qed.

(** [even (x^2) + x * odd (x^2)], with [2 * m] coefficients. *)
Fixpoint pinter (m : nat) (E O : list F) : list F :=
  match m with
  | O => []
  | S m => hd 0 E :: hd 0 O :: pinter m (tail E) (tail O)
  end.

Lemma pinter_length m E O : length (pinter m E O) = (2 * m)%nat.
Proof. revert E O. induction m as [|m IH]; intros E O; simpl; [done|]. rewrite IH. lia. Qed.

Lemma peval_pinter m E O x :
  (length E <= m)%nat -> (length O <= m)%nat ->
  peval (pinter m E O) x = peval E (x * x) + x * peval O (x * x).
Proof.
  revert E O. induction m as [|m IH]; intros [|a E] [|b O] HE HO; cbn [pinter hd tail peval length] in *;
    try lia; [ring|rewrite IH by (simpl; lia); simpl; ring..].
Qed.
