(* ===== verification/Radix2.v ===== *)
(** * Radix-2 domains and transforms ([verallm/proof_v3/goldilocks_reference.py], second half)

    Principal roots of unity, multiplicative cosets in the order of the fast
    Fourier transform, the in-place transform with its bit reversal, and the
    three functions built on it: evaluation, interpolation and low-degree
    extension.  The theorems are in [Radix2Theory]. *)

From Stdlib Require Import ZArith Lia.
From stdpp Require Import base list strings pretty.
From S2P Require Import Prelude Field Merkle.

Local Open Scope Z_scope.

(** ** Sizes and roots *)

Definition _radix2_size (value : pyval) (name : string) (cpu_materialized : bool) : res Z :=
  size ← _integer value name;
  if (size <? 1) || (Z.shiftl 1 GOLDILOCKS_TWO_ADICITY <? size) || not_power_of_two size then
    raise ProofV3Error (name +:+ " must be a power of two in 1..=2**32")
  else if cpu_materialized && (MAX_GOLDILOCKS_REFERENCE_DOMAIN_SIZE <? size) then
    raise ProofV3Error (name +:+ " exceeds the CPU reference cap 65536")
  else Ok size.

(** The memory of [lru_cache] does not show in the value. *)
Definition _principal_root (size : Z) : res Z :=
  let root := py_pow GOLDILOCKS_PRIMITIVE_GENERATOR ((GOLDILOCKS_MODULUS - 1) / size)
                GOLDILOCKS_MODULUS in
  if negb (py_pow root size GOLDILOCKS_MODULUS =? 1) then
    raise ProofV3Error "derived Goldilocks root does not have the requested order"
  else if (1 <? size) && (py_pow root (size / 2) GOLDILOCKS_MODULUS =? 1) then
    raise ProofV3Error "derived Goldilocks root is not principal"
  else Ok root.

Definition goldilocks_principal_root_of_unity (size : pyval) : res Z :=
  size ← _radix2_size size "Goldilocks root size" false;
  _principal_root size.

(** ** Domains *)

Record GoldilocksRadix2DomainReference := MkDomain {
  dm_size : Z;
  dm_shift : Z;
  dm_generator : Z;
}.

(** The constructor, with [__post_init__]. *)
Definition goldilocks_radix2_domain_reference (size shift : pyval)
    : res GoldilocksRadix2DomainReference :=
  size ← _radix2_size size "Goldilocks domain size" true;
  shift ← canonical_goldilocks shift "Goldilocks domain shift";
  if shift =? 0 then raise ProofV3Error "Goldilocks domain shift must be nonzero"
  else
    root ← _principal_root size;
    Ok (MkDomain size shift root).

(** [for _ in range(n)]: the values of [current], and the last one. *)
Fixpoint points_loop (n : nat) (generator current : Z) : list Z * Z :=
  match n with
  | O => ([], current)
  | S n =>
      let '(result, last) := points_loop n generator (current * generator mod GOLDILOCKS_MODULUS) in
      (current :: result, last)
  end.

Definition points (self : GoldilocksRadix2DomainReference) : res (list Z) :=
  let '(result, current) := points_loop (Z.to_nat (dm_size self)) (dm_generator self) (dm_shift self) in
  if negb (current =? dm_shift self) then
    raise ProofV3Error "Goldilocks domain generator failed its order check"
  else Ok result.

(** ** Vectors *)

Definition _field_vector (values : pyval) (length : option Z) (name : string) : res (list Z) :=
  match values with
  | PTuple vector | PList vector =>
      if bool_decide (vector = []) then raise ProofV3Error (name +:+ " must not be empty")
      else if differs length (zlen vector) then
        raise ProofV3Error (name +:+ " must contain exactly " +:+ pretty (default 0 length) +:+ " values")
      else if MAX_GOLDILOCKS_REFERENCE_DOMAIN_SIZE <? zlen vector then
        raise ProofV3Error (name +:+ " exceeds the CPU reference cap")
      else imapR canonical_goldilocks name vector
  | _ => raise ProofV3Error (name +:+ " must be an iterable of canonical field integers")
  end.

(** [l[i]] and [l[i] = v] for an index that is not negative. *)
Definition get_item (l : list Z) (i : nat) : res Z :=
  match l !! i with Some v => Ok v | None => raise IndexError "list index out of range" end.
Definition set_item (l : list Z) (i : nat) (v : Z) : res (list Z) :=
  if (i <? length l)%nat then Ok (<[i := v]> l)
  else raise IndexError "list assignment index out of range".

(** [for x in l: state = f(x, state)] where the body may raise. *)
Fixpoint for_each {A S} (f : A -> S -> res S) (l : list A) (s : S) : res S :=
  match l with
  | [] => Ok s
  | x :: l => s ← f x s; for_each f l s
  end.

(** ** The transform *)

(** [while index & bit: index ^= bit; bit >>= 1], then [index ^= bit].  The bit
    is zero after [bit_length] passes, which ends the loop. *)
Fixpoint carry_loop (fuel : nat) (index bit : Z) : Z :=
  match fuel with
  | O => Z.lxor index bit
  | S fuel =>
      if Z.land index bit =? 0 then Z.lxor index bit
      else carry_loop fuel (Z.lxor index bit) (Z.shiftr bit 1)
  end.

Definition reverse_step (n : Z) (current : nat) (s : list Z * Z) : res (list Z * Z) :=
  let '(result, index) := s in
  let index := carry_loop (Z.to_nat (bit_length n)) index (Z.shiftr n 1) in
  if Z.of_nat current <? index then
    right ← get_item result (Z.to_nat index);
    left ← get_item result current;
    result ← set_item result current right;
    result ← set_item result (Z.to_nat index) left;
    Ok (result, index)
  else Ok (result, index).

Definition _bit_reverse_permute (values : list Z) : res (list Z) :=
  s ← for_each (reverse_step (zlen values)) (seq 1 (length values - 1)) (values, 0);
  Ok s.1.

(** One butterfly; the state is the array and the twiddle factor. *)
Definition butterfly (half : nat) (step : Z) (start offset : nat) (s : list Z * Z)
    : res (list Z * Z) :=
  let '(result, twiddle) := s in
  left ← get_item result (start + offset);
  r ← get_item result (start + offset + half);
  let right := r * twiddle mod GOLDILOCKS_MODULUS in
  result ← set_item result (start + offset) ((left + right) mod GOLDILOCKS_MODULUS);
  result ← set_item result (start + offset + half) ((left - right) mod GOLDILOCKS_MODULUS);
  Ok (result, twiddle * step mod GOLDILOCKS_MODULUS).

Definition transform_block (half : nat) (step : Z) (start : nat) (result : list Z)
    : res (list Z) :=
  s ← for_each (butterfly half step start) (seq 0 half) (result, 1);
  Ok s.1.

(** [range(0, n, span)] *)
Definition range_step (n span : nat) : list nat :=
  (fun i => (i * span)%nat) <$> seq 0 ((n + span - 1) / span).

(** [while span <= len(result)]; [span] doubles, so that [bit_length n] passes
    are enough. *)
Fixpoint span_loop (fuel : nat) (root : Z) (span : nat) (result : list Z) : res (list Z) :=
  match fuel with
  | O => Ok result
  | S fuel =>
      if (length result <? span)%nat then Ok result
      else
        let half := (span / 2)%nat in
        let step := py_pow root (Z.of_nat (length result / span)) GOLDILOCKS_MODULUS in
        result ← for_each (transform_block half step) (range_step (length result) span) result;
        span_loop fuel root (2 * span) result
  end.

Definition _radix2_transform (values : list Z) (root : Z) : res (list Z) :=
  result ← _bit_reverse_permute values;
  span_loop (Z.to_nat (bit_length (zlen result))) root 2 result.

(** ** Evaluation, interpolation, extension *)

(** [for c in vector: out.append(f(c) * power % p); power = power * base % p] *)
Fixpoint scale_loop (f : Z -> Z) (base power : Z) (vector : list Z) : list Z :=
  match vector with
  | [] => []
  | c :: vector =>
      (f c * power mod GOLDILOCKS_MODULUS)
        :: scale_loop f base (power * base mod GOLDILOCKS_MODULUS) vector
  end.

(** [domain = None] stands for an object of another type. *)
Definition ntt_goldilocks_reference (coefficients : pyval)
    (domain : option GoldilocksRadix2DomainReference) : res (list Z) :=
  match domain with
  | None => raise ProofV3Error "Goldilocks NTT domain has an unexpected type"
  | Some domain =>
      vector ← _field_vector coefficients (Some (dm_size domain)) "Goldilocks NTT coefficients";
      _radix2_transform (scale_loop (fun c => c) (dm_shift domain) 1 vector) (dm_generator domain)
  end.

Definition intt_goldilocks_reference (evaluations : pyval)
    (domain : option GoldilocksRadix2DomainReference) : res (list Z) :=
  match domain with
  | None => raise ProofV3Error "Goldilocks inverse NTT domain has an unexpected type"
  | Some domain =>
      vector ← _field_vector evaluations (Some (dm_size domain))
                 "Goldilocks inverse NTT evaluations";
      inverse_root ← goldilocks_inv (PInt (dm_generator domain));
      transformed ← _radix2_transform vector inverse_root;
      inverse_size ← goldilocks_inv (PInt (dm_size domain));
      inverse_shift ← goldilocks_inv (PInt (dm_shift domain));
      Ok (scale_loop (fun value => value * inverse_size mod GOLDILOCKS_MODULUS) inverse_shift 1
            transformed)
  end.

Definition lde_goldilocks_reference (source_evaluations target_size source_shift target_shift : pyval)
    : res (list Z) :=
  source ← _field_vector source_evaluations None "Goldilocks LDE source evaluations";
  source_size ← _radix2_size (PInt (zlen source)) "Goldilocks LDE source_size" true;
  target ← _radix2_size target_size "Goldilocks LDE target_size" true;
  if (target <? source_size) || negb (target mod source_size =? 0) then
    raise ProofV3Error "Goldilocks LDE target_size must be a multiple of source_size"
  else
    source_domain ← goldilocks_radix2_domain_reference (PInt source_size) source_shift;
    target_domain ← goldilocks_radix2_domain_reference (PInt target) target_shift;
    coefficients ← intt_goldilocks_reference (py_ints source) (Some source_domain);
    let padded := coefficients ++ replicate (Z.to_nat (target - source_size)) 0 in
    ntt_goldilocks_reference (py_ints padded) (Some target_domain).

Example ntt_roundtrip_4 :
  (d ← goldilocks_radix2_domain_reference (PInt 4) (PInt 3);
   v ← ntt_goldilocks_reference (py_ints [5; 7; 11; 13]) (Some d);
   w ← intt_goldilocks_reference (py_ints v) (Some d);
   pts ← points d;
   Ok (v !! 1%nat, (x ← pts !! 1%nat; Some ((5 + 7 * x + 11 * x ^ 2 + 13 * x ^ 3) mod GOLDILOCKS_MODULUS)), w))
  = Ok (Some 18353857327100067747, Some 18353857327100067747, [5; 7; 11; 13]).
Proof. vm_compute. reflexivity. Qed.

Example lde_8_16 :
  (a ← lde_goldilocks_reference (py_ints [1; 2; 3; 4; 5; 6; 7; 8]) (PInt 16) (PInt 1) (PInt 1);
   Ok ((fun i => default 0 (a !! (2 * i)%nat)) <$> seq 0 8)) = Ok [1; 2; 3; 4; 5; 6; 7; 8].
Proof. vm_compute. reflexivity. Qed.
