(* ===== verification/Radix2Theory.v ===== *)
(** * The radix-2 transform computes what it says

    Domains are cosets of the subgroup of order [2 ^ k]; the in-place transform
    is the discrete Fourier transform; interpolation inverts evaluation; the
    low-degree extension evaluates the interpolated polynomial elsewhere. *)

From Stdlib Require Import ZArith Lia Zmod Field.
From stdpp Require Import base list sets strings pretty.
From S2P Require Import Prelude Field Merkle MerkleTheory Poly Roots Radix2.

Local Open Scope Z_scope.

(** ** Sizes, roots and domains *)

Lemma pow2_nat (k : nat) : Z.of_nat (2 ^ k) = 2 ^ Z.of_nat k.
Proof. by rewrite Nat2Z.inj_pow. Qed.

Lemma pow2_pos (k : nat) : 0 < 2 ^ Z.of_nat k.
Proof. apply Z.pow_pos_nonneg; lia. Qed.

Lemma pow2_to_nat (k : nat) : Z.to_nat (2 ^ Z.of_nat k) = (2 ^ k)%nat.
Proof. by rewrite <- pow2_nat, Nat2Z.id. Qed.

Lemma radix2_size_ok v name (cpu : bool) n :
  _radix2_size v name cpu = Ok n <->
  v = PInt n /\ exists k : nat, n = 2 ^ Z.of_nat k /\ (k <= if cpu then 16 else 32)%nat.
Proof.
  unfold _radix2_size. destruct v; simpl; try (split; [discriminate|by intros [? _]]).
  change (Z.shiftl 1 GOLDILOCKS_TWO_ADICITY) with (2 ^ 32).
  change MAX_GOLDILOCKS_REFERENCE_DOMAIN_SIZE with (2 ^ 16).
  split.
  - destruct (Z.ltb_spec z 1); simpl; [discriminate|].
    destruct (Z.ltb_spec (2 ^ 32) z); simpl; [discriminate|].
    destruct (not_power_of_two z) eqn:Hp; simpl; [discriminate|].
    apply not_power_of_two_false in Hp; [|done]. pose proof (Z.log2_nonneg z).
    assert (cpu = true -> z <= 2 ^ 16 \/ 2 ^ 16 < z) as Hcpu by lia.
    destruct (andb cpu (2 ^ 16 <? z)) eqn:Hc; [discriminate|]. intros [= ->].
    split; [done|]. exists (Z.to_nat (Z.log2 n)). rewrite Z2Nat.id by done. split; [done|].
    destruct cpu; simpl in Hc; [apply Z.ltb_ge in Hc|].
    + apply Z.log2_le_mono in Hc. rewrite Z.log2_pow2 in Hc by lia. lia.
    + assert (Z.log2 n <= Z.log2 (2 ^ 32)) as Hl by by apply Z.log2_le_mono. rewrite Z.log2_pow2 in Hl by lia. lia.
  - intros [[= ->] (k&->&Hk)]. pose proof (pow2_pos k).
    assert (2 ^ Z.of_nat k <= 2 ^ 32) by (apply Z.pow_le_mono_r; [lia|destruct cpu; lia]).
    rewrite (proj2 (Z.ltb_ge _ 1)), (proj2 (Z.ltb_ge (2 ^ 32) _)), pow2_not_npot by lia. simpl.
    destruct cpu; simpl; [|done]. rewrite (proj2 (Z.ltb_ge _ _)); [done|]. apply Z.pow_le_mono_r; lia.
Qed.

Lemma radix2_size_pow2 (k : nat) name (cpu : bool) :
  (k <= if cpu then 16 else 32)%nat -> _radix2_size (PInt (2 ^ Z.of_nat k)) name cpu = Ok (2 ^ Z.of_nat k).
Proof. intros Hk. apply radix2_size_ok. split; [done|by exists k]. Qed.

(** [7 ^ ((p - 1) / 2 ^ k)] *)
Definition root_of (k : nat) : Z :=
  py_pow GOLDILOCKS_PRIMITIVE_GENERATOR ((GOLDILOCKS_MODULUS - 1) / 2 ^ Z.of_nat k) GOLDILOCKS_MODULUS.

Lemma group_order k : (k <= 32)%nat ->
  (GOLDILOCKS_MODULUS - 1) / 2 ^ Z.of_nat k = Z.of_nat (2 ^ (32 - k)) * (2 ^ 32 - 1).
Proof.
  intros Hk. rewrite pow2_nat. replace (GOLDILOCKS_MODULUS - 1) with (2 ^ 32 * (2 ^ 32 - 1)) by by rewrite modulus_value.
  replace (2 ^ 32) with (2 ^ Z.of_nat (32 - k) * 2 ^ Z.of_nat k) at 1.
  2:{ rewrite <- Z.pow_add_r by lia. f_equal. lia. }
  replace (2 ^ Z.of_nat (32 - k) * 2 ^ Z.of_nat k * (2 ^ 32 - 1))
    with (2 ^ Z.of_nat (32 - k) * (2 ^ 32 - 1) * 2 ^ Z.of_nat k) by ring.
  apply Z.div_mul. pose proof (pow2_pos k). lia.
Qed.

Lemma root_of_canonical k : (k <= 32)%nat -> canonical (root_of k).
Proof.
  intros Hk. unfold root_of. rewrite py_pow_spec; [apply mod_canonical|].
  rewrite group_order by done. lia.
Qed.

(** The generator of the subgroup of order [2 ^ 32]. *)
Definition top_root : F := Zmod.pow (toF GOLDILOCKS_PRIMITIVE_GENERATOR) (2 ^ 32 - 1).

Lemma toF_root_of k : (k <= 32)%nat -> toF (root_of k) = fpow top_root (2 ^ (32 - k)).
Proof.
  intros Hk. unfold root_of, top_root, fpow. rewrite toF_py_pow by (rewrite group_order by done; lia).
  rewrite group_order by done. rewrite Z.mul_comm. apply Zmod.pow_mul_r_nonneg; lia.
Qed.

Lemma top_root_principal : principal 32 top_root.
Proof.
  unfold principal, top_root, fpow. rewrite pow2_nat, <- toF_pow, <- toF_pow by lia.
  change (Z.of_nat 31) with 31. rewrite <- toF_0, <- toF_1, <- toF_sub. apply toF_eq.
  rewrite generator_minus_one. by vm_compute.
Qed.

Lemma root_of_principal k : (k <= 32)%nat -> principal k (toF (root_of k)).
Proof.
  intros Hk. rewrite toF_root_of by done.
  replace k with (32 - (32 - k))%nat at 1 by lia. remember (32 - k)%nat as j eqn:Hj.
  assert (j <= 32)%nat as Hj' by lia. clear -Hj'. induction j as [|j IH].
  - rewrite Nat.pow_0_r, fpow_1. apply top_root_principal.
  - rewrite Nat.pow_succ_r', Nat.mul_comm, fpow_mul.
    replace (fpow (fpow top_root (2 ^ j)) 2) with (Zmod.mul (fpow top_root (2 ^ j)) (fpow top_root (2 ^ j)))
      by (rewrite !(fpow_S (fpow _ _)), fpow_0; ring).
    apply principal_square. replace (S (32 - S j)) with (32 - j)%nat by lia. apply IH. lia.
Qed.

Lemma root_of_square k : (S k <= 32)%nat ->
  Zmod.mul (toF (root_of (S k))) (toF (root_of (S k))) = toF (root_of k).
Proof.
  intros Hk. rewrite !toF_root_of by lia. rewrite <- fpow_add. f_equal.
  replace (32 - k)%nat with (S (32 - S k)) by lia. simpl. lia.
Qed.

Lemma principal_root_ok k : (k <= 32)%nat -> _principal_root (2 ^ Z.of_nat k) = Ok (root_of k).
Proof.
  intros Hk. unfold _principal_root. cbv zeta. fold (root_of k).
  pose proof (root_of_principal k Hk) as Hp.
  assert (py_pow (root_of k) (2 ^ Z.of_nat k) GOLDILOCKS_MODULUS = 1) as ->.
  { apply toF_inj; [rewrite py_pow_spec by (pose proof (pow2_pos k); lia); apply mod_canonical|by vm_compute|].
    by rewrite <- pow2_nat, toF_py_fpow, principal_order, toF_1. }
  change (negb (1 =? 1)) with false. cbv iota.
  destruct k as [|k]; [by rewrite (proj2 (Z.ltb_ge 1 _))|].
  replace (2 ^ Z.of_nat (S k) / 2) with (Z.of_nat (2 ^ k)).
  2:{ rewrite pow2_nat, Nat2Z.inj_succ, Z.pow_succ_r, Z.mul_comm, Z.div_mul; lia. }
  rewrite (proj2 (Z.eqb_neq _ 1)); [by rewrite andb_false_r|].
  intros E%(f_equal toF). rewrite toF_py_fpow, toF_1 in E. cbn [principal] in Hp. rewrite Hp in E.
  by apply minus_one_ne_one.
Qed.

Definition domain_of (k : nat) (shift : Z) : GoldilocksRadix2DomainReference :=
  MkDomain (2 ^ Z.of_nat k) shift (root_of k).

Lemma domain_ok v s d :
  goldilocks_radix2_domain_reference v s = Ok d <->
  exists (k : nat) shift, v = PInt (2 ^ Z.of_nat k) /\ (k <= 16)%nat /\ s = PInt shift
    /\ canonical shift /\ shift <> 0 /\ d = domain_of k shift.
Proof.
  unfold goldilocks_radix2_domain_reference. split.
  - intros H. apply bind_ok in H as (n&(->&k&->&Hk)%radix2_size_ok&H).
    apply bind_ok in H as (shift&[-> Hs]%canonical_goldilocks_ok&H).
    destruct (Z.eqb_spec shift 0); [discriminate|]. rewrite principal_root_ok in H by lia.
    exists k, shift. by apply (inj Ok) in H as <-.
  - intros (k&shift&->&Hk&->&Hs&H0&->). rewrite radix2_size_pow2 by done. simpl.
    rewrite canonical_goldilocks_int by done. simpl. rewrite (proj2 (Z.eqb_neq _ 0)) by done.
    by rewrite principal_root_ok by lia.
Qed.

(** [shift * generator ^ i] *)
Definition point_at (k : nat) (shift : Z) (i : nat) : Z :=
  shift * root_of k ^ Z.of_nat i mod GOLDILOCKS_MODULUS.

Lemma toF_point_at k shift i : toF (point_at k shift i) = Zmod.mul (toF shift) (fpow (toF (root_of k)) i).
Proof. unfold point_at, fpow. by rewrite toF_mod, toF_mul, toF_pow by lia. Qed.

Lemma points_loop_ok n g c :
  canonical c ->
  points_loop n g c = ((fun i => c * g ^ Z.of_nat i mod GOLDILOCKS_MODULUS) <$> seq 0 n,
                       c * g ^ Z.of_nat n mod GOLDILOCKS_MODULUS).
Proof.
  revert c. induction n as [|n IH]; intros c Hc.
  { by rewrite Z.pow_0_r, Z.mul_1_r, canonical_mod. }
  cbn [points_loop]. rewrite IH by apply mod_canonical. rewrite <- cons_seq. cbn [fmap list_fmap].
  rewrite Z.pow_0_r, Z.mul_1_r, (canonical_mod c) by done. rewrite <- fmap_S_seq, <- list_fmap_compose.
  assert (forall i : nat, c * g mod GOLDILOCKS_MODULUS * g ^ Z.of_nat i mod GOLDILOCKS_MODULUS
    = c * g ^ Z.of_nat (S i) mod GOLDILOCKS_MODULUS) as E.
  { intros i. rewrite Zmult_mod_idemp_l, Nat2Z.inj_succ, Z.pow_succ_r by lia. f_equal. ring. }
  rewrite E. do 2 f_equal. apply list_fmap_ext. intros _ i _. apply E.
Qed.

Lemma points_ok k shift :
  (k <= 32)%nat -> canonical shift ->
  points (domain_of k shift) = Ok (point_at k shift <$> seq 0 (2 ^ k)).
Proof.
  intros Hk Hs. unfold points. cbn [dm_size dm_generator dm_shift domain_of].
  rewrite pow2_to_nat, points_loop_ok by done.
  fold (point_at k shift (2 ^ k)).
  assert (point_at k shift (2 ^ k) = shift) as ->; [|by rewrite Z.eqb_refl].
  apply toF_inj; [apply mod_canonical|done|].
  rewrite toF_point_at, principal_order by by apply root_of_principal. ring.
Qed.

(** ** Vectors *)

Lemma radix2_vector_ok v length name l :
  Radix2._field_vector v length name = Ok l <->
  (v = py_ints l \/ v = PList (PInt <$> l)) /\ l <> [] /\ matches length (zlen l)
  /\ zlen l <= 2 ^ 16 /\ Forall canonical l.
Proof.
  unfold Radix2._field_vector. change MAX_GOLDILOCKS_REFERENCE_DOMAIN_SIZE with (2 ^ 16).
  assert (forall vs,
    (if bool_decide (vs = []) then raise ProofV3Error (name +:+ " must not be empty")
     else if differs length (zlen vs) then
       raise ProofV3Error (name +:+ " must contain exactly " +:+ pretty (default 0 length) +:+ " values")
     else if 2 ^ 16 <? zlen vs then raise ProofV3Error (name +:+ " exceeds the CPU reference cap")
     else imapR canonical_goldilocks name vs) = Ok l <->
    vs = PInt <$> l /\ l <> [] /\ matches length (zlen l) /\ zlen l <= 2 ^ 16 /\ Forall canonical l) as Haux.
  { intros vs. split.
    - case_bool_decide as Hne; [discriminate|]. destruct (differs length (zlen vs)) eqn:Hd; [discriminate|].
      destruct (Z.ltb_spec (2 ^ 16) (zlen vs)); [discriminate|].
      intros [-> Hc]%imapR_canonical. apply differs_false in Hd. rewrite zlen_fmap in *.
      split_and!; [done| |done..]. by intros ->.
    - intros (->&Hne&Hd%differs_false&Hl&Hc). rewrite bool_decide_eq_false_2 by by destruct l.
      rewrite zlen_fmap, Hd, (proj2 (Z.ltb_ge _ _)) by done. by apply imapR_canonical. }
  destruct v; try (split; [discriminate|by intros [[?|?] _]]); rewrite Haux.
  - split; [intros (->&?); split; [by left|done]|intros ([[= ->]|[=]]&?); by split].
  - split; [intros (->&?); split; [by right|done]|intros ([[=]|[= ->]]&?); by split].
Qed.

Lemma radix2_vector_int l name (k : nat) :
  length l = (2 ^ k)%nat -> (k <= 16)%nat -> Forall canonical l ->
  Radix2._field_vector (py_ints l) (Some (2 ^ Z.of_nat k)) name = Ok l.
Proof.
  intros Hl Hk Hc. apply radix2_vector_ok. unfold zlen. rewrite Hl, pow2_nat. split_and!; [by left| |by intros ? [= <-]| |done].
  - intros ->. simpl in Hl. pose proof (Nat.pow_nonzero 2 k). lia.
  - apply Z.pow_le_mono_r; lia.
Qed.
