(* ===== verification/Transform.v ===== *)
(** * The in-place transform

    [_bit_reverse_permute] reads its input in bit-reversed order and the
    butterfly passes turn it into the discrete Fourier transform.  Each loop of
    the code is first shown to be a function on lists, without index errors. *)

From Stdlib Require Import ZArith Lia Zmod Field.
From stdpp Require Import base list sets strings.
From S2P Require Import Prelude Field Merkle MerkleTheory Poly Roots Radix2 Radix2Theory.

Local Open Scope Z_scope.

Lemma for_each_app {A S} (f : A -> S -> res S) l k s :
  for_each f (l ++ k) s = (s' ← for_each f l s; for_each f k s').
Proof.
  revert s. induction l as [|x l IH]; intros s; simpl; [done|]. destruct (f x s); simpl; [apply IH|done].
Qed.

Lemma get_item_middle P x Q i : length P = i -> get_item (P ++ x :: Q) i = Ok x.
Proof. intros <-. unfold get_item. by rewrite list_lookup_middle. Qed.

Lemma set_item_middle P x Q i y : length P = i -> set_item (P ++ x :: Q) i y = Ok (P ++ y :: Q).
Proof.
  intros <-. unfold set_item. rewrite (proj2 (Nat.ltb_lt _ _)) by (rewrite length_app; simpl; lia).
  by rewrite insert_app_r_alt, Nat.sub_diag by done.
Qed.

(** ** Bit reversal *)

Fixpoint rev_bits (k x : nat) : nat :=
  match k with O => O | S k => (x mod 2 * 2 ^ k + rev_bits k (x / 2))%nat end.

Lemma rev_bits_bound k x : (rev_bits k x < 2 ^ k)%nat.
Proof.
  revert x. induction k as [|k IH]; intros x; [simpl; lia|]. cbn [rev_bits Nat.pow].
  pose proof (Nat.mod_upper_bound x 2 ltac:(lia)). specialize (IH (x / 2)%nat). nia.
Qed.

Lemma rev_bits_top k b r : (r < 2 ^ k)%nat -> (b < 2)%nat ->
  rev_bits (S k) (b * 2 ^ k + r) = (2 * rev_bits k r + b)%nat.
Proof.
  revert r. induction k as [|k IH]; intros r Hr Hb.
  - simpl in Hr. destruct r; [|lia]. destruct b as [|[|]]; [done..|lia].
  - change (rev_bits (S (S k)) ?x) with (x mod 2 * 2 ^ S k + rev_bits (S k) (x / 2))%nat.
    change (rev_bits (S k) r) with (r mod 2 * 2 ^ k + rev_bits k (r / 2))%nat.
    replace (b * 2 ^ S k + r)%nat with (r + b * 2 ^ k * 2)%nat by (simpl; lia).
    rewrite Nat.Div0.mod_add, Nat.div_add by done.
    rewrite (Nat.add_comm (r / 2)), IH; [simpl; lia| |done].
    apply Nat.Div0.div_lt_upper_bound. simpl in Hr. lia.
Qed.

Lemma rev_bits_involutive k x : (x < 2 ^ k)%nat -> rev_bits k (rev_bits k x) = x.
Proof.
  revert x. induction k as [|k IH]; intros x Hx; [simpl in *; lia|].
  change (rev_bits (S k) x) with (x mod 2 * 2 ^ k + rev_bits k (x / 2))%nat.
  rewrite rev_bits_top; [|apply rev_bits_bound|by apply Nat.mod_upper_bound].
  rewrite IH; [|apply Nat.Div0.div_lt_upper_bound; simpl in Hx; lia].
  rewrite (Nat.div_mod_eq x 2) at 3. done.
Qed.

Lemma rev_bits_0 k : rev_bits k 0 = 0%nat.
Proof. induction k as [|k IH]; [done|]. simpl. done. Qed.

Lemma low_bits_land k r : 0 <= k -> 0 <= r < 2 ^ k -> Z.land r (2 ^ k) = 0.
Proof.
  intros Hk Hr. apply Z.bits_inj'. intros i Hi. rewrite Z.land_spec, Z.bits_0, Z.pow2_bits_eqb by done.
  destruct (Z.eqb_spec k i) as [->|]; [|apply andb_false_r].
  destruct (decide (r = 0)) as [->|]; [by rewrite Z.bits_0|].
  rewrite Z.bits_above_log2; [done|lia|]. apply Z.log2_lt_pow2; lia.
Qed.

Lemma low_bits_lxor k r : 0 <= k -> 0 <= r < 2 ^ k -> Z.lxor r (2 ^ k) = r + 2 ^ k.
Proof. intros Hk Hr. symmetry. by apply Z.add_nocarry_lxor, low_bits_land. Qed.

Lemma top_bit_land k r : 0 <= k -> 0 <= r < 2 ^ k -> Z.land (2 ^ k + r) (2 ^ k) = 2 ^ k.
Proof.
  intros Hk Hr. rewrite Z.add_comm, <- low_bits_lxor by done.
  apply Z.bits_inj'. intros i Hi. rewrite Z.land_spec, Z.lxor_spec, Z.pow2_bits_eqb by done.
  destruct (Z.eqb_spec k i) as [->|]; [|apply andb_false_r].
  pose proof (low_bits_land i r Hi Hr) as E%(f_equal (fun z => Z.testbit z i)).
  rewrite Z.land_spec, Z.pow2_bits_true, andb_true_r, Z.bits_0 in E by done. by rewrite E.
Qed.

Lemma top_bit_lxor k r : 0 <= k -> 0 <= r < 2 ^ k -> Z.lxor (2 ^ k + r) (2 ^ k) = r.
Proof.
  intros Hk Hr. rewrite Z.add_comm, <- low_bits_lxor by done.
  by rewrite Z.lxor_assoc, Z.lxor_nilpotent, Z.lxor_0_r.
Qed.

(** The carry loop adds one to the reversed index. *)
Lemma carry_loop_ok k x fuel :
  (S x < 2 ^ k)%nat -> (k <= fuel)%nat ->
  carry_loop fuel (Z.of_nat (rev_bits k x)) (Z.shiftr (2 ^ Z.of_nat k) 1) = Z.of_nat (rev_bits k (S x)).
Proof.
  revert x fuel. induction k as [|k IH]; intros x fuel Hx Hf; [simpl in Hx; lia|].
  destruct fuel as [|fuel]; [lia|].
  assert (Z.shiftr (2 ^ Z.of_nat (S k)) 1 = 2 ^ Z.of_nat k) as ->.
  { rewrite Z.shiftr_div_pow2, <- Z.pow_sub_r by lia. f_equal. lia. }
  cbn [carry_loop rev_bits]. pose proof (rev_bits_bound k (x / 2)) as Hb.
  assert (0 <= Z.of_nat (rev_bits k (x / 2)) < 2 ^ Z.of_nat k) as Hb' by (rewrite <- pow2_nat; lia).
  pose proof (pow2_pos k) as Hpos.
  destruct (Nat.Even_or_Odd x) as [[y ->]|[y ->]].
  - replace (S (2 * y)) with (1 + y * 2)%nat by lia. replace (2 * y)%nat with (0 + y * 2)%nat in * by lia.
    rewrite !Nat.Div0.mod_add, !Nat.div_add in * by done. simpl (0 mod 2)%nat. simpl (1 mod 2)%nat.
    change (0 / 2)%nat with 0%nat in *. change (1 / 2)%nat with 0%nat. rewrite !Nat.mul_0_l, !Nat.mul_1_l, !Nat.add_0_l in *.
    rewrite low_bits_land, Z.eqb_refl, low_bits_lxor by (done || lia). rewrite Nat2Z.inj_add, pow2_nat. lia.
  - replace (S (2 * y + 1)) with (0 + (S y) * 2)%nat by lia. replace (2 * y + 1)%nat with (1 + y * 2)%nat in * by lia.
    rewrite !Nat.Div0.mod_add, !Nat.div_add in * by done. simpl (0 mod 2)%nat. simpl (1 mod 2)%nat.
    change (0 / 2)%nat with 0%nat in *. change (1 / 2)%nat with 0%nat in *.
    rewrite !Nat.mul_0_l, !Nat.mul_1_l, !Nat.add_0_l in *.
    rewrite Nat2Z.inj_add, pow2_nat, top_bit_land, top_bit_lxor by (done || lia).
    rewrite (proj2 (Z.eqb_neq _ 0)) by lia. apply IH; [simpl in Hx; lia|lia].
Qed.

Lemma insert_fmap_seq (f : nat -> Z) n i x :
  <[i := x]> (f <$> seq 0 n) = (fun j => if decide (j = i) then x else f j) <$> seq 0 n.
Proof.
  apply list_eq. intros j. rewrite list_lookup_insert, !list_lookup_fmap, length_fmap, length_seq.
  destruct (decide (j < n)%nat) as [Hj|Hj].
  - rewrite lookup_seq_lt by done. cbn [fmap option_fmap option_map Nat.add].
    destruct (decide (i = j)) as [->|Hne]; [rewrite decide_True, decide_True by lia; done|].
    by rewrite decide_False, decide_False by lia.
  - rewrite decide_False by lia. by rewrite lookup_seq_ge by lia.
Qed.

Lemma get_item_seq (f : nat -> Z) n i : (i < n)%nat -> get_item (f <$> seq 0 n) i = Ok (f i).
Proof. intros Hi. unfold get_item. by rewrite list_lookup_fmap, lookup_seq_lt. Qed.

Lemma set_item_seq (f : nat -> Z) n i x : (i < n)%nat ->
  set_item (f <$> seq 0 n) i x = Ok ((fun j => if decide (j = i) then x else f j) <$> seq 0 n).
Proof.
  intros Hi. unfold set_item. rewrite length_fmap, length_seq, (proj2 (Nat.ltb_lt _ _)) by done.
  by rewrite insert_fmap_seq.
Qed.

(** After [c] passes, the pairs whose smaller member is at most [c] are swapped. *)
Definition swapped (k c j : nat) : nat :=
  if (Nat.min j (rev_bits k j) <=? c)%nat then rev_bits k j else j.

Lemma reverse_step_ok k v c :
  length v = (2 ^ k)%nat -> (S c < 2 ^ k)%nat ->
  reverse_step (2 ^ Z.of_nat k) (S c)
    ((fun j => nth (swapped k c j) v 0) <$> seq 0 (2 ^ k), Z.of_nat (rev_bits k c))
  = Ok ((fun j => nth (swapped k (S c) j) v 0) <$> seq 0 (2 ^ k), Z.of_nat (rev_bits k (S c))).
Proof.
  intros Hv Hc. unfold reverse_step. rewrite carry_loop_ok; [|done|].
  2:{ rewrite bit_length_pos, Z.log2_pow2 by (apply pow2_pos || lia). lia. }
  set (i := rev_bits k (S c)). cbv zeta. rewrite Nat2Z.id.
  assert (i < 2 ^ k)%nat as Hi by apply rev_bits_bound.
  assert (rev_bits k i = S c) as Hri by by apply rev_bits_involutive.
  destruct (Z.ltb_spec (Z.of_nat (S c)) (Z.of_nat i)) as [Hlt|Hge].
  - assert (swapped k c (S c) = S c) as Hs1.
    { unfold swapped. fold i. case_match eqn:E; [apply Nat.leb_le in E; lia|done]. }
    assert (swapped k c i = i) as Hs2.
    { unfold swapped. rewrite Hri. case_match eqn:E; [apply Nat.leb_le in E; lia|done]. }
    rewrite !get_item_seq by done. cbn [mbind res_bind]. rewrite Hs1, Hs2.
    rewrite set_item_seq by done. cbn [mbind res_bind]. rewrite set_item_seq by done. cbn [mbind res_bind].
    do 2 f_equal. apply list_fmap_ext. intros p j [-> Hj]%lookup_seq. unfold swapped. cbn [Nat.add] in *.
    destruct (decide (p = i)) as [->|Hji].
    { rewrite Hri, (proj2 (Nat.leb_le _ _)) by lia. done. }
    destruct (decide (p = S c)) as [->|Hjc].
    { fold i. rewrite (proj2 (Nat.leb_le _ _)) by lia. done. }
    assert (Nat.min p (rev_bits k p) <> S c) as Hne.
    { intros E. destruct (Nat.min_dec p (rev_bits k p)) as [E'|E']; [lia|].
      apply Hji. rewrite <- (rev_bits_involutive k p) by lia. unfold i. f_equal. lia. }
    destruct (Nat.leb_spec (Nat.min p (rev_bits k p)) c), (Nat.leb_spec (Nat.min p (rev_bits k p)) (S c));
      done || lia.
  - do 2 f_equal. apply list_fmap_ext. intros p j [-> Hj]%lookup_seq. unfold swapped. cbn [Nat.add] in *.
    destruct (Nat.leb_spec (Nat.min p (rev_bits k p)) c) as [|Hgt]; [by rewrite (proj2 (Nat.leb_le _ _)) by lia|].
    destruct (Nat.leb_spec (Nat.min p (rev_bits k p)) (S c)) as [Hle|]; [|done].
    destruct (Nat.min_dec p (rev_bits k p)) as [E'|E'].
    + assert (p = S c) as -> by lia. fold i in Hgt |- *. f_equal. lia.
    + assert (p = i) as ->; [|rewrite Hri in *; f_equal; lia]. rewrite <- (rev_bits_involutive k p) by lia. unfold i. f_equal. lia.
Qed.

(** The input in bit-reversed order. *)
Fixpoint reversed (k : nat) (v : list Z) : list Z :=
  match k with O => v | S k => reversed k (evens v) ++ reversed k (odds v) end.

Lemma reversed_length k v : length v = (2 ^ k)%nat -> length (reversed k v) = (2 ^ k)%nat.
Proof.
  revert v. induction k as [|k IH]; intros v Hv; [done|]. simpl.
  destruct (evens_odds_length v (2 ^ k) Hv). rewrite length_app, !IH by done. simpl. lia.
Qed.

Lemma nth_evens (v : list Z) i : nth i (evens v) 0 = nth (2 * i) v 0.
Proof. rewrite !nth_lookup. by rewrite evens_lookup. Qed.
Lemma nth_odds (v : list Z) i : nth i (odds v) 0 = nth (2 * i + 1) v 0.
Proof. rewrite !nth_lookup. by rewrite odds_lookup. Qed.

Lemma reversed_spec k v : length v = (2 ^ k)%nat ->
  reversed k v = (fun j => nth (rev_bits k j) v 0) <$> seq 0 (2 ^ k).
Proof.
  revert v. induction k as [|k IH]; intros v Hv.
  { destruct v as [|x [|]]; done. }
  destruct (evens_odds_length v (2 ^ k) Hv) as [He Ho].
  change (reversed (S k) v) with (reversed k (evens v) ++ reversed k (odds v)).
  rewrite !IH by done. replace (2 ^ S k)%nat with (2 ^ k + 2 ^ k)%nat by (simpl; lia).
  rewrite seq_app, fmap_app. change (0 + 2 ^ k)%nat with (2 ^ k)%nat. f_equal.
  - apply list_fmap_ext. intros p j [-> Hj]%lookup_seq. rewrite nth_evens. f_equal.
    pose proof (rev_bits_top k 0 p Hj ltac:(lia)) as E. rewrite Nat.mul_0_l in E. cbn [Nat.add] in *. rewrite E. lia.
  - rewrite <- (Nat.add_0_r (2 ^ k)) at 2. rewrite <- fmap_add_seq, <- list_fmap_compose.
    apply list_fmap_ext. intros p j [-> Hj]%lookup_seq. unfold compose. rewrite nth_odds. f_equal.
    pose proof (rev_bits_top k 1 p Hj ltac:(lia)) as E. rewrite Nat.mul_1_l in E. cbn [Nat.add] in *. by rewrite E.
Qed.

Lemma bit_reverse_ok k v : length v = (2 ^ k)%nat -> _bit_reverse_permute v = Ok (reversed k v).
Proof.
  intros Hv. unfold _bit_reverse_permute, zlen. rewrite Hv, pow2_nat.
  assert (forall c, (c < 2 ^ k)%nat ->
    for_each (reverse_step (2 ^ Z.of_nat k)) (seq 1 c) (v, 0)
    = Ok ((fun j => nth (swapped k c j) v 0) <$> seq 0 (2 ^ k), Z.of_nat (rev_bits k c))) as Hloop.
  { induction c as [|c IH]; intros Hc.
    - cbn [seq for_each]. rewrite rev_bits_0. do 2 f_equal.
      apply list_eq. intros j. rewrite list_lookup_fmap. destruct (decide (j < 2 ^ k)%nat) as [Hj|Hj].
      + rewrite lookup_seq_lt by done. destruct (lookup_lt_is_Some_2 v j) as [x Hx]; [lia|]. rewrite Hx.
        cbn [fmap option_fmap option_map Nat.add]. f_equal. symmetry. apply nth_lookup_Some.
        rewrite <- Hx. f_equal. unfold swapped. case_match eqn:E; [|done]. apply Nat.leb_le in E.
        destruct (Nat.min_dec j (rev_bits k j)) as [E'|E'].
        * assert (j = 0%nat) as -> by lia. apply rev_bits_0.
        * rewrite <- (rev_bits_involutive k j) at 2 by done. assert (rev_bits k j = 0%nat) as -> by lia. by rewrite rev_bits_0.
      + rewrite lookup_seq_ge by lia. apply lookup_ge_None_2. lia.
    - rewrite seq_S, for_each_app, IH by lia. cbn [mbind res_bind for_each Nat.add].
      by rewrite reverse_step_ok. }
  rewrite Hloop by (pose proof (Nat.pow_nonzero 2 k); lia). cbn [mbind res_bind fst]. f_equal.
  rewrite reversed_spec by done. apply list_fmap_ext. intros p j [-> Hj]%lookup_seq. cbn [Nat.add] in *.
  unfold swapped. rewrite (proj2 (Nat.leb_le _ _)); [done|]. lia.
Qed.
