(* ===== verification/Butterfly.v ===== *)
(** * Butterfly passes

    The passes of [_radix2_transform] over an array in bit-reversed order, and
    the three functions built on the transform. *)

From Stdlib Require Import ZArith Lia Zmod Field.
From stdpp Require Import base list sets strings.
From S2P Require Import Prelude Field Merkle MerkleTheory Poly Roots Radix2 Radix2Theory Transform.

Local Open Scope Z_scope.

(** ** One block *)

Fixpoint butterflies (step t : Z) (lo hi : list Z) : list Z * list Z :=
  match lo, hi with
  | l :: lo, h :: hi =>
      let r := h * t mod GOLDILOCKS_MODULUS in
      let rest := butterflies step (t * step mod GOLDILOCKS_MODULUS) lo hi in
      ((l + r) mod GOLDILOCKS_MODULUS :: rest.1, (l - r) mod GOLDILOCKS_MODULUS :: rest.2)
  | _, _ => ([], [])
  end.

Definition combine (step : Z) (lo hi : list Z) : list Z :=
  (butterflies step 1 lo hi).1 ++ (butterflies step 1 lo hi).2.

Lemma butterflies_length step t lo hi m :
  length lo = m -> length hi = m ->
  length (butterflies step t lo hi).1 = m /\ length (butterflies step t lo hi).2 = m.
Proof.
  revert t hi m. induction lo as [|l lo IH]; intros t [|h hi] [|m] Hl Hh; try done. simpl in *.
  destruct (IH (t * step mod GOLDILOCKS_MODULUS) hi m); lia.
Qed.

Lemma combine_length step lo hi m :
  length lo = m -> length hi = m -> length (combine step lo hi) = (2 * m)%nat.
Proof.
  intros Hl Hh. unfold combine. destruct (butterflies_length step 1 lo hi m Hl Hh). rewrite length_app. lia.
Qed.

Lemma butterfly_ok half step A L1 l lo H1 h hi B t :
  half = (length lo + length H1 + 1)%nat ->
  butterfly half step (length A) (length L1) (A ++ L1 ++ (l :: lo) ++ H1 ++ (h :: hi) ++ B, t)
  = Ok (A ++ L1 ++ ((l + h * t mod GOLDILOCKS_MODULUS) mod GOLDILOCKS_MODULUS :: lo) ++ H1
          ++ ((l - h * t mod GOLDILOCKS_MODULUS) mod GOLDILOCKS_MODULUS :: hi) ++ B,
        t * step mod GOLDILOCKS_MODULUS).
Proof.
  intros ->.
  assert (forall l h, A ++ L1 ++ (l :: lo) ++ H1 ++ (h :: hi) ++ B
    = (A ++ L1) ++ l :: (lo ++ H1 ++ (h :: hi) ++ B)) as Elo by (intros; by rewrite <- !app_assoc).
  assert (forall l h, A ++ L1 ++ (l :: lo) ++ H1 ++ (h :: hi) ++ B
    = (A ++ L1 ++ l :: lo ++ H1) ++ h :: (hi ++ B)) as Ehi
    by (intros; rewrite <- !app_assoc; simpl; by rewrite <- !app_assoc).
  assert (forall l, length (A ++ L1 ++ l :: lo ++ H1)
    = (length A + length L1 + (length lo + length H1 + 1))%nat) as Hlen.
  { intros. rewrite !length_app. simpl. rewrite length_app. lia. }
  unfold butterfly. rewrite Elo at 1. rewrite get_item_middle by by rewrite length_app. cbn [mbind res_bind].
  rewrite Ehi at 1. rewrite get_item_middle by by rewrite Hlen. cbn [mbind res_bind]. cbv zeta.
  rewrite Elo at 1. rewrite set_item_middle by by rewrite length_app. cbn [mbind res_bind].
  rewrite <- Elo, Ehi, set_item_middle by by rewrite Hlen. cbn [mbind res_bind]. by rewrite Ehi.
Qed.

Lemma butterfly_loop_ok half step A L1 lo H1 hi B t :
  length H1 = length L1 -> length lo = length hi -> half = (length L1 + length lo)%nat ->
  exists t', for_each (butterfly half step (length A)) (seq (length L1) (length lo))
    (A ++ L1 ++ lo ++ H1 ++ hi ++ B, t)
  = Ok (A ++ L1 ++ (butterflies step t lo hi).1 ++ H1 ++ (butterflies step t lo hi).2 ++ B, t').
Proof.
  revert L1 hi H1 t. induction lo as [|l lo IH]; intros L1 [|h hi] H1 t HH Hlh Hhalf; try done.
  { by exists t. }
  cbn [length seq for_each]. rewrite butterfly_ok by (simpl in Hhalf; lia). cbn [mbind res_bind].
  cbn [butterflies fst snd]. cbv zeta. set (x := (l + _) mod _). set (y := (l - _) mod _).
  destruct (IH (L1 ++ [x]) hi (H1 ++ [y]) (t * step mod GOLDILOCKS_MODULUS)) as [t' E].
  { rewrite !length_app. simpl. lia. }
  { simpl in Hlh. lia. }
  { rewrite length_app. simpl in Hhalf |- *. lia. }
  exists t'. rewrite length_app, Nat.add_1_r, <- !app_assoc in E. simpl in E |- *. exact E.
Qed.

Lemma transform_block_ok half step A lo hi B :
  length lo = half -> length hi = half ->
  transform_block half step (length A) (A ++ (lo ++ hi) ++ B) = Ok (A ++ combine step lo hi ++ B).
Proof.
  intros Hl Hh. unfold transform_block.
  destruct (butterfly_loop_ok half step A [] lo [] hi B 1) as [t' E]; [done|lia|simpl; lia|].
  rewrite Hl in E. simpl in E. rewrite <- app_assoc, E. cbn [mbind res_bind fst]. unfold combine.
  by rewrite <- app_assoc.
Qed.

(** ** One pass *)

(** The pass over [m] blocks of [2 * half] items. *)
Fixpoint pass (m half : nat) (step : Z) (l : list Z) : list Z :=
  match m with
  | O => l
  | S m => combine step (take half l) (take half (drop half l))
           ++ pass m half step (drop (2 * half) l)
  end.

Lemma pass_length m half step l :
  length l = (m * (2 * half))%nat -> length (pass m half step l) = length l.
Proof.
  revert l. induction m as [|m IH]; intros l Hl; [done|]. cbn [pass].
  rewrite length_app, (combine_length _ _ _ half), IH; rewrite ?length_take, ?length_drop; lia.
Qed.

Lemma pass_app m m' half step l l' :
  length l = (m * (2 * half))%nat ->
  pass (m + m') half step (l ++ l') = pass m half step l ++ pass m' half step l'.
Proof.
  revert l. induction m as [|m IH]; intros l Hl; [by destruct l|]. cbn [pass Nat.add].
  rewrite drop_app_le, take_app_le, <- app_assoc by lia. rewrite drop_app_le by lia.
  rewrite take_app_le by (rewrite length_drop; lia). rewrite IH; [done|]. rewrite length_drop. lia.
Qed.

Lemma pass_one half step l :
  length l = (2 * half)%nat -> pass 1 half step l = combine step (take half l) (drop half l).
Proof.
  intros Hl. cbn [pass]. rewrite (take_ge (drop half l)) by (rewrite length_drop; lia).
  by rewrite (drop_ge l (2 * half)), app_nil_r by lia.
Qed.

Lemma pass_ok m half step A l :
  length l = (m * (2 * half))%nat ->
  for_each (transform_block half step) ((fun i => length A + i * (2 * half))%nat <$> seq 0 m) (A ++ l)
  = Ok (A ++ pass m half step l).
Proof.
  revert A l. induction m as [|m IH]; intros A l Hl; [by destruct l|].
  rewrite <- cons_seq. cbn [fmap list_fmap for_each pass]. rewrite Nat.mul_0_l, Nat.add_0_r.
  assert (l = (take half l ++ take half (drop half l)) ++ drop (2 * half) l) as Hsplit.
  { rewrite <- app_assoc. rewrite <- (take_drop half l) at 1. f_equal.
    rewrite <- (take_drop half (drop half l)) at 1. rewrite drop_drop. do 2 f_equal. lia. }
  rewrite Hsplit at 1. rewrite transform_block_ok by (rewrite length_take, ?length_drop; lia).
  cbn [mbind res_bind]. rewrite !app_assoc, <- fmap_S_seq, <- list_fmap_compose.
  rewrite <- (IH (A ++ combine step (take half l) (take half (drop half l))) (drop (2 * half) l)) by (rewrite length_drop; lia).
  f_equal. apply list_fmap_ext. intros _ i _. unfold compose.
  rewrite length_app, (combine_length _ _ _ half); rewrite ?length_take, ?length_drop; lia.
Qed.

Lemma for_each_pass n m half step l :
  (0 < half)%nat -> length l = n -> n = (m * (2 * half))%nat ->
  for_each (transform_block half step) (range_step n (2 * half)) l = Ok (pass m half step l).
Proof.
  intros Hh Hl ->. pose proof (pass_ok m half step [] l Hl) as E. unfold range_step.
  replace ((m * (2 * half) + 2 * half - 1) / (2 * half))%nat with m; [exact E|].
  apply (Nat.div_unique _ _ _ (2 * half - 1)); lia.
Qed.

(** ** All passes *)

(** [steps s] is the factor of the pass with blocks of [2 ^ s] items. *)
Fixpoint passes (K j : nat) (steps : nat -> Z) (l : list Z) : list Z :=
  match j with
  | O => l
  | S j => pass (2 ^ (K - S j)) (2 ^ j) (steps (S j)) (passes K j steps l)
  end.

Lemma passes_length K j steps l :
  (j <= K)%nat -> length l = (2 ^ K)%nat -> length (passes K j steps l) = (2 ^ K)%nat.
Proof.
  intros Hj Hl. induction j as [|j IH]; [done|]. cbn [passes]. rewrite pass_length; [apply IH; lia|].
  rewrite IH by lia. rewrite <- Nat.pow_succ_r', <- Nat.pow_add_r. f_equal. lia.
Qed.

Lemma passes_app K j steps l l' :
  (j <= K)%nat -> length l = (2 ^ K)%nat -> length l' = (2 ^ K)%nat ->
  passes (S K) j steps (l ++ l') = passes K j steps l ++ passes K j steps l'.
Proof.
  intros Hj Hl Hl'. induction j as [|j IH]; [done|]. cbn [passes]. rewrite IH by lia.
  replace (S K - S j)%nat with (S (K - S j)) by lia.
  rewrite Nat.pow_succ_r'. replace (2 * 2 ^ (K - S j))%nat with (2 ^ (K - S j) + 2 ^ (K - S j))%nat by lia.
  apply pass_app. rewrite passes_length by lia. rewrite <- Nat.pow_succ_r', <- Nat.pow_add_r. f_equal. lia.
Qed.

Lemma span_loop_ok K j root l fuel :
  length l = (2 ^ K)%nat -> (j <= K)%nat -> (S K - j <= fuel)%nat ->
  span_loop fuel root (2 ^ S j) (passes K j (fun s => py_pow root (Z.of_nat (2 ^ (K - s))) GOLDILOCKS_MODULUS) l)
  = Ok (passes K K (fun s => py_pow root (Z.of_nat (2 ^ (K - s))) GOLDILOCKS_MODULUS) l).
Proof.
  intros Hl. set (steps := fun s => _). revert j. induction fuel as [|fuel IH]; intros j Hj Hf; [lia|].
  cbn [span_loop]. rewrite passes_length by done. destruct (decide (j = K)) as [->|Hne].
  { rewrite (proj2 (Nat.ltb_lt _ _)); [done|]. apply Nat.pow_lt_mono_r; lia. }
  rewrite (proj2 (Nat.ltb_ge _ _)) by (apply Nat.pow_le_mono_r; lia).
  replace (2 ^ S j / 2)%nat with (2 ^ j)%nat by (rewrite Nat.pow_succ_r', Nat.mul_comm, Nat.div_mul; done).
  replace (2 ^ K / 2 ^ S j)%nat with (2 ^ (K - S j))%nat.
  2:{ replace (2 ^ K)%nat with (2 ^ (K - S j) * 2 ^ S j)%nat.
      - rewrite Nat.div_mul; [done|]. by apply Nat.pow_nonzero.
      - rewrite <- Nat.pow_add_r. f_equal. lia. }
  cbv zeta. change (2 ^ S j)%nat with (2 * 2 ^ j)%nat at 1.
  rewrite (for_each_pass _ (2 ^ (K - S j))).
  2:{ pose proof (Nat.pow_nonzero 2 j). lia. }
  2:{ by apply passes_length. }
  2:{ rewrite <- Nat.pow_succ_r', <- Nat.pow_add_r. f_equal. lia. }
  cbn [mbind res_bind]. rewrite <- Nat.pow_succ_r'. apply (IH (S j)); lia.
Qed.

Lemma transform_ok K root v :
  length v = (2 ^ K)%nat ->
  _radix2_transform v root
  = Ok (passes K K (fun s => py_pow root (Z.of_nat (2 ^ (K - s))) GOLDILOCKS_MODULUS) (reversed K v)).
Proof.
  intros Hv. unfold _radix2_transform. rewrite (bit_reverse_ok K) by done. cbn [mbind res_bind].
  pose proof (reversed_length K v Hv) as Hr.
  assert (Z.to_nat (bit_length (zlen (reversed K v))) = S K) as ->.
  { unfold zlen. rewrite Hr, pow2_nat, bit_length_pos, Z.log2_pow2 by (apply pow2_pos || lia). lia. }
  apply (span_loop_ok K 0); [done|lia|lia].
Qed.

(** ** The passes compute the transform *)

Lemma passes_canonical K j steps l :
  (j <= K)%nat -> length l = (2 ^ K)%nat -> Forall canonical l -> Forall canonical (passes K j steps l).
Proof.
  assert (forall step t lo hi, Forall canonical (butterflies step t lo hi).1
    /\ Forall canonical (butterflies step t lo hi).2) as Hb.
  { intros step t lo. revert t. induction lo as [|l' lo IH]; intros t [|h hi]; try (by split; constructor).
    cbn [butterflies fst snd]. cbv zeta. destruct (IH (t * step mod GOLDILOCKS_MODULUS) hi).
    split; constructor; auto with vrt. }
  assert (forall m half step l, Forall canonical l -> Forall canonical (pass m half step l)) as Hp.
  { induction m as [|m IH]; intros half step l' Hl; [done|]. cbn [pass]. apply Forall_app. split.
    - unfold combine. destruct (Hb step 1 (take half l') (take half (drop half l'))). by apply Forall_app.
    - apply IH. by apply Forall_drop. }
  intros Hj Hl Hc. induction j as [|j IH]; [done|]. cbn [passes]. apply Hp, IH. lia.
Qed.

Lemma butterflies_toF step t lo hi m d w :
  length lo = m -> length hi = m -> toF step = w -> toF t = fpow w d ->
  toF <$> (butterflies step t lo hi).1
    = zip_with (fun i lr => Zmod.add lr.1 (Zmod.mul lr.2 (fpow w i))) (seq d m) (zip (toF <$> lo) (toF <$> hi)) /\
  toF <$> (butterflies step t lo hi).2
    = zip_with (fun i lr => Zmod.sub lr.1 (Zmod.mul lr.2 (fpow w i))) (seq d m) (zip (toF <$> lo) (toF <$> hi)).
Proof.
  intros Hl Hh Hs. revert t hi d m Hl Hh. induction lo as [|l lo IH]; intros t [|h hi] d [|m] Hl Hh Ht; try done.
  simpl in Hl, Hh. destruct (IH (t * step mod GOLDILOCKS_MODULUS) hi (S d) m) as [E1 E2]; [lia|lia| |].
  { rewrite toF_mod, toF_mul, Ht, Hs, fpow_S. ring. }
  cbn [butterflies fst snd seq fmap list_fmap zip_with]. cbv zeta. cbn [fst snd fmap list_fmap].
  change (list_fmap Z F ?g ?l) with (g <$> l). rewrite E1, E2, <- Ht. split; f_equal; by autorewrite with toF.
Qed.

Lemma passes_dft K steps w v :
  length v = (2 ^ K)%nat ->
  (forall s, (1 <= s <= K)%nat -> principal s (w s) /\ toF (steps s) = w s) ->
  (forall s, (1 <= s)%nat -> (S s <= K)%nat -> Zmod.mul (w (S s)) (w (S s)) = w s) ->
  toF <$> passes K K steps (reversed K v) = dft K (match K with O => Zmod.one | _ => w K end) (toF <$> v).
Proof.
  intros Hv Hw Hsq. revert v Hv. induction K as [|K IH]; intros v Hv.
  { destruct v as [|x [|]]; try done. unfold dft. cbn. f_equal. rewrite fpow_0. ring. }
  destruct (evens_odds_length v (2 ^ K) Hv) as [He Ho].
  change (reversed (S K) v) with (reversed K (evens v) ++ reversed K (odds v)).
  cbn [passes]. rewrite Nat.sub_diag, Nat.pow_0_r.
  rewrite passes_app by (done || by apply reversed_length).
  pose proof (passes_length K K steps _ (le_n K) (reversed_length K _ He)) as Le.
  pose proof (passes_length K K steps _ (le_n K) (reversed_length K _ Ho)) as Lo.
  rewrite pass_one by (rewrite length_app; lia). rewrite take_app_length', drop_app_length' by done.
  destruct (Hw (S K) ltac:(lia)) as [Hp Hs].
  rewrite dft_split by done. rewrite <- fmap_evens, <- fmap_odds.
  assert (forall u, length u = (2 ^ K)%nat ->
    toF <$> passes K K steps (reversed K u) = dft K (Zmod.mul (w (S K)) (w (S K))) (toF <$> u)) as IH'.
  { intros u Hu. rewrite IH; [|intros; apply Hw; lia|intros; apply Hsq; lia|done].
    f_equal. destruct K as [|K]; [|by rewrite Hsq by lia].
    cbn [principal] in Hp. rewrite Nat.pow_0_r, fpow_1 in Hp. rewrite Hp. ring. }
  rewrite <- !IH' by done. unfold combine. rewrite fmap_app.
  destruct (butterflies_toF (steps (S K)) 1 (passes K K steps (reversed K (evens v)))
    (passes K K steps (reversed K (odds v))) (2 ^ K) 0 (w (S K)) Le Lo Hs) as [-> ->].
  { by rewrite toF_1, fpow_0. }
  done.
Qed.

(** The transform of canonical values with a principal root. *)
Lemma transform_dft K root v :
  length v = (2 ^ K)%nat -> principal K (toF root) -> Forall canonical v ->
  exists r, _radix2_transform v root = Ok r /\ length r = (2 ^ K)%nat /\ Forall canonical r
    /\ toF <$> r = dft K (toF root) (toF <$> v).
Proof.
  intros Hv Hp Hc. rewrite (transform_ok K) by done. eexists. split; [done|].
  assert (Forall canonical (reversed K v)) as Hrc.
  { rewrite reversed_spec by done. apply Forall_fmap, Forall_forall. intros j _. unfold compose.
    rewrite Forall_forall in Hc. pose proof (rev_bits_bound K j) as Hb. rewrite <- Hv in Hb.
    destruct (lookup_lt_is_Some_2 v _ Hb) as [x Hx]. rewrite (nth_lookup_Some _ _ _ _ Hx).
    by eapply Hc, list_elem_of_lookup_2. }
  split; [by apply passes_length, reversed_length|]. split; [by apply passes_canonical, Hrc; [|apply reversed_length]|].
  rewrite (passes_dft K _ (fun s => fpow (toF root) (2 ^ (K - s)))); [|done|..].
  - f_equal. destruct K; [done|]. by rewrite Nat.sub_diag, Nat.pow_0_r, fpow_1.
  - intros s Hs. split; [|by rewrite toF_py_fpow].
    replace s with (K - (K - s))%nat at 1 by lia. remember (K - s)%nat as j eqn:Hj.
    assert (j <= K)%nat as Hj' by lia. clear -Hj' Hp. induction j as [|j IH].
    + by rewrite Nat.sub_0_r, Nat.pow_0_r, fpow_1.
    + rewrite Nat.pow_succ_r', <- fpow_square, fpow_mul_l. apply principal_square.
      replace (S (K - S j)) with (K - j)%nat by lia. apply IH. lia.
  - intros s _ Hs. rewrite <- fpow_add. f_equal. replace (K - s)%nat with (S (K - S s)) by lia. simpl. lia.
Qed.
