(* ===== verification/NttTheory.v ===== *)
(** * Evaluation, interpolation and low-degree extension

    The properties of the radix-2 functions: [ntt_goldilocks_reference] is the
    evaluation of a polynomial on the points of the domain,
    [intt_goldilocks_reference] its inverse, [lde_goldilocks_reference] the
    values of the same polynomial on another coset. *)

From Stdlib Require Import ZArith Lia Zmod Field.
From stdpp Require Import base list sets strings.
From S2P Require Import Prelude Field Merkle MerkleTheory MerkleBinding Poly Roots Radix2 Radix2Theory Transform Butterfly.

Local Open Scope Z_scope.

(** ** Scaling by powers *)

Lemma scale_loop_length f base power v : length (scale_loop f base power v) = length v.
Proof. revert power. induction v as [|c v IH]; intros power; simpl; by rewrite ?IH. Qed.

Lemma scale_loop_canonical f base power v : Forall canonical (scale_loop f base power v).
Proof. revert power. induction v as [|c v IH]; intros power; simpl; constructor; auto with vrt. Qed.

Lemma toF_scale_loop f base power v c :
  (forall z, toF (f z) = Zmod.mul c (toF z)) ->
  toF <$> scale_loop f base power v = substitute (toF base) (Zmod.mul c (toF power)) (toF <$> v).
Proof.
  intros Hf. revert power. induction v as [|z v IH]; intros power; [done|].
  cbn [scale_loop fmap list_fmap substitute]. change (list_fmap Z F ?g ?l) with (g <$> l). rewrite IH. f_equal.
  - rewrite toF_mod, toF_mul, Hf. ring.
  - f_equal. rewrite toF_mod, toF_mul. ring.
Qed.

Lemma toF_fmap_inj l l' : Forall canonical l -> Forall canonical l' -> toF <$> l = toF <$> l' -> l = l'.
Proof.
  intros Hl. revert l'. induction Hl as [|x l Hx Hl IH]; intros [|y l'] Hl' E; try done.
  apply Forall_cons in Hl' as [Hy Hl']. pose proof (f_equal (hd Zmod.zero) E) as E1. apply (f_equal tail) in E as E2. cbn [fmap list_fmap hd tail] in E1, E2. f_equal; [by apply toF_inj|by apply IH].
Qed.

(** ** The functions on a valid domain *)

Section domain.
Context (k : nat) (shift : Z) (Hk : (k <= 16)%nat) (Hs : canonical shift) (H0 : shift <> 0).
Local Abbreviation d := (domain_of k shift).
Local Abbreviation w := (toF (root_of k)).
Local Abbreviation s := (toF shift).

Lemma domain_root : principal k w.
Proof. apply root_of_principal. lia. Qed.

Lemma domain_shift : s <> Zmod.zero.
Proof. by rewrite toF_zero_iff. Qed.

Lemma domain_vector v name l :
  Radix2._field_vector v (Some (dm_size d)) name = Ok l <->
  denotes_ints v l /\ length l = (2 ^ k)%nat /\ Forall canonical l.
Proof.
  rewrite radix2_vector_ok. cbn [dm_size domain_of]. unfold denotes_ints. split.
  - intros (Hv&_&Hl&_&Hc). specialize (Hl _ eq_refl). unfold zlen in Hl. rewrite <- pow2_nat in Hl.
    split_and!; [done|lia|done].
  - intros (Hv&Hl&Hc). unfold zlen. rewrite Hl, pow2_nat. split_and!; [done| |by intros ? [= <-]| |done].
    + intros ->. simpl in Hl. pose proof (Nat.pow_nonzero 2 k). lia.
    + apply Z.pow_le_mono_r; lia.
Qed.

(** The values of the polynomial [cs] on the points, as canonical integers. *)
Definition are_values (cs vs : list Z) : Prop :=
  Forall canonical vs /\ toF <$> vs = coset_values k s w (toF <$> cs).

Lemma are_values_fun cs vs vs' : are_values cs vs -> are_values cs vs' -> vs = vs'.
Proof. intros [Hc E] [Hc' E']. apply toF_fmap_inj; [done..|]. by rewrite E. Qed.

Lemma are_values_length cs vs : are_values cs vs -> length vs = (2 ^ k)%nat.
Proof. intros [_ E%(f_equal length)]. by rewrite length_fmap, coset_values_length in E. Qed.

Lemma ntt_run v cs :
  denotes_ints v cs -> length cs = (2 ^ k)%nat -> Forall canonical cs ->
  exists vs, ntt_goldilocks_reference v (Some d) = Ok vs /\ are_values cs vs.
Proof.
  intros Hv Hl Hc. unfold ntt_goldilocks_reference.
  rewrite (proj2 (domain_vector v _ cs)) by done. cbn [mbind res_bind domain_of dm_shift dm_generator].
  destruct (transform_dft k (root_of k) (scale_loop (fun c => c) shift 1 cs)) as (r&->&_&Hr&E).
  { by rewrite scale_loop_length. }
  { apply domain_root. }
  { apply scale_loop_canonical. }
  exists r. split; [done|]. split; [done|]. rewrite E, coset_values_dft. f_equal.
  rewrite (toF_scale_loop _ _ _ _ Zmod.one) by (intros; ring). by f_equal.
Qed.

Lemma ntt_ok v vs :
  ntt_goldilocks_reference v (Some d) = Ok vs <->
  exists cs, denotes_ints v cs /\ length cs = (2 ^ k)%nat /\ Forall canonical cs /\ are_values cs vs.
Proof.
  split.
  - intros E. pose proof E as E'. unfold ntt_goldilocks_reference in E'.
    apply bind_ok in E' as (cs&(Hv&Hl&Hc)%domain_vector&_). exists cs. split_and!; [done..|].
    destruct (ntt_run v cs Hv Hl Hc) as (vs'&E'&Hvs). rewrite E in E'. by apply (inj Ok) in E' as <-.
  - intros (cs&Hv&Hl&Hc&Hvs). destruct (ntt_run v cs Hv Hl Hc) as (vs'&->&Hvs').
    by rewrite (are_values_fun cs vs vs').
Qed.

Lemma toF_inverse z : canonical z -> z <> 0 -> exists i, goldilocks_inv (PInt z) = Ok i /\ toF i = Zmod.inv (toF z).
Proof.
  intros Hz Hnz. exists (_inv_pow z). rewrite goldilocks_inv_int by done. split; [done|].
  apply toF_inv_pow. by rewrite toF_zero_iff.
Qed.

Lemma size_canonical : canonical (2 ^ Z.of_nat k).
Proof.
  pose proof modulus_bounds. pose proof (pow2_pos k).
  pose proof (Z.pow_le_mono_r 2 (Z.of_nat k) 16 ltac:(lia) ltac:(lia)). unfold canonical. lia.
Qed.

Lemma intt_run v vs :
  denotes_ints v vs -> length vs = (2 ^ k)%nat -> Forall canonical vs ->
  exists cs, intt_goldilocks_reference v (Some d) = Ok cs /\ length cs = (2 ^ k)%nat
    /\ Forall canonical cs /\ are_values cs vs.
Proof.
  intros Hv Hl Hc. unfold intt_goldilocks_reference.
  rewrite (proj2 (domain_vector v _ vs)) by done. cbn [mbind res_bind domain_of dm_shift dm_generator dm_size].
  pose proof domain_root as Hp. pose proof domain_shift as Hns.
  destruct (toF_inverse (root_of k)) as (ri&->&Eri).
  { apply root_of_canonical. lia. }
  { intros E. apply (principal_nonzero k w Hp). by rewrite E, toF_0. }
  cbn [mbind res_bind].
  assert (principal k (toF ri)) as Hpi.
  { rewrite Eri. eapply principal_inverse; [done|]. by apply (root_inverse k). }
  destruct (transform_dft k ri vs Hl Hpi Hc) as (r&->&Hrl&Hrc&E). cbn [mbind res_bind].
  destruct (toF_inverse (2 ^ Z.of_nat k)) as (ni&->&Eni); [apply size_canonical|pose proof (pow2_pos k); lia|].
  cbn [mbind res_bind]. destruct (toF_inverse shift) as (si&->&Esi); [done..|]. cbn [mbind res_bind].
  eexists. split; [done|]. rewrite scale_loop_length. split; [done|]. split; [apply scale_loop_canonical|].
  split; [done|]. rewrite (toF_scale_loop _ _ _ _ (toF ni)) by (intros; rewrite toF_mod, toF_mul; ring).
  rewrite E, Eri, Esi, Eni, <- pow2_nat.
  transitivity (coset_values k s w (interpolate k s w (toF <$> vs))).
  { symmetry. apply coset_values_interpolate; [lia|done|done|by rewrite length_fmap]. }
  unfold interpolate. do 2 f_equal. rewrite toF_1. ring.
Qed.

Lemma intt_ok v cs :
  intt_goldilocks_reference v (Some d) = Ok cs <->
  exists vs, denotes_ints v vs /\ length cs = (2 ^ k)%nat /\ Forall canonical cs /\ are_values cs vs.
Proof.
  split.
  - intros E. pose proof E as E'. unfold intt_goldilocks_reference in E'.
    apply bind_ok in E' as (vs&(Hv&Hl&Hc)%domain_vector&_). exists vs.
    destruct (intt_run v vs Hv Hl Hc) as (cs'&E'&Hcs). rewrite E in E'. by apply (inj Ok) in E' as <-.
  - intros (vs&Hv&Hl&Hc&Hvs).
    destruct (intt_run v vs Hv (are_values_length _ _ Hvs) (proj1 Hvs)) as (cs'&->&Hl'&Hc'&Hvs'). f_equal.
    apply toF_fmap_inj; [done..|].
    apply (coset_values_inj k s w); [lia|apply domain_shift|apply domain_root|by rewrite length_fmap..|].
    destruct Hvs as [_ <-], Hvs' as [_ <-]. done.
Qed.
End domain.

Lemma denotes_py_ints l l' : denotes_ints (py_ints l) l' <-> l = l'.
Proof.
  unfold denotes_ints, py_ints. split; [|intros ->; by left].
  intros [[= E]|]; [|done]. by apply (inj (fmap PInt)) in E.
Qed.

(** The pairs of a point and the value there. *)
Lemma are_values_points k shift cs vs :
  are_values k shift cs vs <-> Forall canonical vs /\
    Forall2 (fun x y => toF y = peval (toF <$> cs) (toF x)) (point_at k shift <$> seq 0 (2 ^ k)) vs.
Proof.
  unfold are_values, coset_values. split; intros [Hc E]; (split; [done|]).
  - apply Forall2_fmap_l. assert (length vs = length (seq 0 (2 ^ k))) as Hl.
    { apply (f_equal length) in E. by rewrite !length_fmap in E. }
    apply Forall2_same_length_lookup. split; [done|]. intros i n y Hn Hy.
    apply (f_equal (.!! i)) in E. rewrite !list_lookup_fmap, Hn, Hy in E. apply (inj Some) in E. unfold compose.
    by rewrite toF_point_at.
  - apply Forall2_fmap_l in E. symmetry. generalize dependent vs. generalize (seq 0 (2 ^ k)).
    induction l as [|n l IH]; intros vs Hc E; inversion E as [|? y ? vs' Hy Hvs]; subst; [done|].
    apply Forall_cons in Hc as [_ Hc]. cbn [fmap list_fmap]. f_equal; [|by apply IH].
    by rewrite Hy, toF_point_at.
Qed.

(** (Evaluation).  On a domain, [ntt_goldilocks_reference] succeeds exactly on a
    tuple or list of [size] canonical coefficients; it returns the canonical
    values of that polynomial at the points of the domain, in their order. *)
Theorem ntt_evaluates n sh d v vs :
  goldilocks_radix2_domain_reference n sh = Ok d ->
  ntt_goldilocks_reference v (Some d) = Ok vs <->
  exists cs pts, denotes_ints v cs /\ zlen cs = dm_size d /\ Forall canonical cs
    /\ points d = Ok pts /\ Forall canonical vs
    /\ Forall2 (fun x y => toF y = peval (toF <$> cs) (toF x)) pts vs.
Proof.
  intros (k&shift&->&Hk&->&Hs&H0&->)%domain_ok. rewrite ntt_ok by done. rewrite points_ok by (done || lia).
  cbn [dm_size domain_of]. split.
  - intros (cs&Hv&Hl&Hc&[Hcv Hvs]%are_values_points). exists cs, (point_at k shift <$> seq 0 (2 ^ k)).
    split_and!; try done. unfold zlen. by rewrite Hl, pow2_nat.
  - intros (cs&pts&Hv&Hl&Hc&Hp&Hcv&Hvs). apply (inj Ok) in Hp as <-. exists cs. split_and!; [done| |done|].
    + unfold zlen in Hl. rewrite <- pow2_nat in Hl. lia.
    + by apply are_values_points.
Qed.

(** C34 (Interpolation).  On every domain, [intt_goldilocks_reference] is the
    inverse of [ntt_goldilocks_reference]: one maps a vector to a second exactly
    when the other maps it back. *)
Theorem intt_inverts_ntt n sh d cs vs :
  goldilocks_radix2_domain_reference n sh = Ok d ->
  ntt_goldilocks_reference (py_ints cs) (Some d) = Ok vs <->
  intt_goldilocks_reference (py_ints vs) (Some d) = Ok cs.
Proof.
  intros (k&shift&->&Hk&->&Hs&H0&->)%domain_ok. rewrite ntt_ok, intt_ok by done. split.
  - intros (cs'&<-%denotes_py_ints&Hl&Hc&Hv). exists vs. by rewrite denotes_py_ints.
  - intros (vs'&<-%denotes_py_ints&Hl&Hc&Hv). exists cs. by rewrite denotes_py_ints.
Qed.

Lemma lde_zeros cs n : Forall canonical cs -> Forall canonical (cs ++ replicate n 0).
Proof. intros Hc. apply Forall_app. split; [done|]. apply Forall_replicate. split; [done|apply modulus_pos]. Qed.

Lemma peval_zeros p n x : peval (p ++ replicate n Zmod.zero) x = peval p x.
Proof.
  induction p as [|a p IH]; simpl; [|by rewrite IH].
  induction n as [|n IH]; simpl; [done|]. rewrite IH. ring.
Qed.

(** C35 (Low-degree extension).  [lde_goldilocks_reference] succeeds exactly when the
    source has a power of two canonical values, the target size is a power of
    two that is not smaller, within the cap, and both shifts are canonical and
    not zero.  The result lists the values, on the target coset, of the
    polynomial with as many coefficients as the source has values, that takes
    the source values on the source coset. *)
Theorem lde_extends v t ss ts out :
  lde_goldilocks_reference v t ss ts = Ok out <->
  exists (k K : nat) a b src cs,
    denotes_ints v src /\ length src = (2 ^ k)%nat /\ t = PInt (2 ^ Z.of_nat K) /\ (k <= K <= 16)%nat
    /\ ss = PInt a /\ canonical a /\ a <> 0 /\ ts = PInt b /\ canonical b /\ b <> 0
    /\ length cs = (2 ^ k)%nat /\ Forall canonical cs
    /\ are_values k a cs src /\ are_values K b cs out.
Proof.
  unfold lde_goldilocks_reference. split.
  - intros E. apply bind_ok in E as (src&(Hv&_&_&_&Hc)%radix2_vector_ok&E).
    apply bind_ok in E as (n&([= <-]&k&Hk&Hk16)%radix2_size_ok&E).
    apply bind_ok in E as (m&(->&K&->&HK)%radix2_size_ok&E). rewrite Hk in E.
    destruct (Z.ltb_spec (2 ^ Z.of_nat K) (2 ^ Z.of_nat k)) as [|Hle]; [discriminate|]. cbn [orb] in E.
    destruct (negb _); [discriminate|].
    assert (k <= K)%nat as HkK by (apply Z.pow_le_mono_r_iff in Hle; lia).
    apply bind_ok in E as (d1&(k'&a&[= Ek]&_&->&Ha&Ha0&->)%domain_ok&E).
    apply bind_ok in E as (d2&(K'&b&[= EK]&_&->&Hb&Hb0&->)%domain_ok&E).
    apply Z.pow_inj_r in Ek as <-%Nat2Z.inj, EK as <-%Nat2Z.inj; [|lia..].
    apply bind_ok in E as (cs&(src'&<-%denotes_py_ints&Hl&Hcs&Hsrc)%intt_ok&E); [|done..].
    apply ntt_ok in E as (padded&<-%denotes_py_ints&_&_&[Hout Eout]); [|done..].
    exists k, K, a, b, src, cs. split_and!; try done; try lia; [by eapply are_values_length|].
    split; [done|]. rewrite Eout, fmap_app, fmap_replicate, toF_0. apply coset_values_ext. intros x. apply peval_zeros.
  - intros (k&K&a&b&src&cs&Hv&Hl&->&HkK&->&Ha&Ha0&->&Hb&Hb0&Hlcs&Hcs&Hsrc&[Hout Eout]).
    assert (zlen src = 2 ^ Z.of_nat k) as Hz by (unfold zlen; by rewrite Hl, pow2_nat).
    rewrite (proj2 (radix2_vector_ok v None _ src)).
    2:{ split_and!; [done| |done| |apply Hsrc].
        - intros ->. simpl in Hl. pose proof (Nat.pow_nonzero 2 k). lia.
        - rewrite Hz. apply Z.pow_le_mono_r; lia. }
    cbn [mbind res_bind]. rewrite Hz, !radix2_size_pow2 by lia. cbn [mbind res_bind].
    rewrite (proj2 (Z.ltb_ge _ _)) by (apply Z.pow_le_mono_r; lia). cbn [orb].
    replace (2 ^ Z.of_nat K) with (2 ^ Z.of_nat (K - k) * 2 ^ Z.of_nat k) at 1.
    2:{ rewrite <- Z.pow_add_r by lia. f_equal. lia. }
    rewrite Z.mod_mul by (pose proof (pow2_pos k); lia). cbn [Z.eqb negb].
    rewrite (proj2 (domain_ok (PInt (2 ^ Z.of_nat k)) (PInt a) (domain_of k a))) by (exists k, a; split_and!; done || lia).
    cbn [mbind res_bind].
    rewrite (proj2 (domain_ok (PInt (2 ^ Z.of_nat K)) (PInt b) (domain_of K b))) by (exists K, b; split_and!; done || lia).
    cbn [mbind res_bind].
    rewrite (proj2 (intt_ok k a ltac:(lia) Ha Ha0 (py_ints src) cs)).
    2:{ exists src. by rewrite denotes_py_ints. }
    cbn [mbind res_bind]. apply ntt_ok; [lia|done..|].
    exists (cs ++ replicate (Z.to_nat (2 ^ Z.of_nat K - 2 ^ Z.of_nat k)) 0).
    split_and!; [by apply denotes_py_ints| |by apply lde_zeros|split; [done|]].
    + rewrite length_app, length_replicate, Hlcs, <- !pow2_nat.
      pose proof (Nat.pow_le_mono_r 2 k K). lia.
    + rewrite Eout, fmap_app, fmap_replicate, toF_0. apply coset_values_ext. intros x. by rewrite peval_zeros.
Qed.

(** ** Witnesses *)

Definition sample_domain : GoldilocksRadix2DomainReference := domain_of 2 3.

Lemma sample_domain_ok : goldilocks_radix2_domain_reference (PInt 4) (PInt 3) = Ok sample_domain.
Proof. vm_compute. reflexivity. Qed.

Definition sample_values : list Z := ok_or [] (ntt_goldilocks_reference (py_ints [5; 7; 11; 13]) (Some sample_domain)).

Lemma sample_values_ok : ntt_goldilocks_reference (py_ints [5; 7; 11; 13]) (Some sample_domain) = Ok sample_values.
Proof. vm_compute. reflexivity. Qed.

Lemma ntt_evaluates_witness :
  exists cs pts, denotes_ints (py_ints [5; 7; 11; 13]) cs /\ zlen cs = dm_size sample_domain
    /\ Forall canonical cs /\ points sample_domain = Ok pts /\ Forall canonical sample_values
    /\ Forall2 (fun x y => toF y = peval (toF <$> cs) (toF x)) pts sample_values.
Proof.
  apply (ntt_evaluates (PInt 4) (PInt 3) sample_domain (py_ints [5; 7; 11; 13]) sample_values sample_domain_ok).
  apply sample_values_ok.
Defined.

Lemma intt_inverts_ntt_witness :
  intt_goldilocks_reference (py_ints sample_values) (Some sample_domain) = Ok [5; 7; 11; 13].
Proof.
  apply (intt_inverts_ntt (PInt 4) (PInt 3) sample_domain [5; 7; 11; 13] sample_values sample_domain_ok).
  apply sample_values_ok.
Defined.
