(* ===== verification/Fri.v ===== *)
(** * The FRI low-degree test ([verallm/proof_v3/goldilocks_fri_reference.py])

    A prover commits to the values of a polynomial on a coset, halves the table
    with a challenge in every round, and opens the tables at indices derived
    from all commitments; the verifier checks that every opened pair folds to
    the value opened in the next table and that the last table is constant.
    The helpers [_integer] and [_fixed32] of the module are those of
    [Validate]. *)

From Stdlib Require Import ZArith Lia.
From stdpp Require Import base gmap list strings pretty sorting.
From coqutil Require Import Word.LittleEndianList.
From S2P Require Import Prelude Sha256 Field Merkle Validate FoldSumcheck Radix2.

Local Open Scope Z_scope.

Definition GOLDILOCKS_FRI_REFERENCE_ABI_V3 : string := "goldilocks.fri.reference.v1".
Definition GOLDILOCKS_FRI_REFERENCE_FORMAT_VERSION_V3 : Z := 1.
Definition MAX_GOLDILOCKS_FRI_REFERENCE_QUERY_COUNT_V3 : Z := 64.
Definition MAX_GOLDILOCKS_FRI_REFERENCE_FINAL_DOMAIN_SIZE_V3 : Z := 64.
Definition MAX_GOLDILOCKS_FRI_REFERENCE_ROUNDS_V3 : Z := GOLDILOCKS_TWO_ADICITY.

Definition _STATEMENT_DOMAIN : bytes := b_lit "VERATHOS/PROOF_V3/GOLDILOCKS_FRI/V1/STATEMENT/SHA256".
Definition _ROUND_BINDING_DOMAIN : bytes :=
  b_lit "VERATHOS/PROOF_V3/GOLDILOCKS_FRI/V1/ROUND_BINDING/SHA256".
Definition _BETA_DOMAIN : bytes := b_lit "VERATHOS/PROOF_V3/GOLDILOCKS_FRI/V1/BETA/SHA256".
Definition _QUERY_DOMAIN : bytes := b_lit "VERATHOS/PROOF_V3/GOLDILOCKS_FRI/V1/QUERY/SHA256".

(** ** Validation *)

Definition _power_of_two (value : pyval) (name : string) (maximum : Z) : res Z :=
  integer ← Validate._integer value name;
  if (integer <? 1) || (maximum <? integer) || not_power_of_two integer then
    raise ProofV3Error (name +:+ " must be a power of two within the reference cap")
  else Ok integer.

Definition _field_vector (value : pyval) (length : Z) (name : string) : res (list Z) :=
  match value with
  | PTuple entries | PList entries =>
      if negb (zlen entries =? length) then
        raise ProofV3Error (name +:+ " must contain exactly " +:+ pretty length +:+ " field values")
      else imapR canonical_goldilocks name entries
  | _ => raise ProofV3Error (name +:+ " must be an iterable of canonical field values")
  end.

(** [type(v) is not int or v != 1] *)
Definition bad_version (format_version : pyval) : bool :=
  match format_version with
  | PInt v => negb (v =? GOLDILOCKS_FRI_REFERENCE_FORMAT_VERSION_V3)
  | _ => true
  end.

(** ** Statements *)

Record GoldilocksFriStatementReference := MkFriStatement {
  fs_binding_digest : bytes;
  fs_domain_size : Z;
  fs_degree_bound : Z;
  fs_domain_shift : Z;
  fs_query_count : Z;
}.

(** The constructor, with [__post_init__]. *)
Definition GoldilocksFriStatementReference_new
    (binding_digest domain_size degree_bound domain_shift query_count : pyval) (abi_id : string)
    (format_version : pyval) : res GoldilocksFriStatementReference :=
  if negb (bool_decide (abi_id = GOLDILOCKS_FRI_REFERENCE_ABI_V3)) then
    raise ProofV3Error "Goldilocks FRI reference ABI is unsupported"
  else if bad_version format_version then
    raise ProofV3Error "Goldilocks FRI reference format version is unsupported"
  else
    binding ← _fixed32 binding_digest "Goldilocks FRI statement binding_digest" true;
    domain_size ← _power_of_two domain_size "Goldilocks FRI domain_size"
                    MAX_GOLDILOCKS_REFERENCE_DOMAIN_SIZE;
    degree_bound ← _power_of_two degree_bound "Goldilocks FRI degree_bound" domain_size;
    if domain_size <=? degree_bound then
      raise ProofV3Error "Goldilocks FRI degree_bound must leave a nontrivial code rate"
    else
      let final_domain_size := domain_size / degree_bound in
      if MAX_GOLDILOCKS_FRI_REFERENCE_FINAL_DOMAIN_SIZE_V3 <? final_domain_size then
        raise ProofV3Error "Goldilocks FRI final domain exceeds the CPU reference cap"
      else
        query_count ← Validate._integer query_count "Goldilocks FRI query_count";
        if (query_count <? 1) || (MAX_GOLDILOCKS_FRI_REFERENCE_QUERY_COUNT_V3 <? query_count)
           || (domain_size / 2 <? query_count) then
          raise ProofV3Error "Goldilocks FRI query_count is outside the reference cap"
        else
          shift ← canonical_goldilocks domain_shift "Goldilocks FRI domain_shift";
          if shift =? 0 then raise ProofV3Error "Goldilocks FRI domain_shift must be nonzero"
          else Ok (MkFriStatement binding domain_size degree_bound shift query_count).

(** The number of folds that leave a constant. *)
Definition round_count (self : GoldilocksFriStatementReference) : Z :=
  bit_length (fs_degree_bound self) - 1.

Definition final_domain_size (self : GoldilocksFriStatementReference) : Z :=
  fs_domain_size self / fs_degree_bound self.

Definition canonical_bytes (self : GoldilocksFriStatementReference) : bytes :=
  let abi_id := GOLDILOCKS_FRI_REFERENCE_ABI_V3 in
  pack_H GOLDILOCKS_FRI_REFERENCE_FORMAT_VERSION_V3 ++ pack_H (Z.of_nat (String.length abi_id))
  ++ b_lit abi_id ++ fs_binding_digest self
  ++ pack_I (fs_domain_size self) ++ pack_I (fs_degree_bound self)
  ++ pack_Q (fs_domain_shift self) ++ pack_I (fs_query_count self).

Definition _round_domain (statement : GoldilocksFriStatementReference) (round_index : Z)
    : res GoldilocksRadix2DomainReference :=
  if (round_index <? 0) || (round_count statement <? round_index) then
    raise ProofV3Error "Goldilocks FRI round index is out of range"
  else
    goldilocks_radix2_domain_reference (PInt (Z.shiftr (fs_domain_size statement) round_index))
      (PInt (py_pow (fs_domain_shift statement) (Z.shiftl 1 round_index) GOLDILOCKS_MODULUS)).

(** ** Folding *)

Definition fold_value (positive negative inverse_two challenge inverse_point : Z) : Z :=
  let even := (positive + negative) * inverse_two mod GOLDILOCKS_MODULUS in
  let odd := (positive - negative) * inverse_two mod GOLDILOCKS_MODULUS
             * inverse_point mod GOLDILOCKS_MODULUS in
  (even + challenge * odd) mod GOLDILOCKS_MODULUS.

Definition _fold_layer (values : list Z) (domain : GoldilocksRadix2DomainReference) (beta : Z)
    : res (list Z) :=
  if negb (zlen values =? dm_size domain) || (dm_size domain <? 2) then
    raise ProofV3Error "Goldilocks FRI fold has an unexpected source domain"
  else
    challenge ← canonical_goldilocks (PInt beta) "Goldilocks FRI beta";
    if challenge =? 0 then raise ProofV3Error "Goldilocks FRI beta must be nonzero"
    else
      points ← points domain;
      let half := Z.to_nat (dm_size domain / 2) in
      inverse_two ← goldilocks_inv (PInt 2);
      mapR (fun index =>
        positive ← get_item values index;
        negative ← get_item values (index + half);
        point ← get_item points index;
        inverse_point ← goldilocks_inv (PInt point);
        Ok (fold_value positive negative inverse_two challenge inverse_point)) (seq 0 half).

(** [tuple(sorted(s))] *)
Definition sorted_set (s : gset Z) : list Z := merge_sort Z.le (elements s).

Definition _pair_indices (statement : GoldilocksFriStatementReference) (query_bases : list Z)
    (round_index : Z) : res (list Z) :=
  if (round_index <? 0) || (round_count statement <=? round_index) then
    raise ProofV3Error "Goldilocks FRI query round is out of range"
  else
    let half := Z.shiftr (fs_domain_size statement) (round_index + 1) in
    let bases := sorted_set (list_to_set ((fun base => base mod half) <$> query_bases)) in
    Ok (merge_sort Z.le (bases ++ ((fun base => base + half) <$> bases))).

(** ** Proofs *)

Record GoldilocksFriProofReference := MkFriProof {
  fri_commitments : list bytes;
  fri_round_openings : list GoldilocksMerkleMultiOpeningReference;
  fri_final_opening : GoldilocksMerkleMultiOpeningReference;
}.

Definition _commitment_bytes (value : pyval) (name : string) : res bytes := _fixed32 value name false.

(** The constructor, with [__post_init__].  [round_openings = None] stands for
    an object that is not a tuple, an opening [None] for an object of another
    type. *)
Definition GoldilocksFriProofReference_new (commitments : pyval)
    (round_openings : option (list (option GoldilocksMerkleMultiOpeningReference)))
    (final_opening : option GoldilocksMerkleMultiOpeningReference)
    (abi_id : string) (format_version : pyval) : res GoldilocksFriProofReference :=
  if negb (bool_decide (abi_id = GOLDILOCKS_FRI_REFERENCE_ABI_V3)) then
    raise ProofV3Error "Goldilocks FRI proof ABI is unsupported"
  else if bad_version format_version then
    raise ProofV3Error "Goldilocks FRI proof format version is unsupported"
  else
    match commitments with
    | PTuple ((_ :: _) as items) =>
        if MAX_GOLDILOCKS_FRI_REFERENCE_ROUNDS_V3 + 1 <? zlen items then
          raise ProofV3Error "Goldilocks FRI proof has too many commitments"
        else
          commitments ← imapR _commitment_bytes "Goldilocks FRI proof commitment" items;
          match round_openings ≫= mapM id, final_opening with
          | None, _ => raise ProofV3Error "Goldilocks FRI proof round openings are malformed"
          | _, None => raise ProofV3Error "Goldilocks FRI proof final opening is malformed"
          | Some round_openings, Some final_opening =>
              Ok (MkFriProof commitments round_openings final_opening)
          end
    | _ => raise ProofV3Error "Goldilocks FRI proof commitments must be nonempty"
    end.

(** [d.get(k)], [set(d)] and [set(d.values())] of the opened values; the keys
    are kept in the order of insertion. *)
Definition opened := (list (Z * Z)).
Definition opened_get (d : opened) (k : Z) : option Z := list_to_map (M := gmap Z Z) (reverse d) !! k.

(** [zip(opening.indices, opening.rows, strict=True)] *)
Fixpoint opened_loop (indices : list Z) (rows : list (list Z)) : res opened :=
  match indices, rows with
  | [], [] => Ok []
  | index :: indices, row :: rows =>
      value ← first_value row;
      rest ← opened_loop indices rows;
      Ok ((index, value) :: rest)
  | _, _ => raise ValueError "zip() argument lengths differ"
  end.

Definition _opened_values (opening : GoldilocksMerkleMultiOpeningReference) : res opened :=
  if negb (mo_leaf_width opening =? 1) then
    raise ProofV3VerificationError "Goldilocks FRI opening has an unexpected width"
  else opened_loop (mo_indices opening) (mo_rows opening).

(** [l[i]] of a tuple. *)
Definition tuple_item {A} (l : list A) (i : nat) : res A :=
  match l !! i with Some x => Ok x | None => raise IndexError "tuple index out of range" end.

(** ** Transcript, prover and verifier *)

Section fri.
Context `{Digest} `{MultiopenBackend}.

Definition statement_digest (self : GoldilocksFriStatementReference) : bytes :=
  sha256 (_STATEMENT_DOMAIN ++ canonical_bytes self).

Definition _round_binding (statement : GoldilocksFriStatementReference) (round_index : Z) : res bytes :=
  domain ← _round_domain statement round_index;
  Ok (sha256 (_ROUND_BINDING_DOMAIN ++ statement_digest statement
              ++ pack_I round_index ++ pack_I (dm_size domain) ++ pack_Q (dm_shift domain))).

Definition normalized_commitments (commitments : list bytes) : res (list bytes) :=
  imapR (fun item name => _commitment_bytes (PBytes item) name) "Goldilocks FRI commitment" commitments.

Definition _derive_beta (statement : GoldilocksFriStatementReference) (commitments : list bytes)
    (round_index : Z) : res Z :=
  if negb (zlen commitments =? round_index + 1) then
    raise ProofV3Error "Goldilocks FRI beta transcript has an unexpected commitment count"
  else
    normalized ← normalized_commitments commitments;
    let prefix := _BETA_DOMAIN ++ statement_digest statement
                  ++ pack_I round_index ++ pack_I (zlen normalized) ++ concat normalized in
    rejection_sample (fun counter => le_combine (take 8 (sha256 (prefix ++ pack_I counter))))
      (fun candidate => (0 <? candidate) && (candidate <? GOLDILOCKS_MODULUS))
      "unable to derive a canonical Goldilocks FRI beta".

(** [for counter in range(n)]: collect residues until there are [count]. *)
Fixpoint query_loop (fuel : nat) (counter : Z) (draw : Z -> Z) (threshold limit count : Z)
    (result : gset Z) : option (gset Z) :=
  match fuel with
  | O => None
  | S fuel =>
      let candidate := draw counter in
      if threshold <=? candidate then
        query_loop fuel (counter + 1) draw threshold limit count result
      else
        let result := {[candidate mod limit]} ∪ result in
        if Z.of_nat (size result) =? count then Some result
        else query_loop fuel (counter + 1) draw threshold limit count result
  end.

Definition _derive_query_bases (statement : GoldilocksFriStatementReference)
    (commitments : list bytes) : res (list Z) :=
  if negb (zlen commitments =? round_count statement + 1) then
    raise ProofV3Error "Goldilocks FRI query transcript has an unexpected commitment count"
  else
    normalized ← normalized_commitments commitments;
    let limit := fs_domain_size statement / 2 in
    let threshold := Z.shiftl 1 64 - Z.shiftl 1 64 mod limit in
    let prefix := _QUERY_DOMAIN ++ statement_digest statement
                  ++ pack_I (fs_query_count statement) ++ pack_I (zlen normalized) ++ concat normalized in
    match query_loop REJECTION_ATTEMPTS 0
            (fun counter => le_combine (take 8 (sha256 (prefix ++ pack_I counter))))
            threshold limit (fs_query_count statement) ∅ with
    | Some result => Ok (sorted_set result)
    | None => raise ProofV3Error "unable to derive distinct Goldilocks FRI query bases"
    end.

(** [for round_index in range(round_count + 1)] with its [break]: commit to the
    layer; when rounds remain, fold it. *)
Fixpoint commit_loop (statement : GoldilocksFriStatementReference) (rounds : nat) (round_index : Z)
    (commitments : list bytes) (current : list Z)
    : res (list GoldilocksMerkleTreeReference * list bytes) :=
  binding ← _round_binding statement round_index;
  tree ← from_rows (py_rows (column_rows current)) (PBytes binding);
  let commitments := commitments ++ [mt_commitment tree] in
  match rounds with
  | O => Ok ([tree], commitments)
  | S rounds =>
      beta ← _derive_beta statement commitments round_index;
      domain ← _round_domain statement round_index;
      current ← _fold_layer current domain beta;
      rest ← commit_loop statement rounds (round_index + 1) commitments current;
      Ok (tree :: rest.1, rest.2)
  end.

(** [range(final_domain_size)] *)
Definition final_indices (statement : GoldilocksFriStatementReference) : list Z :=
  seqZ 0 (final_domain_size statement).

(** [statement = None] stands for an object of another type. *)
Definition prove_goldilocks_fri_reference (evaluations : pyval)
    (statement : option GoldilocksFriStatementReference) : res GoldilocksFriProofReference :=
  match statement with
  | None => raise ProofV3Error "Goldilocks FRI statement has an unexpected type"
  | Some statement =>
      current ← _field_vector evaluations (fs_domain_size statement)
                  "Goldilocks FRI source evaluations";
      let rounds := Z.to_nat (round_count statement) in
      committed ← commit_loop statement rounds 0 [] current;
      let '(trees, commitments) := committed in
      query_bases ← _derive_query_bases statement commitments;
      round_openings ← mapR (fun round_index =>
                          tree ← tuple_item trees round_index;
                          indices ← _pair_indices statement query_bases (Z.of_nat round_index);
                          tree_open tree (py_ints indices)) (seq 0 rounds);
      last_tree ← tuple_item trees (length trees - 1);
      final_opening ← tree_open last_tree (py_ints (final_indices statement));
      GoldilocksFriProofReference_new (PTuple (PBytes <$> commitments))
        (Some (Some <$> round_openings)) (Some final_opening)
        GOLDILOCKS_FRI_REFERENCE_ABI_V3 (PInt GOLDILOCKS_FRI_REFERENCE_FORMAT_VERSION_V3)
  end.

(** The openings of the rounds, in order. *)
Fixpoint verify_openings (statement : GoldilocksFriStatementReference) (commitments : list bytes)
    (query_bases : list Z) (round_index : nat)
    (openings : list GoldilocksMerkleMultiOpeningReference) : res unit :=
  match openings with
  | [] => Ok tt
  | opening :: openings =>
      domain ← _round_domain statement (Z.of_nat round_index);
      commitment ← tuple_item commitments round_index;
      binding ← _round_binding statement (Z.of_nat round_index);
      indices ← _pair_indices statement query_bases (Z.of_nat round_index);
      verify_goldilocks_merkle_multiopening_reference (PBytes commitment) (Some opening)
        (PBytes binding) (PInt (dm_size domain)) (PInt 1) (py_ints indices) ≫= fun _ =>
      verify_openings statement commitments query_bases (S round_index) openings
  end.

(** One base of one round: the pair folds to the value opened next. *)
Definition check_base (source_values target_values : opened) (points : list Z) (half inverse_two beta base : Z)
    : res unit :=
  match opened_get source_values base, opened_get source_values (base + half) with
  | Some positive, Some negative =>
      point ← get_item points (Z.to_nat base);
      inverse_point ← goldilocks_inv (PInt point);
      let expected :=
        ((positive + negative) * inverse_two
         + beta * ((positive - negative) * inverse_two mod GOLDILOCKS_MODULUS
                   * inverse_point mod GOLDILOCKS_MODULUS)) mod GOLDILOCKS_MODULUS in
      require (bool_decide (opened_get target_values (base mod half) = Some expected))
        ProofV3VerificationError "Goldilocks FRI folding relation does not hold"
  | _, _ => raise ProofV3VerificationError "Goldilocks FRI opening omits a folded pair"
  end.

Fixpoint check_folds (statement : GoldilocksFriStatementReference) (commitments : list bytes)
    (final_values : opened) (round_index : nat) (opened_rounds : list opened) : res unit :=
  match opened_rounds with
  | [] => Ok tt
  | source_values :: opened_rounds =>
      beta ← _derive_beta statement (take (S round_index) commitments) (Z.of_nat round_index);
      domain ← _round_domain statement (Z.of_nat round_index);
      points ← points domain;
      let half := dm_size domain / 2 in
      inverse_two ← goldilocks_inv (PInt 2);
      target_values ← (if Z.of_nat round_index + 1 =? round_count statement then Ok final_values
                       else tuple_item opened_rounds 0);
      mapR (check_base source_values target_values points half inverse_two beta)
        (filter (fun index => index < half) source_values.*1) ≫= fun _ =>
      check_folds statement commitments final_values (S round_index) opened_rounds
  end.

(** [proof = None] and [statement = None] stand for objects of another type. *)
Definition verify_goldilocks_fri_reference (proof : option GoldilocksFriProofReference)
    (statement : option GoldilocksFriStatementReference) : res unit :=
  match statement, proof with
  | None, _ => raise ProofV3VerificationError "Goldilocks FRI statement has an unexpected type"
  | _, None => raise ProofV3VerificationError "Goldilocks FRI proof has an unexpected type"
  | Some statement, Some proof =>
      let expected_commitment_count := round_count statement + 1 in
      if negb (zlen (fri_commitments proof) =? expected_commitment_count) then
        raise ProofV3VerificationError "Goldilocks FRI proof has an unexpected commitment count"
      else if negb (zlen (fri_round_openings proof) =? round_count statement) then
        raise ProofV3VerificationError "Goldilocks FRI proof has an unexpected round-opening count"
      else
        reraise_as [ProofV3VerificationError] [ProofV3Error] ProofV3VerificationError
          "Goldilocks FRI proof is malformed"
          (query_bases ← _derive_query_bases statement (fri_commitments proof);
           verify_openings statement (fri_commitments proof) query_bases 0 (fri_round_openings proof) ≫= fun _ =>
           commitment ← tuple_item (fri_commitments proof) (length (fri_commitments proof) - 1);
           binding ← _round_binding statement (round_count statement);
           verify_goldilocks_merkle_multiopening_reference (PBytes commitment)
             (Some (fri_final_opening proof)) (PBytes binding) (PInt (final_domain_size statement))
             (PInt 1) (py_ints (final_indices statement))) ≫= fun _ =>
        opened_rounds ← mapR _opened_values (fri_round_openings proof);
        final_values ← _opened_values (fri_final_opening proof);
        check_folds statement (fri_commitments proof) final_values 0 opened_rounds ≫= fun _ =>
        if negb (bool_decide ((list_to_set final_values.*1 : gset Z)
                              = list_to_set (final_indices statement))) then
          raise ProofV3VerificationError "Goldilocks FRI final opening is incomplete"
        else
          require (bool_decide (size (list_to_set final_values.*2 : gset Z) = 1%nat))
            ProofV3VerificationError "Goldilocks FRI final codeword is not constant"
  end.
End fri.
