(* ===== verification/FriLemmas.v ===== *)
(** * Statements, indices and folds of the FRI test *)

From Stdlib Require Import ZArith Lia Zmod Field.
From stdpp Require Import base gmap list sets strings pretty sorting.
From coqutil Require Import Word.LittleEndianList.
From S2P Require Import Prelude Sha256 Field Merkle MerkleTheory MerkleBinding Poly Validate FoldSumcheck Roots Radix2 Radix2Theory NttTheory Fri.

Local Open Scope Z_scope.

(** ** The sibling schedule of a tree of [2 ^ m] leaves has fewer entries *)

Lemma missing_siblings_length m cur :
  below (S m) cur -> (length (missing_siblings cur) <= 2 ^ m)%nat.
Proof.
  intros Hb. rewrite <- (length_fmap parent), <- pow2_to_nat, <- (length_seqZ 0 (2 ^ Z.of_nat m)).
  apply submseteq_length, NoDup_submseteq.
  - apply NoDup_fmap_2_strong; [|unfold missing_siblings; rewrite merge_sort_Permutation; apply NoDup_elements].
    intros i j [Hi Hi']%elem_of_missing_siblings [Hj Hj']%elem_of_missing_siblings E.
    destruct (sibling_cases i) as [[Ei Ei']|[Ei Ei']], (sibling_cases j) as [[Ej Ej']|[Ej Ej']];
      try (rewrite Ei, Ej, E; done); exfalso.
    + apply Hi'. by rewrite Ei, E, <- Ej'.
    + apply Hi'. by rewrite Ei, E, <- Ej'.
  - intros p (i&->&[Hs _]%elem_of_missing_siblings)%list_elem_of_fmap. apply elem_of_seqZ.
    apply Hb, sibling_bound in Hs. rewrite sibling_involutive in Hs. apply parent_bound in Hs. lia.
Qed.

Lemma sibling_schedule_length m l cur :
  below m cur -> (length (sibling_schedule m l cur) < 2 ^ m)%nat.
Proof.
  revert l cur. induction m as [|m IH]; intros l cur Hb; [simpl; lia|]. cbn [sibling_schedule].
  rewrite length_app, length_fmap. pose proof (missing_siblings_length m cur Hb).
  pose proof (IH (l + 1) _ (below_parents m cur Hb)). simpl. lia.
Qed.

Lemma schedule_fits (k : nat) idx :
  (k <= 16)%nat -> valid_indices (2 ^ Z.of_nat k) idx ->
  zlen (schedule_of (2 ^ Z.of_nat k) idx) <= MAX_GOLDILOCKS_MERKLE_REFERENCE_LEAF_COUNT.
Proof.
  intros Hk Hi. unfold schedule_of. rewrite height_pow2.
  pose proof (sibling_schedule_length k 0 _ (valid_indices_below k idx Hi)).
  change MAX_GOLDILOCKS_MERKLE_REFERENCE_LEAF_COUNT with (2 ^ 16). unfold zlen.
  assert (2 ^ Z.of_nat k <= 2 ^ 16) by (apply Z.pow_le_mono_r; lia). rewrite <- pow2_nat in *. lia.
Qed.

(** ** Statements *)

(** [n] and [k] are the logarithms of the domain size and of the degree bound. *)
Record valid_statement (st : GoldilocksFriStatementReference) (n k : nat) : Prop := {
  vs_domain : fs_domain_size st = 2 ^ Z.of_nat n;
  vs_degree : fs_degree_bound st = 2 ^ Z.of_nat k;
  vs_rate : (k < n <= 16)%nat;
  vs_shift : canonical (fs_domain_shift st) /\ fs_domain_shift st <> 0;
  vs_queries : 1 <= fs_query_count st <= 2 ^ Z.of_nat (n - 1);
}.

Lemma power_of_two_ok v name m x :
  _power_of_two v name m = Ok x -> v = PInt x /\ exists k : nat, x = 2 ^ Z.of_nat k /\ 2 ^ Z.of_nat k <= m.
Proof.
  unfold _power_of_two. destruct v; try discriminate. cbn [Validate._integer mbind res_bind].
  destruct (Z.ltb_spec z 1); [discriminate|]. destruct (Z.ltb_spec m z); [discriminate|]. cbn [orb].
  destruct (not_power_of_two z) eqn:Hp; [discriminate|]. intros [= <-].
  apply not_power_of_two_false in Hp; [|done]. split; [done|]. exists (Z.to_nat (Z.log2 z)).
  rewrite Z2Nat.id by apply Z.log2_nonneg. rewrite <- Hp. done.
Qed.

Lemma statement_new_valid bd ds db sh qc abi fv st :
  GoldilocksFriStatementReference_new bd ds db sh qc abi fv = Ok st -> exists n k, valid_statement st n k.
Proof.
  unfold GoldilocksFriStatementReference_new. destruct (negb _); [discriminate|].
  destruct (bad_version fv); [discriminate|]. intros E. apply bind_ok in E as (b&_&E).
  apply bind_ok in E as (D&(->&n&->&Hn)%power_of_two_ok&E). apply bind_ok in E as (B&(->&k&->&Hk)%power_of_two_ok&E).
  destruct (Z.leb_spec (2 ^ Z.of_nat n) (2 ^ Z.of_nat k)) as [|Hlt]; [discriminate|].
  destruct (Z.ltb_spec MAX_GOLDILOCKS_FRI_REFERENCE_FINAL_DOMAIN_SIZE_V3 (2 ^ Z.of_nat n / 2 ^ Z.of_nat k));
    [discriminate|]. apply bind_ok in E as (q&_&E).
  destruct (Z.ltb_spec q 1); [discriminate|]. destruct (Z.ltb_spec MAX_GOLDILOCKS_FRI_REFERENCE_QUERY_COUNT_V3 q);
    [discriminate|]. destruct (Z.ltb_spec (2 ^ Z.of_nat n / 2) q) as [|Hq]; [discriminate|]. cbn [orb] in E.
  apply bind_ok in E as (s&[_ Hs]%canonical_goldilocks_ok&E).
  destruct (Z.eqb_spec s 0); [discriminate|]. apply (inj Ok) in E as <-.
  apply Z.pow_lt_mono_r_iff in Hlt; [|lia..]. change MAX_GOLDILOCKS_REFERENCE_DOMAIN_SIZE with (2 ^ 16) in Hn.
  apply Z.pow_le_mono_r_iff in Hn; [|lia..]. exists n, k. split; cbn; [done|done|lia|done|].
  split; [done|]. replace (Z.of_nat n) with (Z.of_nat (n - 1) + 1) in Hq by lia.
  rewrite Z.pow_add_r, Z.pow_1_r, Z.div_mul in Hq by lia. done.
Qed.

Lemma round_count_pow2 st n k : valid_statement st n k -> round_count st = Z.of_nat k.
Proof.
  intros [_ Hk _ _ _]. unfold round_count. rewrite Hk, bit_length_pos, Z.log2_pow2 by (apply pow2_pos || lia). lia.
Qed.

Lemma shiftr_pow2_Z (n i : nat) : (i <= n)%nat -> Z.shiftr (2 ^ Z.of_nat n) (Z.of_nat i) = 2 ^ Z.of_nat (n - i).
Proof. intros Hi. rewrite Z.shiftr_div_pow2, <- Z.pow_sub_r by lia. f_equal. lia. Qed.

Lemma half_pow2 (n : nat) : 2 ^ Z.of_nat (S n) / 2 = 2 ^ Z.of_nat n.
Proof. rewrite Nat2Z.inj_succ, Z.pow_succ_r, Z.mul_comm, Z.div_mul by lia. done. Qed.

Lemma final_domain_pow2 st n k : valid_statement st n k -> final_domain_size st = 2 ^ Z.of_nat (n - k).
Proof.
  intros [Hn Hk Hr _ _]. unfold final_domain_size. rewrite Hn, Hk, <- Z.pow_sub_r by lia. f_equal. lia.
Qed.

(** The shift of the coset of round [i]. *)
Definition shift_at (st : GoldilocksFriStatementReference) (i : nat) : Z :=
  py_pow (fs_domain_shift st) (2 ^ Z.of_nat i) GOLDILOCKS_MODULUS.

Section statement.
Context (st : GoldilocksFriStatementReference) (n k : nat) (Hst : valid_statement st n k).

Lemma shift_at_canonical i : canonical (shift_at st i).
Proof. unfold shift_at. rewrite py_pow_spec by (pose proof (pow2_pos i); lia). apply mod_canonical. Qed.

Lemma toF_shift_at i : toF (shift_at st i) = fpow (toF (fs_domain_shift st)) (2 ^ i).
Proof. unfold shift_at. by rewrite <- pow2_nat, toF_py_fpow. Qed.

Lemma shift_at_nonzero i : shift_at st i <> 0.
Proof.
  destruct (vs_shift _ _ _ Hst) as [Hc H0]. intros E%(f_equal toF). rewrite toF_shift_at, toF_0 in E.
  apply fpow_nonzero in E; [done|]. by rewrite toF_zero_iff.
Qed.

Lemma toF_shift_next i : toF (shift_at st (S i)) = Zmod.mul (toF (shift_at st i)) (toF (shift_at st i)).
Proof. rewrite !toF_shift_at, <- fpow_add. f_equal. simpl. lia. Qed.

Lemma shift_at_0 : shift_at st 0 = fs_domain_shift st.
Proof.
  apply toF_inj; [apply shift_at_canonical|apply (vs_shift _ _ _ Hst)|].
  by rewrite toF_shift_at, Nat.pow_0_r, fpow_1.
Qed.

Lemma round_domain_ok i :
  (i <= k)%nat -> _round_domain st (Z.of_nat i) = Ok (domain_of (n - i) (shift_at st i)).
Proof.
  intros Hi. pose proof (vs_rate _ _ _ Hst) as Hr. unfold _round_domain.
  rewrite (round_count_pow2 st n k), (proj2 (Z.ltb_ge (Z.of_nat i) 0)), (proj2 (Z.ltb_ge _ (Z.of_nat i))) by (done || lia).
  cbn [orb]. rewrite (vs_domain _ _ _ Hst), shiftr_pow2_Z, Z.shiftl_1_l by lia. fold (shift_at st i).
  apply domain_ok. exists (n - i)%nat, (shift_at st i).
  split_and!; [done|lia|done|apply shift_at_canonical|apply shift_at_nonzero|done].
Qed.

(** ** Pairs of indices *)

Lemma sorted_set_sorted s : Sorted Z.le (sorted_set s).
Proof. apply Sorted_merge_sort. intros x y. lia. Qed.

Lemma elem_of_sorted_set s x : x ∈ sorted_set s <-> x ∈ s.
Proof. unfold sorted_set. by rewrite merge_sort_Permutation, elem_of_elements. Qed.

Lemma sorted_increasing m p l :
  StronglySorted Z.le l -> NoDup l -> Forall (fun i => p < i < m) l -> increasing_below p m l = true.
Proof.
  intros Hs. revert p. induction Hs as [|x l Hs IH Hx]; intros p Hd Hf; [done|].
  apply NoDup_cons in Hd as [Hn Hd]. apply Forall_cons in Hf as [Hpx Hf]. cbn [increasing_below].
  rewrite !(proj2 (Z.ltb_lt _ _)) by lia. cbn [andb]. apply IH; [done|].
  apply Forall_forall. intros y Hy. rewrite Forall_forall in Hx, Hf.
  specialize (Hx y Hy). specialize (Hf y Hy). assert (x <> y) by (intros ->; done). lia.
Qed.

Lemma sorted_valid m l :
  Sorted Z.le l -> NoDup l -> l <> [] -> Forall (fun i => 0 <= i < m) l -> valid_indices m l.
Proof.
  intros Hs Hd Hne Hf. split; [done|]. apply sorted_increasing; [|done|].
  - apply Sorted_StronglySorted; [|done]. intros x y z. lia.
  - eapply Forall_impl; [exact Hf|simpl; lia].
Qed.

Definition are_bases (qs : list Z) : Prop := qs <> [] /\ Forall (fun q => 0 <= q < 2 ^ Z.of_nat (n - 1)) qs.

Lemma pair_indices_ok qs i :
  are_bases qs -> (i < k)%nat ->
  exists idx, _pair_indices st qs (Z.of_nat i) = Ok idx
    /\ valid_indices (2 ^ Z.of_nat (n - i)) idx
    /\ forall j, j ∈ idx <-> 0 <= j < 2 ^ Z.of_nat (n - i)
         /\ exists q, q ∈ qs /\ j mod 2 ^ Z.of_nat (n - i - 1) = q mod 2 ^ Z.of_nat (n - i - 1).
Proof.
  intros [Hne Hqs] Hi. pose proof (vs_rate _ _ _ Hst) as Hr. unfold _pair_indices.
  rewrite (round_count_pow2 st n k), (proj2 (Z.ltb_ge _ 0)), (proj2 (Z.leb_gt _ _)) by (done || lia). cbn [orb].
  replace (Z.of_nat i + 1) with (Z.of_nat (S i)) by lia.
  rewrite (vs_domain _ _ _ Hst), shiftr_pow2_Z by lia. replace (n - S i)%nat with (n - i - 1)%nat by lia.
  set (half := 2 ^ Z.of_nat (n - i - 1)). assert (0 < half) as Hpos by apply pow2_pos.
  assert (2 ^ Z.of_nat (n - i) = 2 * half) as Hd.
  { unfold half. rewrite <- Z.pow_succ_r by lia. f_equal. lia. }
  set (bases := sorted_set _). cbv zeta. rewrite Hd.
  assert (forall b, b ∈ bases <-> exists q, b = q mod half /\ q ∈ qs) as Hbases.
  { intros b. unfold bases. by rewrite elem_of_sorted_set, elem_of_list_to_set, list_elem_of_fmap. }
  assert (forall b, b ∈ bases -> 0 <= b < half) as Hb.
  { intros b (q&->&_)%Hbases. by apply Z.mod_pos_bound. }
  assert (NoDup bases) as Hnd by (unfold bases, sorted_set; rewrite merge_sort_Permutation; apply NoDup_elements).
  set (idx := merge_sort Z.le _). exists idx. split; [done|].
  assert (forall j, j ∈ idx <-> j ∈ bases \/ exists b, j = b + half /\ b ∈ bases) as Hidx.
  { intros j. unfold idx. by rewrite merge_sort_Permutation, elem_of_app, list_elem_of_fmap. }
  split.
  - apply sorted_valid.
    + apply Sorted_merge_sort. intros x y. lia.
    + unfold idx. rewrite merge_sort_Permutation. apply NoDup_app. split_and!; [done| |].
      * intros b Hb1 (b'&->&Hb2)%list_elem_of_fmap. apply Hb in Hb1, Hb2. lia.
      * apply NoDup_fmap_2; [|done]. intros x y. lia.
    + destruct qs as [|q qs']; [done|]. intros E. assert (q mod half ∈ idx) as Hq; [|rewrite E in Hq; set_solver].
      apply Hidx. left. apply Hbases. exists q. split; [done|set_solver].
    + apply Forall_forall. intros j [Hj|(b&->&Hj)]%Hidx; apply Hb in Hj; lia.
  - intros j. rewrite Hidx. split.
    + intros [Hj|(b&->&Hj)].
      * pose proof (Hb j Hj). split; [lia|]. apply Hbases in Hj as (q&->&Hq). exists q.
        split; [done|]. by apply Z.mod_mod; lia.
      * pose proof (Hb b Hj). split; [lia|]. apply Hbases in Hj as (q&->&Hq). exists q.
        split; [done|]. rewrite <- (Z.mul_1_l half) at 2. rewrite Z.mod_add by lia. apply Z.mod_mod. lia.
    + intros (Hj&q&Hq&E). destruct (decide (j < half)).
      * left. apply Hbases. exists q. split; [|done]. rewrite <- E. symmetry. apply Z.mod_small. lia.
      * right. exists (j - half). split; [lia|]. apply Hbases. exists q. split; [|done]. rewrite <- E.
        replace j with (j - half + 1 * half) at 2 by lia. rewrite Z.mod_add by lia. symmetry. apply Z.mod_small. lia.
Qed.

Lemma query_loop_ok draw threshold limit count fuel counter result out :
  0 < limit -> (forall x, x ∈ result -> 0 <= x < limit) ->
  query_loop fuel counter draw threshold limit count result = Some out ->
  (forall x, x ∈ out -> 0 <= x < limit) /\ Z.of_nat (size out) = count.
Proof.
  intros Hl. revert counter result. induction fuel as [|fuel IH]; intros counter result Hr E; [discriminate|].
  cbn [query_loop] in E. destruct (threshold <=? draw counter); [by eapply IH|].
  assert (forall x, x ∈ ({[draw counter mod limit]} ∪ result : gset Z) -> 0 <= x < limit) as Hr'.
  { intros x [->%elem_of_singleton|?]%elem_of_union; [by apply Z.mod_pos_bound|by apply Hr]. }
  destruct (Z.eqb_spec (Z.of_nat (size ({[draw counter mod limit]} ∪ result : gset Z))) count); [|by eapply IH].
  by injection E as <-.
Qed.

Lemma query_bases_ok `{Digest} cs qs :
  _derive_query_bases st cs = Ok qs ->
  are_bases qs /\ NoDup qs /\ zlen qs = fs_query_count st /\ length cs = S k.
Proof.
  pose proof (vs_rate _ _ _ Hst) as Hr. unfold _derive_query_bases. rewrite (round_count_pow2 st n k) by done.
  destruct (Z.eqb_spec (zlen cs) (Z.of_nat k + 1)) as [El|]; [|discriminate]. cbn [negb].
  intros E. apply bind_ok in E as (norm&_&E).
  destruct (query_loop _ _ _ _ _ _ _) as [out|] eqn:Hq; [|discriminate]. apply (inj Ok) in E as <-.
  rewrite (vs_domain _ _ _ Hst) in Hq. replace n with (S (n - 1)) in Hq by lia. rewrite half_pow2 in Hq.
  destruct (query_loop_ok _ _ _ _ _ _ _ _ (pow2_pos (n - 1)) (fun x Hx => False_ind _ (not_elem_of_empty x Hx)) Hq)
    as [Hb Hs]. clear Hq.
  assert (zlen (sorted_set out) = fs_query_count st) as Hz.
  { unfold zlen, sorted_set. rewrite merge_sort_Permutation. exact Hs. }
  pose proof (vs_queries _ _ _ Hst). split_and!.
  - split; [intros E; rewrite E in Hz; unfold zlen in Hz; simpl in Hz; lia|].
    apply Forall_forall. intros q Hq'%elem_of_sorted_set. by apply Hb.
  - unfold sorted_set. rewrite merge_sort_Permutation. apply NoDup_elements.
  - done.
  - unfold zlen in El. lia.
Qed.
End statement.
