(* ===== verification/FriFold.v ===== *)
(** * Layers of the FRI test

    What one fold does to a table, what is read back from an opening, and when
    the checks of the verifier pass on openings of given tables. *)

From Stdlib Require Import ZArith Lia Zmod Field.
From stdpp Require Import base gmap list sets strings pretty sorting.
From coqutil Require Import Word.LittleEndianList.
From S2P Require Import Prelude Sha256 Field Merkle MerkleTheory MerkleBinding Poly Validate FoldSumcheck FoldSumcheckTheory Roots Radix2 Radix2Theory Transform NttTheory Fri FriLemmas.

Local Open Scope Z_scope.

(** ** One fold *)

(** The table of [2 ^ m] values that [_fold_layer] returns. *)
Definition layer_fold (m : nat) (s beta : Z) (L : list Z) : list Z :=
  (fun j => fold_value (nth j L 0) (nth (j + 2 ^ m) L 0) (_inv_pow 2) beta
              (_inv_pow (point_at (S m) s j))) <$> seq 0 (2 ^ m).

Lemma layer_fold_length m s beta L : length (layer_fold m s beta L) = (2 ^ m)%nat.
Proof. unfold layer_fold. by rewrite length_fmap, length_seq. Qed.

Lemma layer_fold_canonical m s beta L : Forall canonical (layer_fold m s beta L).
Proof. apply Forall_fmap, Forall_forall. intros j _. apply mod_canonical. Qed.

Lemma layer_fold_lookup m s beta L j : (j < 2 ^ m)%nat ->
  layer_fold m s beta L !! j = Some (fold_value (nth j L 0) (nth (j + 2 ^ m) L 0) (_inv_pow 2) beta
                                       (_inv_pow (point_at (S m) s j))).
Proof. intros Hj. unfold layer_fold. by rewrite list_lookup_fmap, lookup_seq_lt. Qed.

Lemma get_item_nth (L : list Z) i : (i < length L)%nat -> get_item L i = Ok (nth i L 0).
Proof.
  intros Hi. unfold get_item. destruct (lookup_lt_is_Some_2 L i Hi) as [x Hx].
  by rewrite Hx, (nth_lookup_Some _ _ _ _ Hx).
Qed.

Lemma two_canonical : canonical 2.
Proof. by split; [|vm_compute]. Qed.

Lemma inverse_two : goldilocks_inv (PInt 2) = Ok (_inv_pow 2).
Proof. apply goldilocks_inv_int; [apply two_canonical|done]. Qed.

Section fold.
Context (m : nat) (s : Z) (Hm : (S m <= 16)%nat) (Hs : canonical s) (H0 : s <> 0).
Local Abbreviation d := (domain_of (S m) s).

Lemma point_nonzero j : point_at (S m) s j <> 0.
Proof.
  intros E%(f_equal toF). rewrite toF_point_at, toF_0 in E. apply F_mul_zero in E as [E|E].
  - by apply toF_zero_iff in E.
  - apply fpow_nonzero in E; [done|]. apply (principal_nonzero (S m)), root_of_principal. lia.
Qed.

Lemma point_inverse j : goldilocks_inv (PInt (point_at (S m) s j)) = Ok (_inv_pow (point_at (S m) s j)).
Proof. apply goldilocks_inv_int; [apply mod_canonical|apply point_nonzero]. Qed.

Lemma fold_layer_ok L beta :
  length L = (2 ^ S m)%nat -> canonical beta -> beta <> 0 ->
  _fold_layer L d beta = Ok (layer_fold m s beta L).
Proof.
  intros Hl Hb Hb0. unfold _fold_layer. cbn [dm_size domain_of]. unfold zlen. rewrite Hl, pow2_nat, Z.eqb_refl.
  rewrite (proj2 (Z.ltb_ge _ 2)) by (change 2 with (2 ^ 1) at 1; apply Z.pow_le_mono_r; lia). cbn [negb orb].
  rewrite canonical_goldilocks_int by done. cbn [mbind res_bind]. rewrite (proj2 (Z.eqb_neq beta 0)) by done.
  rewrite points_ok by (done || lia). cbn [mbind res_bind]. rewrite half_pow2, pow2_to_nat, inverse_two.
  cbn [mbind res_bind]. cbv zeta. apply mapR_total. intros j Hj%elem_of_seq.
  assert (2 ^ S m = 2 ^ m + 2 ^ m)%nat as Hpow by (simpl; lia).
  rewrite (get_item_nth L j), (get_item_nth L (j + 2 ^ m)) by lia. cbn [mbind res_bind].
  rewrite get_item_seq by lia. cbn [mbind res_bind].
  by rewrite point_inverse.
Qed.

Lemma toF_inv_two : toF 2 <> Zmod.zero.
Proof. rewrite toF_zero_iff by apply two_canonical. done. Qed.

Lemma toF_fold_value x y beta z :
  z <> 0 -> canonical z ->
  toF (fold_value x y (_inv_pow 2) beta (_inv_pow z))
  = Zmod.add (Zmod.mul (Zmod.add (toF x) (toF y)) (Zmod.inv (toF 2)))
      (Zmod.mul (toF beta) (Zmod.mul (Zmod.mul (Zmod.sub (toF x) (toF y)) (Zmod.inv (toF 2))) (Zmod.inv (toF z)))).
Proof.
  intros Hz Hc. unfold fold_value. cbv zeta. autorewrite with toF.
  rewrite !toF_inv_pow by (apply toF_inv_two || by rewrite toF_zero_iff). done.
Qed.

Lemma toF_nth_values k' s' w p L j :
  toF <$> L = coset_values k' s' w p -> (j < 2 ^ k')%nat -> toF (nth j L 0) = peval p (Zmod.mul s' (fpow w j)).
Proof.
  intros E Hj. pose proof (f_equal (.!! j) E) as Ej. rewrite list_lookup_fmap, coset_values_lookup in Ej by done.
  destruct (L !! j) as [x|] eqn:Ex; [|done]. apply (inj Some) in Ej. by rewrite (nth_lookup_Some _ _ _ _ Ex).
Qed.

(** Folding the values of a polynomial gives the values of the folded one. *)
Lemma layer_fold_values L beta p :
  toF <$> L = coset_values (S m) (toF s) (toF (root_of (S m))) p ->
  toF <$> layer_fold m s beta L
  = coset_values m (Zmod.mul (toF s) (toF s)) (toF (root_of m)) (pfold (toF beta) p).
Proof.
  intros E. unfold layer_fold, coset_values. rewrite <- list_fmap_compose. apply list_fmap_ext.
  intros q j [-> Hj]%lookup_seq. unfold compose. cbn [Nat.add] in *.
  assert (2 ^ S m = 2 ^ m + 2 ^ m)%nat as Hpow by (simpl; lia).
  assert (principal (S m) (toF (root_of (S m)))) as Hp by (apply root_of_principal; lia).
  rewrite toF_fold_value by (apply point_nonzero || apply mod_canonical).
  rewrite !(toF_nth_values _ _ _ _ _ _ E) by lia. rewrite principal_half by done.
  rewrite <- (root_of_square m), fpow_mul_l by lia. rewrite toF_point_at.
  set (x := Zmod.mul (toF s) (fpow (toF (root_of (S m))) q)).
  replace (Zmod.mul (toF s) (Zmod.sub Zmod.zero (fpow (toF (root_of (S m))) q))) with (Zmod.sub Zmod.zero x) by (unfold x; ring).
  replace (Zmod.mul (Zmod.mul (toF s) (toF s)) _) with (Zmod.mul x x) by (unfold x; ring).
  symmetry. apply pfold_values.
  - unfold x. rewrite <- toF_point_at, toF_zero_iff by apply mod_canonical. apply point_nonzero.
  - pose proof toF_inv_two. field. done.
Qed.
End fold.

(** ** Opened values *)

Definition column_opened (L idx : list Z) : opened := (fun j => (j, nth (Z.to_nat j) L 0)) <$> idx.

Lemma column_opened_keys L idx : (column_opened L idx).*1 = idx.
Proof. induction idx as [|i idx IH]; [done|]. cbn. f_equal. exact IH. Qed.

Lemma column_opened_values L idx : (column_opened L idx).*2 = (fun j => nth (Z.to_nat j) L 0) <$> idx.
Proof. induction idx as [|i idx IH]; [done|]. cbn. f_equal. exact IH. Qed.

Lemma opened_get_column L idx j :
  opened_get (column_opened L idx) j = if bool_decide (j ∈ idx) then Some (nth (Z.to_nat j) L 0) else None.
Proof.
  unfold opened_get, column_opened. rewrite <- fmap_reverse.
  assert (forall l, list_to_map (M := gmap Z Z) ((fun j => (j, nth (Z.to_nat j) L 0)) <$> l) !! j
    = if bool_decide (j ∈ l) then Some (nth (Z.to_nat j) L 0) else None) as Haux.
  { induction l as [|i l IH]; [done|]. rewrite fmap_cons, list_to_map_cons.
    destruct (decide (i = j)) as [->|Hne].
    - rewrite bool_decide_eq_true_2 by set_solver. apply lookup_insert_eq.
    - rewrite lookup_insert_ne, IH by done. repeat case_bool_decide; set_solver. }
  rewrite Haux. erewrite bool_decide_ext; [done|]. apply elem_of_reverse.
Qed.

Lemma opened_loop_column L idx rows :
  Forall2 (fun i row => column_rows L !! Z.to_nat i = Some row) idx rows ->
  opened_loop idx rows = Ok (column_opened L idx).
Proof.
  induction 1 as [|i row idx rows Hi _ IH]; [done|]. cbn [opened_loop].
  unfold column_rows in Hi. apply list_lookup_fmap_Some in Hi as (x&->&Hx).
  cbn [first_value mbind res_bind]. rewrite IH. cbn [mbind res_bind column_opened fmap list_fmap].
  by rewrite (nth_lookup_Some _ _ _ _ Hx).
Qed.

(** ** The checks of one pair *)

Lemma expected_fold x y h beta z :
  ((x + y) * h + beta * ((x - y) * h mod GOLDILOCKS_MODULUS * z mod GOLDILOCKS_MODULUS)) mod GOLDILOCKS_MODULUS
  = fold_value x y h beta z.
Proof. unfold fold_value. cbv zeta. by rewrite Zplus_mod_idemp_l. Qed.

Lemma check_base_ok m s L idx target beta b :
  (S m <= 16)%nat -> canonical s -> s <> 0 -> length L = (2 ^ S m)%nat ->
  0 <= b < 2 ^ Z.of_nat m -> b ∈ idx -> b + 2 ^ Z.of_nat m ∈ idx ->
  check_base (column_opened L idx) target (point_at (S m) s <$> seq 0 (2 ^ S m)) (2 ^ Z.of_nat m) (_inv_pow 2) beta b
    = Ok tt <->
  opened_get target b = layer_fold m s beta L !! Z.to_nat b.
Proof.
  intros Hm Hs H0 Hl Hb Hi Hi'. unfold check_base. rewrite !opened_get_column, !bool_decide_eq_true_2 by done.
  assert (2 ^ S m = 2 ^ m + 2 ^ m)%nat as Hpow by (simpl; lia). rewrite <- pow2_nat in Hb.
  rewrite get_item_seq by lia. cbn [mbind res_bind]. rewrite point_inverse by done. cbn [mbind res_bind]. cbv zeta.
  rewrite expected_fold, <- pow2_nat, Z.mod_small by lia.
  rewrite layer_fold_lookup, Z2Nat.inj_add, Nat2Z.id by lia.
  by rewrite require_ok, bool_decide_eq_true.
Qed.

(** ** Transcript *)

Section transcript.
Context `{Digest} (st : GoldilocksFriStatementReference).

Lemma normalized_ok cs norm : normalized_commitments cs = Ok norm <-> norm = cs /\ Forall bytes32 cs.
Proof.
  unfold normalized_commitments, imapR.
  rewrite (imapR_from_ok _ (fun item => _commitment_bytes (PBytes item) "")).
  2:{ intros x nm y. unfold _commitment_bytes. by rewrite !fixed32_ok. }
  rewrite mapR_Forall2. unfold _commitment_bytes. split.
  - induction 1 as [|x y cs norm ([= <-]&Hb&_)%fixed32_ok _ [-> IH]]; [by split|]. split; [done|by constructor].
  - intros [-> Hc]. apply Forall_Forall2_diag. eapply Forall_impl; [exact Hc|]. intros x Hx. by apply fixed32_ok.
Qed.

Lemma derive_beta_cases cs i :
  Forall bytes32 cs -> length cs = S i ->
  (exists beta, _derive_beta st cs (Z.of_nat i) = Ok beta)
  \/ _derive_beta st cs (Z.of_nat i) = raise ProofV3Error "unable to derive a canonical Goldilocks FRI beta".
Proof.
  intros Hc Hl. unfold _derive_beta. rewrite (proj2 (Z.eqb_eq _ _)) by (unfold zlen; lia). cbn [negb].
  rewrite (proj2 (normalized_ok cs cs)) by done. cbn [mbind res_bind]. cbv zeta. unfold rejection_sample.
  destruct (rejection_loop _ _ _ _) as [c|]; [left; by exists c|by right].
Qed.

Lemma derive_beta_ok cs i beta : _derive_beta st cs i = Ok beta -> canonical beta /\ beta <> 0.
Proof.
  unfold _derive_beta. destruct (negb _); [discriminate|]. intros E. apply bind_ok in E as (norm&_&E).
  apply rejection_sample_accepts, andb_true_iff in E as [E1%Z.ltb_lt E2%Z.ltb_lt]. unfold canonical. lia.
Qed.
End transcript.
