(* ===== verification/FriTheory.v ===== *)
(** * Completeness and soundness of the FRI test *)

From Stdlib Require Import ZArith Lia Zmod Field.
From stdpp Require Import base gmap list sets strings pretty sorting.
From coqutil Require Import Word.LittleEndianList.
From S2P Require Import Prelude Sha256 Field Merkle MerkleTheory MerkleBinding Poly Validate FoldSumcheck FoldSumcheckTheory Roots Radix2 Radix2Theory NttTheory Fri FriLemmas FriFold.

Local Open Scope Z_scope.

Section theory.
Context `{Digest} `{MultiopenBackend} `{!MultiopenLaws}.
Context (st : GoldilocksFriStatementReference) (n k : nat) (Hst : valid_statement st n k).

Lemma rounds_bound : (k < n <= 16)%nat.
Proof. apply Hst. Qed.

(** ** The binding and the tree of a layer *)

Definition binding_at (i : nat) : bytes :=
  sha256 (_ROUND_BINDING_DOMAIN ++ statement_digest st ++ pack_I (Z.of_nat i)
          ++ pack_I (2 ^ Z.of_nat (n - i)) ++ pack_Q (shift_at st i)).

Lemma round_binding_ok i : (i <= k)%nat -> _round_binding st (Z.of_nat i) = Ok (binding_at i).
Proof. intros Hi. unfold _round_binding. by rewrite (round_domain_ok st n k). Qed.

Definition layer_tree (i : nat) (L : list Z) : GoldilocksMerkleTreeReference :=
  tree_of (binding_at i) 1 (n - i) (column_rows L).

(** A table of the size of layer [i]. *)
Definition is_layer (i : nat) (L : list Z) : Prop := Forall canonical L /\ length L = (2 ^ (n - i))%nat.

Lemma layer_tree_ok i L :
  is_layer i L -> from_rows (py_rows (column_rows L)) (PBytes (binding_at i)) = Ok (layer_tree i L).
Proof.
  intros [Hc Hl]. pose proof rounds_bound.
  destruct (column_table (binding_at i) L (n - i)) as (T&HT&_); [apply sha256_length|done|done|lia|].
  rewrite HT. f_equal. apply from_rows_ok in HT as (b&rows&w&k'&[= <-]&Hd&Hv&->).
  apply denotes_py_rows in Hd as ->. unfold layer_tree.
  assert (zlen (column_rows L) = 2 ^ Z.of_nat (n - i)) as Hz.
  { unfold column_rows, zlen. by rewrite length_fmap, Hl, pow2_nat. }
  rewrite (valid_table_zlen _ _ _ _ Hv) in Hz. apply Z.pow_inj_r in Hz as ->%Nat2Z.inj; [|lia..].
  destruct (vt_rows _ _ _ _ Hv) as [_ Hr _ _]. destruct L as [|x L].
  { simpl in Hl. pose proof (Nat.pow_nonzero 2 (n - i)). lia. }
  apply Forall_cons in Hr as [[<- _] _]. done.
Qed.

Fixpoint layer_trees (i : nat) (layers : list (list Z)) : list GoldilocksMerkleTreeReference :=
  match layers with [] => [] | L :: layers => layer_tree i L :: layer_trees (S i) layers end.

Lemma layer_trees_lookup i layers j : layer_trees i layers !! j = layer_tree (i + j) <$> (layers !! j).
Proof.
  revert i j. induction layers as [|L layers IH]; intros i [|j]; cbn; [done|done|by rewrite Nat.add_0_r|].
  rewrite IH. by rewrite Nat.add_succ_r.
Qed.

Lemma layer_trees_length i layers : length (layer_trees i layers) = length layers.
Proof. revert i. induction layers as [|L layers IH]; intros i; simpl; by rewrite ?IH. Qed.

(** ** The prover's loop *)

(** [L'] is the fold of layer [i] with the challenge of the transcript. *)
Definition folds_to (cs : list bytes) (i : nat) (L L' : list Z) : Prop :=
  exists beta, _derive_beta st (take (S i) cs) (Z.of_nat i) = Ok beta
    /\ L' = layer_fold (n - i - 1) (shift_at st i) beta L.

Definition beta_failure {A} : res A := raise ProofV3Error "unable to derive a canonical Goldilocks FRI beta".

Lemma commit_loop_ok r i cs current :
  (i + r = k)%nat -> is_layer i current -> length cs = i -> Forall bytes32 cs ->
  commit_loop st r (Z.of_nat i) cs current = beta_failure
  \/ exists layers, let cs' := cs ++ (mt_commitment <$> layer_trees i layers) in
       commit_loop st r (Z.of_nat i) cs current = Ok (layer_trees i layers, cs')
       /\ Forall bytes32 cs'
       /\ length layers = S r /\ layers !! 0%nat = Some current
       /\ (forall j L, layers !! j = Some L -> is_layer (i + j) L)
       /\ forall j L L', layers !! j = Some L -> layers !! S j = Some L' -> folds_to cs' (i + j) L L'.
Proof.
  pose proof rounds_bound as Hb. revert i cs current. induction r as [|r IH]; intros i cs current Hi Hcur Hcs H32;
    cbn [commit_loop]; rewrite round_binding_ok by lia; cbn [mbind res_bind];
    rewrite layer_tree_ok by done; cbn [mbind res_bind]; cbv zeta.
  { right. exists [current]. split; [done|]. split.
    - apply Forall_app. split; [done|]. repeat constructor. apply sha256_length.
    - split_and!; [done|done| |].
      + intros [|j] L E; [|done]. injection E as <-. by rewrite Nat.add_0_r.
      + by intros [|j] L L' _ E. }
  set (cs1 := cs ++ [mt_commitment (layer_tree i current)]).
  assert (Forall bytes32 cs1) as H32' by (apply Forall_app; split; [done|]; repeat constructor; apply sha256_length).
  assert (length cs1 = S i) as Hl1 by (unfold cs1; rewrite length_app; simpl; lia).
  destruct (derive_beta_cases st cs1 i H32' Hl1) as [[beta Ebeta]|E]; [|by left; rewrite E].
  rewrite Ebeta. cbn [mbind res_bind]. rewrite (round_domain_ok st n k) by (done || lia). cbn [mbind res_bind].
  destruct (derive_beta_ok st _ _ _ Ebeta) as [Hbc Hb0]. destruct Hcur as [Hc Hl].
  pose proof (fold_layer_ok (n - i - 1) (shift_at st i) ltac:(lia) (shift_at_canonical st i) (shift_at_nonzero st n k Hst i)
    current beta) as Hfold. replace (S (n - i - 1)) with (n - i)%nat in Hfold by lia.
  rewrite Hfold by done. cbn [mbind res_bind]. clear Hfold.
  set (next := layer_fold (n - i - 1) (shift_at st i) beta current).
  assert (is_layer (S i) next) as Hnext.
  { split; [apply layer_fold_canonical|]. unfold next. rewrite layer_fold_length. f_equal. lia. }
  replace (Z.of_nat i + 1) with (Z.of_nat (S i)) by lia.
  destruct (IH (S i) cs1 next ltac:(lia) Hnext Hl1 H32') as [E|(layers&E&Hall&Hlen&Hhd&Hlay&Hfold)];
    rewrite E; cbn [mbind res_bind fst snd]; [by left|right].
  exists (current :: layers). cbv zeta in *. cbn [layer_trees fmap list_fmap].
  assert (cs ++ mt_commitment (layer_tree i current) :: (mt_commitment <$> layer_trees (S i) layers)
    = cs1 ++ (mt_commitment <$> layer_trees (S i) layers)) as Ecs by (unfold cs1; by rewrite <- app_assoc).
  change (list_fmap _ _ mt_commitment ?l) with (mt_commitment <$> l). rewrite Ecs.
  split_and!; [done|done|simpl; lia|done| |].
  - intros [|j] L EL; [injection EL as <-; by rewrite Nat.add_0_r|]. rewrite Nat.add_succ_r. by apply (Hlay j).
  - intros [|j] L L' EL EL'; [|rewrite Nat.add_succ_r; by apply (Hfold j)].
    injection EL as <-. simpl in EL'. rewrite Hhd in EL'. injection EL' as <-. rewrite Nat.add_0_r.
    exists beta. rewrite take_app_le, <- Hl1, firstn_all by lia. done.
Qed.

(** ** The verifier's folds *)

Definition final_idx : list Z := final_indices st.

Lemma elem_of_final_idx j : j ∈ final_idx <-> 0 <= j < 2 ^ Z.of_nat (n - k).
Proof. unfold final_idx, final_indices. rewrite (final_domain_pow2 st n k) by done. rewrite elem_of_seqZ. lia. Qed.

(** Index lists of all layers: the pairs of the queries, then the whole last layer. *)
Definition index_lists (qs : list Z) (idxs : list (list Z)) : Prop :=
  length idxs = S k /\ idxs !! k = Some final_idx /\
  forall i idx, (i < k)%nat -> idxs !! i = Some idx ->
    _pair_indices st qs (Z.of_nat i) = Ok idx.

Definition agree_at (L' folded : list Z) (b : Z) : Prop := L' !! Z.to_nat b = folded !! Z.to_nat b.

(** The queries see that layer [i + 1] is the fold of layer [i]. *)
Definition queries_agree (cs : list bytes) (qs : list Z) (i : nat) (L L' : list Z) : Prop :=
  exists folded, folds_to cs i L folded /\
    forall q, q ∈ qs -> agree_at L' folded (q mod 2 ^ Z.of_nat (n - i - 1)).

Context (qs : list Z) (Hqs : are_bases n qs) (idxs : list (list Z)) (Hidx : index_lists qs idxs).
Lemma idx_at i : (i < k)%nat -> _pair_indices st qs (Z.of_nat i) = Ok (nth i idxs []).
Proof.
  intros Hi. destruct Hidx as (Hl&_&Hp). destruct (lookup_lt_is_Some_2 idxs i) as [idx E]; [lia|].
  rewrite (nth_lookup_Some _ _ _ _ E). by apply Hp.
Qed.

Lemma elem_of_idx i j : (i < k)%nat ->
  j ∈ nth i idxs [] <-> 0 <= j < 2 ^ Z.of_nat (n - i) /\
    exists q, q ∈ qs /\ j mod 2 ^ Z.of_nat (n - i - 1) = q mod 2 ^ Z.of_nat (n - i - 1).
Proof.
  intros Hi. destruct (pair_indices_ok st n k Hst qs i Hqs Hi) as (idx&E&_&Hj).
  rewrite idx_at in E by done. by apply (inj Ok) in E as <-.
Qed.

Context (layers : list (list Z)) (Hlen : length layers = S k).
Context (Hlay : forall i L, layers !! i = Some L -> is_layer i L).

Definition opened_at (i : nat) : opened := column_opened (nth i layers []) (nth i idxs []).

Lemma layer_at i : (i <= k)%nat -> layers !! i = Some (nth i layers []) /\ is_layer i (nth i layers []).
Proof.
  intros Hi. destruct (lookup_lt_is_Some_2 layers i) as [L HL]; [lia|].
  rewrite (nth_lookup_Some _ _ _ _ HL). split; [done|by apply Hlay].
Qed.

(** The folded index of a query is opened in the next layer. *)
Lemma next_opened i q : (i < k)%nat -> q ∈ qs ->
  opened_get (opened_at (S i)) (q mod 2 ^ Z.of_nat (n - i - 1))
  = nth (S i) layers [] !! Z.to_nat (q mod 2 ^ Z.of_nat (n - i - 1)).
Proof.
  intros Hi Hq. pose proof rounds_bound. set (half := 2 ^ Z.of_nat (n - i - 1)).
  assert (0 <= q mod half < half) as Hb by apply Z.mod_pos_bound, pow2_pos.
  unfold opened_at. rewrite opened_get_column. destruct (layer_at (S i)) as [_ [_ Hl]]; [lia|].
  assert (2 ^ (n - S i) = Z.to_nat half)%nat as Eh by (unfold half; rewrite pow2_to_nat; f_equal; lia).
  rewrite bool_decide_eq_true_2.
  - symmetry. destruct (lookup_lt_is_Some_2 (nth (S i) layers []) (Z.to_nat (q mod half))) as [x Hx]; [lia|].
    by rewrite Hx, (nth_lookup_Some _ _ _ _ Hx).
  - destruct (decide (S i = k)) as [Ek|].
    + destruct Hidx as (_&E&_). rewrite Ek, (nth_lookup_Some _ _ _ _ E). apply elem_of_final_idx.
      unfold half in Hb. by replace (n - k)%nat with (n - i - 1)%nat by lia.
    + apply elem_of_idx; [lia|]. split; [unfold half in Hb; by replace (n - S i)%nat with (n - i - 1)%nat by lia|].
      exists q. split; [done|]. apply Z.mod_mod_divide. exists 2. unfold half.
      rewrite <- Z.pow_succ_r by lia. f_equal. lia.
Qed.

Lemma check_bases_ok i beta :
  (i < k)%nat ->
  is_ok (mapR (check_base (opened_at i) (opened_at (S i))
           (point_at (n - i) (shift_at st i) <$> seq 0 (2 ^ (n - i))) (2 ^ Z.of_nat (n - i - 1)) (_inv_pow 2) beta)
    (filter (fun b => b < 2 ^ Z.of_nat (n - i - 1)) (opened_at i).*1)) = true <->
  forall q, q ∈ qs -> agree_at (nth (S i) layers []) (layer_fold (n - i - 1) (shift_at st i) beta (nth i layers []))
    (q mod 2 ^ Z.of_nat (n - i - 1)).
Proof.
  intros Hi. pose proof rounds_bound. set (m := (n - i - 1)%nat). replace (n - i)%nat with (S m) by lia.
  destruct (layer_at i) as [_ [_ Hl]]; [lia|]. replace (n - i)%nat with (S m) in Hl by lia.
  assert (0 < 2 ^ Z.of_nat m) as Hpos by apply pow2_pos.
  assert (2 ^ Z.of_nat (n - i) = 2 ^ Z.of_nat m + 2 ^ Z.of_nat m) as Hd.
  { replace (n - i)%nat with (S m) by lia. rewrite Nat2Z.inj_succ, Z.pow_succ_r by lia. lia. }
  assert (forall q, q ∈ qs -> check_base (opened_at i) (opened_at (S i)) (point_at (S m) (shift_at st i) <$> seq 0 (2 ^ S m))
      (2 ^ Z.of_nat m) (_inv_pow 2) beta (q mod 2 ^ Z.of_nat m) = Ok tt <->
    agree_at (nth (S i) layers []) (layer_fold m (shift_at st i) beta (nth i layers [])) (q mod 2 ^ Z.of_nat m)) as Hone.
  { intros q Hq. pose proof (Z.mod_pos_bound q (2 ^ Z.of_nat m) Hpos) as Hb. unfold opened_at at 1.
    rewrite check_base_ok; [|lia|apply shift_at_canonical|by apply (shift_at_nonzero st n k)|done|done| |].
    - pose proof (next_opened i q Hi Hq) as E. fold m in E. unfold agree_at. by rewrite E.
    - apply elem_of_idx; [done|]. split; [lia|]. exists q. split; [done|]. apply Z.mod_mod. lia.
    - apply elem_of_idx; [done|]. split; [lia|]. exists q. split; [done|].
      rewrite <- (Z.mul_1_l (2 ^ Z.of_nat m)) at 2. fold m. rewrite Z.mod_add, Z.mod_mod by lia. done. }
  assert (forall b, b ∈ filter (fun b => b < 2 ^ Z.of_nat m) (opened_at i).*1 <-> exists q, q ∈ qs /\ b = q mod 2 ^ Z.of_nat m) as Hel.
  { intros b. rewrite list_elem_of_filter. unfold opened_at.
    rewrite column_opened_keys, elem_of_idx by done. fold m. split.
    - intros (Hlt&Hb&q&Hq&E). exists q. split; [done|]. rewrite <- E. symmetry. apply Z.mod_small. lia.
    - intros (q&Hq&->). pose proof (Z.mod_pos_bound q (2 ^ Z.of_nat m) Hpos).
      split; [lia|]. split; [lia|]. exists q. split; [done|]. apply Z.mod_mod. lia. }
  split.
  - destruct (mapR _ _) as [us|] eqn:E; [|done]. intros _ q Hq. apply Hone; [done|].
    apply mapR_Forall2 in E. assert (q mod 2 ^ Z.of_nat m ∈ filter (fun b => b < 2 ^ Z.of_nat m) (opened_at i).*1) as [j Hj]%list_elem_of_lookup.
    { apply Hel. by exists q. }
    destruct (Forall2_lookup_l _ _ _ _ _ E Hj) as ([]&_&Hc). exact Hc.
  - intros Hall. rewrite (mapR_total _ _ (fun _ => tt)); [done|]. intros b (q&Hq&->)%Hel. by apply Hone, Hall.
Qed.

Lemma target_at i :
  (i < k)%nat ->
  (if Z.of_nat i + 1 =? round_count st then Ok (opened_at k)
   else tuple_item (opened_at <$> seq (S i) (k - S i)) 0) = Ok (opened_at (S i)).
Proof.
  intros Hi. rewrite (round_count_pow2 st n k) by done. destruct (Z.eqb_spec (Z.of_nat i + 1) (Z.of_nat k)).
  - by replace (S i) with k by lia.
  - replace (k - S i)%nat with (S (k - S i - 1)) by lia. done.
Qed.

(** The folding checks pass exactly when the queries agree in every round. *)
Lemma check_folds_ok cs i :
  (i <= k)%nat ->
  check_folds st cs (opened_at k) i (opened_at <$> seq i (k - i)) = Ok tt <->
  forall j, (i <= j < k)%nat -> queries_agree cs qs j (nth j layers []) (nth (S j) layers []).
Proof.
  pose proof rounds_bound. remember (k - i)%nat as r eqn:Hr. revert i Hr. induction r as [|r IH]; intros i Hr Hi.
  { split; [|done]. intros _ j Hj. lia. }
  cbn [seq fmap list_fmap check_folds]. change (list_fmap _ _ opened_at ?l) with (opened_at <$> l).
  rewrite (round_domain_ok st n k) by (done || lia). cbn [mbind res_bind].
  rewrite points_ok by (apply shift_at_canonical || lia). cbn [mbind res_bind dm_size domain_of].
  assert (2 ^ Z.of_nat (n - i) / 2 = 2 ^ Z.of_nat (n - i - 1)) as ->.
  { rewrite <- (half_pow2 (n - i - 1)). do 3 f_equal. lia. }
  rewrite inverse_two. cbn [mbind res_bind]. cbv zeta.
  pose proof (target_at i ltac:(lia)) as Ht. replace (k - S i)%nat with r in Ht by lia. rewrite Ht.
  cbn [mbind res_bind].
  destruct (_derive_beta st (take (S i) cs) (Z.of_nat i)) as [beta|e] eqn:Ebeta; cbn [mbind res_bind].
  2:{ split; [discriminate|]. intros Hall. destruct (Hall i ltac:(lia)) as (f&(beta&E&_)&_). congruence. }
  pose proof (check_bases_ok i beta ltac:(lia)) as Hbases.
  specialize (IH (S i) ltac:(lia) ltac:(lia)). split.
  - intros E. apply bind_ok in E as (us&E&Hrest). rewrite IH in Hrest. rewrite E in Hbases.
    intros j Hj. destruct (decide (j = i)) as [->|]; [|apply Hrest; lia].
    eexists. split; [by exists beta|]. by apply Hbases.
  - intros Hall. destruct (Hall i ltac:(lia)) as (f&(beta'&E'&->)&Hf). rewrite Ebeta in E'. apply (inj Ok) in E' as <-.
    apply Hbases in Hf. destruct (mapR _ _) as [us|]; [|done]. cbn [mbind res_bind].
    apply IH. intros j Hj. apply Hall. lia.
Qed.
End theory.
