(* ===== verification/FriProofs.v ===== *)
(** * Openings of the FRI test

    The openings of given tables that a proof shows, in the honest case and in
    the case of an adversary that has committed to the tables. *)

From Stdlib Require Import ZArith Lia Zmod Field.
From stdpp Require Import base gmap list sets strings pretty sorting.
From coqutil Require Import Word.LittleEndianList.
From S2P Require Import Prelude Sha256 Field Merkle MerkleTheory MerkleBinding Poly Validate FoldSumcheck FoldSumcheckTheory Roots Radix2 Radix2Theory NttTheory Fri FriLemmas FriFold FriTheory.

Local Open Scope Z_scope.

(** The opening shows the values of [L] at [idx]. *)
Definition shows (L idx : list Z) (o : GoldilocksMerkleMultiOpeningReference) : Prop :=
  mo_indices o = idx /\ Forall2 (fun i row => column_rows L !! Z.to_nat i = Some row) idx (mo_rows o).

Lemma opened_values_shows L idx o d :
  shows L idx o -> _opened_values o = Ok d <-> mo_leaf_width o = 1 /\ d = column_opened L idx.
Proof.
  intros [<- Hr%opened_loop_column]. unfold _opened_values. rewrite Hr.
  destruct (Z.eqb_spec (mo_leaf_width o) 1); cbn [negb]; [|split; [discriminate|by intros []]].
  split; [by intros [= <-]|by intros [_ ->]].
Qed.

Lemma one_value (l : list Z) : size (list_to_set l : gset Z) = 1%nat <-> exists c, l = replicate (length l) c /\ l <> [].
Proof.
  split.
  - intros [c Hc]%size_1_elem_of. exists c. split.
    + symmetry. apply replicate_as_Forall. split; [done|]. apply Forall_forall. intros x Hx.
      apply (elem_of_list_to_set (C := gset Z)) in Hx. set_solver.
    + intros ->. set_solver.
  - intros (c&E&Hne). rewrite E. destruct l as [|x l]; [done|]. cbn [length replicate list_to_set].
    assert (list_to_set (replicate (length l) c) ∪ {[c]} = ({[c]} : gset Z)) as Es.
    { apply set_eq. intros y. rewrite elem_of_union, elem_of_list_to_set, elem_of_replicate. set_solver. }
    rewrite (comm_L (∪)), Es. apply size_singleton.
Qed.

Section openings.
Context `{Digest} `{MultiopenBackend} `{!MultiopenLaws}.
Context (st : GoldilocksFriStatementReference) (n k : nat) (Hst : valid_statement st n k).

(** The check of one opening against the expectations of layer [i]. *)
Definition opening_accepted (cs : list bytes) (i : nat) (idx : list Z)
    (o : GoldilocksMerkleMultiOpeningReference) : Prop :=
  exists c, cs !! i = Some c /\
    verify_goldilocks_merkle_multiopening_reference (PBytes c) (Some o) (PBytes (binding_at st n i))
      (PInt (2 ^ Z.of_nat (n - i))) (PInt 1) (py_ints idx) = Ok tt.

Lemma tuple_item_ok {A} (l : list A) i x : tuple_item l i = Ok x <-> l !! i = Some x.
Proof. unfold tuple_item. destruct (l !! i); split; (discriminate || intros [= ->]; done). Qed.

Lemma verify_openings_ok cs qs i os :
  (i + length os <= k)%nat ->
  verify_openings st cs qs i os = Ok tt <->
  forall j o, os !! j = Some o -> exists idx, _pair_indices st qs (Z.of_nat (i + j)) = Ok idx
    /\ opening_accepted cs (i + j) idx o.
Proof.
  revert i. induction os as [|o os IH]; intros i Hi; simpl in Hi; cbn [verify_openings].
  { split; [|done]. intros _ j o E. done. }
  rewrite (round_domain_ok st n k) by (done || lia). cbn [mbind res_bind dm_size domain_of].
  rewrite bind_ok. rewrite (round_binding_ok st n k) by (done || lia). cbn [mbind res_bind]. split.
  - intros (c&Hc%tuple_item_ok&E). apply bind_ok in E as (idx&Hidx&E). apply bind_ok in E as ([]&Hv&E).
    rewrite (IH (S i)) in E by lia. intros [|j] o' Ho.
    + injection Ho as <-. rewrite Nat.add_0_r. exists idx. split; [done|]. by exists c.
    + rewrite Nat.add_succ_r. by apply (E j).
  - intros Hall. destruct (Hall 0%nat o eq_refl) as (idx&Hidx&c&Hc&Hv). rewrite Nat.add_0_r in *.
    exists c. split; [by apply tuple_item_ok|]. rewrite Hidx. cbn [mbind res_bind]. rewrite Hv. cbn [mbind res_bind].
    apply IH; [lia|]. intros j o' Ho. destruct (Hall (S j) o' Ho) as (idx'&?&?). rewrite Nat.add_succ_r in *. by exists idx'.
Qed.

Lemma query_bases_cases cs :
  length cs = S k -> Forall bytes32 cs ->
  (exists qs, _derive_query_bases st cs = Ok qs)
  \/ _derive_query_bases st cs = raise ProofV3Error "unable to derive distinct Goldilocks FRI query bases".
Proof.
  intros Hl Hc. unfold _derive_query_bases. rewrite (round_count_pow2 st n k) by done.
  rewrite (proj2 (Z.eqb_eq _ _)) by (unfold zlen; lia). cbn [negb].
  rewrite (proj2 (normalized_ok cs cs)) by done. cbn [mbind res_bind]. cbv zeta.
  destruct (query_loop _ _ _ _ _ _ _) as [s|]; [left; by eexists|by right].
Qed.

(** The tree of a layer opens what the verifier asks for. *)
Lemma layer_opens i L idx :
  (i <= k)%nat -> is_layer n i L -> valid_indices (2 ^ Z.of_nat (n - i)) idx ->
  exists o, tree_open (layer_tree st n i L) (py_ints idx) = Ok o /\ shows L idx o /\ mo_leaf_width o = 1
    /\ verify_goldilocks_merkle_multiopening_reference (PBytes (mt_commitment (layer_tree st n i L))) (Some o)
         (PBytes (binding_at st n i)) (PInt (2 ^ Z.of_nat (n - i))) (PInt 1) (py_ints idx) = Ok tt.
Proof.
  intros Hi HL Hidx. pose proof (rounds_bound st n k Hst). pose proof (layer_tree_ok st n k Hst i L HL) as HT.
  assert (mt_leaf_count (layer_tree st n i L) = 2 ^ Z.of_nat (n - i)) as Hn.
  { cbn. unfold column_rows, zlen. by rewrite length_fmap, (proj2 HL), pow2_nat. }
  destruct (tree_opens _ _ _ (py_ints idx) idx HT) as [Ho Hv].
  { by left. }
  { by rewrite Hn. }
  { rewrite Hn. apply schedule_fits; [lia|done]. }
  eexists. split; [done|]. rewrite Hn in Hv. split; [|split; [done|]]; [|apply Hv, served_1].
  split; [done|]. cbn [mo_rows opening_of]. unfold selected_rows. apply Forall2_fmap_r, Forall_Forall2_diag.
  apply valid_indices_facts in Hidx as (_&Hf&_). eapply Forall_impl; [exact Hf|]. intros j Hj. cbn.
  unfold column_rows. rewrite list_lookup_fmap. rewrite <- pow2_nat in Hj.
  destruct (lookup_lt_is_Some_2 L (Z.to_nat j)) as [x ->]; [rewrite (proj2 HL); lia|]. done.
Qed.

(** What an accepted opening against the commitment of a table shows. *)
Lemma accepted_shows i L bv T idx o :
  from_rows (py_rows (column_rows L)) bv = Ok T -> well_formed_opening o ->
  verify_goldilocks_merkle_multiopening_reference (PBytes (mt_commitment T)) (Some o)
    (PBytes (binding_at st n i)) (PInt (2 ^ Z.of_nat (n - i))) (PInt 1) (py_ints idx) = Ok tt ->
  (is_layer n i L /\ shows L idx o) \/ second_preimage (inputs_of_tree T).
Proof.
  intros HT Hwf Hv. destruct (accepted_opening _ _ _ _ _ _ _ _ HT Hwf Hv) as [(_&En&_&Hd&_&Hr)|]; [left|by right].
  rewrite (from_py_rows _ _ _ HT) in Hr. apply denotes_py_ints in Hd as ->.
  apply from_rows_ok in HT as (b&rows&w&k'&->&Hrows%denotes_py_rows&Hvt&->). subst rows.
  cbn [mt_leaf_count tree_of] in En. injection En as En. unfold column_rows, zlen in En. rewrite length_fmap in En.
  split; [|by split]. split; [|rewrite <- pow2_nat in En; lia].
  destruct (vt_rows _ _ _ _ Hvt) as [_ Hc _ _]. unfold column_rows in Hc. rewrite Forall_fmap in Hc.
  eapply Forall_impl; [exact Hc|]. intros x [_ Hx]. by apply Forall_cons in Hx as [? _].
Qed.

Lemma final_idx_valid : valid_indices (2 ^ Z.of_nat (n - k)) (final_idx st).
Proof.
  unfold final_idx, final_indices. rewrite (final_domain_pow2 st n k) by done. apply all_indices_valid.
  pose proof (pow2_pos (n - k)). lia.
Qed.
End openings.
