(* ===== verification/FriSoundness.v ===== *)
(** * Properties of the FRI test

    Completeness, what the queries of an accepted proof show about committed
    tables, and the soundness of an audit whose queries cover the domain. *)

From Stdlib Require Import ZArith Lia Zmod Field.
From stdpp Require Import base gmap list sets strings pretty sorting.
From coqutil Require Import Word.LittleEndianList.
From S2P Require Import Prelude Sha256 Field Merkle MerkleTheory MerkleBinding Poly Validate FoldSumcheck FoldSumcheckTheory Roots Radix2 Radix2Theory NttTheory Fri FriLemmas FriFold FriTheory FriProofs.

Local Open Scope Z_scope.

(** The table [L] holds, in the order of the points of [d], the values of a
    polynomial with at most [bound] coefficients. *)
Definition low_degree (d : GoldilocksRadix2DomainReference) (bound : nat) (L : list Z) : Prop :=
  exists pts p, points d = Ok pts /\ (length p <= bound)%nat
    /\ Forall2 (fun x y => toF y = peval p (toF x)) pts L.

(** The degree bound of layer [i]. *)
Definition degree_at (st : GoldilocksFriStatementReference) (i : nat) : nat :=
  Z.to_nat (Z.shiftr (fs_degree_bound st) (Z.of_nat i)).

Section theory.
Context `{Digest} `{MultiopenBackend} `{!MultiopenLaws}.
Context (st : GoldilocksFriStatementReference) (n k : nat) (Hst : valid_statement st n k).

Lemma degree_at_pow2 i : (i <= k)%nat -> degree_at st i = (2 ^ (k - i))%nat.
Proof. intros Hi. unfold degree_at. by rewrite (vs_degree _ _ _ Hst), shiftr_pow2_Z, pow2_to_nat by done. Qed.

Lemma low_degree_values i bound L : (i <= k)%nat ->
  low_degree (domain_of (n - i) (shift_at st i)) bound L <->
  exists p, (length p <= bound)%nat /\
    toF <$> L = coset_values (n - i) (toF (shift_at st i)) (toF (root_of (n - i))) p.
Proof.
  intros Hi. pose proof (rounds_bound st n k Hst). unfold low_degree, coset_values.
  rewrite points_ok by (apply shift_at_canonical || lia). split.
  - intros (pts&p&[= <-]&Hp&E). exists p. split; [done|]. symmetry. apply Forall2_fmap_l in E.
    generalize dependent L. generalize (seq 0 (2 ^ (n - i))). induction l as [|j l IH]; intros L E; inversion E; subst; [done|].
    cbn [fmap list_fmap]. f_equal; [|by apply IH]. by rewrite <- toF_point_at.
  - intros (p&Hp&E). eexists _, p. split; [done|]. split; [done|]. apply Forall2_fmap_l.
    generalize dependent L. generalize (seq 0 (2 ^ (n - i))). induction l as [|j l IH]; intros [|y L] E; try done.
    pose proof (f_equal (hd Zmod.zero) E) as E1. apply (f_equal tail) in E as E2. cbn [fmap list_fmap hd tail] in E1, E2.
    constructor; [|by apply IH]. unfold compose. by rewrite toF_point_at.
Qed.

(** A fold of low degree is a fold of low degree. *)
Lemma fold_low_degree i beta L bound :
  (S i <= k)%nat -> (exists p, (length p <= 2 * bound)%nat /\
    toF <$> L = coset_values (n - i) (toF (shift_at st i)) (toF (root_of (n - i))) p) ->
  exists p, (length p <= bound)%nat /\ toF <$> layer_fold (n - i - 1) (shift_at st i) beta L
    = coset_values (n - S i) (toF (shift_at st (S i))) (toF (root_of (n - S i))) p.
Proof.
  intros Hi (p&Hp&E). pose proof (rounds_bound st n k Hst). exists (pfold (toF beta) p).
  split; [by apply pfold_length|]. rewrite toF_shift_next. replace (n - S i)%nat with (n - i - 1)%nat by lia.
  apply layer_fold_values; [lia|apply shift_at_canonical|by apply (shift_at_nonzero st n k)|].
  by replace (S (n - i - 1)) with (n - i)%nat by lia.
Qed.

Lemma constant_values m s w p L :
  (length p <= 1)%nat -> toF <$> L = coset_values m s w p -> Forall canonical L -> exists c, L = replicate (length L) c.
Proof.
  intros Hp E Hc. assert (exists a, forall x, peval p x = a) as [a Ha].
  { destruct p as [|a [|]]; [by exists Zmod.zero|exists a; intros x; simpl; ring|simpl in Hp; lia]. }
  exists (Zmod.to_Z a). symmetry. apply replicate_as_Forall. split; [done|]. apply Forall_lookup. intros j y Hy.
  apply toF_inj; [apply to_Z_canonical|by eapply Forall_lookup_1|]. rewrite toF_to_Z.
  apply (f_equal (.!! j)) in E. rewrite list_lookup_fmap, Hy in E. unfold coset_values in E.
  rewrite list_lookup_fmap in E. destruct (seq 0 (2 ^ m) !! j); [|done]. apply (inj Some) in E. by rewrite E, Ha.
Qed.

(** ** Completeness *)

Lemma fri_vector_ok v len name l :
  Fri._field_vector v len name = Ok l <-> denotes_ints v l /\ zlen l = len /\ Forall canonical l.
Proof.
  unfold Fri._field_vector, denotes_ints.
  assert (forall es, (if negb (zlen es =? len) then
      raise ProofV3Error (name +:+ " must contain exactly " +:+ pretty len +:+ " field values")
    else imapR canonical_goldilocks name es) = Ok l <-> es = PInt <$> l /\ zlen l = len /\ Forall canonical l) as Haux.
  { intros es. split.
    - destruct (Z.eqb_spec (zlen es) len); [|discriminate]. intros [-> Hc]%imapR_canonical. by rewrite zlen_fmap in *.
    - intros (->&Hl&Hc). rewrite zlen_fmap, (proj2 (Z.eqb_eq _ _)) by done. by apply imapR_canonical. }
  destruct v; try (split; [discriminate|by intros [[?|?] _]]); rewrite Haux; unfold py_ints; naive_solver.
Qed.

Lemma proof_new_ok cs os o :
  length cs = S k -> Forall bytes32 cs ->
  GoldilocksFriProofReference_new (PTuple (PBytes <$> cs)) (Some (Some <$> os)) (Some o)
    GOLDILOCKS_FRI_REFERENCE_ABI_V3 (PInt GOLDILOCKS_FRI_REFERENCE_FORMAT_VERSION_V3) = Ok (MkFriProof cs os o).
Proof.
  intros Hl Hc. pose proof (rounds_bound st n k Hst). unfold GoldilocksFriProofReference_new.
  rewrite bool_decide_eq_true_2 by done. cbn [negb bad_version]. rewrite Z.eqb_refl. cbn [negb].
  destruct cs as [|c cs]; [done|]. change (PBytes <$> c :: cs) with (PBytes c :: (PBytes <$> cs)). cbv beta iota.
  change (PBytes c :: (PBytes <$> cs)) with (PBytes <$> c :: cs).
  rewrite zlen_fmap, (proj2 (Z.ltb_ge _ _)).
  2:{ unfold zlen. rewrite Hl. change (MAX_GOLDILOCKS_FRI_REFERENCE_ROUNDS_V3 + 1) with 33. lia. }
  assert (imapR _commitment_bytes "Goldilocks FRI proof commitment" (PBytes <$> c :: cs) = Ok (c :: cs)) as ->.
  { unfold imapR. apply (imapR_from_ok _ (fun v => _commitment_bytes v "")).
    - intros x nm y. unfold _commitment_bytes. by rewrite !fixed32_ok.
    - apply mapR_Forall2, Forall2_fmap_l, Forall_Forall2_diag. eapply Forall_impl; [exact Hc|].
      intros x Hx. by apply fixed32_ok. }
  cbn [mbind res_bind option_bind]. assert (mapM id (Some <$> os) = Some os) as ->; [|done].
  apply mapM_Some, Forall2_fmap_l, Forall_Forall2_diag, Forall_forall. done.
Qed.

(** The verifier accepts openings of layers that fold into one another. *)
Lemma verify_layers cs qs idxs layers os o :
  length layers = S k -> (forall i L, layers !! i = Some L -> is_layer n i L) ->
  length cs = S k -> _derive_query_bases st cs = Ok qs -> index_lists st k qs idxs ->
  (forall j L L', layers !! j = Some L -> layers !! S j = Some L' -> folds_to st n cs j L L') ->
  (exists c, nth k layers [] = replicate (2 ^ (n - k)) c) ->
  length os = k ->
  (forall j o, os !! j = Some o -> shows (nth j layers []) (nth j idxs []) o /\ mo_leaf_width o = 1
    /\ opening_accepted st n cs j (nth j idxs []) o) ->
  shows (nth k layers []) (final_idx st) o /\ mo_leaf_width o = 1 /\ opening_accepted st n cs k (final_idx st) o ->
  verify_goldilocks_fri_reference (Some (MkFriProof cs os o)) (Some st) = Ok tt.
Proof.
  intros Hlen Hlay Hcs Hq Hidx Hfold [c Hconst] Hos Hshow (Hso&Hwo&cf&Hcf&Hvf).
  pose proof (rounds_bound st n k Hst) as Hr. destruct (query_bases_ok st n k Hst cs qs Hq) as (Hbases&_).
  unfold verify_goldilocks_fri_reference. cbn [fri_commitments fri_round_openings fri_final_opening]. cbv zeta.
  rewrite (round_count_pow2 st n k) by done. unfold zlen. rewrite Hcs, Hos.
  rewrite !(proj2 (Z.eqb_eq _ _)) by lia. cbn [negb]. rewrite Hq. cbn [mbind res_bind].
  rewrite (proj2 (verify_openings_ok st n k Hst cs qs 0 os ltac:(lia))).
  2:{ intros j o' Ho. destruct (Hshow j o' Ho) as (_&_&Ha). exists (nth j idxs []). split; [|done].
      apply lookup_lt_Some in Ho. apply (idx_at st k qs idxs Hidx j). lia. }
  cbn [mbind res_bind]. replace (S k - 1)%nat with k by lia.
  rewrite (proj2 (tuple_item_ok cs k cf)) by done. cbn [mbind res_bind].
  rewrite (round_binding_ok st n k) by (done || lia). cbn [mbind res_bind].
  rewrite (final_domain_pow2 st n k) by done. fold (final_idx st). rewrite Hvf. cbn [reraise_as mbind res_bind].
  assert (mapR _opened_values os = Ok ((fun i => column_opened (nth i layers []) (nth i idxs [])) <$> seq 0 k)) as ->.
  { apply mapR_Forall2. apply Forall2_fmap_r. apply Forall2_same_length_lookup. rewrite length_seq. split; [done|].
    intros j o' i Ho [-> Hj]%lookup_seq. destruct (Hshow j o' Ho) as (Hs&Hw&_). by apply (opened_values_shows _ _ _ _ Hs). }
  cbn [mbind res_bind].
  rewrite (proj2 (opened_values_shows _ _ _ (column_opened (nth k layers []) (final_idx st)) Hso)) by done.
  cbn [mbind res_bind].
  assert (nth k idxs [] = final_idx st) as Ek by (destruct Hidx as (_&E&_); by apply nth_lookup_Some).
  pose proof (check_folds_ok st n k Hst qs Hbases idxs Hidx layers Hlen Hlay cs 0 ltac:(lia)) as Hcheck.
  unfold opened_at in Hcheck. rewrite Ek, Nat.sub_0_r in Hcheck. rewrite (proj2 Hcheck).
  2:{ intros j Hj. exists (nth (S j) layers []). split; [|done].
      destruct (lookup_lt_is_Some_2 layers j) as [L HL]; [lia|]. destruct (lookup_lt_is_Some_2 layers (S j)) as [L' HL']; [lia|].
      rewrite (nth_lookup_Some _ _ _ _ HL), (nth_lookup_Some _ _ _ _ HL'). by apply Hfold. }
  cbn [mbind res_bind]. rewrite column_opened_keys. fold (final_idx st). rewrite bool_decide_eq_true_2 by done. cbn [negb].
  apply require_ok, bool_decide_eq_true, one_value. rewrite column_opened_values. exists c. split.
  - symmetry. apply replicate_as_Forall. split; [done|]. apply Forall_fmap, Forall_forall. intros j Hj. unfold compose.
    apply (elem_of_final_idx st n k Hst) in Hj. rewrite <- pow2_nat in Hj. rewrite Hconst. symmetry.
    apply nth_lookup_Some, lookup_replicate_2. lia.
  - intros E%(f_equal length). rewrite length_fmap in E. destruct (final_idx_valid st n k Hst) as [Hne _].
    by destruct (final_idx st).
Qed.

(** The layers of an honest run hold values of polynomials of falling degree. *)
Lemma layers_low_degree cs layers p L0 :
  layers !! 0%nat = Some L0 -> length layers = S k ->
  (forall j L L', layers !! j = Some L -> layers !! S j = Some L' -> folds_to st n cs j L L') ->
  (length p <= 2 ^ k)%nat ->
  toF <$> L0 = coset_values n (toF (fs_domain_shift st)) (toF (root_of n)) p ->
  forall j L, layers !! j = Some L -> exists q, (length q <= 2 ^ (k - j))%nat
    /\ toF <$> L = coset_values (n - j) (toF (shift_at st j)) (toF (root_of (n - j))) q.
Proof.
  intros Hhd Hlen Hf Hp E j. induction j as [|j IH]; intros L HL.
  { rewrite Hhd in HL. injection HL as <-. rewrite !Nat.sub_0_r, (shift_at_0 st n k Hst). by exists p. }
  pose proof (lookup_lt_Some _ _ _ HL). destruct (lookup_lt_is_Some_2 layers j) as [L' HL']; [lia|].
  destruct (Hf j L' L HL' HL) as (beta&_&->). apply fold_low_degree; [lia|].
  destruct (IH L' HL') as (q&Hq&Eq). exists q. split; [|done].
  replace (k - j)%nat with (S (k - S j)) in Hq by lia. exact Hq.
Qed.

Lemma prove_verifies v ev p :
  denotes_ints v ev -> is_layer n 0 ev -> (length p <= 2 ^ k)%nat ->
  toF <$> ev = coset_values n (toF (fs_domain_shift st)) (toF (root_of n)) p ->
  (exists proof, prove_goldilocks_fri_reference v (Some st) = Ok proof
     /\ verify_goldilocks_fri_reference (Some proof) (Some st) = Ok tt)
  \/ prove_goldilocks_fri_reference v (Some st) = beta_failure
  \/ prove_goldilocks_fri_reference v (Some st)
     = raise ProofV3Error "unable to derive distinct Goldilocks FRI query bases".
Proof.
  intros Hv Hev Hp E. pose proof (rounds_bound st n k Hst) as Hr. unfold prove_goldilocks_fri_reference.
  rewrite (proj2 (fri_vector_ok v _ _ ev)).
  2:{ split_and!; [done| |apply Hev]. unfold zlen. rewrite (proj2 Hev), Nat.sub_0_r, (vs_domain _ _ _ Hst). apply pow2_nat. }
  cbn [mbind res_bind]. rewrite (round_count_pow2 st n k), Nat2Z.id by done. cbv zeta.
  destruct (commit_loop_ok st n k Hst k 0 [] ev) as [Ec|(layers&Ec&H32&Hlen&Hhd&Hlay&Hfold)]; [done..|constructor| |].
  { right. left. change (Z.of_nat 0) with 0 in Ec. by rewrite Ec. }
  change (Z.of_nat 0) with 0 in Ec. cbv zeta in *. rewrite Ec. cbn [mbind res_bind app]. clear Ec.
  set (trees := layer_trees st n 0 layers) in *. set (cs := mt_commitment <$> trees) in *. cbn [app Nat.add] in *.
  assert (length cs = S k) as Hcs by (unfold cs, trees; by rewrite length_fmap, layer_trees_length).
  destruct (query_bases_cases st n k Hst cs Hcs H32) as [[qs Hq]|E2]; [|by right; right; rewrite E2].
  left. rewrite Hq. cbn [mbind res_bind]. destruct (query_bases_ok st n k Hst cs qs Hq) as (Hbases&_).
  assert (forall j, (j <= k)%nat -> exists L, layers !! j = Some L /\ is_layer n j L /\ nth j layers [] = L
      /\ trees !! j = Some (layer_tree st n j L) /\ cs !! j = Some (mt_commitment (layer_tree st n j L))) as Hat.
  { intros j Hj. destruct (lookup_lt_is_Some_2 layers j) as [L HL]; [lia|]. exists L.
    assert (trees !! j = Some (layer_tree st n j L)) as Ht by (unfold trees; by rewrite layer_trees_lookup, HL).
    split_and!; [done|by apply Hlay|by apply nth_lookup_Some|done|]. unfold cs. by rewrite list_lookup_fmap, Ht. }
  set (idx j := ok_or [] (_pair_indices st qs (Z.of_nat j))).
  set (idxs := (idx <$> seq 0 k) ++ [final_idx st]).
  assert (forall j, (j < k)%nat -> nth j idxs [] = idx j) as Hnth.
  { intros j Hj. unfold idxs. apply nth_lookup_Some. rewrite lookup_app_l by (by rewrite length_fmap, length_seq).
    by rewrite list_lookup_fmap, lookup_seq_lt. }
  assert (forall j, (j < k)%nat -> _pair_indices st qs (Z.of_nat j) = Ok (idx j)) as Hpair.
  { intros j Hj. unfold idx. by destruct (pair_indices_ok st n k Hst qs j Hbases Hj) as (i&->&_). }
  assert (index_lists st k qs idxs) as Hidx.
  { unfold idxs. split_and!; [rewrite length_app, length_fmap, length_seq; simpl; lia| |].
    - rewrite lookup_app_r by (by rewrite length_fmap, length_seq). by rewrite length_fmap, length_seq, Nat.sub_diag.
    - intros j i Hj Hi. rewrite lookup_app_l in Hi by (by rewrite length_fmap, length_seq).
      rewrite list_lookup_fmap, lookup_seq_lt in Hi by done. injection Hi as <-. by apply Hpair. }
  destruct (mapR_exists (fun round_index => tree ← tuple_item trees round_index;
      indices ← _pair_indices st qs (Z.of_nat round_index); tree_open tree (py_ints indices)) (seq 0 k)
    (fun j o => shows (nth j layers []) (nth j idxs []) o /\ mo_leaf_width o = 1 /\ opening_accepted st n cs j (nth j idxs []) o))
    as (os&->&Hos).
  { intros j Hj%elem_of_seq. destruct (Hat j ltac:(lia)) as (L&_&HL&EL&Ht&Hc). rewrite EL, Hnth by lia.
    rewrite (proj2 (tuple_item_ok trees j _) Ht). cbn [mbind res_bind]. rewrite Hpair by lia. cbn [mbind res_bind].
    destruct (pair_indices_ok st n k Hst qs j Hbases ltac:(lia)) as (i&Ei&Hi&_).
    rewrite Hpair in Ei by lia. apply (inj Ok) in Ei as <-.
    destruct (layer_opens st n k Hst j L (idx j) ltac:(lia) HL Hi) as (o&->&Hs&Hw&Hver).
    exists o. split_and!; [done|done|done|]. by exists (mt_commitment (layer_tree st n j L)). }
  cbn [mbind res_bind]. destruct (Hat k ltac:(lia)) as (L&HLk&HL&EL&Ht&Hc).
  replace (length trees - 1)%nat with k by (unfold trees; rewrite layer_trees_length; lia).
  rewrite (proj2 (tuple_item_ok trees k _) Ht). cbn [mbind res_bind]. fold (final_idx st).
  destruct (layer_opens st n k Hst k L (final_idx st) ltac:(lia) HL (final_idx_valid st n k Hst)) as (o&->&Hs&Hw&Hver).
  cbn [mbind res_bind]. rewrite proof_new_ok by done. eexists. split; [done|].
  assert (length os = k) as Hlos by (apply Forall2_length in Hos; by rewrite length_seq in Hos).
  apply (verify_layers cs qs idxs layers); try done.
  - rewrite EL. destruct (layers_low_degree cs layers p ev Hhd Hlen Hfold Hp E k L HLk) as (q&Hlq&Eq).
    rewrite Nat.sub_diag in Hlq. rewrite <- (proj2 HL). by eapply constant_values; [..|apply HL].
  - intros j o' Ho. destruct (Forall2_lookup_r _ _ _ _ _ Hos Ho) as (i&[-> _]%lookup_seq&HP). exact HP.
  - rewrite EL. split_and!; [done|done|]. by exists (mt_commitment (layer_tree st n k L)).
Qed.

(** ** What an accepted proof shows *)

(** The proof commits to the tables [layers] by the trees [trees]. *)
Definition commits_to (cs : list bytes) (trees : list GoldilocksMerkleTreeReference) (layers : list (list Z)) : Prop :=
  cs = mt_commitment <$> trees /\
  Forall2 (fun T L => exists bv, from_rows (py_rows (column_rows L)) bv = Ok T) trees layers.

Definition well_formed_proof (proof : GoldilocksFriProofReference) : Prop :=
  Forall well_formed_opening (fri_round_openings proof) /\ well_formed_opening (fri_final_opening proof).

Lemma verify_inv proof :
  verify_goldilocks_fri_reference (Some proof) (Some st) = Ok tt ->
  length (fri_commitments proof) = S k /\ length (fri_round_openings proof) = k /\
  exists qs, _derive_query_bases st (fri_commitments proof) = Ok qs
    /\ verify_openings st (fri_commitments proof) qs 0 (fri_round_openings proof) = Ok tt
    /\ opening_accepted st n (fri_commitments proof) k (final_idx st) (fri_final_opening proof)
    /\ exists opened_rounds final_values,
         mapR _opened_values (fri_round_openings proof) = Ok opened_rounds
         /\ _opened_values (fri_final_opening proof) = Ok final_values
         /\ check_folds st (fri_commitments proof) final_values 0 opened_rounds = Ok tt
         /\ size (list_to_set final_values.*2 : gset Z) = 1%nat.
Proof.
  pose proof (rounds_bound st n k Hst) as Hr.
  unfold verify_goldilocks_fri_reference. cbv zeta. rewrite (round_count_pow2 st n k) by done.
  destruct (Z.eqb_spec (zlen (fri_commitments proof)) (Z.of_nat k + 1)) as [Hc|]; [|discriminate].
  destruct (Z.eqb_spec (zlen (fri_round_openings proof)) (Z.of_nat k)) as [Ho|]; [|discriminate]. cbn [negb].
  unfold zlen in *. intros E. apply bind_ok in E as ([]&E%reraise_as_ok&Hrest).
  apply bind_ok in E as (qs&Hq&E). apply bind_ok in E as ([]&Hv&E). apply bind_ok in E as (c&Hcl%tuple_item_ok&E).
  rewrite (round_binding_ok st n k) in E by (done || lia). cbn [mbind res_bind] in E.
  rewrite (final_domain_pow2 st n k) in E by done.
  apply bind_ok in Hrest as (rounds&Hrounds&Hrest). apply bind_ok in Hrest as (finals&Hfinals&Hrest).
  apply bind_ok in Hrest as ([]&Hfolds&Hrest). destruct (negb _); [discriminate|].
  apply require_ok, bool_decide_eq_true in Hrest.
  replace (length (fri_commitments proof) - 1)%nat with k in Hcl by lia.
  split_and!; [lia|lia|]. exists qs. split_and!; [done|done|by exists c|]. by exists rounds, finals.
Qed.

Lemma verified_layers proof trees layers :
  verify_goldilocks_fri_reference (Some proof) (Some st) = Ok tt -> well_formed_proof proof ->
  commits_to (fri_commitments proof) trees layers ->
  (exists qs, _derive_query_bases st (fri_commitments proof) = Ok qs /\ length layers = S k
     /\ (forall j L, layers !! j = Some L -> is_layer n j L)
     /\ (forall j, (j < k)%nat -> queries_agree st n (fri_commitments proof) qs j (nth j layers []) (nth (S j) layers []))
     /\ exists c, nth k layers [] = replicate (2 ^ (n - k)) c)
  \/ exists T, T ∈ trees /\ second_preimage (inputs_of_tree T).
Proof.
  intros Hver [Hwr Hwf] [Ecs Htl]. destruct (verify_inv proof Hver) as (Hc&Ho&qs&Hq&Hop&Hfin&rounds&finals&Hrounds&Hfinals&Hfolds&Hone).
  destruct (query_bases_ok st n k Hst _ qs Hq) as (Hbases&_).
  rewrite (verify_openings_ok st n k Hst (fri_commitments proof) qs 0 (fri_round_openings proof) ltac:(lia)) in Hop. cbn [Nat.add] in Hop.
  assert (length layers = S k) as Hlen by (apply Forall2_length in Htl; rewrite <- Htl, <- Hc, Ecs; by rewrite length_fmap).
  set (opening j := if decide (j = k) then fri_final_opening proof
                    else nth j (fri_round_openings proof) (fri_final_opening proof)).
  set (idx j := if decide (j = k) then final_idx st else ok_or [] (_pair_indices st qs (Z.of_nat j))).
  assert (forall j, (j < k)%nat -> fri_round_openings proof !! j = Some (opening j)) as Hopening.
  { intros j Hj. unfold opening. rewrite decide_False by lia.
    destruct (lookup_lt_is_Some_2 (fri_round_openings proof) j) as [o E]; [lia|]. by rewrite (nth_lookup_Some _ _ _ _ E). }
  assert (forall j, (j <= k)%nat -> well_formed_opening (opening j)
    /\ opening_accepted st n (fri_commitments proof) j (idx j) (opening j)) as Hacc.
  { intros j Hj. destruct (decide (j = k)) as [->|Hne].
    - unfold opening, idx. by rewrite !decide_True by done.
    - pose proof (Hopening j ltac:(lia)) as E. split; [by eapply Forall_lookup_1|].
      destruct (Hop j _ E) as (i&Ei&Ha). unfold idx. rewrite decide_False, Ei by done. exact Ha. }
  assert ((exists T, T ∈ trees /\ second_preimage (inputs_of_tree T)) \/
    forall j, (j <= k)%nat -> is_layer n j (nth j layers []) /\ shows (nth j layers []) (idx j) (opening j)) as [|Hshow]; [|by right|].
  { assert (forall m, (m <= S k)%nat -> (exists T, T ∈ trees /\ second_preimage (inputs_of_tree T)) \/
      forall j, (j < m)%nat -> is_layer n j (nth j layers []) /\ shows (nth j layers []) (idx j) (opening j)) as Hall.
    { induction m as [|m IH]; intros Hm; [right; lia|]. destruct (IH ltac:(lia)) as [|IH']; [by left|].
      destruct (lookup_lt_is_Some_2 layers m) as [L HL]; [lia|].
      destruct (Forall2_lookup_r _ _ _ _ _ Htl HL) as (T&HT&bv&Hrows).
      destruct (Hacc m ltac:(lia)) as (Hw&c&Hcm&Hv). rewrite Ecs, list_lookup_fmap, HT in Hcm. injection Hcm as <-.
      destruct (accepted_shows st n m L bv T (idx m) (opening m) Hrows Hw Hv) as [Hgood|]; [right|left; exists T].
      - intros j Hj. destruct (decide (j = m)) as [->|]; [|apply IH'; lia]. by rewrite (nth_lookup_Some _ _ _ _ HL).
      - split; [by eapply list_elem_of_lookup_2|done]. }
    destruct (Hall (S k) ltac:(lia)) as [|Hj]; [by left|right]. intros j Hjk. apply Hj. lia. }
  left. exists qs. split; [done|]. split; [done|].
  assert (forall j L, layers !! j = Some L -> is_layer n j L) as Hlay.
  { intros j L HL. pose proof (lookup_lt_Some _ _ _ HL). rewrite <- (nth_lookup_Some _ _ [] _ HL). apply Hshow. lia. }
  split; [done|]. set (idxs := idx <$> seq 0 (S k)).
  assert (forall j, (j <= k)%nat -> nth j idxs [] = idx j) as Hnth.
  { intros j Hj. unfold idxs. apply nth_lookup_Some. by rewrite list_lookup_fmap, lookup_seq_lt by lia. }
  assert (index_lists st k qs idxs) as Hidx.
  { unfold idxs. split_and!; [by rewrite length_fmap, length_seq| |].
    - rewrite list_lookup_fmap, lookup_seq_lt by lia. cbn. unfold idx. by rewrite decide_True.
    - intros j i Hj Hi. rewrite list_lookup_fmap, lookup_seq_lt in Hi by lia. injection Hi as <-. cbn [Nat.add]. unfold idx.
      rewrite decide_False by lia. by destruct (pair_indices_ok st n k Hst qs j Hbases Hj) as (i&->&_). }
  assert (rounds = opened_at idxs layers <$> seq 0 k) as ->.
  { apply list_eq_same_length with (n := k); [by rewrite length_fmap, length_seq| |].
    - by rewrite (mapR_length _ _ _ Hrounds).
    - intros j d d' Hj Hd Hd'. rewrite list_lookup_fmap, lookup_seq_lt in Hd' by done. injection Hd' as <-.
      apply mapR_Forall2 in Hrounds. pose proof (Forall2_lookup_lr _ _ _ _ _ _ Hrounds (Hopening j Hj) Hd) as Ed.
      apply (opened_values_shows _ _ _ _ (proj2 (Hshow j ltac:(lia)))) in Ed as [_ ->].
      unfold opened_at. cbn [Nat.add]. by rewrite Hnth by lia. }
  assert (opening k = fri_final_opening proof) as Eok by (unfold opening; by rewrite decide_True).
  assert (finals = opened_at idxs layers k) as ->.
  { rewrite <- Eok in Hfinals. apply (opened_values_shows _ _ _ _ (proj2 (Hshow k ltac:(lia)))) in Hfinals as [_ ->].
    unfold opened_at. by rewrite Hnth by lia. }
  pose proof (check_folds_ok st n k Hst qs Hbases idxs Hidx layers Hlen Hlay (fri_commitments proof) 0 ltac:(lia)) as Hcheck.
  rewrite Nat.sub_0_r in Hcheck. split; [intros j Hj; apply (proj1 Hcheck Hfolds); lia|].
  unfold opened_at in Hone. rewrite Hnth, column_opened_values in Hone by lia. unfold idx in Hone.
  rewrite decide_True in Hone by done. apply one_value in Hone as (c&Hconst&_). exists c.
  destruct (Hshow k ltac:(lia)) as [[_ Hl] _]. symmetry. apply replicate_as_Forall. split; [done|].
  apply Forall_lookup. intros j y Hy. pose proof (lookup_lt_Some _ _ _ Hy).
  assert (Z.of_nat j ∈ final_idx st) as [i Hi]%list_elem_of_lookup.
  { apply (elem_of_final_idx st n k Hst). rewrite <- pow2_nat. lia. }
  apply (f_equal (.!! i)) in Hconst. rewrite list_lookup_fmap, Hi in Hconst. cbn in Hconst.
  rewrite Nat2Z.id, (nth_lookup_Some _ _ _ _ Hy) in Hconst. symmetry in Hconst.
  by apply lookup_replicate in Hconst as [-> _].
Qed.

(** ** Low degree is decidable, and a challenge that hides a high degree is unique *)

Lemma low_degree_decides i bound L :
  (i <= k)%nat -> length L = (2 ^ (n - i))%nat -> (bound <= 2 ^ (n - i))%nat ->
  low_degree (domain_of (n - i) (shift_at st i)) bound L
  \/ ~ low_degree (domain_of (n - i) (shift_at st i)) bound L.
Proof.
  intros Hi Hl Hb. pose proof (rounds_bound st n k Hst) as Hr. rewrite low_degree_values by done.
  set (m := (n - i)%nat) in *. set (s := toF (shift_at st i)). set (w := toF (root_of m)).
  assert (s <> Zmod.zero) as Hs.
  { unfold s. rewrite toF_zero_iff by apply shift_at_canonical. by apply (shift_at_nonzero st n k). }
  assert (principal m w) as Hw by (apply root_of_principal; lia).
  set (p := interpolate m s w (toF <$> L)).
  assert (coset_values m s w p = toF <$> L) as Ep.
  { apply coset_values_interpolate; [lia|done|done|by rewrite length_fmap]. }
  assert (length p = (2 ^ m)%nat) as Hlp by apply interpolate_length.
  destruct (decide (drop bound p = replicate (2 ^ m - bound) Zmod.zero)) as [E|Hne]; [left|right].
  - exists (take bound p). split; [rewrite length_take; lia|]. rewrite <- Ep. apply coset_values_ext. intros x.
    rewrite <- (take_drop bound p) at 1. rewrite E. apply peval_zeros.
  - intros (q&Hq&Eq). apply Hne.
    assert (q ++ replicate (2 ^ m - length q) Zmod.zero = p) as <-.
    { apply (coset_values_inj m s w); [lia|done|done|rewrite length_app, length_replicate; lia|done|].
      rewrite Ep, Eq. apply coset_values_ext. intros x. apply peval_zeros. }
    rewrite drop_app_ge by done. rewrite drop_replicate. f_equal. lia.
Qed.

Lemma fold_pointwise i L beta q j :
  (S i <= k)%nat -> (j < 2 ^ (n - i - 1))%nat ->
  toF <$> layer_fold (n - i - 1) (shift_at st i) beta L
    = coset_values (n - S i) (toF (shift_at st (S i))) (toF (root_of (n - S i))) q ->
  let x := toF (point_at (n - i) (shift_at st i) j) in
  let even := Zmod.mul (Zmod.add (toF (nth j L 0)) (toF (nth (j + 2 ^ (n - i - 1)) L 0))) (Zmod.inv (toF 2)) in
  let odd := Zmod.mul (Zmod.mul (Zmod.sub (toF (nth j L 0)) (toF (nth (j + 2 ^ (n - i - 1)) L 0))) (Zmod.inv (toF 2))) (Zmod.inv x) in
  Zmod.add even (Zmod.mul (toF beta) odd) = peval q (Zmod.mul x x).
Proof.
  intros Hi Hj E. cbv zeta. pose proof (rounds_bound st n k Hst) as Hr.
  set (m := (n - i - 1)%nat) in *. replace (n - i)%nat with (S m) in * by lia. replace (n - S i)%nat with m in * by lia.
  pose proof (f_equal (.!! j) E) as Ej.
  rewrite list_lookup_fmap, layer_fold_lookup, coset_values_lookup in Ej by done. apply (inj Some) in Ej.
  rewrite toF_fold_value in Ej by (apply mod_canonical || (apply point_nonzero; [lia|apply shift_at_canonical|by apply (shift_at_nonzero st n k)])).
  rewrite Ej. f_equal. rewrite toF_shift_next, toF_point_at, <- root_of_square, fpow_mul_l by lia. ring.
Qed.

Lemma lucky_unique i L beta beta' bound :
  (S i <= k)%nat -> length L = (2 ^ (n - i))%nat -> toF beta <> toF beta' ->
  low_degree (domain_of (n - S i) (shift_at st (S i))) bound (layer_fold (n - i - 1) (shift_at st i) beta L) ->
  low_degree (domain_of (n - S i) (shift_at st (S i))) bound (layer_fold (n - i - 1) (shift_at st i) beta' L) ->
  low_degree (domain_of (n - i) (shift_at st i)) (2 * bound) L.
Proof.
  intros Hi Hl Hne. pose proof (rounds_bound st n k Hst) as Hr.
  rewrite !low_degree_values by lia. intros (q&Hq&E) (q'&Hq'&E').
  set (delta := Zmod.sub (toF beta) (toF beta')).
  assert (delta <> Zmod.zero) as Hd by (intros ?; by apply Hne, F_sub_zero).
  set (O := pscale (Zmod.inv delta) (psub q q')). set (Ev := psub q (pscale (toF beta) O)).
  assert (length O <= bound)%nat as HO by (unfold O; rewrite pscale_length, psub_length; lia).
  assert (length Ev <= bound)%nat as HE by (unfold Ev; rewrite psub_length, pscale_length; lia).
  exists (pinter bound Ev O). split; [by rewrite pinter_length|].
  assert (forall j, (j < 2 ^ (n - i - 1))%nat -> let x := Zmod.mul (toF (shift_at st i)) (fpow (toF (root_of (n - i))) j) in
    toF (nth j L 0) = peval (pinter bound Ev O) x /\
    toF (nth (j + 2 ^ (n - i - 1)) L 0) = peval (pinter bound Ev O) (Zmod.sub Zmod.zero x)) as Hpt.
  { intros j Hj. pose proof (fold_pointwise i L beta q j Hi Hj E) as P. pose proof (fold_pointwise i L beta' q' j Hi Hj E') as P'.
    cbv zeta in *. rewrite toF_point_at in P, P'. set (x := Zmod.mul (toF (shift_at st i)) _) in *.
    assert (x <> Zmod.zero) as Hx.
    { unfold x. rewrite <- toF_point_at, toF_zero_iff by apply mod_canonical.
      replace (n - i)%nat with (S (n - i - 1)) by lia.
      apply point_nonzero; [lia|apply shift_at_canonical|by apply (shift_at_nonzero st n k)]. }
    pose proof toF_inv_two as H2. set (a := toF (nth j L 0)) in *. set (b := toF (nth (j + 2 ^ (n - i - 1)) L 0)) in *.
    rewrite !peval_pinter by done. replace (Zmod.mul (Zmod.sub Zmod.zero x) (Zmod.sub Zmod.zero x)) with (Zmod.mul x x) by ring.
    unfold Ev, O. rewrite !peval_psub, !peval_pscale, !peval_psub, <- P, <- P'. unfold delta in *.
    assert (toF 2 = Zmod.add Zmod.one Zmod.one) as E2 by (rewrite <- toF_1, <- toF_add; reflexivity).
    rewrite E2 in *. split; field; done. }
  apply list_eq_same_length with (n := (2 ^ (n - i))%nat); [apply coset_values_length|by rewrite length_fmap|].
  intros j y z Hj Hy Hz. rewrite coset_values_lookup in Hz by done. apply (inj Some) in Hz as <-.
  rewrite list_lookup_fmap in Hy. destruct (L !! j) as [v|] eqn:Ev'; [|done]. apply (inj Some) in Hy as <-.
  rewrite <- (nth_lookup_Some _ _ 0 _ Ev').
  assert (2 ^ (n - i) = 2 ^ (n - i - 1) + 2 ^ (n - i - 1))%nat as Hpow.
  { replace (n - i)%nat with (S (n - i - 1)) at 1 by lia. simpl. lia. }
  destruct (decide (j < 2 ^ (n - i - 1))%nat) as [Hlt|Hge]; [by apply Hpt|].
  replace j with ((j - 2 ^ (n - i - 1)) + 2 ^ (n - i - 1))%nat by lia.
  destruct (Hpt (j - 2 ^ (n - i - 1))%nat ltac:(lia)) as [_ ->]. f_equal.
  assert (principal (S (n - i - 1)) (toF (root_of (n - i)))) as Hp.
  { replace (S (n - i - 1)) with (n - i)%nat by lia. apply root_of_principal. lia. }
  rewrite (principal_half _ _ _ Hp). ring.
Qed.
End theory.

(** ** The claims *)

(** [st] is a statement the constructor accepts. *)
Definition constructed (st : GoldilocksFriStatementReference) : Prop :=
  exists bd ds db sh qc abi fv, GoldilocksFriStatementReference_new bd ds db sh qc abi fv = Ok st.

Lemma constructed_valid st : constructed st -> exists n k, valid_statement st n k.
Proof. intros (?&?&?&?&?&?&?&E). by eapply statement_new_valid. Qed.

(** [folded] is the fold of layer [i] with the challenge of the transcript [cs]. *)
Definition round_fold `{Digest} (st : GoldilocksFriStatementReference) (cs : list bytes) (i : nat)
    (L folded : list Z) : Prop :=
  exists beta d, _derive_beta st (take (S i) cs) (Z.of_nat i) = Ok beta
    /\ _round_domain st (Z.of_nat i) = Ok d /\ _fold_layer L d beta = Ok folded.

(** The challenge [beta] hides that the table [L] of round [i] is not of low
    degree: its fold is. *)
Definition lucky_beta (st : GoldilocksFriStatementReference) (i : nat) (L : list Z) (beta : Z) : Prop :=
  exists d d' folded, _round_domain st (Z.of_nat i) = Ok d /\ _round_domain st (Z.of_nat (S i)) = Ok d'
    /\ _fold_layer L d beta = Ok folded
    /\ ~ low_degree d (degree_at st i) L /\ low_degree d' (degree_at st (S i)) folded.

Lemma fold_layer_beta L d beta folded :
  _fold_layer L d beta = Ok folded -> zlen L = dm_size d /\ canonical beta /\ beta <> 0.
Proof.
  unfold _fold_layer. destruct (Z.eqb_spec (zlen L) (dm_size d)); [|discriminate]. destruct (_ <? _); [discriminate|].
  cbn [negb orb]. intros E. apply bind_ok in E as (b&[[= <-] Hb]%canonical_goldilocks_ok&E).
  destruct (Z.eqb_spec beta 0); [discriminate|]. done.
Qed.

Section claims.
Context (st : GoldilocksFriStatementReference) (n k : nat) (Hst : valid_statement st n k).

Lemma fold_at i L beta : (i < k)%nat -> length L = (2 ^ (n - i))%nat -> canonical beta -> beta <> 0 ->
  _fold_layer L (domain_of (n - i) (shift_at st i)) beta = Ok (layer_fold (n - i - 1) (shift_at st i) beta L).
Proof.
  intros Hi Hl Hb H0. pose proof (vs_rate _ _ _ Hst). replace (n - i)%nat with (S (n - i - 1)) in * by lia.
  replace (S (n - i - 1) - 1)%nat with (n - i - 1)%nat by lia.
  apply fold_layer_ok; [lia|apply shift_at_canonical|by apply (shift_at_nonzero st n k)|done..].
Qed.

Lemma folds_to_round `{Digest} cs i L folded :
  (i < k)%nat -> is_layer n i L -> folds_to st n cs i L folded -> round_fold st cs i L folded.
Proof.
  intros Hi HL (beta&Hb&->). destruct (derive_beta_ok _ _ _ _ Hb) as [Hc H0].
  exists beta, (domain_of (n - i) (shift_at st i)). split; [done|]. split.
  - apply (round_domain_ok st n k); [done|lia].
  - apply fold_at; [done|apply HL|done..].
Qed.

(** Distinct bases, as many as there are, are all of them. *)
Lemma bases_cover `{Digest} cs qs b :
  _derive_query_bases st cs = Ok qs -> 2 * fs_query_count st = fs_domain_size st ->
  0 <= b < 2 ^ Z.of_nat (n - 1) -> b ∈ qs.
Proof.
  intros Hq Hall Hb. pose proof (vs_rate _ _ _ Hst) as Hr.
  destruct (query_bases_ok st n k Hst cs qs Hq) as ([_ Hin]&Hnd&Hz&_).
  rewrite (vs_domain _ _ _ Hst) in Hall. replace n with (S (n - 1)) in Hall by lia.
  rewrite Nat2Z.inj_succ, Z.pow_succ_r in Hall by lia.
  assert (seqZ 0 (2 ^ Z.of_nat (n - 1)) ⊆+ qs) as Hsub.
  { symmetry in Hz. unfold zlen in Hz. assert (qs ≡ₚ seqZ 0 (2 ^ Z.of_nat (n - 1))) as ->; [|done].
    apply submseteq_length_Permutation.
    - apply NoDup_submseteq; [done|]. intros q Hq'. rewrite Forall_forall in Hin. apply elem_of_seqZ.
      specialize (Hin q Hq'). simpl in Hin. lia.
    - rewrite length_seqZ. lia. }
  eapply elem_of_submseteq; [apply elem_of_seqZ|exact Hsub]. lia.
Qed.

(** Where the queries cover the domain, a layer is the fold of the one before. *)
Lemma covering_fold `{Digest} cs qs i L L' :
  (i < k)%nat -> _derive_query_bases st cs = Ok qs -> 2 * fs_query_count st = fs_domain_size st ->
  is_layer n (S i) L' -> queries_agree st n cs qs i L L' -> folds_to st n cs i L L'.
Proof.
  intros Hi Hq Hall [_ Hl] (folded&Hf&Hag). pose proof (vs_rate _ _ _ Hst) as Hr.
  assert (length folded = (2 ^ (n - i - 1))%nat) as Hlf by (destruct Hf as (?&_&->); apply layer_fold_length).
  replace (n - S i)%nat with (n - i - 1)%nat in Hl by lia.
  assert (L' = folded) as ->; [|done].
  apply list_eq_same_length with (n := (2 ^ (n - i - 1))%nat); [done..|].
  intros j x y Hj Hx Hy. pose proof (pow2_nat (n - i - 1)) as Hp.
  assert (2 ^ Z.of_nat (n - i - 1) <= 2 ^ Z.of_nat (n - 1)) by (apply Z.pow_le_mono_r; lia).
  specialize (Hag (Z.of_nat j) (bases_cover cs qs (Z.of_nat j) Hq Hall ltac:(lia))).
  unfold agree_at in Hag. rewrite Z.mod_small, Nat2Z.id in Hag by lia. congruence.
Qed.

(** A constant table has low degree. *)
Lemma constant_low_degree m s c : (m <= 16)%nat -> canonical s ->
  low_degree (domain_of m s) 1 (replicate (2 ^ m) c).
Proof.
  intros Hm Hs. eexists _, [toF c]. rewrite points_ok by (done || lia). split; [done|]. split; [simpl; lia|].
  apply Forall2_fmap_l, Forall2_same_length_lookup. rewrite length_seq, length_replicate. split; [done|].
  intros j i y _ [-> _]%lookup_replicate. unfold compose. simpl. ring.
Qed.

(** From a last layer of low degree back to the first, unless a challenge hides
    the degree of a layer. *)
Lemma low_degree_back `{Digest} cs layers :
  length layers = S k -> (forall i L, layers !! i = Some L -> is_layer n i L) ->
  (forall i, (i < k)%nat -> folds_to st n cs i (nth i layers []) (nth (S i) layers [])) ->
  low_degree (domain_of (n - k) (shift_at st k)) (degree_at st k) (nth k layers []) ->
  forall r, (r <= k)%nat ->
    low_degree (domain_of (n - (k - r)) (shift_at st (k - r))) (degree_at st (k - r)) (nth (k - r) layers [])
    \/ exists i L beta, layers !! i = Some L /\ _derive_beta st (take (S i) cs) (Z.of_nat i) = Ok beta
         /\ lucky_beta st i L beta.
Proof.
  intros Hlen Hlay Hf Hlast r. pose proof (vs_rate _ _ _ Hst) as Hr.
  induction r as [|r IH]; intros Hrk; [left; by rewrite Nat.sub_0_r|].
  destruct (IH ltac:(lia)) as [Hlow|]; [|by right]. set (i := (k - S r)%nat).
  replace (k - r)%nat with (S i) in Hlow by lia.
  destruct (lookup_lt_is_Some_2 layers i) as [L HL]; [lia|]. destruct (Hlay i L HL) as [Hc Hl].
  pose proof (Hf i ltac:(lia)) as (beta&Hb&Hfold). rewrite (nth_lookup_Some _ _ _ _ HL) in Hfold |- *.
  destruct (low_degree_decides st n k Hst i (degree_at st i) L) as [|Hnot]; [lia|done| |by left|].
  { rewrite (degree_at_pow2 st n k) by (done || lia). apply Nat.pow_le_mono_r; lia. }
  right. exists i, L, beta. split; [done|]. split; [done|]. destruct (derive_beta_ok _ _ _ _ Hb) as [Hcb H0].
  exists (domain_of (n - i) (shift_at st i)), (domain_of (n - S i) (shift_at st (S i))), (nth (S i) layers []).
  rewrite !(round_domain_ok st n k) by (done || lia). rewrite Hfold in Hlow |- *.
  split_and!; [done|done| |done|done]. apply fold_at; [lia|done..].
Qed.
End claims.
