(* ===== verification/FriClaims.v ===== *)
(** * The claims about the FRI test

    Completeness of the prover and the verifier, what the queries of an accepted
    proof show about the committed tables, the soundness of an audit whose
    queries cover the domain, and the bound on the challenges that defeat it. *)

From Stdlib Require Import ZArith Lia Zmod Field.
From stdpp Require Import base gmap list sets strings pretty sorting.
From coqutil Require Import Word.LittleEndianList.
From S2P Require Import Prelude Sha256 Field Merkle MerkleTheory MerkleBinding Poly Validate FoldSumcheck FoldSumcheckTheory Roots Radix2 Radix2Theory Transform NttTheory Fri FriLemmas FriFold FriTheory FriProofs FriSoundness.

Local Open Scope Z_scope.

(** The domain of the first layer. *)
Lemma source_domain st n k : valid_statement st n k ->
  goldilocks_radix2_domain_reference (PInt (fs_domain_size st)) (PInt (fs_domain_shift st))
  = Ok (domain_of n (fs_domain_shift st)).
Proof.
  intros Hst. pose proof (vs_rate _ _ _ Hst). pose proof (vs_shift _ _ _ Hst) as [? ?].
  rewrite (vs_domain _ _ _ Hst). apply domain_ok. exists n, (fs_domain_shift st). split_and!; done || lia.
Qed.

Section claims.
Context `{Digest} `{MultiopenBackend} `{!MultiopenLaws}.

(** C32 (Completeness).  For every statement the constructor accepts and every
    vector of field values that are, on the domain of the statement, the values
    of a polynomial within the degree bound, the prover returns a proof that the
    verifier accepts, or raises one of its two errors for a transcript from
    which no challenge or no query indices can be drawn. *)
Theorem fri_completeness st d v ev :
  constructed st -> goldilocks_radix2_domain_reference (PInt (fs_domain_size st)) (PInt (fs_domain_shift st)) = Ok d ->
  denotes_ints v ev -> Forall canonical ev -> low_degree d (Z.to_nat (fs_degree_bound st)) ev ->
  (exists proof, prove_goldilocks_fri_reference v (Some st) = Ok proof
     /\ verify_goldilocks_fri_reference (Some proof) (Some st) = Ok tt)
  \/ prove_goldilocks_fri_reference v (Some st)
     = raise ProofV3Error "unable to derive a canonical Goldilocks FRI beta"
  \/ prove_goldilocks_fri_reference v (Some st)
     = raise ProofV3Error "unable to derive distinct Goldilocks FRI query bases".
Proof.
  intros (n&k&Hst)%constructed_valid Hd Hv Hc Hlow. rewrite (source_domain st n k Hst) in Hd. injection Hd as <-.
  pose proof (low_degree_values st n k Hst 0) as Hvals. rewrite Nat.sub_0_r, (shift_at_0 st n k Hst) in Hvals.
  apply Hvals in Hlow as (p&Hp&E); [|lia]. rewrite (vs_degree _ _ _ Hst), pow2_to_nat in Hp.
  apply (prove_verifies st n k Hst v ev p); [done| |done|done].
  split; [done|]. apply (f_equal length) in E. rewrite length_fmap, coset_values_length in E. by rewrite Nat.sub_0_r.
Qed.

(** C15 (What the queries show).  When the verifier accepts a proof whose
    commitments are those of some tables, the number of tables is the number of
    rounds plus one, the last table is constant, and at every query each table
    agrees with the fold of the table before with the challenge of the
    transcript; or else two of the hashed inputs of one of the trees collide. *)
Theorem fri_queries_sound st proof trees layers :
  constructed st -> verify_goldilocks_fri_reference (Some proof) (Some st) = Ok tt -> well_formed_proof proof ->
  commits_to (fri_commitments proof) trees layers ->
  (exists qs, _derive_query_bases st (fri_commitments proof) = Ok qs
     /\ zlen layers = round_count st + 1
     /\ (exists c, last layers = Some (replicate (Z.to_nat (final_domain_size st)) c))
     /\ forall i L L', layers !! i = Some L -> layers !! S i = Some L' ->
          exists folded, round_fold st (fri_commitments proof) i L folded /\ length folded = length L'
            /\ forall q, q ∈ qs -> agree_at L' folded (q mod zlen L'))
  \/ exists T, T ∈ trees /\ second_preimage (inputs_of_tree T).
Proof.
  intros (n&k&Hst)%constructed_valid Hver Hwf Hcom. pose proof (vs_rate _ _ _ Hst) as Hr.
  destruct (verified_layers st n k Hst proof trees layers Hver Hwf Hcom) as [(qs&Hq&Hlen&Hlay&Hag&c&Hc)|]; [left|by right].
  exists qs. split; [done|]. split; [unfold zlen; rewrite (round_count_pow2 st n k) by done; lia|]. split.
  { exists c. rewrite (final_domain_pow2 st n k), pow2_to_nat, <- Hc by done.
    destruct (lookup_lt_is_Some_2 layers k) as [L HL]; [lia|].
    rewrite last_lookup, Hlen. cbn [pred]. by rewrite HL, (nth_lookup_Some _ _ _ _ HL). }
  intros i L L' HL HL'. pose proof (lookup_lt_Some _ _ _ HL') as Hi.
  destruct (Hag i ltac:(lia)) as (folded&Hf&Hqs). rewrite (nth_lookup_Some _ _ _ _ HL) in Hf.
  rewrite (nth_lookup_Some _ _ _ _ HL') in Hqs. destruct (Hlay _ _ HL') as [_ Hl'].
  replace (n - S i)%nat with (n - i - 1)%nat in Hl' by lia.
  exists folded. split; [apply (folds_to_round st n k Hst); [lia|by apply Hlay|done]|].
  split; [destruct Hf as (?&_&->); by rewrite layer_fold_length|].
  unfold zlen. by rewrite Hl', pow2_nat.
Qed.

(** C14 (Soundness of a covering audit).  When the number of queries is half the
    size of the domain, an accepted proof shows that the first committed table
    holds the values of a polynomial within the degree bound, unless the
    challenge of some round is one of the lucky ones for its table, or two of
    the hashed inputs of one of the trees collide. *)
Theorem fri_covering_audit_sound st proof trees layers :
  constructed st -> 2 * fs_query_count st = fs_domain_size st ->
  verify_goldilocks_fri_reference (Some proof) (Some st) = Ok tt -> well_formed_proof proof ->
  commits_to (fri_commitments proof) trees layers ->
  (exists L d, head layers = Some L
     /\ goldilocks_radix2_domain_reference (PInt (fs_domain_size st)) (PInt (fs_domain_shift st)) = Ok d
     /\ low_degree d (Z.to_nat (fs_degree_bound st)) L)
  \/ (exists i L beta, layers !! i = Some L
        /\ _derive_beta st (take (S i) (fri_commitments proof)) (Z.of_nat i) = Ok beta /\ lucky_beta st i L beta)
  \/ exists T, T ∈ trees /\ second_preimage (inputs_of_tree T).
Proof.
  intros (n&k&Hst)%constructed_valid Hall Hver Hwf Hcom. pose proof (vs_rate _ _ _ Hst) as Hr.
  destruct (verified_layers st n k Hst proof trees layers Hver Hwf Hcom) as [(qs&Hq&Hlen&Hlay&Hag&c&Hc)|]; [|by right; right].
  destruct (low_degree_back st n k Hst (fri_commitments proof) layers Hlen Hlay) with (r := k) as [Hlow|]; [..|lia| |by right; left].
  - intros i Hi. destruct (lookup_lt_is_Some_2 layers (S i)) as [L' HL']; [lia|].
    eapply covering_fold; [done|done|exact Hq|done| |by apply Hag].
    rewrite (nth_lookup_Some _ _ _ _ HL'). by apply Hlay.
  - rewrite Hc, (degree_at_pow2 st n k), Nat.sub_diag by (done || lia). apply constant_low_degree; [lia|apply shift_at_canonical].
  - left. rewrite Nat.sub_diag, Nat.sub_0_r, (shift_at_0 st n k Hst) in Hlow.
    destruct layers as [|L layers]; [done|]. exists L, (domain_of n (fs_domain_shift st)). split; [done|].
    split; [by apply (source_domain st n k)|exact Hlow].
Qed.
End claims.

(** C33 (Lucky challenges).  For every table and round at most one challenge hides
    that the table is not of low degree. *)
Theorem fri_lucky_bound st i L beta beta' :
  constructed st -> lucky_beta st i L beta -> lucky_beta st i L beta' -> beta = beta'.
Proof.
  intros (n&k&Hst)%constructed_valid (d&d1&F&Hd&Hd1&HF&Hnot&Hlow) (d'&d1'&F'&Hd'&Hd1'&HF'&_&Hlow').
  rewrite Hd in Hd'. injection Hd' as <-. rewrite Hd1 in Hd1'. injection Hd1' as <-.
  assert (S i <= k)%nat as Hi.
  { unfold _round_domain in Hd1. rewrite (round_count_pow2 st n k) in Hd1 by done.
    destruct (Z.ltb_spec (Z.of_nat k) (Z.of_nat (S i))); [|lia]. by rewrite orb_true_r in Hd1. }
  pose proof (vs_rate _ _ _ Hst) as Hr. rewrite (round_domain_ok st n k) in Hd, Hd1 by (done || lia).
  apply (inj Ok) in Hd as <-, Hd1 as <-.
  destruct (fold_layer_beta _ _ _ _ HF) as (Hz&Hb&H0), (fold_layer_beta _ _ _ _ HF') as (_&Hb'&H0').
  cbn [dm_size domain_of] in Hz. assert (length L = (2 ^ (n - i))%nat) as Hl.
  { unfold zlen in Hz. rewrite <- pow2_nat in Hz. lia. }
  rewrite (fold_at st n k Hst) in HF, HF' by done. apply (inj Ok) in HF as <-, HF' as <-.
  destruct (decide (toF beta = toF beta')) as [E|Hne]; [by apply toF_inj|]. exfalso. apply Hnot.
  rewrite (degree_at_pow2 st n k) in Hlow, Hlow' |- * by (done || lia).
  replace (2 ^ (k - i))%nat with (2 * 2 ^ (k - S i))%nat; [by apply (lucky_unique st n k Hst i L beta beta')|].
  rewrite <- Nat.pow_succ_r'. f_equal. lia.
Qed.

(** ** Witnesses

    A statement over a domain of eight points with four queries, which cover
    it, and the values of a polynomial with four coefficients. *)

#[local] Existing Instance checksum_digest.
#[local] Existing Instance no_compiler.

Definition sample_statement : GoldilocksFriStatementReference := MkFriStatement (replicate 32 Byte.x07) 8 4 3 4.

Lemma sample_constructed : constructed sample_statement.
Proof.
  exists (PBytes (replicate 32 Byte.x07)), (PInt 8), (PInt 4), (PInt 3), (PInt 4),
    GOLDILOCKS_FRI_REFERENCE_ABI_V3, (PInt 1).
  vm_compute. reflexivity.
Qed.

Definition sample_codeword : list Z :=
  Eval vm_compute in ok_or [] (ntt_goldilocks_reference (py_ints ([5; 7; 11; 13] ++ replicate 4 0)) (Some (domain_of 3 3))).

Definition no_fri_proof : GoldilocksFriProofReference :=
  MkFriProof [] [] (MkOpening [] 0 0 [] [] []).

Definition sample_proof : GoldilocksFriProofReference :=
  Eval vm_compute in ok_or no_fri_proof (prove_goldilocks_fri_reference (py_ints sample_codeword) (Some sample_statement)).

Lemma ntt_values m s cs vs :
  (m <= 16)%nat -> canonical s -> s <> 0 -> ntt_goldilocks_reference (py_ints cs) (Some (domain_of m s)) = Ok vs ->
  toF <$> vs = coset_values m (toF s) (toF (root_of m)) (toF <$> cs).
Proof. intros Hm Hs H0 (cs'&<-%denotes_py_ints&_&_&[_ Hv])%ntt_ok; done. Qed.

Lemma ntt_low_degree m s cs e vs :
  (m <= 16)%nat -> canonical s -> s <> 0 ->
  ntt_goldilocks_reference (py_ints (cs ++ replicate e 0)) (Some (domain_of m s)) = Ok vs ->
  low_degree (domain_of m s) (length cs) vs.
Proof.
  intros Hm Hs H0 (all&<-%denotes_py_ints&_&_&[_ Hv]%are_values_points)%ntt_ok; [|done..].
  eexists _, (toF <$> cs). rewrite points_ok by (done || lia). split; [done|]. split; [by rewrite length_fmap|].
  eapply Forall2_impl; [exact Hv|]. intros x y ->. rewrite fmap_app, fmap_replicate, toF_0. apply peval_zeros.
Qed.

Lemma sample_low_degree : low_degree (domain_of 3 3) 4 sample_codeword.
Proof.
  apply (ntt_low_degree 3 3 [5; 7; 11; 13] 4); [lia|done|done|]. vm_compute. reflexivity.
Qed.

Lemma fri_completeness_witness :
  (exists proof, prove_goldilocks_fri_reference (py_ints sample_codeword) (Some sample_statement) = Ok proof
     /\ verify_goldilocks_fri_reference (Some proof) (Some sample_statement) = Ok tt)
  \/ prove_goldilocks_fri_reference (py_ints sample_codeword) (Some sample_statement)
     = raise ProofV3Error "unable to derive a canonical Goldilocks FRI beta"
  \/ prove_goldilocks_fri_reference (py_ints sample_codeword) (Some sample_statement)
     = raise ProofV3Error "unable to derive distinct Goldilocks FRI query bases".
Proof.
  apply (fri_completeness sample_statement (domain_of 3 3) (py_ints sample_codeword) sample_codeword sample_constructed).
  - vm_compute. reflexivity.
  - by apply denotes_py_ints.
  - apply (bool_decide_eq_true_1 (Forall canonical sample_codeword)). vm_compute. reflexivity.
  - exact sample_low_degree.
Defined.

(** The tables and the trees of the sample proof. *)
Definition sample_fold (i : nat) (L : list Z) : list Z :=
  ok_or [] (beta ← _derive_beta sample_statement (take (S i) (fri_commitments sample_proof)) (Z.of_nat i);
            d ← _round_domain sample_statement (Z.of_nat i); _fold_layer L d beta).

Definition sample_layers : list (list Z) :=
  Eval vm_compute in let l1 := sample_fold 0 sample_codeword in [sample_codeword; l1; sample_fold 1 l1].

Definition sample_binding (i : nat) : pyval := PBytes (ok_or [] (_round_binding sample_statement (Z.of_nat i))).

Definition sample_trees : list GoldilocksMerkleTreeReference :=
  Eval vm_compute in imap (fun i L => ok_or no_tree (from_rows (py_rows (column_rows L)) (sample_binding i))) sample_layers.

Lemma sample_accepted : verify_goldilocks_fri_reference (Some sample_proof) (Some sample_statement) = Ok tt.
Proof. vm_compute. reflexivity. Qed.

#[local] Instance well_formed_proof_dec proof : Decision (well_formed_proof proof).
Proof. unfold well_formed_proof, well_formed_opening, canonical_row. apply _. Defined.

Lemma sample_well_formed : well_formed_proof sample_proof.
Proof.
  apply (bool_decide_eq_true_1 (well_formed_proof sample_proof)). vm_compute. reflexivity.
Qed.

Lemma sample_commits : commits_to (fri_commitments sample_proof) sample_trees sample_layers.
Proof.
  split; [vm_compute; reflexivity|].
  repeat (apply Forall2_cons; split); [exists (sample_binding 0)|exists (sample_binding 1)|exists (sample_binding 2)|done];
    vm_compute; reflexivity.
Qed.

Lemma fri_queries_sound_witness :
  (exists qs, _derive_query_bases sample_statement (fri_commitments sample_proof) = Ok qs
     /\ zlen sample_layers = round_count sample_statement + 1
     /\ (exists c, last sample_layers = Some (replicate (Z.to_nat (final_domain_size sample_statement)) c))
     /\ forall i L L', sample_layers !! i = Some L -> sample_layers !! S i = Some L' ->
          exists folded, round_fold sample_statement (fri_commitments sample_proof) i L folded /\ length folded = length L'
            /\ forall q, q ∈ qs -> agree_at L' folded (q mod zlen L'))
  \/ exists T, T ∈ sample_trees /\ second_preimage (inputs_of_tree T).
Proof.
  exact (fri_queries_sound sample_statement sample_proof sample_trees sample_layers sample_constructed
    sample_accepted sample_well_formed sample_commits).
Defined.

Lemma fri_covering_audit_sound_witness :
  (exists L d, head sample_layers = Some L /\ goldilocks_radix2_domain_reference (PInt 8) (PInt 3) = Ok d
     /\ low_degree d 4 L)
  \/ (exists i L beta, sample_layers !! i = Some L
        /\ _derive_beta sample_statement (take (S i) (fri_commitments sample_proof)) (Z.of_nat i) = Ok beta
        /\ lucky_beta sample_statement i L beta)
  \/ exists T, T ∈ sample_trees /\ second_preimage (inputs_of_tree T).
Proof.
  exact (fri_covering_audit_sound sample_statement sample_proof sample_trees sample_layers sample_constructed
    eq_refl sample_accepted sample_well_formed sample_commits).
Defined.

(** The values of [x^3 - x^2]: not of degree below two, but its fold with the
    challenge one is zero. *)
Definition small_statement : GoldilocksFriStatementReference := MkFriStatement (replicate 32 Byte.x07) 4 2 3 1.

Definition cubic_values : list Z :=
  ok_or [] (ntt_goldilocks_reference (py_ints [0; 0; GOLDILOCKS_MODULUS - 1; 1]) (Some (domain_of 2 3))).

Lemma cubic_values_ok :
  ntt_goldilocks_reference (py_ints [0; 0; GOLDILOCKS_MODULUS - 1; 1]) (Some (domain_of 2 3)) = Ok cubic_values.
Proof. vm_compute. reflexivity. Qed.

Lemma small_valid : valid_statement small_statement 2 1.
Proof. split; vm_compute; repeat split; try lia; discriminate. Qed.

Lemma cubic_is_lucky : lucky_beta small_statement 0 cubic_values 1.
Proof.
  exists (domain_of 2 3), (domain_of 1 9), [0; 0].
  split; [vm_compute; reflexivity|]. split; [vm_compute; reflexivity|]. split; [vm_compute; reflexivity|]. split.
  - intros (p&Hp&E)%(low_degree_values small_statement 2 1 small_valid 0); [|lia]. change (degree_at small_statement 0) with 2%nat in Hp.
    change (2 - 0)%nat with 2%nat in E. rewrite (shift_at_0 _ _ _ small_valid) in E.
    pose proof (ntt_values 2 3 [0; 0; GOLDILOCKS_MODULUS - 1; 1] cubic_values ltac:(lia) ltac:(done) ltac:(done)
      cubic_values_ok) as Hv.
    assert (p ++ replicate (4 - length p) Zmod.zero = toF <$> [0; 0; GOLDILOCKS_MODULUS - 1; 1]) as Ep.
    { apply (coset_values_inj 2 (toF 3) (toF (root_of 2))); [lia| | | |done|].
      - intros E3. apply toF_zero_iff in E3; [lia|by vm_compute].
      - apply root_of_principal. lia.
      - rewrite length_app, length_replicate. change (2 ^ 2)%nat with 4%nat. lia.
      - rewrite <- Hv. change (fs_domain_shift small_statement) with 3 in E. rewrite E. apply coset_values_ext. intros x. apply peval_zeros. }
    apply (f_equal (.!! 3%nat)) in Ep. rewrite lookup_app_r in Ep by lia. rewrite lookup_replicate_2 in Ep by lia.
    apply (inj Some) in Ep. symmetry in Ep. apply toF_zero_iff in Ep; [lia|by vm_compute].
  - apply (constant_low_degree 1 9 0); [lia|done].
Qed.

Lemma fri_lucky_bound_witness :
  constructed small_statement /\ lucky_beta small_statement 0 cubic_values 1 /\ (1 = 1).
Proof.
  assert (constructed small_statement) as Hc.
  { exists (PBytes (replicate 32 Byte.x07)), (PInt 4), (PInt 2), (PInt 3), (PInt 1),
      GOLDILOCKS_FRI_REFERENCE_ABI_V3, (PInt 1). vm_compute. reflexivity. }
  split; [exact Hc|]. split; [exact cubic_is_lucky|].
  exact (fri_lucky_bound small_statement 0 cubic_values 1 1 Hc cubic_is_lucky cubic_is_lucky).
Defined.
