(* ===== verification/ProductSumcheck.v ===== *)
(** * The product sumcheck ([verallm/proof_v3/goldilocks_product_sumcheck_reference.py])

    [sum_i A i * B i * F i] over two committed tables and a public factor:
    cubic round messages, two openings, and the same Fiat-Shamir transcript
    structure as the fold sumcheck. *)

From Stdlib Require Import ZArith Lia.
From stdpp Require Import base list strings pretty.
From S2P Require Import Prelude Sha256 Field Merkle Validate FoldSumcheck.

Local Open Scope Z_scope.

Module Product.
Definition MAX_GOLDILOCKS_PRODUCT_SUMCHECK_VARIABLES_V3 : Z := 20.
Definition _TRANSCRIPT_DOMAIN : bytes :=
  b_lit "VERATHOS/PROOF_V3/GOLDILOCKS_PRODUCT_SUMCHECK/V1/TRANSCRIPT/SHA256".
Definition _A_COMMIT_DOMAIN : bytes :=
  b_lit "VERATHOS/PROOF_V3/GOLDILOCKS_PRODUCT_SUMCHECK/V1/A_COMMIT/SHA256".
Definition _B_COMMIT_DOMAIN : bytes :=
  b_lit "VERATHOS/PROOF_V3/GOLDILOCKS_PRODUCT_SUMCHECK/V1/B_COMMIT/SHA256".

(** A tuple of four values. *)
Definition quad (A : Type) : Type := A * A * A * A.

Record GoldilocksProductSumcheckProofV3 := MkProductProof {
  pp_claimed_sum : Z;
  pp_round_polynomials : list (quad pyval);
  pp_a_full_opening : list pyval;
  pp_b_full_opening : list pyval;
}.

Definition round_quad (item : pyval) : option (quad pyval) :=
  match item with PTuple [a; b; c; d] => Some (a, b, c, d) | _ => None end.

Definition GoldilocksProductSumcheckProofV3_new (claimed_sum round_polynomials : pyval)
    (a_full_opening b_full_opening : list pyval) : res GoldilocksProductSumcheckProofV3 :=
  claimed_sum ← _field claimed_sum "claimed_sum";
  match round_polynomials with
  | PTuple items =>
      match mapM round_quad items with
      | Some rounds => Ok (MkProductProof claimed_sum rounds a_full_opening b_full_opening)
      | None => raise ProofV3Error "product-sumcheck round set is malformed"
      end
  | _ => raise ProofV3Error "product-sumcheck round set is malformed"
  end.

(** [(low + z * (high - low)) % p], multiplied over the three tables. *)
Definition round_term (lows highs : list Z) (z : Z) : Z :=
  fold_left (fun term p =>
      term * ((p.1 + z * (p.2 - p.1)) mod GOLDILOCKS_MODULUS) mod GOLDILOCKS_MODULUS)
    (zip lows highs) 1.

Definition round_step (g : quad Z) (p : (Z * Z) * (Z * Z) * (Z * Z)) : quad Z :=
  let '(g0, g1, g2, g3) := g in
  let '((a_lo, a_hi), (b_lo, b_hi), (f_lo, f_hi)) := p in
  let lows := [a_lo; b_lo; f_lo] in
  let highs := [a_hi; b_hi; f_hi] in
  ((g0 + round_term lows highs 0) mod GOLDILOCKS_MODULUS,
   (g1 + round_term lows highs 1) mod GOLDILOCKS_MODULUS,
   (g2 + round_term lows highs 2) mod GOLDILOCKS_MODULUS,
   (g3 + round_term lows highs 3) mod GOLDILOCKS_MODULUS).

Definition halves (values : list Z) : list (Z * Z) := zip (lo_half values) (hi_half values).

Definition round_evaluations (a_values b_values f_values : list Z) : quad Z :=
  fold_left round_step (zip (zip (halves a_values) (halves b_values)) (halves f_values)) (0, 0, 0, 0).

Definition points : list Z := [0; 1; 2; 3].

(** Numerator and denominator of the [i]-th Lagrange basis polynomial. *)
Definition basis (i : nat) (z : Z) : Z * Z :=
  fold_left (fun nd j =>
      if (i =? j)%nat then nd
      else (nd.1 * ((z - nth j points 0) mod GOLDILOCKS_MODULUS) mod GOLDILOCKS_MODULUS,
            nd.2 * ((nth i points 0 - nth j points 0) mod GOLDILOCKS_MODULUS) mod GOLDILOCKS_MODULUS))
    [0; 1; 2; 3]%nat (1, 1).

Definition _lagrange_eval_0123 (evaluations : quad Z) (z : Z) : Z :=
  let '(g0, g1, g2, g3) := evaluations in
  fold_left (fun result iv =>
      let '(numerator, denominator) := basis iv.1 z in
      (result + iv.2 * numerator mod GOLDILOCKS_MODULUS
                * py_pow denominator (GOLDILOCKS_MODULUS - 2) GOLDILOCKS_MODULUS)
      mod GOLDILOCKS_MODULUS)
    [(0%nat, g0); (1%nat, g1); (2%nat, g2); (3%nat, g3)] 0.

Definition claimed_sum_of (a_values b_values f_values : list Z) : Z :=
  fold_left (fun claimed p =>
      (claimed + p.1.1 * p.1.2 mod GOLDILOCKS_MODULUS * p.2) mod GOLDILOCKS_MODULUS)
    (zip (zip a_values b_values) f_values) 0.

Definition py_quad (g : quad Z) : pyval :=
  let '(g0, g1, g2, g3) := g in PTuple [PInt g0; PInt g1; PInt g2; PInt g3].

(** [tuple(_field(v, "round value") for v in evaluations)] *)
Definition field_quad (g : quad pyval) : res (quad Z) :=
  let '(v0, v1, v2, v3) := g in
  g0 ← _field v0 "round value"; g1 ← _field v1 "round value";
  g2 ← _field v2 "round value"; g3 ← _field v3 "round value";
  Ok (g0, g1, g2, g3).

Section product_sumcheck.
Context `{Digest}.

Definition _commit (statement_digest : pyval) (evaluations : list pyval) (domain : bytes)
    : res GoldilocksMerkleTreeReference :=
  let length := zlen evaluations in
  if bad_table_length length then
    raise ProofV3Error "product-sumcheck table must be a power of two"
  else if MAX_GOLDILOCKS_PRODUCT_SUMCHECK_VARIABLES_V3 <? bit_length length - 1 then
    raise ProofV3Error "product-sumcheck table exceeds the CPU cap"
  else
    digest ← _fixed32 statement_digest "statement_digest" true;
    values ← _fields evaluations "table value";
    from_rows (py_rows (column_rows values)) (PBytes (sha256 (domain ++ digest))).

Definition commit_goldilocks_product_sumcheck_a_v3 (statement_digest : pyval)
    (evaluations : list pyval) := _commit statement_digest evaluations _A_COMMIT_DOMAIN.
Definition commit_goldilocks_product_sumcheck_b_v3 (statement_digest : pyval)
    (evaluations : list pyval) := _commit statement_digest evaluations _B_COMMIT_DOMAIN.

Definition _factor_digest (factor : list pyval) : res bytes :=
  values ← _fields factor "factor value";
  Ok (sha256 (concat (pack_Q <$> values))).

Definition _seed (statement_digest a_commitment b_commitment validator_nonce : pyval)
    (factor : list pyval) (claimed_sum : Z) : res bytes :=
  sd ← _fixed32 statement_digest "statement_digest" true;
  ac ← _fixed32 a_commitment "a_commitment" false;
  bc ← _fixed32 b_commitment "b_commitment" false;
  vn ← _fixed32 validator_nonce "validator_nonce" false;
  fd ← _factor_digest factor;
  Ok (sha256 (_TRANSCRIPT_DOMAIN ++ sd ++ ac ++ bc ++ vn ++ fd ++ pack_Q claimed_sum)).

Definition absorb (transcript : bytes) (g : quad Z) : bytes :=
  let '(g0, g1, g2, g3) := g in
  sha256 (transcript ++ concat (pack_Q <$> [g0; g1; g2; g3])).

Fixpoint prove_rounds (fuel : nat) (transcript : bytes) (round_index : Z)
    (a_values b_values f_values : list Z) : res (list (quad Z)) :=
  if 1 <? zlen a_values then
    match fuel with
    | O => raise AssertionError "fuel"
    | S fuel =>
        let g := round_evaluations a_values b_values f_values in
        let transcript := absorb transcript g in
        challenge ← _challenge transcript round_index;
        rounds ← prove_rounds fuel transcript (round_index + 1) (_mle_fold a_values challenge)
                   (_mle_fold b_values challenge) (_mle_fold f_values challenge);
        Ok (g :: rounds)
    end
  else Ok [].

Definition prove_goldilocks_product_sumcheck_v3 (statement_digest : pyval)
    (a_tree b_tree : GoldilocksMerkleTreeReference)
    (a_evaluations b_evaluations factor : list pyval) (validator_nonce : pyval)
    : res GoldilocksProductSumcheckProofV3 :=
  if negb ((length a_evaluations =? length b_evaluations)%nat
           && (length b_evaluations =? length factor)%nat) then
    raise ProofV3Error "product-sumcheck table lengths mismatch"
  else
    a_values ← _fields a_evaluations "a value";
    b_values ← _fields b_evaluations "b value";
    f_values ← _fields factor "factor value";
    let claimed := claimed_sum_of a_values b_values f_values in
    seed ← _seed statement_digest (PBytes (mt_commitment a_tree)) (PBytes (mt_commitment b_tree))
             validator_nonce (PInt <$> f_values) claimed;
    rounds ← prove_rounds (length a_values) seed 1 a_values b_values f_values;
    a_opening ← mapR first_of_row (mt_rows a_tree);
    b_opening ← mapR first_of_row (mt_rows b_tree);
    GoldilocksProductSumcheckProofV3_new (PInt claimed) (PTuple (py_quad <$> rounds))
      (PInt <$> a_opening) (PInt <$> b_opening).

Fixpoint verify_rounds (transcript : bytes) (round_index running : Z)
    (rounds : list (quad pyval)) : res (Z * list Z) :=
  match rounds with
  | [] => Ok (running, [])
  | evaluations :: rounds =>
      values ← field_quad evaluations;
      let '(g0, g1, _, _) := values in
      if negb ((g0 + g1) mod GOLDILOCKS_MODULUS =? running) then
        raise ProofV3VerificationError "product-sumcheck round does not match the running sum"
      else
        let transcript := absorb transcript values in
        challenge ← _challenge transcript round_index;
        rest ← verify_rounds transcript (round_index + 1)
                 (_lagrange_eval_0123 values challenge) rounds;
        Ok (rest.1, challenge :: rest.2)
  end.

(** One pass of the loop over the two openings. *)
Definition check_opening (statement_digest : pyval) (length : Z) (name : string)
    (opening : list pyval) (commitment : pyval) (domain : bytes) : res unit :=
  if negb (zlen opening =? length) then
    raise ProofV3VerificationError ("product-sumcheck " +:+ name +:+ " opening length is wrong")
  else
    rebuilt ← _commit statement_digest opening domain;
    require (py_eq_bytes (mt_commitment rebuilt) commitment) ProofV3VerificationError
      ("product-sumcheck " +:+ name +:+ " opening does not match its root").

Definition verify_goldilocks_product_sumcheck_v3 (proof : option GoldilocksProductSumcheckProofV3)
    (statement_digest a_commitment b_commitment : pyval) (factor : list pyval)
    (validator_nonce expected_sum : pyval) : res unit :=
  reraise_as [ProofV3VerificationError]
    [IndexError; KeyError; TypeError; ValueError; ProofV3Error]
    ProofV3VerificationError "product-sumcheck proof is malformed"
    match proof with
    | None => raise ProofV3VerificationError "product-sumcheck proof type is unexpected"
    | Some proof =>
        f_values ← _fields factor "factor value";
        let length := zlen f_values in
        if bad_table_length length then
          raise ProofV3VerificationError "product-sumcheck factor length is invalid"
        else
          let variables := bit_length length - 1 in
          if negb (zlen (pp_round_polynomials proof) =? variables) then
            raise ProofV3VerificationError "product-sumcheck round count is wrong"
          else
            expected ← _field expected_sum "expected_sum";
            if negb (pp_claimed_sum proof =? expected) then
              raise ProofV3VerificationError
                "product-sumcheck claimed sum does not match the outer relation"
            else
              ac ← _fixed32 a_commitment "a_commitment" false;
              bc ← _fixed32 b_commitment "b_commitment" false;
              seed ← _seed statement_digest (PBytes ac) (PBytes bc) validator_nonce
                       (PInt <$> f_values) (pp_claimed_sum proof);
              rounds ← verify_rounds seed 1 (pp_claimed_sum proof) (pp_round_polynomials proof);
              check_opening statement_digest length "a" (pp_a_full_opening proof) a_commitment
                _A_COMMIT_DOMAIN ≫= fun _ =>
              check_opening statement_digest length "b" (pp_b_full_opening proof) b_commitment
                _B_COMMIT_DOMAIN ≫= fun _ =>
              a_values ← _fields (pp_a_full_opening proof) "a value";
              a_at ← _mle_eval a_values rounds.2;
              b_values ← _fields (pp_b_full_opening proof) "b value";
              b_at ← _mle_eval b_values rounds.2;
              f_at ← _mle_eval f_values rounds.2;
              require (rounds.1 =? a_at * b_at mod GOLDILOCKS_MODULUS * f_at mod GOLDILOCKS_MODULUS)
                ProofV3VerificationError
                "product-sumcheck final evaluation does not match the commitments"
    end.
End product_sumcheck.
End Product.
