(* ===== verification/ProductSumcheckTheory.v ===== *)
(** * Completeness and soundness of the product sumcheck *)

From Stdlib Require Import ZArith Lia Zmod Field.
From stdpp Require Import base list sets strings.
From coqutil Require Import Word.LittleEndianList.
From S2P Require Import Prelude Sha256 Field Merkle MerkleTheory MerkleBinding Poly Validate Sumcheck FoldSumcheck Tables FoldSumcheckTheory ProductSumcheck.

Import Product.
Local Open Scope Z_scope.

(** ** Interpolation at 0, 1, 2, 3 *)

Definition sixth : F := toF (py_pow 6 (GOLDILOCKS_MODULUS - 2) GOLDILOCKS_MODULUS).

Lemma sixth_spec : Zmod.mul (toF 6) sixth = Zmod.one.
Proof. unfold sixth. rewrite <- toF_mul, <- toF_1. apply toF_eq. vm_compute. reflexivity. Qed.

Definition interp3 (v : list F) (z : F) : F :=
  match v with
  | [a; b; c; d] =>
      (d * (z * (z - 1) * (z - toF 2)) * sixth - a * ((z - 1) * (z - toF 2) * (z - toF 3)) * sixth
       + b * (z * (z - toF 2) * (z - toF 3)) * half - c * (z * (z - 1) * (z - toF 3)) * half)%F
  | _ => Zmod.zero
  end.

Lemma toF_2 : toF 2 = (1 + 1)%F.
Proof. rewrite <- toF_1, <- toF_add. reflexivity. Qed.
Lemma toF_3 : toF 3 = (1 + 1 + 1)%F.
Proof. rewrite <- toF_1, <- !toF_add. reflexivity. Qed.
Lemma toF_6 : toF 6 = ((1 + 1) * (1 + 1 + 1))%F.
Proof. rewrite <- toF_3, <- toF_2, <- toF_mul. reflexivity. Qed.

#[export] Instance interp3_interpolation : Interpolation 3 interp3.
Proof.
  pose proof half_spec as Hh. pose proof sixth_spec as Hs.
  rewrite toF_2 in Hh. rewrite toF_6 in Hs.
  split; [reflexivity| |].
  - intros [|a [|b [|c [|d []]]]] Hl; try discriminate Hl.
    exists [(a * toF 6 * sixth)%F;
            (d * toF 2 * sixth - a * (toF 2 + toF 3 + toF 6) * sixth + b * toF 6 * half - c * toF 3 * half)%F;
            (a * toF 6 * sixth - d * toF 3 * sixth - b * (toF 2 + toF 3) * half + c * (1 + toF 3) * half)%F;
            ((d - a) * sixth + (b - c) * half)%F].
    split; [reflexivity|]. intros x. cbn [interp3 peval]. rewrite toF_6, toF_3, toF_2. ring.
  - intros [|a [|b [|c [|d []]]]] i x Hl Hi; try discriminate Hl.
    assert (pt 2 = toF 2) as Hp2 by reflexivity. assert (pt 3 = toF 3) as Hp3 by reflexivity.
    destruct i as [|[|[|[|]]]]; cbn in Hi; try discriminate Hi; apply (inj Some) in Hi as <-;
      cbn [interp3]; rewrite ?pt_0, ?pt_1, ?Hp2, ?Hp3, toF_3, toF_2; ring [Hh Hs].
Qed.

Definition msg3 (g : quad Z) : list F :=
  let '(g0, g1, g2, g3) := g in [toF g0; toF g1; toF g2; toF g3].

Lemma basis_inverses z :
  toF (py_pow (basis 0 z).2 (GOLDILOCKS_MODULUS - 2) GOLDILOCKS_MODULUS) = (0 - sixth)%F
  /\ toF (py_pow (basis 1 z).2 (GOLDILOCKS_MODULUS - 2) GOLDILOCKS_MODULUS) = half
  /\ toF (py_pow (basis 2 z).2 (GOLDILOCKS_MODULUS - 2) GOLDILOCKS_MODULUS) = (0 - half)%F
  /\ toF (py_pow (basis 3 z).2 (GOLDILOCKS_MODULUS - 2) GOLDILOCKS_MODULUS) = sixth.
Proof.
  unfold sixth, half. rewrite <- toF_0, <- !toF_sub, !toF_eq.
  split_and!; vm_compute; reflexivity.
Qed.

Lemma basis_numerators z :
  toF (basis 0 z).1 = ((toF z - 1) * (toF z - toF 2) * (toF z - toF 3))%F
  /\ toF (basis 1 z).1 = (toF z * (toF z - toF 2) * (toF z - toF 3))%F
  /\ toF (basis 2 z).1 = (toF z * (toF z - 1) * (toF z - toF 3))%F
  /\ toF (basis 3 z).1 = (toF z * (toF z - 1) * (toF z - toF 2))%F.
Proof.
  unfold basis, points. cbn [fold_left Nat.eqb fst snd nth]. autorewrite with toF.
  rewrite toF_0, toF_1. split_and!; ring.
Qed.

Lemma lagrange_0123_interp g z : toF (_lagrange_eval_0123 g z) = interp3 (msg3 g) (toF z).
Proof.
  destruct g as [[[g0 g1] g2] g3].
  pose proof (basis_inverses z) as (I0&I1&I2&I3). pose proof (basis_numerators z) as (N0&N1&N2&N3).
  unfold _lagrange_eval_0123, msg3, interp3. cbn [fold_left fst snd].
  destruct (basis 0 z) as [n0 d0], (basis 1 z) as [n1 d1], (basis 2 z) as [n2 d2], (basis 3 z) as [n3 d3].
  cbn [fst snd] in *. autorewrite with toF. rewrite I0, I1, I2, I3, N0, N1, N2, N3, toF_0. ring.
Qed.

Lemma lagrange_0123_canonical g z : canonical (_lagrange_eval_0123 g z).
Proof.
  destruct g as [[[g0 g1] g2] g3]. unfold _lagrange_eval_0123. cbn [fold_left fst snd].
  destruct (basis 3 z). apply mod_canonical.
Qed.

(** ** One round *)

Definition cell : Type := (Z * Z) * (Z * Z) * (Z * Z).
Definition cell_at (z : F) (p : cell) : F :=
  (lerp z (toF p.1.1.1) (toF p.1.1.2) * lerp z (toF p.1.2.1) (toF p.1.2.2)
   * lerp z (toF p.2.1) (toF p.2.2))%F.

Lemma round_term_cell (p : cell) z :
  toF (round_term [p.1.1.1; p.1.2.1; p.2.1] [p.1.1.2; p.1.2.2; p.2.2] z) = cell_at (toF z) p.
Proof.
  unfold round_term, cell_at, lerp. cbn [zip_with fold_left fst snd]. autorewrite with toF.
  rewrite toF_1. ring.
Qed.

Lemma round_step_sum3 (l : list cell) g0 g1 g2 g3 :
  exists h0 h1 h2 h3, fold_left round_step l (g0, g1, g2, g3) = (h0, h1, h2, h3)
    /\ toF h0 = Zmod.add (toF g0) (fsum (cell_at (toF 0) <$> l))
    /\ toF h1 = Zmod.add (toF g1) (fsum (cell_at (toF 1) <$> l))
    /\ toF h2 = Zmod.add (toF g2) (fsum (cell_at (toF 2) <$> l))
    /\ toF h3 = Zmod.add (toF g3) (fsum (cell_at (toF 3) <$> l)).
Proof.
  revert g0 g1 g2 g3. induction l as [|p l IH]; intros g0 g1 g2 g3.
  { exists g0, g1, g2, g3. cbn [fmap list_fmap fsum foldr]. split_and!; [reflexivity|ring..]. }
  cbn [fold_left]. pose proof (round_term_cell p 0) as C0. pose proof (round_term_cell p 1) as C1.
  pose proof (round_term_cell p 2) as C2. pose proof (round_term_cell p 3) as C3.
  destruct p as [[[a_lo a_hi] [b_lo b_hi]] [f_lo f_hi]]. cbn [fst snd] in *. cbn [round_step].
  match goal with |- context [fold_left round_step l (?a, ?b, ?c, ?d)] =>
    destruct (IH a b c d) as (h0&h1&h2&h3&->&E0&E1&E2&E3) end.
  exists h0, h1, h2, h3. split; [reflexivity|].
  rewrite E0, E1, E2, E3, !toF_mod, !toF_add, C0, C1, C2, C3.
  cbn [fmap list_fmap fsum foldr]. change (list_fmap _ _ ?f l) with (f <$> l).
  unfold fsum. split_and!; ring.
Qed.

Definition canonical_quad (g : quad Z) : Prop :=
  let '(g0, g1, g2, g3) := g in canonical g0 /\ canonical g1 /\ canonical g2 /\ canonical g3.

Lemma round_evaluations_canonical3 a b f : canonical_quad (round_evaluations a b f).
Proof.
  unfold round_evaluations.
  assert (canonical_quad (0, 0, 0, 0)) as H0 by (pose proof modulus_pos; repeat split; done).
  revert H0. generalize (0, 0, 0, 0) as g.
  induction (zip (zip (halves a) (halves b)) (halves f)) as [|[[[? ?] [? ?]] [? ?]] l IH]; intros g Hg; [done|].
  cbn [fold_left]. apply IH. destruct g as [[[? ?] ?] ?]. cbn. auto with vrt.
Qed.

Definition cell_of (m : nat) (a b f : list Z) (i : nat) : cell :=
  ((nth i a 0, nth (m + i) a 0), (nth i b 0, nth (m + i) b 0), (nth i f 0, nth (m + i) f 0)).

Lemma honest_sample3 m a b f z :
  length a = (2 * m)%nat -> length b = (2 * m)%nat -> length f = (2 * m)%nat ->
  total (fold_columns (toF z) (columns_of (2 * m) [a; b; f]))
  = fsum (cell_at (toF z) <$> (cell_of m a b f <$> seq 0 m)).
Proof.
  intros Ha Hb Hf. rewrite columns_fold by by repeat constructor. rewrite total_columns. f_equal.
  rewrite <- list_fmap_compose. apply list_fmap_ext. intros j i [-> Hi]%lookup_seq.
  cbn [fmap list_fmap column_at fprod foldr].
  rewrite (toF_mle_fold_nth a z m), (toF_mle_fold_nth b z m), (toF_mle_fold_nth f z m) by (done || lia).
  unfold compose, cell_at, cell_of. cbn [fst snd]. ring.
Qed.

Lemma round_evaluations_honest3 m a b f :
  length a = (2 * m)%nat -> length b = (2 * m)%nat -> length f = (2 * m)%nat ->
  msg3 (round_evaluations a b f) = honest 3 (columns_of (2 * m) [a; b; f]).
Proof.
  intros Ha Hb Hf. unfold round_evaluations, halves.
  assert (zip (zip (zip (lo_half a) (hi_half a)) (zip (lo_half b) (hi_half b)))
    (zip (lo_half f) (hi_half f)) = cell_of m a b f <$> seq 0 m) as ->.
  { rewrite (halves_zip a m), (halves_zip b m), (halves_zip f m), !zip_fmap_seq by done. reflexivity. }
  destruct (round_step_sum3 (cell_of m a b f <$> seq 0 m) 0 0 0 0) as (h0&h1&h2&h3&->&E0&E1&E2&E3).
  unfold msg3, honest, samples. cbn [seq]. cbn [fmap list_fmap].
  change (pt 0) with (toF 0). change (pt 1) with (toF 1). change (pt 2) with (toF 2).
  change (pt 3) with (toF 3). rewrite !honest_sample3 by done.
  rewrite E0, E1, E2, E3, toF_0, !F_add_0_l. reflexivity.
Qed.

Definition triple_product (a b f : list Z) : Z :=
  foldr Z.add 0 (zip_with Z.mul (zip_with Z.mul a b) f).

Lemma triple_product_total a b f n :
  length a = n -> length b = n -> length f = n ->
  total (columns_of n [a; b; f]) = toF (triple_product a b f).
Proof.
  intros Ha Hb Hf. rewrite total_columns. unfold triple_product.
  revert b f n Ha Hb Hf. induction a as [|x a IH]; intros [|y b] [|z f] n Ha Hb Hf; subst n; try done.
  cbn [length seq fmap list_fmap column_at fprod fsum foldr zip_with].
  rewrite toF_add, !toF_mul. simpl in Hb, Hf.
  rewrite <- (IH b f (length a)) by (done || lia). rewrite <- fmap_S_seq.
  change (list_fmap nat F ?g ?l) with (g <$> l). rewrite <- list_fmap_compose. cbn [nth].
  unfold fsum. ring_simplify. f_equal.
Qed.

Lemma toF_fold_sum_mod {A} (g : A -> Z) l a :
  toF (fold_left (fun acc p => (acc + g p) mod GOLDILOCKS_MODULUS) l a)
  = Zmod.add (toF a) (fsum ((fun p => toF (g p)) <$> l)).
Proof.
  revert a. induction l as [|p l IH]; intros a; cbn [fold_left fmap list_fmap fsum foldr]; [ring|].
  rewrite IH, toF_mod, toF_add. change (list_fmap _ _ ?f l) with (f <$> l). unfold fsum. ring.
Qed.

Lemma claimed_triple a b f :
  length b = length a -> length f = length a ->
  claimed_sum_of a b f = triple_product a b f mod GOLDILOCKS_MODULUS.
Proof.
  intros Hb Hf. apply toF_inj; [|apply mod_canonical|].
  - unfold claimed_sum_of. assert (canonical 0) as H0 by (split; [done|apply modulus_pos]).
    revert H0. generalize 0 as s. induction (zip (zip a b) f) as [|p l IH]; intros s Hs; [done|].
    cbn [fold_left]. apply IH, mod_canonical.
  - rewrite toF_mod, <- (triple_product_total a b f (length a)) by done.
    unfold claimed_sum_of.
    rewrite (toF_fold_sum_mod (fun p => p.1.1 * p.1.2 mod GOLDILOCKS_MODULUS * p.2)), toF_0, F_add_0_l.
    rewrite total_columns. f_equal.
    rewrite (list_nth_seq a), (list_nth_seq b), (list_nth_seq f) at 1. rewrite Hb, Hf, !zip_fmap_seq.
    rewrite <- list_fmap_compose. apply list_fmap_ext. intros _ i _.
    unfold compose. cbn [fst snd column_at fmap list_fmap fprod foldr]. autorewrite with toF. ring.
Qed.

Lemma final_total3 point a b f va vb vf :
  length a = (2 ^ length point)%nat -> length b = (2 ^ length point)%nat ->
  length f = (2 ^ length point)%nat -> Forall canonical a -> Forall canonical b -> Forall canonical f ->
  _mle_eval a point = Ok va -> _mle_eval b point = Ok vb -> _mle_eval f point = Ok vf ->
  toF (va * vb mod GOLDILOCKS_MODULUS * vf mod GOLDILOCKS_MODULUS)
  = total (fold_all (toF <$> point) (columns_of (2 ^ length point) [a; b; f])).
Proof.
  intros Ha Hb Hf Hca Hcb Hcf Ea Eb Ef.
  destruct (mle_eval_ok a point Ha Hca) as (a'&Ea'&_&->).
  destruct (mle_eval_ok b point Hb Hcb) as (b'&Eb'&_&->).
  destruct (mle_eval_ok f point Hf Hcf) as (f'&Ef'&_&->).
  rewrite Ea in Ea'. rewrite Eb in Eb'. rewrite Ef in Ef'.
  apply (inj Ok) in Ea' as ->, Eb' as ->, Ef' as ->.
  rewrite columns_fold_all by by repeat constructor. rewrite total_columns.
  cbn [seq fmap list_fmap column_at fprod fsum foldr]. autorewrite with toF. ring.
Qed.

Lemma field_quad_ok q g : field_quad q = Ok g <->
  canonical_quad g /\ q = (let '(g0, g1, g2, g3) := g in (PInt g0, PInt g1, PInt g2, PInt g3)).
Proof.
  destruct q as [[[v0 v1] v2] v3], g as [[[g0 g1] g2] g3]. unfold field_quad, canonical_quad. split.
  - intros Hq. apply bind_ok in Hq as (?&[-> ?]%field_ok&Hq). apply bind_ok in Hq as (?&[-> ?]%field_ok&Hq).
    apply bind_ok in Hq as (?&[-> ?]%field_ok&Hq). apply bind_ok in Hq as (?&[-> ?]%field_ok&Hq).
    apply (inj Ok) in Hq. injection Hq as <- <- <- <-. done.
  - intros [(?&?&?&?) [= -> -> -> ->]]. rewrite !field_int by done. reflexivity.
Qed.

Definition py_ints4 (g : quad Z) : quad pyval :=
  let '(g0, g1, g2, g3) := g in (PInt g0, PInt g1, PInt g2, PInt g3).

Section theory.
Context `{Digest}.

Lemma verify_rounds_run3 tr i claim rounds final point :
  canonical claim -> Product.verify_rounds tr i claim rounds = Ok (final, point) ->
  exists gs, rounds = py_ints4 <$> gs
  /\ run interp3 (toF claim) (msg3 <$> gs) (toF <$> point) = Some (toF final)
  /\ length point = length rounds /\ canonical final.
Proof.
  revert tr i claim final point. induction rounds as [|q rounds IH];
    intros tr i claim final point Hc Hv; cbn [Product.verify_rounds] in Hv.
  { apply (inj Ok) in Hv. injection Hv as <- <-. by exists []. }
  apply bind_ok in Hv as (g&[Hg Hq]%field_quad_ok&Hv). destruct g as [[[g0 g1] g2] g3].
  destruct (Z.eqb_spec ((g0 + g1) mod GOLDILOCKS_MODULUS) claim) as [Hclaim|]; cbn [negb] in Hv; [|discriminate].
  apply bind_ok in Hv as (c&Hch&Hv). apply bind_ok in Hv as ([fin rest]&Hrest&Hv).
  apply (inj Ok) in Hv. injection Hv as <- <-. cbn [fst snd] in *.
  apply IH in Hrest as (gs&->&Hrun&Hlen&Hfin); [|apply lagrange_0123_canonical].
  exists ((g0, g1, g2, g3) :: gs). rewrite Hq.
  split_and!; [done| |cbn [length]; by f_equal|done]. cbn [fmap list_fmap run].
  rewrite decide_True.
  2:{ rewrite <- Hclaim, toF_mod, toF_add. done. }
  by rewrite <- lagrange_0123_interp.
Qed.

Lemma prove_rounds_complete3 k fuel tr i a b f claim :
  length a = (2 ^ k)%nat -> length b = (2 ^ k)%nat -> length f = (2 ^ k)%nat -> (k <= fuel)%nat ->
  canonical claim -> toF claim = total (columns_of (2 ^ k) [a; b; f]) ->
  Product.prove_rounds fuel tr i a b f
    = raise ProofV3Error "unable to derive a fold-sumcheck challenge"
  \/ exists rounds final point, Product.prove_rounds fuel tr i a b f = Ok rounds
       /\ Product.verify_rounds tr i claim (py_ints4 <$> rounds) = Ok (final, point)
       /\ length rounds = k /\ length point = k /\ canonical final
       /\ toF final = total (fold_all (toF <$> point) (columns_of (2 ^ k) [a; b; f])).
Proof.
  revert fuel tr i a b f claim. induction k as [|k IH]; intros fuel tr i a b f claim Ha Hb Hf Hfuel Hc Ht.
  { right. exists [], claim, []. split; [|done].
    destruct fuel; unfold Product.prove_rounds, zlen; by rewrite Ha. }
  destruct fuel as [|fuel]; [lia|]. unfold Product.prove_rounds; fold Product.prove_rounds.
  assert (0 < 2 ^ k)%nat as Hpos by (apply Nat.neq_0_lt_0, Nat.pow_nonzero; done).
  assert (2 ^ S k = 2 * 2 ^ k)%nat as Hpow by done. rewrite Hpow in *.
  rewrite (proj2 (Z.ltb_lt 1 (zlen a))) by (unfold zlen; lia).
  set (g := round_evaluations a b f). cbv zeta. set (tr' := Product.absorb tr g).
  pose proof (round_evaluations_honest3 (2 ^ k) a b f Ha Hb Hf) as Hg. fold g in Hg.
  destruct (challenge_cases tr' i) as [(c&Ec&Hcc)|Ec]; rewrite Ec; [|by left]. cbn [mbind res_bind].
  assert (width 3 (columns_of (2 * 2 ^ k) [a; b; f])) as Hw by exact (columns_of_width _ [a; b; f]).
  assert (toF (_lagrange_eval_0123 g c)
    = total (columns_of (2 ^ k) [_mle_fold a c; _mle_fold b c; _mle_fold f c])) as Hnext.
  { rewrite lagrange_0123_interp, Hg, (interp_honest 3 interp3) by done.
    by rewrite columns_fold by by repeat constructor. }
  destruct (IH fuel tr' (i + 1) (_mle_fold a c) (_mle_fold b c) (_mle_fold f c)
    (_lagrange_eval_0123 g c) (mle_fold_length a c _ Ha) (mle_fold_length b c _ Hb)
    (mle_fold_length f c _ Hf) ltac:(lia) (lagrange_0123_canonical g c) Hnext)
    as [E|(rounds&final&point&E&Ev&Hlr&Hlp&Hcf&Hfin)].
  { left. by rewrite E. }
  right. rewrite E. cbn [mbind res_bind]. exists (g :: rounds), final, (c :: point).
  pose proof (round_evaluations_canonical3 a b f) as Hgc. fold g in Hgc.
  split_and!; [done| |by rewrite <- Hlr|by rewrite <- Hlp|done|].
  - pose proof (at01_honest 3 interp3 (2 ^ k)%nat (columns_of (2 * 2 ^ k) [a; b; f]) ltac:(lia) Hw
      (columns_of_length _ _)) as H01.
    rewrite <- Hg, <- Ht in H01. cbn [fmap list_fmap Product.verify_rounds].
    rewrite (proj2 (field_quad_ok (py_ints4 g) g)) by (split; [done|reflexivity]).
    cbn [mbind res_bind]. destruct g as [[[g0 g1] g2] g3] eqn:Eg. cbn [msg3 at01] in H01.
    assert ((g0 + g1) mod GOLDILOCKS_MODULUS = claim) as ->.
    { to_field. by rewrite <- H01. }
    rewrite Z.eqb_refl. cbn [negb]. cbv zeta. fold tr'. rewrite Ec. cbn [mbind res_bind].
    change (list_fmap _ _ py_ints4 rounds) with (py_ints4 <$> rounds). by rewrite Ev.
  - change (fold_all (toF <$> c :: point) ?x) with (fold_all (toF <$> point) (fold_columns (toF c) x)).
    by rewrite columns_fold by by repeat constructor.
Qed.

(** ** Commitments *)

Lemma product_commit_ok sd vs domain T :
  _commit sd vs domain = Ok T <->
  exists xs d (k : nat), vs = PInt <$> xs /\ Forall canonical xs /\ length xs = (2 ^ k)%nat
    /\ (1 <= k <= 20)%nat /\ sd = PBytes d /\ bytes32 d /\ d <> _ZERO32
    /\ from_rows (py_rows (column_rows xs)) (PBytes (sha256 (domain ++ d))) = Ok T.
Proof.
  unfold _commit. cbv zeta. split.
  - intros Hc. destruct (bad_table_length (zlen vs)) eqn:Hb; [discriminate|].
    apply table_length_ok in Hb as (k&Hk&Hz).
    destruct (Z.ltb_spec MAX_GOLDILOCKS_PRODUCT_SUMCHECK_VARIABLES_V3 (bit_length (zlen vs) - 1)) as [|Hcap]; [discriminate|].
    apply bind_ok in Hc as (d&(->&Hd&Hnz)%fixed32_ok&Hc).
    apply bind_ok in Hc as (xs&[-> Hxs]%fields_ok&Hc).
    rewrite Hz, variables_pow2 in Hcap. rewrite zlen_fmap in Hz.
    exists xs, d, k. split_and!; try done.
    + apply Nat2Z.inj. by rewrite Nat2Z.inj_pow.
    + unfold MAX_GOLDILOCKS_PRODUCT_SUMCHECK_VARIABLES_V3 in Hcap. lia.
    + by apply Hnz.
  - intros (xs&d&k&->&Hc&Hl&Hk&->&Hd&Hnz&HT).
    assert (zlen (PInt <$> xs) = 2 ^ Z.of_nat k) as Hz.
    { rewrite zlen_fmap. unfold zlen. by rewrite Hl, Nat2Z.inj_pow. }
    rewrite Hz, variables_pow2, (proj2 (table_length_ok _)) by (exists k; split; [lia|done]).
    rewrite (proj2 (Z.ltb_ge _ _)) by (unfold MAX_GOLDILOCKS_PRODUCT_SUMCHECK_VARIABLES_V3; lia).
    rewrite (proj2 (fixed32_ok _ _ _ d) (conj eq_refl (conj Hd (fun _ => Hnz)))). cbn [mbind res_bind].
    by rewrite fields_int.
Qed.

Lemma check_opening_ok sd n name vs c domain :
  check_opening sd n name vs c domain = Ok tt <->
  zlen vs = n /\ exists T, _commit sd vs domain = Ok T /\ c = PBytes (mt_commitment T).
Proof.
  unfold check_opening. destruct (Z.eqb_spec (zlen vs) n) as [|Hne]; cbn [negb].
  - rewrite bind_ok. setoid_rewrite require_ok. setoid_rewrite py_eq_bytes_spec. naive_solver.
  - split; [discriminate|]. by intros [? _].
Qed.

Lemma verify_product_ok pf sd ac bc factor nonce expected :
  verify_goldilocks_product_sumcheck_v3 (Some pf) sd ac bc factor nonce expected = Ok tt ->
  exists fs a b TA TB seed final point va vb vf,
    factor = PInt <$> fs /\ Forall canonical fs
    /\ pp_a_full_opening pf = PInt <$> a /\ pp_b_full_opening pf = PInt <$> b
    /\ Forall canonical a /\ Forall canonical b
    /\ length a = length fs /\ length b = length fs
    /\ length fs = (2 ^ length (pp_round_polynomials pf))%nat
    /\ expected = PInt (pp_claimed_sum pf) /\ canonical (pp_claimed_sum pf)
    /\ _commit sd (PInt <$> a) _A_COMMIT_DOMAIN = Ok TA /\ ac = PBytes (mt_commitment TA)
    /\ _commit sd (PInt <$> b) _B_COMMIT_DOMAIN = Ok TB /\ bc = PBytes (mt_commitment TB)
    /\ _seed sd ac bc nonce factor (pp_claimed_sum pf) = Ok seed
    /\ Product.verify_rounds seed 1 (pp_claimed_sum pf) (pp_round_polynomials pf) = Ok (final, point)
    /\ _mle_eval a point = Ok va /\ _mle_eval b point = Ok vb /\ _mle_eval fs point = Ok vf
    /\ final = va * vb mod GOLDILOCKS_MODULUS * vf mod GOLDILOCKS_MODULUS.
Proof.
  unfold verify_goldilocks_product_sumcheck_v3. rewrite reraise_as_ok. cbv zeta. intros Hv.
  apply bind_ok in Hv as (fs&[-> Hcf]%fields_ok&Hv).
  destruct (bad_table_length (zlen fs)) eqn:Hb; [discriminate|].
  apply table_length_ok in Hb as (k&Hk&Hz). rewrite Hz, variables_pow2 in Hv.
  destruct (Z.eqb_spec (zlen (pp_round_polynomials pf)) (Z.of_nat k)) as [Hr|]; [|discriminate].
  cbn [negb] in Hv. apply bind_ok in Hv as (e&[-> He]%field_ok&Hv).
  destruct (Z.eqb_spec (pp_claimed_sum pf) e) as [<-|]; [|discriminate]. cbn [negb] in Hv.
  apply bind_ok in Hv as (ca&(->&_&_)%fixed32_ok&Hv). apply bind_ok in Hv as (cb&(->&_&_)%fixed32_ok&Hv).
  apply bind_ok in Hv as (seed&Hseed&Hv).
  apply bind_ok in Hv as ([final point]&Hrounds&Hv). cbn [fst snd] in Hv.
  apply bind_ok in Hv as ([]&(Hla&TA&HTA&HcA)%check_opening_ok&Hv).
  apply bind_ok in Hv as ([]&(Hlb&TB&HTB&HcB)%check_opening_ok&Hv).
  apply bind_ok in Hv as (a&[Ha Hca]%fields_ok&Hv). apply bind_ok in Hv as (va&Hva&Hv).
  apply bind_ok in Hv as (b&[Hb Hcb]%fields_ok&Hv). apply bind_ok in Hv as (vb&Hvb&Hv).
  apply bind_ok in Hv as (vf&Hvf&Hv). apply require_ok in Hv as ->%Z.eqb_eq.
  assert (length (pp_round_polynomials pf) = k) as Hrk by (unfold zlen in Hr; lia).
  rewrite Ha in *. rewrite Hb in *. rewrite zlen_fmap in Hla, Hlb. unfold zlen in Hz, Hla, Hlb.
  exists fs, a, b, TA, TB, seed, (va * vb mod GOLDILOCKS_MODULUS * vf mod GOLDILOCKS_MODULUS), point, va, vb, vf.
  rewrite Hrk. split_and!; try done; try lia.
  apply Nat2Z.inj. by rewrite Nat2Z.inj_pow.
Qed.
End theory.

(** C11 (product sumcheck soundness).  Let [TA] and [TB] commit to [a] and [b].
    If the verifier accepts, the confirmed sum is the sum of the products
    [a i * b i * f i], or one of its challenges is a point where the prover's
    round message and the honest one, two different cubics, meet, or one of the
    two openings collides with the hashes of its tree. *)
Theorem product_sumcheck_sound `{Digest} sd a b TA TB pf factor nonce expected :
  commit_goldilocks_product_sumcheck_a_v3 sd (PInt <$> a) = Ok TA ->
  commit_goldilocks_product_sumcheck_b_v3 sd (PInt <$> b) = Ok TB ->
  verify_goldilocks_product_sumcheck_v3 (Some pf) sd (PBytes (mt_commitment TA))
    (PBytes (mt_commitment TB)) factor nonce expected = Ok tt ->
  exists fs, factor = PInt <$> fs /\
    ((length a = length fs /\ length b = length fs
      /\ expected = PInt (triple_product a b fs mod GOLDILOCKS_MODULUS))
     \/ (exists seed final point gs,
          _seed sd (PBytes (mt_commitment TA)) (PBytes (mt_commitment TB)) nonce factor
            (pp_claimed_sum pf) = Ok seed
          /\ Product.verify_rounds seed 1 (pp_claimed_sum pf) (pp_round_polynomials pf) = Ok (final, point)
          /\ pp_round_polynomials pf = py_ints4 <$> gs
          /\ lucky 3 interp3 (columns_of (length fs) [a; b; fs]) (msg3 <$> gs) (toF <$> point))
     \/ second_preimage (inputs_of_tree TA) \/ second_preimage (inputs_of_tree TB)).
Proof.
  intros HTA HTB Hv.
  apply verify_product_ok in Hv as (fs&a'&b'&TA'&TB'&seed&final&point&va&vb&vf&->&Hcf&_&_&Hca&Hcb&
    Hla&Hlb&Hpow&->&Hcs&HTA'&EA&HTB'&EB&Hseed&Hrounds&Hva&Hvb&Hvf&->).
  exists fs. split; [done|]. apply (inj PBytes) in EA, EB.
  apply product_commit_ok in HTA as (xa&da&ka&Exa&_&_&_&_&_&_&HTA).
  apply product_commit_ok in HTB as (xb&db&kb&Exb&_&_&_&_&_&_&HTB).
  apply product_commit_ok in HTA' as (xa'&da'&ka'&Exa'&_&_&_&_&_&_&HTA').
  apply product_commit_ok in HTB' as (xb'&db'&kb'&Exb'&_&_&_&_&_&_&HTB').
  apply (inj (fmap PInt)) in Exa as <-, Exb as <-, Exa' as <-, Exb' as <-.
  destruct (commitment_binds_tree _ _ _ _ _ _ HTA HTA' (eq_sym EA)) as [->|]; [|by right; right; left].
  destruct (commitment_binds_tree _ _ _ _ _ _ HTB HTB' (eq_sym EB)) as [->|]; [|by right; right; right].
  apply from_py_rows in HTA, HTB, HTA', HTB'. rewrite HTA in HTA'. rewrite HTB in HTB'.
  apply column_rows_inj in HTA' as <-, HTB' as <-.
  destruct (verify_rounds_run3 _ _ _ _ _ _ Hcs Hrounds) as (gs&Hgs&Hrun&Hlp&_). rewrite <- Hlp in Hpow.
  assert (length (msg3 <$> gs) = length point) as Hlg by (by rewrite Hlp, Hgs, !length_fmap).
  pose proof (final_total3 point a b fs va vb vf ltac:(congruence) ltac:(congruence) Hpow Hca Hcb Hcf
    Hva Hvb Hvf) as Hfin. rewrite <- Hpow in Hfin.
  destruct (run_sound 3 interp3 (toF (pp_claimed_sum pf)) (columns_of (length fs) [a; b; fs])
    (msg3 <$> gs) (toF <$> point) _ ltac:(lia) (columns_of_width _ [a; b; fs])
    ltac:(by rewrite columns_of_length, Hlg) Hrun Hfin) as [E|Hl].
  - left. split_and!; [done|done|]. rewrite (triple_product_total a b fs) in E by done. f_equal.
    apply toF_inj; [done|apply mod_canonical|]. by rewrite toF_mod.
  - right. left. by exists seed, (va * vb mod GOLDILOCKS_MODULUS * vf mod GOLDILOCKS_MODULUS), point, gs.
Qed.

Lemma product_proof_new_ok s rounds a b :
  canonical s ->
  GoldilocksProductSumcheckProofV3_new (PInt s) (PTuple (py_quad <$> rounds)) a b
  = Ok (MkProductProof s (py_ints4 <$> rounds) a b).
Proof.
  intros Hs. unfold GoldilocksProductSumcheckProofV3_new. rewrite field_int by done. cbn [mbind res_bind].
  assert (mapM round_quad (py_quad <$> rounds) = Some (py_ints4 <$> rounds)) as ->; [|done].
  induction rounds as [|[[[g0 g1] g2] g3] rounds IH]; [done|].
  cbn [fmap list_fmap mapM py_quad round_quad mbind option_bind].
  change (list_fmap _ _ ?f rounds) with (f <$> rounds). by rewrite IH.
Qed.

(** (product sumcheck completeness).  For two committed tables and a
    canonical factor of the same length, the prover returns a proof of the sum
    of products that the verifier accepts, unless one of its challenge
    derivations exhausts its [2 ^ 16] rejection-sampling attempts. *)
Theorem product_sumcheck_complete `{Digest} sd a b fs TA TB nonce :
  commit_goldilocks_product_sumcheck_a_v3 sd (PInt <$> a) = Ok TA ->
  commit_goldilocks_product_sumcheck_b_v3 sd (PInt <$> b) = Ok TB ->
  length b = length a -> length fs = length a -> Forall canonical fs -> bytes32 nonce ->
  prove_goldilocks_product_sumcheck_v3 sd TA TB (PInt <$> a) (PInt <$> b) (PInt <$> fs) (PBytes nonce)
    = raise ProofV3Error "unable to derive a fold-sumcheck challenge"
  \/ exists pf,
       prove_goldilocks_product_sumcheck_v3 sd TA TB (PInt <$> a) (PInt <$> b) (PInt <$> fs)
         (PBytes nonce) = Ok pf
       /\ pp_claimed_sum pf = triple_product a b fs mod GOLDILOCKS_MODULUS
       /\ verify_goldilocks_product_sumcheck_v3 (Some pf) sd (PBytes (mt_commitment TA))
            (PBytes (mt_commitment TB)) (PInt <$> fs) (PBytes nonce)
            (PInt (triple_product a b fs mod GOLDILOCKS_MODULUS)) = Ok tt.
Proof.
  intros HTA HTB Hlb Hlf Hcf Hn. pose proof HTA as HcomA. pose proof HTB as HcomB.
  apply product_commit_ok in HTA as (xa&d&k&Exa&Hca&Hla&Hk&->&Hd&Hdz&HTA).
  apply product_commit_ok in HTB as (xb&d'&k'&Exb&Hcb&_&_&Ed&_&_&HTB).
  apply (inj (fmap PInt)) in Exa as <-, Exb as <-. apply (inj PBytes) in Ed as <-.
  rewrite Hla in Hlb, Hlf.
  pose proof (from_py_rows _ _ _ HTA) as HrA. pose proof (from_rows_commitment _ _ _ HTA) as HmA.
  pose proof (from_py_rows _ _ _ HTB) as HrB. pose proof (from_rows_commitment _ _ _ HTB) as HmB.
  unfold prove_goldilocks_product_sumcheck_v3. rewrite !length_fmap, Hla, Hlb, Hlf, !Nat.eqb_refl.
  cbn [negb andb]. rewrite !fields_int by done. cbn [mbind res_bind]. cbv zeta.
  rewrite claimed_triple by lia. set (s := triple_product a b fs mod GOLDILOCKS_MODULUS).
  assert (canonical s) as Hs by apply mod_canonical.
  set (fd := sha256 (concat (pack_Q <$> fs))).
  set (seed := sha256 (Product._TRANSCRIPT_DOMAIN ++ d ++ mt_commitment TA ++ mt_commitment TB ++ nonce
    ++ fd ++ pack_Q s)).
  assert (_seed (PBytes d) (PBytes (mt_commitment TA)) (PBytes (mt_commitment TB)) (PBytes nonce)
    (PInt <$> fs) s = Ok seed) as Hseed.
  { unfold _seed, _factor_digest.
    rewrite (proj2 (fixed32_ok _ _ _ d) (conj eq_refl (conj Hd (fun _ => Hdz)))). cbn [mbind res_bind].
    rewrite !fixed32_bytes by done. cbn [mbind res_bind]. by rewrite fields_int. }
  rewrite Hseed, Hla. cbn [mbind res_bind].
  destruct (prove_rounds_complete3 k (2 ^ k) seed 1 a b fs s) as
    [E|(rounds&final&point&E&Ev&Hlr&Hlp&Hcfin&Hfin)];
    [done|done|done|pose proof (Nat.pow_gt_lin_r 2 k); lia|done| | |].
  { unfold s. rewrite toF_mod. symmetry. by apply triple_product_total. }
  { left. by rewrite E. }
  right. rewrite E. cbn [mbind res_bind]. rewrite HrA, HrB, !column_firsts. cbn [mbind res_bind].
  rewrite product_proof_new_ok by done.
  exists (MkProductProof s (py_ints4 <$> rounds) (PInt <$> a) (PInt <$> b)).
  split; [done|]. split; [done|].
  unfold verify_goldilocks_product_sumcheck_v3. apply reraise_as_ok. cbv zeta.
  rewrite fields_int by done.
  cbn [mbind res_bind pp_round_polynomials pp_claimed_sum pp_a_full_opening pp_b_full_opening].
  assert (zlen fs = 2 ^ Z.of_nat k) as Hzf by (unfold zlen; by rewrite Hlf, Nat2Z.inj_pow).
  rewrite Hzf, variables_pow2, (proj2 (table_length_ok _)) by (exists k; split; [lia|done]).
  assert (zlen (py_ints4 <$> rounds) = Z.of_nat k) as -> by (rewrite zlen_fmap; unfold zlen; by rewrite Hlr).
  rewrite Z.eqb_refl. cbn [negb]. rewrite field_int by done. cbn [mbind res_bind].
  rewrite Z.eqb_refl. cbn [negb]. rewrite !fixed32_bytes by done. cbn [mbind res_bind].
  rewrite Hseed. cbn [mbind res_bind]. rewrite Ev. cbn [mbind res_bind fst snd].
  rewrite (proj2 (check_opening_ok _ _ "a" _ _ _)).
  2:{ split; [rewrite zlen_fmap; unfold zlen; by rewrite Hla, Nat2Z.inj_pow|]. by exists TA. }
  cbn [mbind res_bind]. rewrite (proj2 (check_opening_ok _ _ "b" _ _ _)).
  2:{ split; [rewrite zlen_fmap; unfold zlen; by rewrite Hlb, Nat2Z.inj_pow|]. by exists TB. }
  cbn [mbind res_bind]. rewrite !fields_int by done. cbn [mbind res_bind].
  rewrite <- Hlp in Hla, Hlb, Hlf.
  destruct (mle_eval_ok a point Hla Hca) as (va&Ea&_&_).
  destruct (mle_eval_ok b point Hlb Hcb) as (vb&Eb&_&_).
  destruct (mle_eval_ok fs point Hlf Hcf) as (vf&Ef&_&_).
  rewrite Ea. cbn [mbind res_bind]. rewrite Eb. cbn [mbind res_bind]. rewrite Ef. cbn [mbind res_bind].
  apply require_ok, Z.eqb_eq. apply toF_inj; [done|apply mod_canonical|].
  rewrite Hfin, (final_total3 point a b fs va vb vf) by done. by rewrite Hlp.
Qed.

(** Cubic sumcheck error bound: two different cubic round messages agree
    at no more than three challenges. *)
Theorem product_sumcheck_lucky_bound v w rs :
  length v = 4%nat -> length w = 4%nat -> v <> w -> NoDup rs ->
  (forall r, r ∈ rs -> interp3 v r = interp3 w r) -> (length rs <= 3)%nat.
Proof. apply (interp_agreement 3 interp3). Qed.

(** ** Witnesses *)

#[local] Existing Instance checksum_digest.

Definition example_bs : list Z := [1; 0; 9; 6].
Definition example_a_tree : GoldilocksMerkleTreeReference :=
  ok_or no_tree (commit_goldilocks_product_sumcheck_a_v3 example_sd (PInt <$> example_xs)).
Definition example_b_tree : GoldilocksMerkleTreeReference :=
  ok_or no_tree (commit_goldilocks_product_sumcheck_b_v3 example_sd (PInt <$> example_bs)).
Definition example_product_proof : GoldilocksProductSumcheckProofV3 :=
  ok_or (MkProductProof 0 [] [] [])
    (prove_goldilocks_product_sumcheck_v3 example_sd example_a_tree example_b_tree
       (PInt <$> example_xs) (PInt <$> example_bs) (PInt <$> example_fs) (PBytes example_nonce)).

Lemma example_commit_a :
  commit_goldilocks_product_sumcheck_a_v3 example_sd (PInt <$> example_xs) = Ok example_a_tree.
Proof. vm_compute. reflexivity. Qed.
Lemma example_commit_b :
  commit_goldilocks_product_sumcheck_b_v3 example_sd (PInt <$> example_bs) = Ok example_b_tree.
Proof. vm_compute. reflexivity. Qed.

Lemma product_sumcheck_sound_witness :
  exists fs, PInt <$> example_fs = PInt <$> fs /\
    ((length example_xs = length fs /\ length example_bs = length fs
      /\ PInt 390 = PInt (triple_product example_xs example_bs fs mod GOLDILOCKS_MODULUS))
     \/ (exists seed final point gs,
          _seed example_sd (PBytes (mt_commitment example_a_tree)) (PBytes (mt_commitment example_b_tree))
            (PBytes example_nonce) (PInt <$> example_fs) (pp_claimed_sum example_product_proof) = Ok seed
          /\ Product.verify_rounds seed 1 (pp_claimed_sum example_product_proof)
               (pp_round_polynomials example_product_proof) = Ok (final, point)
          /\ pp_round_polynomials example_product_proof = py_ints4 <$> gs
          /\ lucky 3 interp3 (columns_of (length fs) [example_xs; example_bs; fs]) (msg3 <$> gs)
               (toF <$> point))
     \/ second_preimage (inputs_of_tree example_a_tree)
     \/ second_preimage (inputs_of_tree example_b_tree)).
Proof.
  pose proof (product_sumcheck_sound (H := checksum_digest) example_sd example_xs example_bs
    example_a_tree example_b_tree example_product_proof (PInt <$> example_fs) (PBytes example_nonce)
    (PInt 390) example_commit_a example_commit_b) as Hs.
  refine (Hs _). vm_compute. reflexivity.
Defined.

Lemma product_sumcheck_complete_witness :
  prove_goldilocks_product_sumcheck_v3 example_sd example_a_tree example_b_tree
    (PInt <$> example_xs) (PInt <$> example_bs) (PInt <$> example_fs) (PBytes example_nonce)
    = raise ProofV3Error "unable to derive a fold-sumcheck challenge"
  \/ exists pf,
       prove_goldilocks_product_sumcheck_v3 example_sd example_a_tree example_b_tree
         (PInt <$> example_xs) (PInt <$> example_bs) (PInt <$> example_fs) (PBytes example_nonce) = Ok pf
       /\ pp_claimed_sum pf = triple_product example_xs example_bs example_fs mod GOLDILOCKS_MODULUS
       /\ verify_goldilocks_product_sumcheck_v3 (Some pf) example_sd
            (PBytes (mt_commitment example_a_tree)) (PBytes (mt_commitment example_b_tree))
            (PInt <$> example_fs) (PBytes example_nonce)
            (PInt (triple_product example_xs example_bs example_fs mod GOLDILOCKS_MODULUS)) = Ok tt.
Proof.
  pose proof (product_sumcheck_complete (H := checksum_digest) example_sd example_xs example_bs
    example_fs example_a_tree example_b_tree example_nonce example_commit_a example_commit_b
    eq_refl eq_refl) as Hc.
  refine (Hc _ eq_refl). repeat constructor; by vm_compute.
Defined.

Lemma product_sumcheck_lucky_bound_witness :
  (length [pt 0; pt 1; pt 2] <= 3)%nat.
Proof.
  assert (forall r, r ∈ [pt 0; pt 1; pt 2] ->
    interp3 [toF 0; toF 0; toF 0; toF 6] r = interp3 [toF 0; toF 0; toF 0; toF 0] r) as Hag.
  { intros r [->|[->|[->|[]%not_elem_of_nil]%elem_of_cons]%elem_of_cons]%elem_of_cons.
    - rewrite (interp_at (d := 3) (interp := interp3) [toF 0; toF 0; toF 0; toF 6] 0 (toF 0)) by reflexivity.
      by rewrite (interp_at (d := 3) (interp := interp3) [toF 0; toF 0; toF 0; toF 0] 0 (toF 0)) by reflexivity.
    - rewrite (interp_at (d := 3) (interp := interp3) [toF 0; toF 0; toF 0; toF 6] 1 (toF 0)) by reflexivity.
      by rewrite (interp_at (d := 3) (interp := interp3) [toF 0; toF 0; toF 0; toF 0] 1 (toF 0)) by reflexivity.
    - rewrite (interp_at (d := 3) (interp := interp3) [toF 0; toF 0; toF 0; toF 6] 2 (toF 0)) by reflexivity.
      by rewrite (interp_at (d := 3) (interp := interp3) [toF 0; toF 0; toF 0; toF 0] 2 (toF 0)) by reflexivity. }
  refine (product_sumcheck_lucky_bound [toF 0; toF 0; toF 0; toF 6] [toF 0; toF 0; toF 0; toF 0]
    [pt 0; pt 1; pt 2] eq_refl eq_refl _ _ Hag).
  - by intros [= E].
  - apply (NoDup_fmap_2_strong pt [0; 1; 2]%nat).
    + intros i j Hi Hj E. apply pt_inj in E; [done|set_solver by lia..].
    + repeat constructor; set_solver.
Defined.
