(* ===== verification/Rational.v ===== *)
(** * Sums of simple fractions

    The logarithmic-derivative argument behind the lookup and memory checks: a
    weighted sum of fractions [c / (X - u)] whose coefficients do not all cancel
    vanishes at fewer points than it has terms. *)

From Stdlib Require Import ZArith Lia Zmod Field.
From stdpp Require Import base list sets.
From S2P Require Import Prelude Field Poly.

Local Open Scope F_scope.

Abbreviation finv := (Zmod.inv (m := GOLDILOCKS_MODULUS)).

Lemma finv_mul (x : F) : x <> 0 -> x * finv x = 1.
Proof. intros Hx. field. done. Qed.

(** ** Numerator and denominator over distinct points *)

Definition vanish (ps : list F) (x : F) : F := fprod ((fun w => x - w) <$> ps).

Fixpoint numer (a : F -> F) (ps : list F) (x : F) : F :=
  match ps with
  | [] => 0
  | u :: ps => a u * vanish ps x + (x - u) * numer a ps x
  end.

Lemma vanish_zero ps x : vanish ps x = 0 <-> x ∈ ps.
Proof.
  unfold vanish. rewrite fprod_zero, list_elem_of_fmap. split.
  - intros (w&E&Hw). symmetry in E. apply F_sub_zero in E as ->. done.
  - intros Hx. exists x. split; [|done]. symmetry. by apply F_sub_zero.
Qed.

Lemma vanish_poly ps : is_poly (S (length ps)) (vanish ps).
Proof.
  induction ps as [|u ps' IH]; [exact (is_poly_const 1%nat 1 ltac:(done))|].
  apply (is_poly_ext _ (fun x => (x - u) * vanish ps' x)); [reflexivity|].
  apply (is_poly_mul 1); [|done].
  apply (is_poly_ext _ (fun x => (0 - u) + x * 1)); [intros x; ring|apply is_poly_linear].
Qed.

Lemma numer_poly a ps : is_poly (length ps) (numer a ps).
Proof.
  induction ps as [|u ps' IH]; [apply is_poly_zero|]. cbn [numer length].
  apply is_poly_add.
  - apply (is_poly_mul 0); [by apply is_poly_const|apply vanish_poly].
  - apply (is_poly_mul 1); [|done].
    apply (is_poly_ext _ (fun x => (0 - u) + x * 1)); [intros x; ring|apply is_poly_linear].
Qed.

Definition fractions (a : F -> F) (ps : list F) (x : F) : F :=
  fsum ((fun u => a u * finv (x - u)) <$> ps).

Lemma numer_fractions a ps x : x ∉ ps -> numer a ps x = vanish ps x * fractions a ps x.
Proof.
  induction ps as [|u ps' IH]; intros Hx.
  { unfold fractions. cbn [numer fmap list_fmap fsum foldr]. ring. }
  apply not_elem_of_cons in Hx as [Hne Hx].
  assert (x - u <> 0) as Hnz by (intros E; by apply Hne, F_sub_zero).
  cbn [numer]. rewrite IH by done.
  change (vanish (u :: ps') x) with ((x - u) * vanish ps' x).
  change (fractions a (u :: ps') x) with (a u * finv (x - u) + fractions a ps' x). field. done.
Qed.

Lemma numer_at a ps v : NoDup ps -> v ∈ ps -> a v <> 0 -> numer a ps v <> 0.
Proof.
  induction 1 as [|u ps' Hu Hnd IH]; intros Hv Ha; [by apply not_elem_of_nil in Hv|]. cbn [numer].
  destruct (decide (v = u)) as [->|Hne].
  - replace (a u * vanish ps' u + (u - u) * numer a ps' u) with (a u * vanish ps' u) by ring.
    intros [E|E%vanish_zero]%F_mul_zero; done.
  - apply elem_of_cons in Hv as [|Hv]; [done|].
    rewrite (proj2 (vanish_zero ps' v) Hv).
    replace (a u * 0 + (v - u) * numer a ps' v) with ((v - u) * numer a ps' v) by ring.
    intros [E|E]%F_mul_zero; [by apply Hne, F_sub_zero|by apply IH in E].
Qed.

Lemma fractions_bound a ps v alphas :
  NoDup ps -> v ∈ ps -> a v <> 0 -> NoDup alphas ->
  (forall x, x ∈ alphas -> x ∉ ps /\ fractions a ps x = 0) -> (length alphas < length ps)%nat.
Proof.
  intros HS Hv Ha Hnd Hal. destruct (numer_poly a ps) as (p&Hp&Hnum).
  apply (agreement_bound (length ps) p [] alphas v); [done|simpl; lia| |done|].
  - rewrite <- Hnum. simpl. by apply numer_at.
  - intros x [Hx H0]%Hal. rewrite <- Hnum, numer_fractions, H0 by done. simpl. ring.
Qed.

(** ** Weighted lists of fractions *)

Abbreviation weighted := (list (F * F)).

Definition wsum (W : weighted) (x : F) : F := fsum ((fun p => p.1 * finv (x - p.2)) <$> W).
Definition coef (W : weighted) (u : F) : F :=
  fsum ((fun p => if decide (p.2 = u) then p.1 else 0) <$> W).

Lemma coef_app W W' u : coef (W ++ W') u = coef W u + coef W' u.
Proof. unfold coef. by rewrite fmap_app, fsum_app. Qed.

Lemma wsum_app W W' x : wsum (W ++ W') x = wsum W x + wsum W' x.
Proof. unfold wsum. by rewrite fmap_app, fsum_app. Qed.

Lemma coef_nonmember W u : u ∉ W.*2 -> coef W u = 0.
Proof.
  induction W as [|[c w] W IH]; intros Hu; [reflexivity|].
  apply not_elem_of_cons in Hu as [Hne Hu]. cbn [snd] in Hne.
  change (coef ((c, w) :: W) u) with ((if decide (w = u) then c else 0) + coef W u).
  rewrite decide_False by (intros E; by apply Hne). rewrite IH by done. ring.
Qed.

Lemma pick_one (g : F -> F) ps c w :
  NoDup ps -> w ∈ ps -> fsum ((fun u => (if decide (w = u) then c else 0) * g u) <$> ps) = c * g w.
Proof.
  assert (forall ps, w ∉ ps ->
    fsum ((fun u => (if decide (w = u) then c else 0) * g u) <$> ps) = 0) as Hout.
  { clear ps. intros ps. induction ps as [|u ps IH]; intros Hw; [reflexivity|].
    apply not_elem_of_cons in Hw as [Hne Hw]. cbn [fmap list_fmap fsum foldr].
    rewrite decide_False by done. change (list_fmap _ _ ?f ps) with (f <$> ps).
    unfold fsum in IH. rewrite IH by done. ring. }
  induction 1 as [|u ps Hu Hnd IH]; intros Hw; [by apply not_elem_of_nil in Hw|].
  cbn [fmap list_fmap fsum foldr]. change (list_fmap _ _ ?f ps) with (f <$> ps).
  change (foldr (fun a b => a + b) 0 ?l) with (fsum l).
  destruct (decide (w = u)) as [->|Hne].
  - rewrite Hout by done. ring.
  - apply elem_of_cons in Hw as [|Hw]; [done|]. rewrite IH by done. ring.
Qed.

Lemma fsum_add_fmap {A} (f g : A -> F) l :
  fsum ((fun x => f x + g x) <$> l) = fsum (f <$> l) + fsum (g <$> l).
Proof.
  induction l as [|x l IH]; [cbn [fmap list_fmap fsum foldr]; ring|].
  cbn [fmap list_fmap fsum foldr]. change (list_fmap _ _ ?f l) with (f <$> l).
  change (foldr (fun a b => a + b) 0 ?l) with (fsum l). rewrite IH. ring.
Qed.

(** Collecting the terms of each point. *)
Lemma collect W ps (g : F -> F) :
  NoDup ps -> W.*2 ⊆ ps ->
  fsum ((fun p => p.1 * g p.2) <$> W) = fsum ((fun u => coef W u * g u) <$> ps).
Proof.
  intros HS. induction W as [|[c w] W IH]; intros Hsub.
  { cbn [fmap list_fmap fsum foldr]. clear. induction ps as [|u ps IH]; [reflexivity|].
    cbn [fmap list_fmap fsum foldr]. change (list_fmap _ _ ?f ps) with (f <$> ps).
    change (foldr (fun a b => a + b) 0 ?l) with (fsum l). rewrite <- IH. unfold coef. cbn. ring. }
  cbn [fmap list_fmap fsum foldr fst snd]. change (list_fmap _ _ ?f W) with (f <$> W).
  change (foldr (fun a b => a + b) 0 ?l) with (fsum l). rewrite IH by set_solver.
  rewrite <- (pick_one g ps c w HS) by set_solver. rewrite <- fsum_add_fmap. f_equal.
  apply list_fmap_ext. intros _ u _.
  change (coef ((c, w) :: W) u) with ((if decide (w = u) then c else 0) + coef W u). ring.
Qed.

Lemma wsum_fractions W x : wsum W x = fractions (coef W) (remove_dups W.*2) x.
Proof.
  apply (collect W _ (fun u => finv (x - u))); [apply NoDup_remove_dups|].
  intros u Hu. by apply elem_of_remove_dups.
Qed.

(** The identity [wsum W x = 0] holds at [x] although the terms of [W] do not
    cancel. *)
Definition lucky_point (W : weighted) (x : F) : Prop :=
  x ∉ W.*2 /\ wsum W x = 0 /\ exists v, coef W v <> 0.

Lemma lucky_points_bound W alphas :
  W <> [] -> NoDup alphas -> (forall x, x ∈ alphas -> lucky_point W x) ->
  (length alphas < length W)%nat.
Proof.
  intros HW Hnd Hal. destruct alphas as [|x alphas]; [destruct W; [done|simpl; lia]|].
  destruct (Hal x ltac:(set_solver)) as (_&_&v&Hv).
  assert (v ∈ W.*2) as Hin.
  { destruct (decide (v ∈ W.*2)) as [|Hn]; [done|]. by apply coef_nonmember in Hn. }
  apply Nat.lt_le_trans with (length (remove_dups W.*2)).
  - apply (fractions_bound (coef W) _ v); [apply NoDup_remove_dups|by apply elem_of_remove_dups|done|done|].
    intros y (Hy&H0&_)%Hal. rewrite elem_of_remove_dups, <- wsum_fractions. done.
  - rewrite <- (length_fmap snd W). apply submseteq_length, NoDup_submseteq; [apply NoDup_remove_dups|].
    intros y. by rewrite elem_of_remove_dups.
Qed.

(** Unless the point is lucky, a vanishing sum has cancelling terms. *)
Lemma not_lucky_cancels W x :
  x ∉ W.*2 -> wsum W x = 0 -> lucky_point W x \/ forall v, coef W v = 0.
Proof.
  intros Hx H0. destruct (decide (Forall (fun v => coef W v = 0) W.*2)) as [Hall|Hn].
  - right. intros v. destruct (decide (v ∈ W.*2)) as [Hv|]; [|by apply coef_nonmember].
    rewrite Forall_forall in Hall. by apply Hall.
  - left. split_and!; [done|done|]. apply not_Forall_Exists in Hn; [|apply _].
    apply Exists_exists in Hn as (v&_&Hv). by exists v.
Qed.

(** Weights one and multiplicities. *)
Definition occurrences (u : F) (l : list F) : nat := length (filter (fun w => w = u) l).

Lemma coef_ones l u : coef ((fun v => (1, v)) <$> l) u = toF (Z.of_nat (occurrences u l)).
Proof.
  unfold coef, occurrences. rewrite <- list_fmap_compose. unfold compose. cbn [fst snd].
  induction l as [|w l IH]; [reflexivity|].
  cbn [fmap list_fmap fsum foldr]. change (list_fmap _ _ ?f l) with (f <$> l).
  change (foldr (fun a b => a + b) 0 ?l) with (fsum l). rewrite IH.
  destruct (decide (w = u)) as [E|E].
  - rewrite filter_cons_True by done. cbn [length]. rewrite Nat2Z.inj_succ, <- Z.add_1_l, toF_add, toF_1. done.
  - rewrite filter_cons_False by done. ring.
Qed.
