(* ===== verification/LogUp.v ===== *)
(** * The lookup argument ([verallm/proof_v3/goldilocks_logup_reference.py])

    Every entry of a committed witness column belongs to a public table of
    distinct values: multiplicities are committed with the witness, and the
    identity [sum 1 / (alpha - w) = sum m / (alpha - t)] is checked at two
    challenges derived after the freeze. *)

From Stdlib Require Import ZArith Lia.
From stdpp Require Import base gmap list strings pretty.
From coqutil Require Import Word.LittleEndianList.
From S2P Require Import Prelude Sha256 Field Merkle Validate FoldSumcheck.

Local Open Scope Z_scope.

Module LogUp.
Definition GOLDILOCKS_LOGUP_CHALLENGE_COUNT_V3 : Z := 2.
Definition MAX_GOLDILOCKS_LOGUP_ROWS_V3 : Z := Z.shiftl 1 20.
Definition _STATEMENT_DOMAIN : bytes := b_lit "VERATHOS/PROOF_V3/GOLDILOCKS_LOGUP/V1/STATEMENT/SHA256".
Definition _WITNESS_DOMAIN : bytes := b_lit "VERATHOS/PROOF_V3/GOLDILOCKS_LOGUP/V1/WITNESS/SHA256".
Definition _MULTIPLICITY_DOMAIN : bytes :=
  b_lit "VERATHOS/PROOF_V3/GOLDILOCKS_LOGUP/V1/MULTIPLICITY/SHA256".
Definition _CHALLENGE_DOMAIN : bytes := b_lit "VERATHOS/PROOF_V3/GOLDILOCKS_LOGUP/V1/CHALLENGE/SHA256".

Record GoldilocksLogupStatementV3 := MkLogupStatement {
  ls_validator_binding_digest : bytes;
  ls_table : list Z;
}.

Definition GoldilocksLogupStatementV3_new (validator_binding_digest table : pyval)
    : res GoldilocksLogupStatementV3 :=
  binding ← _fixed32 validator_binding_digest "logup validator_binding_digest" true;
  match table with
  | PTuple ((_ :: _) as table) =>
      if MAX_GOLDILOCKS_LOGUP_ROWS_V3 <? zlen table then
        raise ProofV3Error "logup table exceeds the CPU reference cap"
      else
        table ← _fields table "logup table value";
        if negb (size (list_to_set table : gset Z) =? length table)%nat then
          raise ProofV3Error "logup table values must be distinct"
        else Ok (MkLogupStatement binding table)
  | _ => raise ProofV3Error "logup table must be a non-empty tuple"
  end.

(** [1 << max(1, (n - 1).bit_length())] *)
Definition padded_length (n : Z) : Z := Z.shiftl 1 (Z.max 1 (bit_length (n - 1))).

(** [{value: index for index, value in enumerate(table)}] *)
Definition positions_of (table : list Z) : gmap Z nat :=
  fold_left (fun m p => <[p.2 := p.1]> m) (imap pair table) ∅.

(** [counts[positions[value]] += 1] for the values that have a position. *)
Definition count_step (positions : gmap Z nat) (counts : list Z) (value : Z) : list Z :=
  match positions !! value with
  | Some index => alter (fun c => c + 1) index counts
  | None => counts
  end.
Definition count_values (table witness : list Z) : list Z :=
  fold_left (count_step (positions_of table)) witness (replicate (length table) 0).

Definition pad (values : list Z) (filler : Z) : list Z :=
  values ++ replicate (Z.to_nat (padded_length (zlen values) - zlen values)) filler.

Record GoldilocksLogupProofV3 := MkLogupProof {
  lp_witness_opening : list pyval;
  lp_multiplicity_opening : list pyval;
}.

Definition opening_tuple (name : string) (opening : pyval) : res (list pyval) :=
  match opening with
  | PTuple ((_ :: _) as values) => Ok values
  | _ => raise ProofV3Error ("logup " +:+ name +:+ " opening is malformed")
  end.

Definition GoldilocksLogupProofV3_new (witness_opening multiplicity_opening : pyval)
    : res GoldilocksLogupProofV3 :=
  w ← opening_tuple "witness" witness_opening;
  m ← opening_tuple "multiplicity" multiplicity_opening;
  Ok (MkLogupProof w m).

(** [for value in witness: left = (left + inv(alpha - value)) % p] *)
Fixpoint left_sum (alpha left : Z) (witness : list Z) : res Z :=
  match witness with
  | [] => Ok left
  | value :: witness =>
      inverse ← goldilocks_inv (PInt ((alpha - value) mod GOLDILOCKS_MODULUS));
      left_sum alpha ((left + inverse) mod GOLDILOCKS_MODULUS) witness
  end.

(** [for count, value in zip(counts, table, strict=True)] *)
Fixpoint right_sum (alpha right : Z) (counts table : list Z) : res Z :=
  match counts, table with
  | [], [] => Ok right
  | count :: counts, value :: table =>
      inverse ← goldilocks_inv (PInt ((alpha - value) mod GOLDILOCKS_MODULUS));
      right_sum alpha ((right + count * inverse) mod GOLDILOCKS_MODULUS) counts table
  | _, _ => raise ValueError "zip() argument lengths differ"
  end.

Fixpoint check_identities (alphas witness counts table : list Z) : res unit :=
  match alphas with
  | [] => Ok tt
  | alpha :: alphas =>
      l ← left_sum alpha 0 witness;
      r ← right_sum alpha 0 counts table;
      if negb (l =? r) then
        raise ProofV3VerificationError "logup identity fails: witness is not covered by the table"
      else check_identities alphas witness counts table
  end.

Section logup.
Context `{Digest}.

Definition digest (st : GoldilocksLogupStatementV3) : bytes :=
  sha256 (_STATEMENT_DOMAIN ++ ls_validator_binding_digest st ++ pack_I (zlen (ls_table st))
          ++ concat (pack_Q <$> ls_table st)).
Definition witness_binding_digest (st : GoldilocksLogupStatementV3) : bytes :=
  sha256 (_WITNESS_DOMAIN ++ digest st).
Definition multiplicity_binding_digest (st : GoldilocksLogupStatementV3) : bytes :=
  sha256 (_MULTIPLICITY_DOMAIN ++ digest st).

(** [statement = None] stands for an object of another type. *)
Definition freeze_goldilocks_logup_witness_v3 (statement : option GoldilocksLogupStatementV3)
    (looked_up_values : pyval)
    : res (GoldilocksMerkleTreeReference * GoldilocksMerkleTreeReference) :=
  match statement with
  | None => raise ProofV3Error "logup statement has an unexpected type"
  | Some statement =>
      match looked_up_values with
      | PTuple ((_ :: _) as values) =>
          if MAX_GOLDILOCKS_LOGUP_ROWS_V3 <? zlen values then
            raise ProofV3Error "logup witness exceeds the CPU reference cap"
          else
            witness ← _fields values "logup witness value";
            match ls_table statement with
            | [] => raise IndexError "tuple index out of range"
            | first :: _ =>
                let witness := pad witness first in
                let counts := pad (count_values (ls_table statement) witness) 0 in
                witness_tree ← from_rows (py_rows (column_rows witness))
                                 (PBytes (witness_binding_digest statement));
                multiplicity_tree ← from_rows (py_rows (column_rows counts))
                                      (PBytes (multiplicity_binding_digest statement));
                Ok (witness_tree, multiplicity_tree)
            end
      | _ => raise ProofV3Error "logup witness must be a non-empty tuple"
      end
  end.

Definition challenge_at (seed : bytes) (challenge_index : Z) : res Z :=
  rejection_sample
    (fun counter => le_combine (take 8 (sha256 (seed ++ pack_I challenge_index ++ pack_I counter))))
    (fun candidate => (0 <? candidate) && (candidate <? GOLDILOCKS_MODULUS))
    "unable to derive a logup challenge".

Definition _challenges (statement : GoldilocksLogupStatementV3)
    (witness_root multiplicity_root validator_nonce : pyval) : res (list Z) :=
  wr ← _fixed32 witness_root "witness_root" false;
  mr ← _fixed32 multiplicity_root "multiplicity_root" false;
  vn ← _fixed32 validator_nonce "validator_nonce" false;
  let seed := sha256 (_CHALLENGE_DOMAIN ++ digest statement ++ wr ++ mr ++ vn) in
  mapR (challenge_at seed) (seqZ 0 GOLDILOCKS_LOGUP_CHALLENGE_COUNT_V3).

Definition prove_goldilocks_logup_reference_v3
    (witness_tree multiplicity_tree : GoldilocksMerkleTreeReference) : res GoldilocksLogupProofV3 :=
  w ← mapR first_of_row (mt_rows witness_tree);
  m ← mapR first_of_row (mt_rows multiplicity_tree);
  GoldilocksLogupProofV3_new (py_ints w) (py_ints m).

Definition verify_goldilocks_logup_reference_v3 (proof : option GoldilocksLogupProofV3)
    (statement : option GoldilocksLogupStatementV3)
    (witness_root multiplicity_root validator_nonce : pyval) : res unit :=
  reraise_as [ProofV3VerificationError]
    [IndexError; KeyError; TypeError; ValueError; ProofV3Error]
    ProofV3VerificationError "logup proof is malformed"
    match proof, statement with
    | None, _ => raise ProofV3VerificationError "logup proof type is unexpected"
    | _, None => raise ProofV3VerificationError "logup statement is malformed"
    | Some proof, Some statement =>
        witness ← _fields (lp_witness_opening proof) "logup witness value";
        counts ← _fields (lp_multiplicity_opening proof) "logup multiplicity value";
        let table_length := length (ls_table statement) in
        let expected_counts := padded_length (zlen (ls_table statement)) in
        if negb (zlen counts =? expected_counts) then
          raise ProofV3VerificationError "logup multiplicity shape is wrong"
        else if existsb (fun count => negb (count =? 0)) (drop table_length counts) then
          raise ProofV3VerificationError "logup multiplicity padding must be zero"
        else
          rebuilt_witness ← from_rows (py_rows (column_rows witness))
                              (PBytes (witness_binding_digest statement));
          if negb (py_eq_bytes (mt_commitment rebuilt_witness) witness_root) then
            raise ProofV3VerificationError "logup witness opening does not match the frozen root"
          else
            rebuilt_counts ← from_rows (py_rows (column_rows counts))
                               (PBytes (multiplicity_binding_digest statement));
            if negb (py_eq_bytes (mt_commitment rebuilt_counts) multiplicity_root) then
              raise ProofV3VerificationError
                "logup multiplicity opening does not match the frozen root"
            else if existsb (fun count => zlen witness <? count) counts then
              raise ProofV3VerificationError "logup multiplicity is out of range"
            else
              alphas ← _challenges statement witness_root multiplicity_root validator_nonce;
              check_identities alphas witness (take table_length counts) (ls_table statement)
    end.
End logup.
End LogUp.
