(* ===== verification/LogUpTheory.v ===== *)
(** * Completeness and soundness of the lookup argument *)

From Stdlib Require Import ZArith Lia Zmod Field.
From stdpp Require Import base gmap list sets strings.
From coqutil Require Import Word.LittleEndianList.
From S2P Require Import Prelude Sha256 Field Merkle MerkleTheory MerkleBinding Poly Rational Validate FoldSumcheck Tables FoldSumcheckTheory LogUp.

Import LogUp.
Local Open Scope Z_scope.

Definition countZ (v : Z) (l : list Z) : nat := length (filter (fun w => w = v) l).

Lemma countZ_le v l : (countZ v l <= length l)%nat.
Proof. apply length_filter. Qed.

Lemma countZ_pos v l : v ∈ l -> (0 < countZ v l)%nat.
Proof.
  intros Hv. unfold countZ.
  destruct (filter (fun w => w = v) l) eqn:E; [|simpl; lia].
  assert (v ∈ filter (fun w => w = v) l) as Hin by by apply list_elem_of_filter.
  rewrite E in Hin. by apply not_elem_of_nil in Hin.
Qed.

Lemma occurrences_countZ v l :
  canonical v -> Forall canonical l -> occurrences (toF v) (toF <$> l) = countZ v l.
Proof.
  intros Hv Hl. unfold occurrences, countZ. induction Hl as [|w l Hw _ IH]; [done|].
  cbn [fmap list_fmap]. change (list_fmap _ _ toF l) with (toF <$> l).
  destruct (decide (w = v)) as [->|Hne].
  - rewrite !filter_cons_True by done. cbn [length]. by rewrite IH.
  - rewrite !filter_cons_False; [done|done|]. intros E. by apply toF_inj in E.
Qed.

(** ** The two sums *)

Lemma left_sum_spec alpha l0 witness :
  (toF alpha ∉ toF <$> witness -> exists r, left_sum alpha l0 witness = Ok r) /\
  forall r, left_sum alpha l0 witness = Ok r ->
    toF alpha ∉ toF <$> witness /\
    toF r = Zmod.add (toF l0) (fsum ((fun v => finv (Zmod.sub (toF alpha) (toF v))) <$> witness)).
Proof.
  revert l0. induction witness as [|v witness IH]; intros l0.
  { split; [by eexists|]. intros r Hr. apply (inj Ok) in Hr as <-.
    split; [apply not_elem_of_nil|]. cbn [fmap list_fmap fsum foldr]. ring. }
  cbn [left_sum fmap list_fmap]. change (list_fmap _ _ ?f witness) with (f <$> witness). split.
  - intros [Hne Hni]%not_elem_of_cons.
    rewrite (proj2 (goldilocks_inv_mod_ok (alpha - v) (_inv_pow ((alpha - v) mod GOLDILOCKS_MODULUS)))).
    2:{ split; [|reflexivity]. rewrite toF_sub. intros E. by apply Hne, F_sub_zero. }
    cbn [mbind res_bind]. by apply IH.
  - intros r Hr. apply bind_ok in Hr as (w&[Hnz ->]%goldilocks_inv_mod_ok&Hr).
    apply IH in Hr as [Hni Hr]. rewrite toF_sub in Hnz. split.
    + apply not_elem_of_cons. split; [|done]. intros E. by apply Hnz, F_sub_zero.
    + rewrite Hr. cbn [fsum foldr]. rewrite toF_mod, toF_add, toF_inv_mod, toF_sub; [|by rewrite toF_sub].
      unfold fsum. ring.
Qed.

Lemma right_sum_spec alpha r0 counts table :
  length counts = length table ->
  (toF alpha ∉ toF <$> table -> exists r, right_sum alpha r0 counts table = Ok r) /\
  forall r, right_sum alpha r0 counts table = Ok r ->
    toF alpha ∉ toF <$> table /\
    toF r = Zmod.add (toF r0)
      (fsum (zip_with (fun c v => Zmod.mul (toF c) (finv (Zmod.sub (toF alpha) (toF v)))) counts table)).
Proof.
  revert r0 table. induction counts as [|c counts IH]; intros r0 [|v table] Hl; try discriminate.
  { split; [by eexists|]. intros r Hr. apply (inj Ok) in Hr as <-.
    split; [apply not_elem_of_nil|]. cbn [zip_with fsum foldr]. ring. }
  injection Hl as Hl.
  cbn [right_sum zip_with fmap list_fmap]. change (list_fmap _ _ ?f table) with (f <$> table). split.
  - intros [Hne Hni]%not_elem_of_cons.
    rewrite (proj2 (goldilocks_inv_mod_ok (alpha - v) (_inv_pow ((alpha - v) mod GOLDILOCKS_MODULUS)))).
    2:{ split; [|reflexivity]. rewrite toF_sub. intros E. by apply Hne, F_sub_zero. }
    cbn [mbind res_bind]. by apply IH.
  - intros r Hr. apply bind_ok in Hr as (w&[Hnz ->]%goldilocks_inv_mod_ok&Hr).
    apply IH in Hr as [Hni Hr]; [|done]. rewrite toF_sub in Hnz. split.
    + apply not_elem_of_cons. split; [|done]. intros E. by apply Hnz, F_sub_zero.
    + rewrite Hr. cbn [fsum foldr].
      rewrite toF_mod, toF_add, toF_mul, toF_inv_mod, toF_sub; [|by rewrite toF_sub].
      unfold fsum. ring.
Qed.

Lemma left_sum_canonical alpha l0 witness r :
  canonical l0 -> left_sum alpha l0 witness = Ok r -> canonical r.
Proof.
  revert l0. induction witness as [|v witness IH]; intros l0 Hc Hr; cbn [left_sum] in Hr.
  - by apply (inj Ok) in Hr as <-.
  - apply bind_ok in Hr as (w&_&Hr). eapply IH; [|exact Hr]. apply mod_canonical.
Qed.

Lemma right_sum_canonical alpha r0 counts table r :
  canonical r0 -> right_sum alpha r0 counts table = Ok r -> canonical r.
Proof.
  revert r0 table. induction counts as [|c counts IH]; intros r0 [|v table] Hc Hr; try discriminate.
  - by apply (inj Ok) in Hr as <-.
  - cbn [right_sum] in Hr. apply bind_ok in Hr as (w&_&Hr). eapply IH; [|exact Hr]. apply mod_canonical.
Qed.

(** The identity as one weighted sum of fractions. *)
Definition weights (witness counts table : list Z) : weighted :=
  ((fun v => (Zmod.one, toF v)) <$> witness)
  ++ zip_with (fun c v => (Zmod.sub Zmod.zero (toF c), toF v)) counts table.

Lemma weights_length witness counts table :
  length counts = length table -> length (weights witness counts table) = (length witness + length table)%nat.
Proof. intros Hl. unfold weights. rewrite length_app, length_fmap, length_zip_with. lia. Qed.

Lemma weights_points witness counts table :
  length counts = length table ->
  (weights witness counts table).*2 = (toF <$> witness) ++ (toF <$> table).
Proof.
  intros Hl. unfold weights. rewrite fmap_app, <- list_fmap_compose. f_equal.
  revert table Hl. induction counts as [|c counts IH]; intros [|v table] Hl; try done.
  cbn. f_equal. apply IH. by injection Hl.
Qed.

Lemma weights_sum witness counts table x :
  wsum (weights witness counts table) x
  = Zmod.sub (fsum ((fun v => finv (Zmod.sub x (toF v))) <$> witness))
      (fsum (zip_with (fun c v => Zmod.mul (toF c) (finv (Zmod.sub x (toF v)))) counts table)).
Proof.
  unfold weights. rewrite wsum_app. unfold wsum at 1. rewrite <- list_fmap_compose.
  unfold compose. cbn [fst snd].
  assert (wsum (zip_with (fun c v => (Zmod.sub Zmod.zero (toF c), toF v)) counts table) x
    = Zmod.sub Zmod.zero
        (fsum (zip_with (fun c v => Zmod.mul (toF c) (finv (Zmod.sub x (toF v)))) counts table))) as ->.
  { revert table. induction counts as [|c counts IH]; intros [|v table];
      try (unfold wsum; cbn [zip_with fmap list_fmap fsum foldr]; ring).
    cbn [zip_with]. change (wsum (?p :: ?W) x) with (Zmod.add (Zmod.mul p.1 (finv (Zmod.sub x p.2))) (wsum W x)).
    rewrite IH. cbn [fst snd fsum foldr]. unfold fsum. ring. }
  assert ((fun v => Zmod.mul Zmod.one (finv (Zmod.sub x (toF v)))) <$> witness
    = (fun v => finv (Zmod.sub x (toF v))) <$> witness) as ->.
  { apply list_fmap_ext. intros _ v _. ring. }
  ring.
Qed.

Lemma check_identities_ok alphas witness counts table :
  length counts = length table ->
  check_identities alphas witness counts table = Ok tt <->
  forall alpha, alpha ∈ alphas ->
    toF alpha ∉ (weights witness counts table).*2 /\ wsum (weights witness counts table) (toF alpha) = Zmod.zero.
Proof.
  intros Hl. rewrite weights_points by done.
  assert (canonical 0) as H0 by (split; [done|apply modulus_pos]).
  induction alphas as [|alpha alphas IH]; cbn [check_identities].
  { split; [|done]. intros _ ? []%not_elem_of_nil. }
  destruct (left_sum_spec alpha 0 witness) as [Hlt Hli].
  destruct (right_sum_spec alpha 0 counts table Hl) as [Hrt Hri]. split.
  - intros Hc. apply bind_ok in Hc as (l&El&Hc). apply bind_ok in Hc as (r&Er&Hc).
    destruct (Z.eqb_spec l r) as [->|]; [|discriminate]. cbn [negb] in Hc.
    apply Hli in El as [Hnl El]. apply Hri in Er as [Hnr Er].
    intros a [->|Ha]%elem_of_cons; [|by apply IH]. split; [by intros [|]%elem_of_app|].
    rewrite weights_sum. apply F_sub_zero. rewrite toF_0, F_add_0_l in El, Er. congruence.
  - intros Hall. destruct (Hall alpha (list_elem_of_here _ _)) as [Hni Hsum].
    destruct Hlt as [l El]; [intros E; apply Hni, elem_of_app; by left|].
    destruct Hrt as [r Er]; [intros E; apply Hni, elem_of_app; by right|].
    rewrite El. cbn [mbind res_bind]. rewrite Er. cbn [mbind res_bind].
    assert (l = r) as ->.
    { apply toF_inj; [exact (left_sum_canonical _ _ _ _ H0 El)|exact (right_sum_canonical _ _ _ _ _ H0 Er)|].
      apply Hli in El as [_ ->]. apply Hri in Er as [_ ->]. f_equal.
      rewrite weights_sum in Hsum. by apply F_sub_zero. }
    rewrite Z.eqb_refl. cbn [negb]. apply IH. intros a Ha. apply Hall. by right.
Qed.

(** ** Coefficients *)

Lemma coef_table counts table u :
  length counts = length table -> NoDup (toF <$> table) ->
  coef (zip_with (fun c v => (Zmod.sub Zmod.zero (toF c), toF v)) counts table) u
  = match list_find (fun v => toF v = u) table with
    | Some (j, _) => Zmod.sub Zmod.zero (toF (nth j counts 0))
    | None => Zmod.zero
    end.
Proof.
  revert table. induction counts as [|c counts IH]; intros [|v table] Hl Hnd; try done.
  injection Hl as Hl. cbn [fmap list_fmap] in Hnd. apply NoDup_cons in Hnd as [Hv Hnd].
  cbn [zip_with]. change (coef (?p :: ?W) u) with (Zmod.add (if decide (p.2 = u) then p.1 else Zmod.zero) (coef W u)).
  cbn [fst snd list_find]. destruct (decide (toF v = u)) as [<-|Hne].
  - rewrite coef_nonmember; [cbn [nth]; ring|].
    assert ((zip_with (fun c v => (Zmod.sub Zmod.zero (toF c), toF v)) counts table).*2 = toF <$> table) as ->;
      [|done]. pose proof (weights_points [] counts table Hl) as E. exact E.
  - rewrite (IH table Hl Hnd). destruct (list_find (fun v => toF v = u) table) as [[j w]|]; cbn; ring.
Qed.

Lemma toF_table_nodup table : Forall canonical table -> NoDup table -> NoDup (toF <$> table).
Proof.
  intros Hc Hnd. apply NoDup_fmap_2_strong; [|done]. rewrite Forall_forall in Hc.
  intros x y Hx Hy. apply toF_inj; by apply Hc.
Qed.

(** All terms cancel exactly when the witness is covered and the multiplicities
    count it. *)
Definition covered (witness counts table : list Z) : Prop :=
  (forall v, v ∈ witness -> v ∈ table) /\
  (forall (j : nat) t, table !! j = Some t -> nth j counts 0 = Z.of_nat (countZ t witness)).

Lemma coef_weights witness counts table u :
  length counts = length table -> NoDup (toF <$> table) ->
  coef (weights witness counts table) u
  = Zmod.sub (toF (Z.of_nat (occurrences u (toF <$> witness))))
      (match list_find (fun v => toF v = u) table with
       | Some (j, _) => toF (nth j counts 0)
       | None => Zmod.zero
       end).
Proof.
  intros Hl Hnd. unfold weights. rewrite coef_app, coef_table by done.
  assert ((fun v => (Zmod.one : F, toF v)) <$> witness = (fun v => (Zmod.one : F, v)) <$> (toF <$> witness)) as ->
    by by rewrite <- list_fmap_compose.
  rewrite coef_ones. destruct (list_find _ table) as [[j w]|]; ring.
Qed.

Lemma cancels_covered witness counts table :
  Forall canonical witness -> Forall canonical table -> Forall canonical counts -> NoDup table ->
  length counts = length table -> zlen witness < 2 ^ 32 ->
  (forall u, coef (weights witness counts table) u = Zmod.zero) <-> covered witness counts table.
Proof.
  intros Hcw Hct Hcc Hnd Hl Hlen. pose proof (toF_table_nodup table Hct Hnd) as HndF.
  pose proof modulus_bounds as Hp. rewrite Forall_forall in Hct. split.
  - intros Hall. split.
    + intros v Hv. destruct (decide (v ∈ table)) as [|Hn]; [done|exfalso].
      specialize (Hall (toF v)). rewrite coef_weights in Hall by done.
      assert (canonical v) as Hcv by (rewrite Forall_forall in Hcw; by apply Hcw).
      destruct (list_find (fun w => toF w = toF v) table) as [[j w]|] eqn:E.
      { apply list_find_Some in E as (Hj&E&_). apply list_elem_of_lookup_2 in Hj.
        apply toF_inj in E as ->; [done|by apply Hct|done]. }
      rewrite occurrences_countZ in Hall by done. apply (proj1 (F_sub_zero _ _)) in Hall.
      pose proof (countZ_pos v witness Hv). pose proof (countZ_le v witness). unfold zlen in Hlen.
      apply toF_zero_iff in Hall; [lia|unfold canonical; lia].
    + intros j t Hj. specialize (Hall (toF t)). rewrite coef_weights in Hall by done.
      assert (canonical t) as Hcv by (apply Hct; by eapply list_elem_of_lookup_2).
      destruct (list_find (fun w => toF w = toF t) table) as [[j' w]|] eqn:E.
      2:{ apply list_find_None in E. rewrite Forall_forall in E. exfalso. eapply E; [|reflexivity].
          by eapply list_elem_of_lookup_2. }
      apply list_find_Some in E as (Hj'&E&_).
      apply toF_inj in E as ->; [|apply Hct; by eapply list_elem_of_lookup_2|done].
      assert (j' = j) as -> by exact (NoDup_lookup table j' j t Hnd Hj' Hj).
      rewrite occurrences_countZ in Hall by done. apply (proj1 (F_sub_zero _ _)) in Hall.
      pose proof (countZ_le t witness). unfold zlen in Hlen.
      symmetry. apply toF_inj; [unfold canonical; lia| |done].
      apply lookup_lt_Some in Hj. destruct (lookup_lt_is_Some_2 counts j) as [c Hc]; [lia|].
      rewrite (nth_lookup_Some _ _ _ _ Hc). by eapply Forall_lookup_1.
  - intros [Hin Hcount] u. rewrite coef_weights by done. apply F_sub_zero.
    destruct (list_find (fun w => toF w = u) table) as [[j w]|] eqn:E.
    + apply list_find_Some in E as (Hj&<-&_). rewrite (Hcount j w Hj).
      rewrite occurrences_countZ; [done|apply Hct; by eapply list_elem_of_lookup_2|done].
    + apply list_find_None in E. rewrite Forall_forall in E.
      unfold occurrences. assert (filter (fun w => w = u) (toF <$> witness) = []) as ->; [|apply toF_0].
      destruct (filter (fun w => w = u) (toF <$> witness)) as [|x xs] eqn:Ef; [done|exfalso].
      assert (x ∈ filter (fun w => w = u) (toF <$> witness)) as Hx by (rewrite Ef; set_solver).
      apply list_elem_of_filter in Hx as [-> (v&->&Hv)%list_elem_of_fmap].
      by apply (E v (Hin v Hv)).
Qed.

(** ** Multiplicities *)

Lemma positions_of_snoc l x : positions_of (l ++ [x]) = <[x := length l]> (positions_of l).
Proof.
  unfold positions_of. rewrite imap_app. cbn [imap]. rewrite fold_left_app. cbn [fold_left fst snd].
  by rewrite Nat.add_0_r.
Qed.

Lemma positions_of_spec table v i :
  NoDup table -> positions_of table !! v = Some i <-> table !! i = Some v.
Proof.
  induction table as [|x l IH] using rev_ind; intros Hnd.
  { unfold positions_of. cbn. by rewrite lookup_empty. }
  apply NoDup_app in Hnd as (Hnd&Hdis&_). rewrite positions_of_snoc, lookup_insert_Some, lookup_app_Some.
  rewrite IH by done. split.
  - intros [[<- <-]|[Hne Hl]]; [right; by rewrite Nat.sub_diag|by left].
  - intros [Hl|[Hge Hx]].
    + right. split; [|done]. intros ->. apply (Hdis v); [by eapply list_elem_of_lookup_2|set_solver].
    + left. apply list_lookup_singleton_Some in Hx as [Hi ->]. split; [done|lia].
Qed.

Lemma count_step_length positions counts v : length (count_step positions counts v) = length counts.
Proof. unfold count_step. destruct (positions !! v); [apply length_alter|done]. Qed.

Lemma count_values_spec table witness :
  NoDup table ->
  length (count_values table witness) = length table /\
  forall j t, table !! j = Some t -> count_values table witness !! j = Some (Z.of_nat (countZ t witness)).
Proof.
  intros Hnd. unfold count_values.
  assert (forall ws counts, length counts = length table ->
    length (fold_left (count_step (positions_of table)) ws counts) = length table /\
    forall j t c, table !! j = Some t -> counts !! j = Some c ->
      fold_left (count_step (positions_of table)) ws counts !! j = Some (c + Z.of_nat (countZ t ws))) as Haux.
  { induction ws as [|w ws IH]; intros counts Hl.
    - split; [done|]. intros j t c _ Hc. cbn [fold_left]. rewrite Hc. f_equal. unfold countZ. cbn. lia.
    - cbn [fold_left]. destruct (IH (count_step (positions_of table) counts w)) as [Hl' Hc'].
      { by rewrite count_step_length. }
      split; [done|]. intros j t c Ht Hc.
      unfold countZ. destruct (decide (w = t)) as [->|Hne].
      + rewrite filter_cons_True by done. cbn [length].
        rewrite (Hc' j t (c + 1) Ht); [unfold countZ; f_equal; lia|].
        unfold count_step. rewrite (proj2 (positions_of_spec table t j Hnd) Ht).
        rewrite list_lookup_alter_eq, Hc. done.
      + rewrite filter_cons_False by done. apply Hc'; [done|].
        unfold count_step. destruct (positions_of table !! w) as [i|] eqn:E; [|done].
        apply positions_of_spec in E; [|done]. rewrite list_lookup_alter_ne; [done|].
        intros ->. congruence. }
  destruct (Haux witness (replicate (length table) 0) (length_replicate _ _)) as [Hl Hc].
  split; [done|]. intros j t Ht. rewrite (Hc j t 0 Ht); [f_equal; lia|].
  apply lookup_replicate_2. by apply lookup_lt_Some in Ht.
Qed.

Lemma padded_length_spec n :
  1 <= n -> exists k : nat, (1 <= k)%nat /\ padded_length n = 2 ^ Z.of_nat k /\ n <= 2 ^ Z.of_nat k
    /\ (n <= 2 ^ 20 -> (k <= 20)%nat).
Proof.
  intros Hn. unfold padded_length. rewrite Z.shiftl_1_l.
  set (e := Z.max 1 (bit_length (n - 1))). exists (Z.to_nat e).
  assert (1 <= e) by lia. rewrite Z2Nat.id by lia. split; [lia|]. split; [done|].
  destruct (decide (n = 1)) as [->|Hne].
  { subst e. split; [by vm_compute|]. intros _. apply Nat.leb_le. reflexivity. }
  subst e. rewrite bit_length_pos by lia. pose proof (Z.log2_spec (n - 1) ltac:(lia)) as [_ Hhi].
  pose proof (Z.log2_nonneg (n - 1)). rewrite Z.max_r by lia. split.
  - rewrite <- Z.add_1_r in Hhi. lia.
  - intros Hcap. assert (Z.log2 (n - 1) < 20); [|lia]. apply Z.log2_lt_pow2; lia.
Qed.

Lemma pad_length values filler :
  1 <= zlen values -> zlen (pad values filler) = padded_length (zlen values).
Proof.
  intros Hn. destruct (padded_length_spec (zlen values) Hn) as (k&_&E&Hle&_). unfold pad.
  unfold zlen at 1. rewrite length_app, length_replicate, Nat2Z.inj_add, Z2Nat.id by lia.
  unfold zlen in *. lia.
Qed.

Lemma size_list_to_set_le (l : list Z) :
  (size (list_to_set l : gset Z) <= length l)%nat
  /\ (size (list_to_set l : gset Z) = length l -> NoDup l).
Proof.
  induction l as [|x l [IH1 IH2]]; [split; [done|constructor]|]. cbn [list_to_set length].
  destruct (decide (x ∈ (list_to_set l : gset Z))) as [Hx|Hx].
  - replace ({[x]} ∪ list_to_set l : gset Z) with (list_to_set l : gset Z) by set_solver.
    split; [lia|]. intros E. lia.
  - rewrite size_union, size_singleton by set_solver. split; [lia|]. intros E.
    constructor; [by rewrite <- (elem_of_list_to_set (C := gset Z))|]. apply IH2. lia.
Qed.

Lemma size_list_to_set_nodup (l : list Z) :
  size (list_to_set l : gset Z) = length l <-> NoDup l.
Proof. split; [apply size_list_to_set_le|apply size_list_to_set]. Qed.

(** ** The verifier *)

Section theory.
Context `{Digest}.

Lemma statement_new_ok bd tv st :
  GoldilocksLogupStatementV3_new bd tv = Ok st ->
  bytes32 (ls_validator_binding_digest st) /\ Forall canonical (ls_table st) /\ NoDup (ls_table st)
  /\ ls_table st <> [] /\ zlen (ls_table st) <= MAX_GOLDILOCKS_LOGUP_ROWS_V3.
Proof.
  unfold GoldilocksLogupStatementV3_new. intros Hs.
  apply bind_ok in Hs as (b&(->&Hb&_)%fixed32_ok&Hs).
  destruct tv as [| | | | |tv| |]; try discriminate. destruct tv as [|v0 vs]; [discriminate|].
  destruct (Z.ltb_spec MAX_GOLDILOCKS_LOGUP_ROWS_V3 (zlen (v0 :: vs))) as [|Hcap]; [discriminate|].
  apply bind_ok in Hs as (t&[Ht Hct]%fields_ok&Hs).
  destruct (Nat.eqb_spec (size (list_to_set t : gset Z)) (length t)) as [Hsz|]; [|discriminate].
  cbn [negb] in Hs. apply (inj Ok) in Hs as <-. cbn [ls_validator_binding_digest ls_table].
  split_and!; [done|done|by apply size_list_to_set_nodup| |].
  - by intros ->.
  - by rewrite Ht, zlen_fmap in Hcap.
Qed.

(** What an accepting verifier has checked. *)
Lemma verify_logup_ok pf st wr mr nonce :
  verify_goldilocks_logup_reference_v3 (Some pf) (Some st) wr mr nonce = Ok tt <->
  exists witness counts Tw Tm alphas,
    lp_witness_opening pf = PInt <$> witness /\ Forall canonical witness
    /\ lp_multiplicity_opening pf = PInt <$> counts /\ Forall canonical counts
    /\ zlen counts = padded_length (zlen (ls_table st))
    /\ Forall (fun c => c = 0) (drop (length (ls_table st)) counts)
    /\ from_rows (py_rows (column_rows witness)) (PBytes (witness_binding_digest st)) = Ok Tw
    /\ wr = PBytes (mt_commitment Tw)
    /\ from_rows (py_rows (column_rows counts)) (PBytes (multiplicity_binding_digest st)) = Ok Tm
    /\ mr = PBytes (mt_commitment Tm)
    /\ Forall (fun c => c <= zlen witness) counts
    /\ _challenges st wr mr nonce = Ok alphas
    /\ check_identities alphas witness (take (length (ls_table st)) counts) (ls_table st) = Ok tt.
Proof.
  unfold verify_goldilocks_logup_reference_v3. rewrite reraise_as_ok. cbv zeta.
  assert (forall (p : Z -> bool) (P : Z -> Prop) l, (forall c, p c = false <-> P c) ->
    existsb p l = false <-> Forall P l) as Hex.
  { intros p P l Hp. induction l as [|c l IH]; cbn [existsb]; [by split; [constructor|]|].
    by rewrite orb_false_iff, Hp, IH, Forall_cons. }
  assert (forall c, negb (c =? 0) = false <-> c = 0) as Hz by (intros c; rewrite negb_false_iff; lia).
  split.
  - intros Hv. apply bind_ok in Hv as (witness&[Hw Hcw]%fields_ok&Hv).
    apply bind_ok in Hv as (counts&[Hc Hcc]%fields_ok&Hv).
    destruct (Z.eqb_spec (zlen counts) (padded_length (zlen (ls_table st)))) as [Hlen|]; [|discriminate].
    cbn [negb] in Hv. destruct (existsb _ (drop _ _)) eqn:Hdrop; [discriminate|].
    apply (Hex _ (fun c => c = 0)) in Hdrop; [|done].
    apply bind_ok in Hv as (Tw&HTw&Hv). destruct (py_eq_bytes (mt_commitment Tw) wr) eqn:Ew; [|discriminate].
    apply py_eq_bytes_spec in Ew. cbn [negb] in Hv.
    apply bind_ok in Hv as (Tm&HTm&Hv). destruct (py_eq_bytes (mt_commitment Tm) mr) eqn:Em; [|discriminate].
    apply py_eq_bytes_spec in Em. cbn [negb] in Hv.
    destruct (existsb _ counts) eqn:Hcap; [discriminate|].
    apply (Hex _ (fun c => c <= zlen witness)) in Hcap; [|intros c; apply Z.ltb_ge].
    apply bind_ok in Hv as (alphas&Hal&Hv). by exists witness, counts, Tw, Tm, alphas.
  - intros (witness&counts&Tw&Tm&alphas&->&Hcw&->&Hcc&Hlen&Hdrop&HTw&->&HTm&->&Hcap&Hal&Hv).
    rewrite !fields_int by done. cbn [mbind res_bind]. rewrite Hlen, Z.eqb_refl. cbn [negb].
    rewrite (proj2 (Hex _ _ _ Hz) Hdrop), HTw. cbn [mbind res_bind].
    rewrite (proj2 (py_eq_bytes_spec _ _)) by done. cbn [negb]. rewrite HTm. cbn [mbind res_bind].
    rewrite (proj2 (py_eq_bytes_spec _ _)) by done. cbn [negb].
    rewrite (proj2 (Hex (fun count => zlen witness <? count) (fun c => c <= zlen witness) counts
      (fun c => Z.ltb_ge _ _)) Hcap).
    by rewrite Hal.
Qed.

Lemma challenges_ok st wr mr nonce alphas :
  _challenges st wr mr nonce = Ok alphas -> length alphas = 2%nat /\ Forall canonical alphas.
Proof.
  unfold _challenges. cbv zeta. intros Hc.
  apply bind_ok in Hc as (?&_&Hc). apply bind_ok in Hc as (?&_&Hc). apply bind_ok in Hc as (?&_&Hc).
  pose proof (mapR_length _ _ _ Hc) as Hl. split; [by rewrite Hl|].
  apply mapR_Forall2 in Hc. eapply Forall2_Forall_r; [exact Hc|]. apply Forall_forall.
  intros i _ a Ha. unfold challenge_at, rejection_sample in Ha.
  destruct (rejection_loop _ _ _ _) as [c|] eqn:E; [|discriminate]. apply (inj Ok) in Ha as <-.
  apply rejection_loop_accepts in E as [Hacc _]. apply andb_true_iff in Hacc as [?%Z.ltb_lt ?%Z.ltb_lt].
  unfold canonical. lia.
Qed.
End theory.

Lemma tree_rows_length `{Digest} xs bv T :
  from_rows (py_rows (column_rows xs)) bv = Ok T -> 1 <= zlen xs <= 2 ^ 21.
Proof.
  intros (b&rows&w&k&->&Hd&Hv&->)%from_rows_ok. apply denotes_py_rows in Hd as ->.
  pose proof (valid_table_zlen _ _ _ _ Hv) as Hz. pose proof (valid_table_k _ _ _ _ Hv).
  unfold column_rows in Hz. rewrite zlen_fmap in Hz. rewrite Hz. split.
  - pose proof (Z.pow_pos_nonneg 2 (Z.of_nat k)). lia.
  - apply Z.pow_le_mono_r; lia.
Qed.

(** C12 (lookup soundness).  Let the frozen trees commit to a witness column and
    a multiplicity column.  If the verifier accepts against their roots, every
    witness value occurs in the public table and the multiplicities count the
    occurrences; or both challenges are points where the logarithmic-derivative
    identity holds by accident; or an opening collides with a frozen tree. *)
Theorem logup_sound `{Digest} bd tv st witness counts Tw Tm pf nonce :
  GoldilocksLogupStatementV3_new bd tv = Ok st ->
  from_rows (py_rows (column_rows witness)) (PBytes (witness_binding_digest st)) = Ok Tw ->
  from_rows (py_rows (column_rows counts)) (PBytes (multiplicity_binding_digest st)) = Ok Tm ->
  verify_goldilocks_logup_reference_v3 (Some pf) (Some st) (PBytes (mt_commitment Tw))
    (PBytes (mt_commitment Tm)) nonce = Ok tt ->
  covered witness (take (length (ls_table st)) counts) (ls_table st)
  \/ (exists alphas, _challenges st (PBytes (mt_commitment Tw)) (PBytes (mt_commitment Tm)) nonce = Ok alphas
       /\ length alphas = 2%nat
       /\ forall alpha, alpha ∈ alphas ->
            lucky_point (weights witness (take (length (ls_table st)) counts) (ls_table st)) (toF alpha))
  \/ second_preimage (inputs_of_tree Tw) \/ second_preimage (inputs_of_tree Tm).
Proof.
  intros Hst HTw HTm Hv.
  apply statement_new_ok in Hst as (_&Hct&Hnd&Hne&_).
  apply verify_logup_ok in Hv as (witness'&counts'&Tw'&Tm'&alphas&_&Hcw&_&Hcc&Hlen&_&HTw'&Ew&HTm'&Em&_&Hal&Hid).
  apply (inj PBytes) in Ew, Em.
  destruct (commitment_binds_tree _ _ _ _ _ _ HTw HTw' (eq_sym Ew)) as [->|]; [|tauto].
  destruct (commitment_binds_tree _ _ _ _ _ _ HTm HTm' (eq_sym Em)) as [->|]; [|tauto].
  pose proof (tree_rows_length _ _ _ HTw) as Hwl.
  apply from_py_rows in HTw, HTw', HTm, HTm'. rewrite HTw in HTw'. rewrite HTm in HTm'.
  apply column_rows_inj in HTw' as <-, HTm' as <-.
  set (table := ls_table st) in *. set (cs := take (length table) counts) in *.
  assert (1 <= zlen table) as Htl by by apply zlen_pos.
  destruct (padded_length_spec (zlen table) Htl) as (k&_&Epad&Hle&_).
  assert (length cs = length table) as Hcl.
  { unfold cs. rewrite length_take. unfold zlen in *. lia. }
  assert (Forall canonical cs) as Hcs by by apply Forall_take.
  pose proof (proj1 (check_identities_ok alphas witness cs table Hcl) Hid) as Hall.
  destruct (decide (Forall (fun u => coef (weights witness cs table) u = Zmod.zero)
    (weights witness cs table).*2)) as [Hz|Hz].
  - left. apply cancels_covered; [done..|lia|]. intros u.
    destruct (decide (u ∈ (weights witness cs table).*2)) as [Hu|Hu]; [|by apply coef_nonmember].
    rewrite Forall_forall in Hz. by apply Hz.
  - right. left. apply not_Forall_Exists in Hz; [|apply _]. apply Exists_exists in Hz as (v&_&Hv).
    exists alphas. split; [done|]. split; [by apply challenges_ok in Hal as [? _]|].
    intros alpha Ha. destruct (Hall alpha Ha) as [Hni H0]. split_and!; [done|done|by exists v].
Qed.

(** (lookup error bound).  Fewer than [|witness| + |table|] of the [p] field
    elements are points where the identity of an uncovered witness holds by
    accident. *)
Theorem logup_lucky_bound witness counts table alphas :
  length counts = length table -> table <> [] -> NoDup alphas ->
  (forall x, x ∈ alphas -> lucky_point (weights witness counts table) x) ->
  (length alphas < length witness + length table)%nat.
Proof.
  intros Hl Hne Hnd Hal. rewrite <- (weights_length witness counts table Hl).
  apply lucky_points_bound; [|done|done]. intros E%(f_equal length).
  rewrite weights_length in E by done. destruct table; [done|simpl in E; lia].
Qed.

(** C39 (lookup completeness).  Freezing a witness whose values all occur in the
    table and proving it gives a proof that the verifier accepts, whenever the
    two challenges are derived and neither is a table value. *)
Theorem logup_complete `{Digest} bd tv st values Tw Tm nonce alphas :
  GoldilocksLogupStatementV3_new bd tv = Ok st ->
  freeze_goldilocks_logup_witness_v3 (Some st) (py_ints values) = Ok (Tw, Tm) ->
  (forall v, v ∈ values -> v ∈ ls_table st) ->
  _challenges st (PBytes (mt_commitment Tw)) (PBytes (mt_commitment Tm)) (PBytes nonce) = Ok alphas ->
  (forall alpha, alpha ∈ alphas -> alpha ∉ ls_table st) ->
  exists pf, prove_goldilocks_logup_reference_v3 Tw Tm = Ok pf
    /\ verify_goldilocks_logup_reference_v3 (Some pf) (Some st) (PBytes (mt_commitment Tw))
         (PBytes (mt_commitment Tm)) (PBytes nonce) = Ok tt.
Proof.
  intros Hst Hfr Hin Hal Hna. apply statement_new_ok in Hst as (_&Hct&Hnd&Hne&Hcap).
  unfold freeze_goldilocks_logup_witness_v3, py_ints in Hfr.
  destruct (PInt <$> values) as [|v0 vs] eqn:Ev; [discriminate|]. rewrite <- Ev in Hfr.
  destruct (Z.ltb_spec MAX_GOLDILOCKS_LOGUP_ROWS_V3 (zlen (PInt <$> values))) as [|_]; [discriminate|].
  apply bind_ok in Hfr as (vals&[Evals Hcv]%fields_ok&Hfr). apply (inj (fmap PInt)) in Evals as <-.
  destruct (ls_table st) as [|t0 ts] eqn:Et; [done|]. rewrite <- Et in *. cbv zeta in Hfr.
  set (witness := pad values t0) in *. set (cv := count_values (ls_table st) witness) in *.
  apply bind_ok in Hfr as (Tw'&HTw&Hfr). apply bind_ok in Hfr as (Tm'&HTm&Hfr).
  apply (inj Ok) in Hfr. injection Hfr as -> ->.
  assert (forall v, v ∈ witness -> v ∈ ls_table st) as Hwin.
  { intros v [Hv|Hv]%elem_of_app; [by apply Hin|]. apply elem_of_replicate in Hv as [-> _].
    rewrite Et. by left. }
  assert (Forall canonical witness) as Hcw.
  { apply Forall_forall. intros v Hv%Hwin. rewrite Forall_forall in Hct. by apply Hct. }
  destruct (count_values_spec (ls_table st) witness Hnd) as [Hcl Hcount]. fold cv in Hcl, Hcount.
  assert (1 <= zlen cv) as Hcv1 by (unfold zlen; rewrite Hcl, Et; simpl; lia).
  assert (take (length (ls_table st)) (pad cv 0) = cv) as Htake.
  { unfold pad. by rewrite <- Hcl, take_app_length. }
  pose proof (tree_rows_length _ _ _ HTw) as Hwl. pose proof modulus_bounds as Hp.
  assert (Forall (fun c => 0 <= c <= zlen witness) cv) as Hcvb.
  { apply Forall_lookup. intros j c Hj. pose proof (lookup_lt_Some _ _ _ Hj) as Hjl. rewrite Hcl in Hjl.
    destruct (lookup_lt_is_Some_2 (ls_table st) j Hjl) as [t Ht]. rewrite (Hcount j t Ht) in Hj.
    injection Hj as <-. pose proof (countZ_le t witness). unfold zlen. lia. }
  assert (Forall (fun c => 0 <= c <= zlen witness) (pad cv 0)) as Hpadb.
  { unfold pad. apply Forall_app. split; [done|]. apply Forall_replicate. unfold zlen in *. lia. }
  pose proof (from_py_rows _ _ _ HTw) as HrW. pose proof (from_py_rows _ _ _ HTm) as HrM.
  unfold prove_goldilocks_logup_reference_v3. rewrite HrW, HrM, !column_firsts. cbn [mbind res_bind].
  assert (GoldilocksLogupProofV3_new (py_ints witness) (py_ints (pad cv 0))
    = Ok (MkLogupProof (PInt <$> witness) (PInt <$> pad cv 0))) as ->.
  { assert (forall nm l, l <> [] -> opening_tuple nm (py_ints l) = Ok (PInt <$> l)) as Ho by (by intros nm []).
    unfold GoldilocksLogupProofV3_new. rewrite (Ho "witness" witness) by (apply zlen_pos; lia). cbn [mbind res_bind].
    rewrite Ho; [done|]. apply zlen_pos. rewrite pad_length by done.
    destruct (padded_length_spec (zlen cv) Hcv1) as (k&_&->&?&_). lia. }
  eexists. split; [reflexivity|]. apply verify_logup_ok.
  exists witness, (pad cv 0), Tw, Tm, alphas. cbn [lp_witness_opening lp_multiplicity_opening].
  split_and!; try done.
  - eapply Forall_impl; [exact Hpadb|]. intros c Hc. cbv beta in Hc. unfold canonical. lia.
  - rewrite pad_length by done. f_equal. unfold zlen. by rewrite Hcl.
  - unfold pad. rewrite <- Hcl, drop_app_length. by apply Forall_replicate.
  - eapply Forall_impl; [exact Hpadb|]. intros c Hc. cbv beta in Hc. lia.
  - rewrite Htake. apply check_identities_ok; [done|]. intros alpha Ha. split.
    + rewrite weights_points by done. rewrite <- fmap_app. intros (v&E&Hv)%list_elem_of_fmap.
      apply challenges_ok in Hal as [_ Hca]. rewrite Forall_forall in Hca, Hct.
      assert (v ∈ ls_table st) as Hvt by (apply elem_of_app in Hv as [?%Hwin|]; done).
      apply toF_inj in E as ->; [by apply (Hna v)|by apply Hca|by apply Hct].
    + rewrite wsum_fractions.
      assert (forall u, coef (weights witness cv (ls_table st)) u = Zmod.zero) as Hz.
      { apply cancels_covered; [done|done| |done|done|lia|].
        - eapply Forall_impl; [exact Hcvb|]. intros c Hc. cbv beta in Hc. unfold canonical. lia.
        - split; [done|]. intros j t Ht. apply nth_lookup_Some. by apply Hcount. }
      unfold fractions. generalize (remove_dups (weights witness cv (ls_table st)).*2). intros l.
      induction l as [|u l IH]; [reflexivity|]. cbn [fmap list_fmap fsum foldr].
      change (list_fmap _ _ ?f l) with (f <$> l). unfold fsum in IH. rewrite IH, Hz. ring.
Qed.

(** ** Witnesses *)

#[local] Existing Instance checksum_digest.

Definition example_statement : GoldilocksLogupStatementV3 :=
  MkLogupStatement (replicate 32 Byte.x05) [2; 3; 5; 7].
Definition example_values : list Z := [3; 7; 3].
Definition example_frozen : GoldilocksMerkleTreeReference * GoldilocksMerkleTreeReference :=
  ok_or (no_tree, no_tree)
    (freeze_goldilocks_logup_witness_v3 (Some example_statement) (py_ints example_values)).
Definition example_logup_proof : GoldilocksLogupProofV3 :=
  ok_or (MkLogupProof [] [])
    (prove_goldilocks_logup_reference_v3 example_frozen.1 example_frozen.2).
Definition example_alphas : list Z :=
  ok_or [] (_challenges example_statement (PBytes (mt_commitment example_frozen.1))
    (PBytes (mt_commitment example_frozen.2)) (PBytes example_nonce)).

Lemma example_statement_new :
  GoldilocksLogupStatementV3_new (PBytes (replicate 32 Byte.x05)) (py_ints [2; 3; 5; 7])
  = Ok example_statement.
Proof. vm_compute. reflexivity. Qed.

Lemma example_freeze :
  freeze_goldilocks_logup_witness_v3 (Some example_statement) (py_ints example_values)
  = Ok (example_frozen.1, example_frozen.2).
Proof. vm_compute. reflexivity. Qed.

Lemma example_witness_tree :
  from_rows (py_rows (column_rows [3; 7; 3; 2])) (PBytes (witness_binding_digest example_statement))
  = Ok example_frozen.1.
Proof. vm_compute. reflexivity. Qed.

Lemma example_counts_tree :
  from_rows (py_rows (column_rows [1; 2; 0; 1])) (PBytes (multiplicity_binding_digest example_statement))
  = Ok example_frozen.2.
Proof. vm_compute. reflexivity. Qed.

Lemma logup_sound_witness :
  covered [3; 7; 3; 2] (take (length (ls_table example_statement)) [1; 2; 0; 1])
    (ls_table example_statement)
  \/ (exists alphas, _challenges example_statement (PBytes (mt_commitment example_frozen.1))
         (PBytes (mt_commitment example_frozen.2)) (PBytes example_nonce) = Ok alphas
       /\ length alphas = 2%nat
       /\ forall alpha, alpha ∈ alphas ->
            lucky_point (weights [3; 7; 3; 2] (take (length (ls_table example_statement)) [1; 2; 0; 1])
              (ls_table example_statement)) (toF alpha))
  \/ second_preimage (inputs_of_tree example_frozen.1)
  \/ second_preimage (inputs_of_tree example_frozen.2).
Proof.
  pose proof (logup_sound (H := checksum_digest) (PBytes (replicate 32 Byte.x05)) (py_ints [2; 3; 5; 7])
    example_statement [3; 7; 3; 2] [1; 2; 0; 1] example_frozen.1 example_frozen.2 example_logup_proof
    (PBytes example_nonce) example_statement_new example_witness_tree example_counts_tree) as Hs.
  refine (Hs _). vm_compute. reflexivity.
Defined.

Lemma logup_lucky_bound_witness :
  (length [toF 7] < length [5%Z] + length [3%Z])%nat.
Proof.
  refine (logup_lucky_bound [5] [2] [3] [toF 7] eq_refl _ _ _); [done|apply NoDup_singleton|].
  intros x ->%list_elem_of_singleton. split; [|split].
  - rewrite weights_points by done. cbn [fmap list_fmap app].
    intros [E|[E|[]%not_elem_of_nil]%elem_of_cons]%elem_of_cons; apply toF_eq in E; vm_compute in E; discriminate.
  - apply (bool_decide_eq_true _). vm_compute. reflexivity.
  - exists (toF 5). apply (bool_decide_eq_false (coef _ _ = _)). vm_compute. reflexivity.
Defined.

Lemma logup_complete_witness :
  exists pf, prove_goldilocks_logup_reference_v3 example_frozen.1 example_frozen.2 = Ok pf
    /\ verify_goldilocks_logup_reference_v3 (Some pf) (Some example_statement)
         (PBytes (mt_commitment example_frozen.1)) (PBytes (mt_commitment example_frozen.2))
         (PBytes example_nonce) = Ok tt.
Proof.
  assert (_challenges example_statement (PBytes (mt_commitment example_frozen.1))
    (PBytes (mt_commitment example_frozen.2)) (PBytes example_nonce) = Ok example_alphas) as Hal
    by (vm_compute; reflexivity).
  pose proof (logup_complete (H := checksum_digest) (PBytes (replicate 32 Byte.x05)) (py_ints [2; 3; 5; 7])
    example_statement example_values example_frozen.1 example_frozen.2 example_nonce example_alphas
    example_statement_new example_freeze) as Hc.
  refine (Hc _ Hal _).
  - intros v Hv. apply list_elem_of_In in Hv. cbn in Hv. cbn [ls_table example_statement].
    apply list_elem_of_In. cbn. tauto.
  - assert (forallb (fun a => bool_decide (a ∉ [2; 3; 5; 7])) example_alphas = true) as Hf
      by (vm_compute; reflexivity).
    intros a Ha. rewrite forallb_forall in Hf. apply list_elem_of_In, Hf in Ha.
    by apply bool_decide_eq_true_1 in Ha.
Defined.
