(* ===== verification/Ram.v ===== *)
(** * The memory argument ([verallm/proof_v3/goldilocks_ram_reference.py])

    Offline memory checking of a committed access log: every access records the
    value and counter it observed, and the multisets of observed and produced
    [(address, value, counter)] tuples are compared by fingerprints at two
    challenge pairs derived after the freeze. *)

From Stdlib Require Import ZArith Lia.
From Stdlib Require Import Strings.Byte.
From stdpp Require Import base gmap list strings sorting.
From coqutil Require Import Word.LittleEndianList.
From S2P Require Import Prelude Sha256 Field Merkle Validate FoldSumcheck LogUp.

Local Open Scope Z_scope.

Module Ram.
Definition GOLDILOCKS_RAM_CHALLENGE_COUNT_V3 : Z := 2.
Definition MAX_GOLDILOCKS_RAM_ACCESSES_V3 : Z := Z.shiftl 1 18.
Definition _STATEMENT_DOMAIN : bytes := b_lit "VERATHOS/PROOF_V3/GOLDILOCKS_RAM/V1/STATEMENT/SHA256".
Definition _LOG_DOMAIN : bytes := b_lit "VERATHOS/PROOF_V3/GOLDILOCKS_RAM/V1/ACCESS_LOG/SHA256".
Definition _CHALLENGE_DOMAIN : bytes := b_lit "VERATHOS/PROOF_V3/GOLDILOCKS_RAM/V1/CHALLENGE/SHA256".
Definition _OP_WRITE : Z := 0.
Definition _OP_READ : Z := 1.

Record GoldilocksRamStatementV3 := MkRamStatement {
  rs_validator_binding_digest : bytes;
  rs_address_count : Z;
  rs_max_accesses : Z;
}.

Definition GoldilocksRamStatementV3_new (validator_binding_digest address_count max_accesses : pyval)
    : res GoldilocksRamStatementV3 :=
  binding ← _fixed32 validator_binding_digest "ram validator_binding_digest" true;
  addresses ← _u32 address_count "address_count" true;
  accesses ← _u32 max_accesses "max_accesses" true;
  if MAX_GOLDILOCKS_RAM_ACCESSES_V3 <? accesses then
    raise ProofV3Error "ram access budget exceeds the CPU reference cap"
  else Ok (MkRamStatement binding addresses accesses).

(** One access; [op] keeps the value that was passed, [True] being equal to 1. *)
Record GoldilocksRamAccessV3 := MkRamAccess {
  ra_op : pyval;
  ra_address : Z;
  ra_value : Z;
  ra_prev_value : Z;
  ra_prev_counter : Z;
}.

Definition GoldilocksRamAccessV3_new (op address value prev_value prev_counter : pyval)
    : res GoldilocksRamAccessV3 :=
  if negb (py_eq_int op _OP_WRITE || py_eq_int op _OP_READ) then
    raise ProofV3Error "ram access op is unsupported"
  else
    a ← Validate._integer address "ram address";
    v ← _field value "ram value";
    pv ← _field prev_value "ram prev_value";
    pc ← Validate._integer prev_counter "ram prev_counter";
    Ok (MkRamAccess op a v pv pc).

Definition row (access : GoldilocksRamAccessV3) : pyval :=
  PTuple [ra_op access; PInt (ra_address access); PInt (ra_value access);
          PInt (ra_prev_value access); PInt (ra_prev_counter access)].

Definition padding_row : pyval := py_ints [2; 0; 0; 0; 0].

(** The loop over the accesses; [None] stands for an object of another type. *)
Fixpoint access_rows (statement : GoldilocksRamStatementV3)
    (accesses : list (option GoldilocksRamAccessV3)) : res (list pyval) :=
  match accesses with
  | [] => Ok []
  | None :: _ => raise ProofV3Error "ram access has an unexpected type"
  | Some access :: accesses =>
      if rs_address_count statement <=? ra_address access then
        raise ProofV3Error "ram access address is out of the signed space"
      else
        rows ← access_rows statement accesses;
        Ok (row access :: rows)
  end.

(** [tuple(row)] *)
Definition py_tuple (v : pyval) : res pyval :=
  match v with
  | PTuple l | PList l => Ok (PTuple l)
  | PBytes b => Ok (PTuple ((fun x => PInt (Z.of_N (Byte.to_N x))) <$> b))
  | PStr s => Ok (PTuple ((fun c => PStr [c]) <$> s))
  | _ => raise TypeError "object is not iterable"
  end.

(** [op, address, value, prev_value, prev_counter = (_integer(part) for part in row)] *)
Definition unpack_row (row : pyval) : res (Z * Z * Z * Z * Z) :=
  items ← py_tuple row;
  match items with
  | PTuple items =>
      parts ← mapR (fun part => Validate._integer part "ram log field") (take 6 items);
      match parts with
      | [op; address; value; prev_value; prev_counter] =>
          Ok (op, address, value, prev_value, prev_counter)
      | _ => raise ValueError "wrong number of values to unpack"
      end
  | _ => raise TypeError "object is not iterable"
  end.

(** [(address, value, counter)] *)
Abbreviation entry := (Z * Z * Z)%type.

(** The variables of the verifier's scan. *)
Record scan := MkScan {
  sc_touched : gmap Z (Z * Z);
  sc_reads : list entry;
  sc_writes : list entry;
  sc_inits : list entry;
  sc_in_padding : bool;
}.
Definition empty_scan : scan := MkScan ∅ [] [] [] false.

(** One iteration of the scan over the rows. *)
Definition scan_row (statement : GoldilocksRamStatementV3) (st : scan) (counter : Z) (row : pyval)
    : res scan :=
  parts ← unpack_row row;
  let '(op, address, value, prev_value, prev_counter) := parts in
  if op =? 2 then
    if negb (bool_decide ((address, value, prev_value, prev_counter) = (0, 0, 0, 0))) then
      raise ProofV3VerificationError "ram padding row is malformed"
    else Ok (MkScan (sc_touched st) (sc_reads st) (sc_writes st) (sc_inits st) true)
  else if sc_in_padding st then
    raise ProofV3VerificationError "ram real access appears after padding"
  else if negb ((op =? _OP_WRITE) || (op =? _OP_READ)) then
    raise ProofV3VerificationError "ram access op is unsupported"
  else if negb ((0 <=? address) && (address <? rs_address_count statement)) then
    raise ProofV3VerificationError "ram address is out of range"
  else
    _field (PInt value) "ram value" ≫= fun _ =>
    _field (PInt prev_value) "ram prev_value" ≫= fun _ =>
    if (counter <=? prev_counter) || (prev_counter <? 0) then
      raise ProofV3VerificationError "ram access counter is not monotone"
    else
      let fresh := bool_decide (sc_touched st !! address = None) in
      if fresh && (negb (prev_counter =? 0) || negb (prev_value =? 0)) then
        raise ProofV3VerificationError "ram first access must observe the zero init state"
      else
        let inits := if fresh then sc_inits st ++ [(address, 0, 0)] else sc_inits st in
        let reads := sc_reads st ++ [(address, prev_value, prev_counter)] in
        let new_value := if op =? _OP_WRITE then value else prev_value in
        if (op =? _OP_READ) && negb (value =? prev_value) then
          raise ProofV3VerificationError "ram read must return its observed previous value"
        else
          Ok (MkScan (<[address := (new_value, counter)]> (sc_touched st)) reads
                (sc_writes st ++ [(address, new_value, counter)]) inits (sc_in_padding st)).

Fixpoint scan_rows (statement : GoldilocksRamStatementV3) (st : scan) (counter : Z)
    (rows : list pyval) : res scan :=
  match rows with
  | [] => Ok st
  | row :: rows =>
      st ← scan_row statement st counter row;
      scan_rows statement st (counter + 1) rows
  end.

(** Keys are distinct, so sorting the items compares addresses only. *)
Definition by_address (x y : Z * (Z * Z)) : Prop := x.1 <= y.1.
#[export] Instance by_address_dec x y : Decision (by_address x y).
Proof. unfold by_address. apply _. Defined.

(** [for address, (value, counter) in sorted(touched.items())] *)
Definition final_tuples (touched : gmap Z (Z * Z)) : list entry :=
  (fun p => (p.1, p.2.1, p.2.2)) <$>
    merge_sort by_address (map_to_list touched).

Definition _fingerprint (address value counter gamma : Z) : Z :=
  (address + gamma * value + gamma * gamma mod GOLDILOCKS_MODULUS * counter) mod GOLDILOCKS_MODULUS.

Fixpoint side (alpha gamma total : Z) (tuples : list entry) : res Z :=
  match tuples with
  | [] => Ok total
  | (address, value, counter) :: tuples =>
      let denominator := (alpha - _fingerprint address value counter gamma) mod GOLDILOCKS_MODULUS in
      inverse ← goldilocks_inv (PInt denominator);
      side alpha gamma ((total + inverse) mod GOLDILOCKS_MODULUS) tuples
  end.

Fixpoint check_pairs (st : scan) (pairs : list (Z * Z)) : res unit :=
  match pairs with
  | [] => Ok tt
  | (alpha, gamma) :: pairs =>
      reads ← side alpha gamma 0 (sc_reads st);
      finals ← side alpha gamma 0 (final_tuples (sc_touched st));
      writes ← side alpha gamma 0 (sc_writes st);
      inits ← side alpha gamma 0 (sc_inits st);
      let l := (reads + finals) mod GOLDILOCKS_MODULUS in
      let r := (writes + inits) mod GOLDILOCKS_MODULUS in
      if negb (l =? r) then
        raise ProofV3VerificationError "ram multiset identity fails: log is not consistent"
      else check_pairs st pairs
  end.

(** The opened log: a non-empty tuple. *)
Record GoldilocksRamProofV3 := MkRamProof { rp_log_opening : list pyval }.

Definition GoldilocksRamProofV3_new (log_opening : pyval) : res GoldilocksRamProofV3 :=
  match log_opening with
  | PTuple ((_ :: _) as rows) => Ok (MkRamProof rows)
  | _ => raise ProofV3Error "ram log opening is malformed"
  end.

Definition prove_goldilocks_ram_reference_v3 (log_tree : GoldilocksMerkleTreeReference)
    : res GoldilocksRamProofV3 :=
  GoldilocksRamProofV3_new (py_rows (mt_rows log_tree)).

Section ram.
Context `{Digest}.

Definition digest (st : GoldilocksRamStatementV3) : bytes :=
  sha256 (_STATEMENT_DOMAIN ++ rs_validator_binding_digest st ++ pack_I (rs_address_count st)
          ++ pack_I (rs_max_accesses st)).
Definition log_binding_digest (st : GoldilocksRamStatementV3) : bytes :=
  sha256 (_LOG_DOMAIN ++ digest st).

(** [None] stands for a statement, or a log, of another type. *)
Definition freeze_goldilocks_ram_log_v3 (statement : option GoldilocksRamStatementV3)
    (accesses : option (list (option GoldilocksRamAccessV3))) : res GoldilocksMerkleTreeReference :=
  match statement with
  | None => raise ProofV3Error "ram statement has an unexpected type"
  | Some statement =>
      match accesses with
      | Some ((_ :: _) as accesses) =>
          if rs_max_accesses statement <? zlen accesses then
            raise ProofV3Error "ram access log exceeds the signed budget"
          else
            rows ← access_rows statement accesses;
            let padded := LogUp.padded_length (zlen rows) in
            from_rows (PTuple (rows ++ replicate (Z.to_nat (padded - zlen rows)) padding_row))
              (PBytes (log_binding_digest statement))
      | _ => raise ProofV3Error "ram access log must be a non-empty tuple"
      end
  end.

Definition challenge_part (seed : bytes) (pair_index part : Z) : res Z :=
  rejection_sample
    (fun counter => le_combine (take 8 (sha256 (seed ++ pack_I pair_index ++ pack_I part
                                                 ++ pack_I counter))))
    (fun candidate => (0 <? candidate) && (candidate <? GOLDILOCKS_MODULUS))
    "unable to derive a ram challenge".

Definition _challenges (statement : GoldilocksRamStatementV3) (log_root validator_nonce : pyval)
    : res (list (Z * Z)) :=
  lr ← _fixed32 log_root "log_root" false;
  vn ← _fixed32 validator_nonce "validator_nonce" false;
  let seed := sha256 (_CHALLENGE_DOMAIN ++ digest statement ++ lr ++ vn) in
  mapR (fun pair_index => alpha ← challenge_part seed pair_index 0;
                          gamma ← challenge_part seed pair_index 1;
                          Ok (alpha, gamma))
    (seqZ 0 GOLDILOCKS_RAM_CHALLENGE_COUNT_V3).

Definition verify_goldilocks_ram_reference_v3 (proof : option GoldilocksRamProofV3)
    (statement : option GoldilocksRamStatementV3) (log_root validator_nonce : pyval) : res unit :=
  reraise_as [ProofV3VerificationError]
    [IndexError; KeyError; TypeError; ValueError; ProofV3Error]
    ProofV3VerificationError "ram proof is malformed"
    match proof, statement with
    | None, _ => raise ProofV3VerificationError "ram proof type is unexpected"
    | _, None => raise ProofV3VerificationError "ram statement is malformed"
    | Some proof, Some statement =>
        let rows := rp_log_opening proof in
        tuples ← mapR py_tuple rows;
        rebuilt ← from_rows (PTuple tuples) (PBytes (log_binding_digest statement));
        if negb (py_eq_bytes (mt_commitment rebuilt) log_root) then
          raise ProofV3VerificationError "ram log opening does not match the frozen root"
        else
          st ← scan_rows statement empty_scan 1 rows;
          if bool_decide (sc_touched st = ∅) then
            raise ProofV3VerificationError "ram log has no real accesses"
          else
            pairs ← _challenges statement log_root validator_nonce;
            check_pairs st pairs
    end.
End ram.
End Ram.
