(* ===== verification/RamTheory.v ===== *)
(** * Soundness and completeness of the memory argument *)

From Stdlib Require Import ZArith Lia Zmod Field.
From coqutil Require Import Word.LittleEndianList.
From stdpp Require Import base gmap list sets strings sorting.
From S2P Require Import Prelude Sha256 Field Merkle MerkleTheory MerkleBinding Poly Rational Validate FoldSumcheck Tables FoldSumcheckTheory LogUp LogUpTheory Ram.

Import Ram.
Local Open Scope Z_scope.

(** ** The reference memory

    What the log should mean: a memory that is zero until written.  A row is
    accepted when the value it claims to have observed is the one the memory
    holds, and a read returns it. *)

Abbreviation access := (Z * Z * Z * Z * Z)%type.

Definition peek (mem : gmap Z Z) (address : Z) : Z := default 0 (mem !! address).

Definition replay_step (mem : gmap Z Z) (x : access) : option (gmap Z Z) :=
  let '(op, address, value, prev_value, _) := x in
  if op =? 2 then Some mem
  else if negb (prev_value =? peek mem address) then None
  else if op =? _OP_WRITE then Some (<[address := value]> mem)
  else if value =? peek mem address then Some mem else None.

Fixpoint replay (mem : gmap Z Z) (log : list access) : option (gmap Z Z) :=
  match log with
  | [] => Some mem
  | x :: log => mem ← replay_step mem x; replay mem log
  end.

(** ** Final tuples *)

Definition entry_of (p : Z * (Z * Z)) : entry := (p.1, p.2.1, p.2.2).

Lemma final_tuples_perm touched : final_tuples touched ≡ₚ entry_of <$> map_to_list touched.
Proof. unfold final_tuples. apply fmap_Permutation, merge_sort_Permutation. Qed.

Lemma elem_of_final_tuples touched a v k :
  (a, v, k) ∈ final_tuples touched <-> touched !! a = Some (v, k).
Proof.
  rewrite final_tuples_perm, list_elem_of_fmap. split.
  - intros ([a' [v' k']]&E&Hin). injection E as -> -> ->. by apply elem_of_map_to_list.
  - intros Hl. exists (a, (v, k)). split; [done|]. by apply elem_of_map_to_list.
Qed.

Lemma final_tuples_insert_fresh touched a v k :
  touched !! a = None -> final_tuples (<[a := (v, k)]> touched) ≡ₚ (a, v, k) :: final_tuples touched.
Proof.
  intros Hn. etransitivity; [apply final_tuples_perm|].
  etransitivity; [apply fmap_Permutation, map_to_list_insert, Hn|].
  apply Permutation_cons; [done|]. symmetry. apply final_tuples_perm.
Qed.

Lemma final_tuples_insert touched a v k v' k' :
  touched !! a = Some (v', k') ->
  (a, v', k') :: final_tuples (<[a := (v, k)]> touched) ≡ₚ (a, v, k) :: final_tuples touched.
Proof.
  intros Hl. rewrite <- insert_delete_eq.
  etransitivity; [apply Permutation_cons, final_tuples_insert_fresh, lookup_delete_eq; done|].
  etransitivity; [apply perm_swap|]. apply Permutation_cons; [done|]. symmetry.
  rewrite <- (insert_delete_id _ _ _ Hl) at 1. apply final_tuples_insert_fresh, lookup_delete_eq.
Qed.

(** ** One row *)

(** The effect of a real access on the scan. *)
Record access_ok (statement : GoldilocksRamStatementV3) (st : scan) (counter : Z)
    (op address value prev_value prev_counter : Z) (st' : scan) : Prop := {
  ao_op : op = _OP_WRITE \/ op = _OP_READ;
  ao_address : 0 <= address < rs_address_count statement;
  ao_value : canonical value;
  ao_prev_value : canonical prev_value;
  ao_prev_counter : 0 <= prev_counter < counter;
  ao_fresh : sc_touched st !! address = None -> prev_counter = 0 /\ prev_value = 0;
  ao_read : op = _OP_READ -> value = prev_value;
  ao_result : st' = MkScan (<[address := (value, counter)]> (sc_touched st))
                (sc_reads st ++ [(address, prev_value, prev_counter)])
                (sc_writes st ++ [(address, value, counter)])
                (if bool_decide (sc_touched st !! address = None)
                 then sc_inits st ++ [(address, 0, 0)] else sc_inits st)
                false;
}.

Lemma scan_row_ok statement st counter row st' :
  scan_row statement st counter row = Ok st' <->
  exists op address value prev_value prev_counter,
    unpack_row row = Ok (op, address, value, prev_value, prev_counter) /\
    ((op = 2 /\ address = 0 /\ value = 0 /\ prev_value = 0 /\ prev_counter = 0
      /\ st' = MkScan (sc_touched st) (sc_reads st) (sc_writes st) (sc_inits st) true)
     \/ (sc_in_padding st = false
         /\ access_ok statement st counter op address value prev_value prev_counter st')).
Proof.
  unfold scan_row. rewrite bind_ok. split.
  - intros ([[[[op a] v] pv] pc]&Hp&Hr). exists op, a, v, pv, pc. split; [done|].
    destruct (Z.eqb_spec op 2) as [->|H2].
    { left. case_bool_decide as E; [|discriminate]. injection E as -> -> -> ->. cbn [negb] in Hr.
      apply (inj Ok) in Hr as <-. done. }
    right. destruct (sc_in_padding st) eqn:Ep; [discriminate|]. split; [done|].
    destruct ((op =? _OP_WRITE) || (op =? _OP_READ)) eqn:Eop; [|discriminate]. cbn [negb] in Hr.
    destruct ((0 <=? a) && (a <? rs_address_count statement)) eqn:Ea; [|discriminate]. cbn [negb] in Hr.
    apply bind_ok in Hr as (?&[[= <-] Hv]%field_ok&Hr). apply bind_ok in Hr as (?&[[= <-] Hpv]%field_ok&Hr).
    destruct ((counter <=? pc) || (pc <? 0)) eqn:Ec; [discriminate|]. cbv zeta in Hr.
    destruct (bool_decide (sc_touched st !! a = None) && (negb (pc =? 0) || negb (pv =? 0))) eqn:Ef; [discriminate|].
    destruct ((op =? _OP_READ) && negb (v =? pv)) eqn:Er; [discriminate|]. apply (inj Ok) in Hr as <-.
    assert (op = _OP_WRITE \/ op = _OP_READ) as Hop by (apply orb_true_iff in Eop; lia).
    assert (op = _OP_READ -> v = pv) as Hread.
    { intros ->. rewrite Z.eqb_refl in Er. cbn [andb] in Er. apply negb_false_iff in Er. lia. }
    assert ((if op =? _OP_WRITE then v else pv) = v) as Hnew.
    { destruct Hop as [->| ->]; [done|]. symmetry. by apply Hread. }
    rewrite Hnew. split; try done; [lia|lia|].
    intros Hf. rewrite bool_decide_eq_true_2 in Ef by done. cbn [andb] in Ef. lia.
  - intros (op&a&v&pv&pc&Hp&Hcases). eexists. split; [exact Hp|].
    destruct Hcases as [(->&->&->&->&->&->)|[Hpad [Hop Ha Hv Hpv Hc Hf Hread ->]]]; [done|].
    rewrite Hpad. destruct (Z.eqb_spec op 2) as [->|_]; [by destruct Hop|].
    assert ((op =? _OP_WRITE) || (op =? _OP_READ) = true) as -> by (destruct Hop as [->| ->]; done).
    rewrite (proj2 (Z.leb_le 0 a)), (proj2 (Z.ltb_lt a (rs_address_count statement))) by lia. cbn [andb negb].
    rewrite !field_int by done. cbn [mbind res_bind].
    rewrite (proj2 (Z.leb_gt counter pc)), (proj2 (Z.ltb_ge pc 0)) by lia. cbn [orb].
    assert (bool_decide (sc_touched st !! a = None) && (negb (pc =? 0) || negb (pv =? 0)) = false) as ->.
    { case_bool_decide as Hn; [|done]. destruct (Hf Hn) as [-> ->]. done. }
    assert ((op =? _OP_READ) && negb (v =? pv) = false) as ->.
    { destruct (Z.eqb_spec op _OP_READ) as [E|]; [|done]. rewrite (Hread E), Z.eqb_refl. done. }
    assert ((if op =? _OP_WRITE then v else pv) = v) as ->.
    { destruct Hop as [->| ->]; [done|]. symmetry. by apply Hread. }
    done.
Qed.

(** ** Growth of the scan *)

(** Produced tuples are distinct: writes by their counters, inits by their
    addresses. *)
Record produced_ok (st : scan) (counter : Z) : Prop := {
  po_nodup : NoDup (sc_writes st ++ sc_inits st);
  po_writes a v k : (a, v, k) ∈ sc_writes st -> 1 <= k < counter /\ is_Some (sc_touched st !! a);
  po_inits a v k : (a, v, k) ∈ sc_inits st -> v = 0 /\ k = 0 /\ is_Some (sc_touched st !! a);
}.

(** What [st'] adds to [st]. *)
Record extends (st : scan) (counter : Z) (st' : scan) : Prop := {
  ex_reads : exists l, sc_reads st' = sc_reads st ++ l;
  ex_writes e : e ∈ sc_writes st' -> e ∈ sc_writes st \/ counter <= e.2;
  ex_inits e : e ∈ sc_inits st' -> e ∈ sc_inits st \/ sc_touched st !! e.1.1 = None;
  ex_touched a : is_Some (sc_touched st !! a) -> is_Some (sc_touched st' !! a);
}.

Lemma extends_refl st counter : extends st counter st.
Proof. split; auto. exists []. by rewrite app_nil_r. Qed.

Lemma extends_trans st c st1 c1 st2 :
  c <= c1 -> extends st c st1 -> extends st1 c1 st2 -> extends st c st2.
Proof.
  intros Hc [(l&R1) W1 I1 T1] [(l'&R2) W2 I2 T2]. split.
  - exists (l ++ l'). by rewrite R2, R1, app_assoc.
  - intros e [He|]%W2; [by apply W1|right; lia].
  - intros e [He|Hn]%I2; [by apply I1|right].
    destruct (sc_touched st !! e.1.1) eqn:E; [|done]. destruct (T1 e.1.1) as [? E']; [by rewrite E|]. congruence.
  - intros a Ha. by apply T2, T1.
Qed.

Lemma access_extends statement st counter op a v pv pc st' :
  access_ok statement st counter op a v pv pc st' -> extends st counter st'.
Proof.
  intros [_ _ _ _ _ _ _ ->]. split; cbn [sc_reads sc_writes sc_inits sc_touched].
  - by eexists.
  - intros e [?| ->%list_elem_of_singleton]%elem_of_app; [by left|right; simpl; lia].
  - intros e. case_bool_decide as Hn; [|by left].
    intros [?| ->%list_elem_of_singleton]%elem_of_app; [by left|by right].
  - intros b Hb. destruct (decide (b = a)) as [->|]; [rewrite lookup_insert_eq; by eexists|].
    by rewrite lookup_insert_ne.
Qed.

Lemma access_produced statement st counter op a v pv pc st' :
  1 <= counter -> access_ok statement st counter op a v pv pc st' ->
  produced_ok st counter -> produced_ok st' (counter + 1).
Proof.
  intros Hc1 Hok [Hnd Hw Hi]. pose proof (ex_touched _ _ _ (access_extends _ _ _ _ _ _ _ _ _ Hok)) as Ht.
  destruct Hok as [_ _ _ _ _ _ _ ->]. cbn [sc_touched] in Ht.
  assert ((a, v, counter) ∉ sc_writes st ++ sc_inits st) as Hwn.
  { intros [[? _]%Hw|(_&->&_)%Hi]%elem_of_app; lia. }
  split; cbn [sc_writes sc_inits sc_touched].
  - case_bool_decide as Hn.
    + rewrite (assoc (++)), <- (assoc (++) (sc_writes st)), (comm (++) [_] (sc_inits st)), (assoc (++)).
      rewrite <- (assoc (++) (sc_writes st ++ sc_inits st)). apply NoDup_app. split; [done|]. split.
      * intros e He [-> |[-> |[]%not_elem_of_nil]%elem_of_cons]%elem_of_cons; [done|].
        apply elem_of_app in He as [[_ [? E]]%Hw|(_&_&[? E])%Hi]; congruence.
      * apply NoDup_cons. split; [|apply NoDup_singleton]. rewrite list_elem_of_singleton.
        intros [= _ E]. lia.
    + rewrite <- (assoc (++)), (comm (++) [_] (sc_inits st)), (assoc (++)).
      apply NoDup_app. split; [done|]. split; [|apply NoDup_singleton].
      by intros e He ->%list_elem_of_singleton.
  - intros a' v' k [[? ?]%Hw|[= -> -> ->]%list_elem_of_singleton]%elem_of_app.
    + split; [lia|by apply Ht].
    + split; [lia|]. rewrite lookup_insert_eq. by eexists.
  - intros a' v' k He. case_bool_decide as Hn.
    + apply elem_of_app in He as [(?&?&?)%Hi|[= -> -> ->]%list_elem_of_singleton].
      * split_and!; [done|done|by apply Ht].
      * split_and!; [done|done|]. rewrite lookup_insert_eq. by eexists.
    + apply Hi in He as (?&?&?). split_and!; [done|done|by apply Ht].
Qed.

Lemma padding_fields st : let st' := MkScan (sc_touched st) (sc_reads st) (sc_writes st) (sc_inits st) true in
  forall c, extends st c st' /\ (produced_ok st c -> produced_ok st' (c + 1)).
Proof.
  intros st' c. split; [split; auto; exists []; by rewrite app_nil_r|].
  intros [Hnd Hw Hi]. split; [done| |done]. intros a v k [? ?]%Hw. split; [lia|done].
Qed.

Lemma scan_rows_extends statement st c rows st' :
  1 <= c -> scan_rows statement st c rows = Ok st' -> produced_ok st c ->
  extends st c st' /\ produced_ok st' (c + zlen rows).
Proof.
  revert st c. induction rows as [|row rows IH]; intros st c Hc Hs Hp; cbn [scan_rows] in Hs.
  { apply (inj Ok) in Hs as <-. split; [apply extends_refl|]. unfold zlen. cbn [length Z.of_nat].
    by rewrite Z.add_0_r. }
  apply bind_ok in Hs as (st1&H1&Hs).
  assert (extends st c st1 /\ produced_ok st1 (c + 1)) as [He1 Hp1].
  { apply scan_row_ok in H1 as (op&a&v&pv&pc&_&[(_&_&_&_&_&->)|[_ Ha]]).
    - destruct (padding_fields st c) as [? Hpp]. split; [done|by apply Hpp].
    - split; [by eapply access_extends|by eapply access_produced]. }
  apply IH in Hs as [He2 Hp2]; [|lia|done]. split; [by eapply extends_trans; [|exact He1|exact He2]; lia|].
  rewrite zlen_cons. by replace (c + (zlen rows + 1)) with (c + 1 + zlen rows) by lia.
Qed.

(** ** Consistency

    [balanced]: what was observed, with the closing tuples, is what was
    produced.  A balanced scan has no stale observation: one would be a tuple
    observed twice, and tuples are produced once. *)

Definition consumed (st : scan) : list entry := sc_reads st ++ final_tuples (sc_touched st).
Definition produced (st : scan) : list entry := sc_writes st ++ sc_inits st.
Definition balanced (st : scan) : Prop := consumed st ≡ₚ produced st.

(** The memory the scan has seen so far. *)
Definition mirrors (mem : gmap Z Z) (touched : gmap Z (Z * Z)) : Prop :=
  forall a, peek mem a = default 0 (fst <$> touched !! a).

Lemma observed_current st st1 c st' a v pv pc statement op v0 k0 :
  access_ok statement st c op a v pv pc st1 -> sc_touched st !! a = Some (v0, k0) ->
  balanced st -> extends st c st' -> (exists l, sc_reads st' = sc_reads st1 ++ l) ->
  NoDup (produced st') -> balanced st' -> (pv, pc) = (v0, k0).
Proof.
  intros [_ _ _ _ Hpc _ _ ->] Ha Hb [_ Hw Hi _] (l&Hl) Hnd Hb'. cbn [sc_reads] in Hl.
  unfold balanced in Hb, Hb'.
  destruct (decide ((pv, pc) = (v0, k0))) as [|Hne]; [done|exfalso].
  assert ((a, pv, pc) ∈ produced st') as Hin.
  { rewrite <- Hb'. unfold consumed. rewrite Hl, !elem_of_app, list_elem_of_singleton. auto. }
  assert ((a, pv, pc) ∈ sc_reads st) as Hr.
  { assert ((a, pv, pc) ∈ produced st) as Hp.
    { unfold produced. apply elem_of_app in Hin as [Hin|Hin].
      - apply Hw in Hin as [?|Hge]; [by apply elem_of_app; left|]. cbn [snd] in Hge. lia.
      - apply Hi in Hin as [?|Hn]; [by apply elem_of_app; right|]. cbn [fst] in Hn. congruence. }
    rewrite <- Hb in Hp. apply elem_of_app in Hp as [|Hf%elem_of_final_tuples]; [done|]. congruence. }
  rewrite <- Hb' in Hnd. unfold consumed in Hnd. rewrite Hl, <- !(assoc (++)) in Hnd.
  apply NoDup_app in Hnd as (_&Hdis&_). apply (Hdis _ Hr). apply elem_of_app. left.
  by apply list_elem_of_singleton.
Qed.

(** An access that observes the current tuple keeps the balance. *)
Lemma access_balanced statement st c op a v pv pc st' :
  access_ok statement st c op a v pv pc st' ->
  (forall v0 k0, sc_touched st !! a = Some (v0, k0) -> (pv, pc) = (v0, k0)) ->
  balanced st -> balanced st'.
Proof.
  intros [_ _ _ _ _ Hf _ ->] Hcur Hb. unfold balanced, consumed, produced in *.
  cbn [sc_reads sc_writes sc_inits sc_touched].
  destruct (sc_touched st !! a) as [[v0 k0]|] eqn:Ha.
  - rewrite bool_decide_eq_false_2 by done. specialize (Hcur _ _ eq_refl). injection Hcur as -> ->.
    rewrite <- !(assoc (++)). cbn [app]. rewrite (final_tuples_insert _ a v c v0 k0) by done.
    rewrite <- !Permutation_middle. by apply Permutation_cons.
  - rewrite bool_decide_eq_true_2 by done. destruct (Hf eq_refl) as [-> ->].
    rewrite final_tuples_insert_fresh by done. rewrite <- !(assoc (++)). cbn [app].
    rewrite (Permutation_app_comm (sc_inits st) [_]). cbn [app]. rewrite <- !Permutation_middle, perm_swap.
    by rewrite Hb.
Qed.

Lemma replay_access statement st c op a v pv pc st' mem :
  access_ok statement st c op a v pv pc st' -> mirrors mem (sc_touched st) ->
  (forall v0 k0, sc_touched st !! a = Some (v0, k0) -> (pv, pc) = (v0, k0)) ->
  exists mem', replay_step mem (op, a, v, pv, pc) = Some mem' /\ mirrors mem' (sc_touched st').
Proof.
  intros [Hop _ _ _ _ Hf Hr ->] Hm Hcur. cbn [sc_touched].
  assert (pv = peek mem a) as Hpv.
  { rewrite Hm. destruct (sc_touched st !! a) as [[v0 k0]|] eqn:Ha; simpl.
    - by injection (Hcur _ _ eq_refl) as -> ->.
    - by apply Hf. }
  assert (forall mem', peek mem' a = v -> (forall b, b <> a -> peek mem' b = peek mem b) ->
    mirrors mem' (<[a := (v, c)]> (sc_touched st))) as Hext.
  { intros mem' E1 E2 b. destruct (decide (b = a)) as [->|Hne].
    - by rewrite lookup_insert_eq.
    - rewrite lookup_insert_ne by done. by rewrite E2, Hm. }
  unfold replay_step. rewrite (proj2 (Z.eqb_neq op 2)) by (destruct Hop as [-> | ->]; done).
  rewrite <- Hpv, Z.eqb_refl. cbn [negb]. destruct Hop as [-> | ->].
  - eexists. split; [done|]. apply Hext; unfold peek.
    + by rewrite lookup_insert_eq.
    + intros b Hne. by rewrite lookup_insert_ne.
  - rewrite (Hr eq_refl), Z.eqb_refl. eexists. split; [done|].
    rewrite <- (Hr eq_refl). apply Hext; [|done]. by rewrite (Hr eq_refl).
Qed.

(** A balanced scan replays. *)
Lemma balanced_replays statement rows st c st' mem :
  1 <= c -> scan_rows statement st c rows = Ok st' -> produced_ok st c ->
  balanced st -> mirrors mem (sc_touched st) -> balanced st' ->
  exists log mem', mapR unpack_row rows = Ok log /\ replay mem log = Some mem'.
Proof.
  revert st c mem. induction rows as [|row rows IH]; intros st c mem Hc Hs Hp Hb Hm Hb'.
  { exists [], mem. done. }
  pose proof (scan_rows_extends _ _ _ _ _ Hc Hs Hp) as [He Hp']. cbn [scan_rows] in Hs.
  apply bind_ok in Hs as (st1&H1&Hs). cbn [mapR].
  apply scan_row_ok in H1 as (op&a&v&pv&pc&->&[(->&->&->&->&->&->)|[_ Ha]]); cbn [mbind res_bind].
  - destruct (padding_fields st c) as [_ Hpp].
    eapply (IH _ (c + 1) mem) in Hs as (log&mem'&->&Hr); [|lia|by apply Hpp|done|done|done].
    exists ((2, 0, 0, 0, 0) :: log), mem'. done.
  - assert (produced_ok st1 (c + 1)) as Hp1 by by eapply access_produced.
    assert (1 <= c + 1) as Hc1 by lia.
    pose proof (scan_rows_extends _ _ _ _ _ Hc1 Hs Hp1) as [[Hr1 _ _ _] _].
    assert (forall v0 k0, sc_touched st !! a = Some (v0, k0) -> (pv, pc) = (v0, k0)) as Hcur.
    { intros v0 k0 Hl. eapply observed_current; [done..|apply Hp'|done]. }
    destruct (replay_access _ _ _ _ _ _ _ _ _ mem Ha Hm Hcur) as (mem1&Hst&Hm1).
    eapply (IH _ (c + 1) mem1) in Hs as (log&mem'&->&Hr); [|lia|done| |done|done].
    + exists ((op, a, v, pv, pc) :: log), mem'. split; [done|]. cbn [replay]. by rewrite Hst.
    + by eapply access_balanced.
Qed.

Lemma scan_replays statement rows st :
  scan_rows statement empty_scan 1 rows = Ok st -> balanced st ->
  exists log mem, mapR unpack_row rows = Ok log /\ replay ∅ log = Some mem.
Proof.
  intros Hs Hb. eapply (balanced_replays statement rows empty_scan 1 st); try done.
  - split; [by apply NoDup_nil_2|by intros ??? ?%not_elem_of_nil..].
  - vm_compute. constructor.
Qed.

(** ** Fingerprints *)

Definition fingerprint (gamma : F) (e : entry) : F :=
  Zmod.add (Zmod.add (toF e.1.1) (Zmod.mul gamma (toF e.1.2))) (Zmod.mul (Zmod.mul gamma gamma) (toF e.2)).

Definition fingerprint_value (gamma : Z) (e : entry) : Z := _fingerprint e.1.1 e.1.2 e.2 gamma.

Lemma toF_fingerprint gamma e : toF (fingerprint_value gamma e) = fingerprint (toF gamma) e.
Proof.
  unfold fingerprint_value, fingerprint, _fingerprint.
  rewrite toF_mod, !toF_add, !toF_mul, toF_mod, toF_mul. reflexivity.
Qed.

(** Two distinct tuples with one fingerprint. *)
Definition collision (tuples : list entry) (gamma : F) : Prop :=
  exists e e', e ∈ tuples /\ e' ∈ tuples /\ e <> e' /\ fingerprint gamma e = fingerprint gamma e'.

Lemma side_left_sum alpha gamma total tuples :
  side alpha gamma total tuples = LogUp.left_sum alpha total (fingerprint_value gamma <$> tuples).
Proof.
  revert total. induction tuples as [|[[a v] k] tuples IH]; intros total; [done|].
  cbn [side fmap list_fmap LogUp.left_sum].
  change (fingerprint_value gamma (a, v, k)) with (_fingerprint a v k gamma).
  destruct (goldilocks_inv _); [|done]. apply IH.
Qed.

(** ** The identity as a weighted sum *)

Definition opposite (W : weighted) : weighted := (fun p => (Zmod.sub Zmod.zero p.1, p.2)) <$> W.

Lemma wsum_opposite W x : wsum (opposite W) x = Zmod.sub Zmod.zero (wsum W x).
Proof.
  unfold wsum, opposite. induction W as [|[c u] W IH]; [cbn [fmap list_fmap fsum foldr]; ring|].
  cbn [fmap list_fmap fsum foldr fst snd]. change (list_fmap _ _ ?f ?l) with (f <$> l).
  unfold fsum in IH. rewrite IH. ring.
Qed.

Lemma coef_opposite W u : coef (opposite W) u = Zmod.sub Zmod.zero (coef W u).
Proof.
  unfold coef, opposite. induction W as [|[c w] W IH]; [cbn [fmap list_fmap fsum foldr]; ring|].
  cbn [fmap list_fmap fsum foldr fst snd]. change (list_fmap _ _ ?f ?l) with (f <$> l).
  unfold fsum in IH. rewrite IH. destruct (decide (w = u)); ring.
Qed.

Definition ones (l : list F) : weighted := (fun u => (Zmod.one, u)) <$> l.

Lemma ones_points l : (ones l).*2 = l.
Proof. unfold ones. rewrite <- list_fmap_compose. apply list_fmap_id. Qed.

Lemma opposite_points W : (opposite W).*2 = W.*2.
Proof. unfold opposite. by rewrite <- list_fmap_compose. Qed.

Lemma wsum_ones l x : wsum (ones l) x = fsum ((fun u => finv (Zmod.sub x u)) <$> l).
Proof.
  unfold wsum, ones. induction l as [|u l IH]; [reflexivity|].
  cbn [fmap list_fmap fsum foldr fst snd]. change (list_fmap _ _ ?f ?l) with (f <$> l).
  unfold fsum in IH. rewrite IH. ring.
Qed.

(** What the verifier's equation says at one challenge pair. *)
Definition tuple_weights (gamma : F) (st : scan) : weighted :=
  ones (fingerprint gamma <$> consumed st) ++ opposite (ones (fingerprint gamma <$> produced st)).

Lemma tuple_weights_points gamma st :
  (tuple_weights gamma st).*2 = (fingerprint gamma <$> consumed st) ++ (fingerprint gamma <$> produced st).
Proof. unfold tuple_weights. by rewrite fmap_app, opposite_points, !ones_points. Qed.

Lemma tuple_weights_length gamma st :
  length (tuple_weights gamma st) = (length (consumed st) + length (produced st))%nat.
Proof. rewrite <- (length_fmap snd), tuple_weights_points, length_app, !length_fmap. done. Qed.

Lemma side_spec alpha gamma tuples :
  (toF alpha ∉ fingerprint (toF gamma) <$> tuples -> exists r, side alpha gamma 0 tuples = Ok r) /\
  forall r, side alpha gamma 0 tuples = Ok r ->
    canonical r /\ toF alpha ∉ fingerprint (toF gamma) <$> tuples /\
    toF r = wsum (ones (fingerprint (toF gamma) <$> tuples)) (toF alpha).
Proof.
  assert (toF <$> (fingerprint_value gamma <$> tuples) = fingerprint (toF gamma) <$> tuples) as E.
  { rewrite <- list_fmap_compose. apply list_fmap_ext. intros _ e _. apply toF_fingerprint. }
  rewrite side_left_sum. destruct (left_sum_spec alpha 0 (fingerprint_value gamma <$> tuples)) as [Ht Hi].
  rewrite E in Ht, Hi. split; [exact Ht|]. intros r Hr. split.
  { eapply left_sum_canonical; [|exact Hr]. split; [done|apply modulus_pos]. }
  apply Hi in Hr as [Hn ->]. split; [done|]. rewrite toF_0, F_add_0_l, wsum_ones, <- E.
  by rewrite <- !list_fmap_compose.
Qed.

Lemma tuple_weights_sum gamma st x :
  wsum (tuple_weights gamma st) x =
  Zmod.sub (Zmod.add (wsum (ones (fingerprint gamma <$> sc_reads st)) x)
              (wsum (ones (fingerprint gamma <$> final_tuples (sc_touched st))) x))
    (Zmod.add (wsum (ones (fingerprint gamma <$> sc_writes st)) x)
       (wsum (ones (fingerprint gamma <$> sc_inits st)) x)).
Proof.
  unfold tuple_weights, consumed, produced. rewrite wsum_app, wsum_opposite.
  assert (forall l k, ones (fingerprint gamma <$> (l ++ k))
    = ones (fingerprint gamma <$> l) ++ ones (fingerprint gamma <$> k)) as E.
  { intros l k. unfold ones. by rewrite !fmap_app. }
  rewrite !E, !wsum_app. ring.
Qed.

(** The equation holds at a challenge pair, which divides by no zero. *)
Definition pair_holds (st : scan) (p : Z * Z) : Prop :=
  toF p.1 ∉ (tuple_weights (toF p.2) st).*2 /\ wsum (tuple_weights (toF p.2) st) (toF p.1) = Zmod.zero.

Lemma pair_points st alpha gamma :
  toF alpha ∉ (tuple_weights (toF gamma) st).*2 <->
  (toF alpha ∉ fingerprint (toF gamma) <$> sc_reads st)
  /\ (toF alpha ∉ fingerprint (toF gamma) <$> final_tuples (sc_touched st))
  /\ (toF alpha ∉ fingerprint (toF gamma) <$> sc_writes st)
  /\ (toF alpha ∉ fingerprint (toF gamma) <$> sc_inits st).
Proof.
  rewrite tuple_weights_points. unfold consumed, produced. rewrite !fmap_app, !not_elem_of_app. tauto.
Qed.

Lemma sums_equal r f w i :
  ((r + f) mod GOLDILOCKS_MODULUS =? (w + i) mod GOLDILOCKS_MODULUS) = true
  <-> Zmod.sub (Zmod.add (toF r) (toF f)) (Zmod.add (toF w) (toF i)) = Zmod.zero.
Proof.
  rewrite F_sub_zero, Z.eqb_eq, <- !toF_add. split.
  - intros E. rewrite <- (toF_mod (r + f)), E. apply toF_mod.
  - intros E. apply toF_inj; [apply mod_canonical..|]. by rewrite !toF_mod.
Qed.

Lemma check_pairs_ok st pairs :
  check_pairs st pairs = Ok tt <-> forall p, p ∈ pairs -> pair_holds st p.
Proof.
  induction pairs as [|[alpha gamma] pairs IH]; cbn [check_pairs].
  { split; [|done]. intros _ ? []%not_elem_of_nil. }
  destruct (side_spec alpha gamma (sc_reads st)) as [Tr Ir].
  destruct (side_spec alpha gamma (final_tuples (sc_touched st))) as [Tf If].
  destruct (side_spec alpha gamma (sc_writes st)) as [Tw Iw].
  destruct (side_spec alpha gamma (sc_inits st)) as [Ti Ii]. split.
  - intros Hc. apply bind_ok in Hc as (r&Er&Hc). apply bind_ok in Hc as (f&Ef&Hc).
    apply bind_ok in Hc as (w&Ew&Hc). apply bind_ok in Hc as (i&Ei&Hc). cbv zeta in Hc.
    destruct (_ =? _) eqn:E in Hc; [|discriminate]. cbn [negb] in Hc.
    apply Ir in Er as (_&?&Er). apply If in Ef as (_&?&Ef). apply Iw in Ew as (_&?&Ew).
    apply Ii in Ei as (_&?&Ei). intros p [->|Hp]%elem_of_cons; [|by apply (proj1 IH)].
    split; cbn [fst snd]; [by apply pair_points|].
    rewrite tuple_weights_sum, <- Er, <- Ef, <- Ew, <- Ei. by apply sums_equal.
  - intros Hall. destruct (Hall (alpha, gamma) (list_elem_of_here _ _)) as [Hn Hs]. cbn [fst snd] in Hn, Hs.
    apply pair_points in Hn as (Hnr&Hnf&Hnw&Hni).
    destruct (Tr Hnr) as [r Er], (Tf Hnf) as [f Ef], (Tw Hnw) as [w Ew], (Ti Hni) as [i Ei].
    rewrite Er, Ef, Ew, Ei. cbn [mbind res_bind]. cbv zeta.
    apply Ir in Er as (_&_&Er). apply If in Ef as (_&_&Ef). apply Iw in Ew as (_&_&Ew). apply Ii in Ei as (_&_&Ei).
    rewrite tuple_weights_sum, <- Er, <- Ef, <- Ew, <- Ei in Hs. apply (proj2 (sums_equal r f w i)) in Hs.
    rewrite Hs. cbn [negb]. apply IH. intros p Hp. apply Hall. by right.
Qed.

(** ** Cancellation *)

Lemma occurrences_count l u : occurrences u l = count_occ (fun x y => decide (x = y)) l u.
Proof.
  unfold occurrences. induction l as [|w l IH]; [done|]. cbn [count_occ].
  destruct (decide (w = u)) as [E|E].
  - rewrite filter_cons_True by done. cbn [length]. by rewrite IH.
  - by rewrite filter_cons_False.
Qed.

Lemma occurrences_le u l : (occurrences u l <= length l)%nat.
Proof. apply length_filter. Qed.

Lemma coef_tuple_weights gamma st u :
  coef (tuple_weights gamma st) u
  = Zmod.sub (toF (Z.of_nat (occurrences u (fingerprint gamma <$> consumed st))))
      (toF (Z.of_nat (occurrences u (fingerprint gamma <$> produced st)))).
Proof. unfold tuple_weights. rewrite coef_app, coef_opposite. unfold ones. rewrite !coef_ones. ring. Qed.

Definition small (st : scan) : Prop :=
  zlen (consumed st) < GOLDILOCKS_MODULUS /\ zlen (produced st) < GOLDILOCKS_MODULUS.

Lemma cancels_fingerprints gamma st :
  small st -> (forall u, coef (tuple_weights gamma st) u = Zmod.zero) <->
  fingerprint gamma <$> consumed st ≡ₚ fingerprint gamma <$> produced st.
Proof.
  intros [Hc Hp]. rewrite (Permutation_count_occ (fun x y => decide (x = y))). split; intros Hall u.
  - specialize (Hall u). rewrite coef_tuple_weights in Hall. apply (proj1 (F_sub_zero _ _)) in Hall.
    rewrite <- !occurrences_count.
    pose proof (occurrences_le u (fingerprint gamma <$> consumed st)) as L1.
    pose proof (occurrences_le u (fingerprint gamma <$> produced st)) as L2.
    rewrite length_fmap in L1, L2. unfold zlen in *. apply toF_inj in Hall; [lia|split; lia..].
  - rewrite coef_tuple_weights. apply F_sub_zero. by rewrite !occurrences_count, Hall.
Qed.

Lemma fmap_eq_inj {A B} (f : A -> B) (l k : list A) :
  (forall x y, x ∈ l -> y ∈ k -> f x = f y -> x = y) -> f <$> l = f <$> k -> l = k.
Proof.
  revert k. induction l as [|x l IH]; intros [|y k] Hinj E; try done. injection E as Ex E. f_equal.
  - apply Hinj; [by left|by left|done].
  - apply IH; [|done]. intros x' y' Hx Hy. apply Hinj; by right.
Qed.

Lemma fmap_perm_inj {A B} (f : A -> B) (l k : list A) :
  (forall x y, x ∈ l -> y ∈ k -> f x = f y -> x = y) -> f <$> l ≡ₚ f <$> k -> l ≡ₚ k.
Proof.
  intros Hinj (k'&E&Hk)%Permutation_map_inv. rewrite Hk.
  apply fmap_eq_inj in E as ->; [done|]. intros x y Hx Hy. apply Hinj; [done|]. by rewrite Hk.
Qed.

(** At a pair that holds, an unbalanced scan has a collision at [gamma], or
    [alpha] is an accidental zero. *)
Lemma pair_holds_balanced st p :
  small st -> pair_holds st p ->
  balanced st \/ collision (consumed st ++ produced st) (toF p.2)
  \/ lucky_point (tuple_weights (toF p.2) st) (toF p.1).
Proof.
  intros Hsm [Hn H0]. destruct (not_lucky_cancels _ _ Hn H0) as [|Hz]; [tauto|].
  apply cancels_fingerprints in Hz; [|done].
  destruct (decide (Forall (fun e => Forall (fun e' => fingerprint (toF p.2) e = fingerprint (toF p.2) e' -> e = e')
    (produced st)) (consumed st))) as [Hall|Hne].
  - left. apply fmap_perm_inj in Hz; [done|]. intros e e' He He'. rewrite Forall_forall in Hall.
    specialize (Hall e He). rewrite Forall_forall in Hall. by apply Hall.
  - right. left. apply not_Forall_Exists in Hne; [|apply _]. apply Exists_exists in Hne as (e&He&Hne).
    apply not_Forall_Exists in Hne; [|apply _]. apply Exists_exists in Hne as (e'&He'&Hne).
    exists e, e'. rewrite !elem_of_app. split_and!; [by left|by right| |].
    + intros ->. by apply Hne.
    + apply dec_stable. intros E. apply Hne. intros E'. done.
Qed.

(** ** Sizes *)

Lemma length_final_tuples touched : length (final_tuples touched) = size touched.
Proof. rewrite (Permutation_length (final_tuples_perm touched)), length_fmap. apply length_map_to_list. Qed.

Lemma size_insert_le (m : gmap Z (Z * Z)) a x : (size (<[a := x]> m) <= S (size m))%nat.
Proof.
  destruct (m !! a) eqn:E; [rewrite map_size_insert_Some by done; lia|by rewrite map_size_insert_None].
Qed.

Definition within (st : scan) (n : nat) : Prop :=
  (length (sc_reads st) <= n /\ length (sc_writes st) <= n /\ length (sc_inits st) <= n
   /\ size (sc_touched st) <= n)%nat.

Lemma scan_rows_within statement st c rows st' n :
  within st n -> scan_rows statement st c rows = Ok st' -> within st' (n + length rows).
Proof.
  revert st c n. induction rows as [|row rows IH]; intros st c n Hw Hs; cbn [scan_rows] in Hs.
  { apply (inj Ok) in Hs as <-. by rewrite Nat.add_0_r. }
  apply bind_ok in Hs as (st1&H1&Hs). cbn [length]. rewrite Nat.add_succ_r, <- Nat.add_succ_l.
  eapply IH; [|exact Hs]. destruct Hw as (?&?&?&?). unfold within.
  apply scan_row_ok in H1 as (op&a&v&pv&pc&_&[(_&_&_&_&_&->)|[_ [_ _ _ _ _ _ _ ->]]]);
    cbn [sc_reads sc_writes sc_inits sc_touched]; [lia|].
  pose proof (size_insert_le (sc_touched st) a (v, c)). rewrite !length_app. cbn [length].
  case_bool_decide; rewrite ?length_app; cbn [length]; lia.
Qed.

Lemma scan_rows_small statement rows st :
  zlen rows <= 2 ^ 21 -> scan_rows statement empty_scan 1 rows = Ok st -> small st.
Proof.
  intros Hl Hs. apply (scan_rows_within _ _ _ _ _ 0) in Hs as (?&?&?&?); [|vm_compute; lia].
  pose proof modulus_bounds as Hp. unfold small, consumed, produced, zlen in *.
  rewrite !length_app, length_final_tuples. split; lia.
Qed.

(** ** The verifier *)

Definition access_row (x : access) : list Z :=
  let '(op, address, value, prev_value, prev_counter) := x in [op; address; value; prev_value; prev_counter].

Lemma integers_ok name l : mapR (fun part => Validate._integer part name) (PInt <$> l) = Ok l.
Proof. apply mapR_Forall2, Forall2_fmap_l, Forall_Forall2_diag, Forall_forall. done. Qed.

Lemma unpack_ints m x : unpack_row (py_ints m) = Ok x <-> m = access_row x.
Proof.
  unfold unpack_row, py_ints, py_tuple. cbn [mbind res_bind].
  rewrite <- fmap_take, integers_ok. cbn [mbind res_bind]. destruct x as [[[[op a] v] pv] pc]. cbn [access_row]. split.
  - destruct m as [|? [|? [|? [|? [|? [|]]]]]]; cbn [take]; intros E; try discriminate E. by injection E as -> -> -> -> ->.
  - by intros ->.
Qed.

Lemma unpack_tuple r t : py_tuple r = Ok t -> unpack_row r = unpack_row t.
Proof. unfold unpack_row. by destruct r; cbn [py_tuple]; intros E; try discriminate E; injection E as <-. Qed.

Lemma tuple_denotes r t m : py_tuple r = Ok t -> (t = py_ints m \/ t = PList (PInt <$> m)) -> t = py_ints m.
Proof. intros Hr [|E]; [done|]. subst t. by destruct r; cbn [py_tuple] in Hr. Qed.

(** The rows of the opening denote the committed rows. *)
Lemma opening_denotes rows tuples M :
  mapR py_tuple rows = Ok tuples -> rows_of tuples M ->
  Forall2 (fun r m => unpack_row r = unpack_row (py_ints m)) rows M.
Proof.
  intros Ht%mapR_Forall2 HM. revert M HM. induction Ht as [|r t rows tuples Hr _ IH]; intros M HM.
  - inversion HM. constructor.
  - inversion HM as [|? m ? M' Hm HM' E1 E2]; subst. constructor; [|by apply IH].
    rewrite <- (tuple_denotes _ _ _ Hr Hm). by apply unpack_tuple.
Qed.

Lemma scan_rows_ext statement rows rows' st c :
  Forall2 (fun r r' => unpack_row r = unpack_row r') rows rows' ->
  scan_rows statement st c rows = scan_rows statement st c rows'.
Proof.
  intros HF. revert st c. induction HF as [|r r' rows rows' Hr _ IH]; intros st c; [done|].
  cbn [scan_rows]. unfold scan_row. rewrite Hr. destruct (unpack_row r') as [p|]; [|done].
  cbn [mbind res_bind]. destruct p as [[[[op a] v] pv] pc].
  match goal with |- (?x ≫= _) = (?x ≫= _) => destruct x; [|done] end. cbn [mbind res_bind]. apply IH.
Qed.

Lemma unpack_rows_ints M log : mapR unpack_row (py_ints <$> M) = Ok log <-> M = access_row <$> log.
Proof.
  rewrite mapR_Forall2. split.
  - intros HF%Forall2_fmap_l. induction HF as [|m x M log Hm _ IH]; [done|].
    apply unpack_ints in Hm as ->. by rewrite IH.
  - intros ->. apply Forall2_fmap_l, Forall2_fmap_l, Forall_Forall2_diag, Forall_forall. intros x _. by apply unpack_ints.
Qed.

Section theory.
Context `{Digest}.

Lemma verify_ram_ok pf st lr nonce :
  verify_goldilocks_ram_reference_v3 (Some pf) (Some st) lr nonce = Ok tt <->
  exists tuples T sc pairs,
    mapR py_tuple (rp_log_opening pf) = Ok tuples
    /\ from_rows (PTuple tuples) (PBytes (log_binding_digest st)) = Ok T
    /\ lr = PBytes (mt_commitment T)
    /\ scan_rows st empty_scan 1 (rp_log_opening pf) = Ok sc
    /\ sc_touched sc <> ∅
    /\ _challenges st lr nonce = Ok pairs
    /\ forall p, p ∈ pairs -> pair_holds sc p.
Proof.
  unfold verify_goldilocks_ram_reference_v3. rewrite reraise_as_ok. cbv zeta. split.
  - intros Hv. apply bind_ok in Hv as (tuples&Ht&Hv). apply bind_ok in Hv as (T&HT&Hv).
    destruct (py_eq_bytes _ _) eqn:E; [|discriminate]. cbn [negb] in Hv. apply py_eq_bytes_spec in E.
    apply bind_ok in Hv as (sc&Hs&Hv). case_bool_decide as Hne; [discriminate|].
    apply bind_ok in Hv as (pairs&Hp&Hv). pose proof (proj1 (check_pairs_ok sc pairs) Hv) as Hv'. by exists tuples, T, sc, pairs.
  - intros (tuples&T&sc&pairs&->&HT&->&->&Hne&Hp&Hc). cbn [mbind res_bind]. rewrite HT. cbn [mbind res_bind].
    rewrite (proj2 (py_eq_bytes_spec _ _)) by done. cbn [negb].
    rewrite bool_decide_eq_false_2 by done. rewrite Hp. cbn [mbind res_bind]. by apply check_pairs_ok.
Qed.

Lemma challenges_pairs st lr nonce pairs :
  _challenges st lr nonce = Ok pairs ->
  length pairs = 2%nat /\ forall p, p ∈ pairs -> canonical p.1 /\ canonical p.2.
Proof.
  unfold _challenges. cbv zeta. intros Hc. apply bind_ok in Hc as (?&_&Hc). apply bind_ok in Hc as (?&_&Hc).
  pose proof (mapR_length _ _ _ Hc) as Hl. split; [by rewrite Hl|].
  assert (forall seed i j z, challenge_part seed i j = Ok z -> canonical z) as Hcan.
  { intros seed i j z Hz. apply rejection_sample_accepts in Hz. split; lia. }
  apply mapR_Forall2 in Hc. apply Forall_forall. eapply Forall2_Forall_r; [exact Hc|].
  apply Forall_forall. intros i _ p Hp. apply bind_ok in Hp as (a&Ha&Hp). apply bind_ok in Hp as (g&Hg&Hp).
  apply (inj Ok) in Hp as <-. split; [by eapply Hcan|by eapply Hcan].
Qed.
End theory.

(** C13 (memory soundness).  Let the frozen tree commit to an access log.  If
    the verifier accepts against its root, the committed rows are accesses whose
    every observed value is what a memory that starts at zero holds at that
    point, and whose every read returns it; or at both challenge pairs two
    distinct tuples collide under the fingerprint or the identity holds by
    accident; or the opening collides with the frozen tree. *)
Theorem ram_sound `{Digest} st rows T pf nonce :
  from_rows (py_rows rows) (PBytes (log_binding_digest st)) = Ok T ->
  verify_goldilocks_ram_reference_v3 (Some pf) (Some st) (PBytes (mt_commitment T)) nonce = Ok tt ->
  (exists sc, scan_rows st empty_scan 1 (py_ints <$> rows) = Ok sc /\
    ((exists log mem, rows = access_row <$> log /\ replay ∅ log = Some mem)
     \/ exists pairs, _challenges st (PBytes (mt_commitment T)) nonce = Ok pairs
          /\ length pairs = 2%nat
          /\ forall p, p ∈ pairs ->
               collision (consumed sc ++ produced sc) (toF p.2)
               \/ lucky_point (tuple_weights (toF p.2) sc) (toF p.1)))
  \/ second_preimage (inputs_of_tree T).
Proof.
  intros HT (tuples&T'&sc&pairs&Ht&HT'&E&Hs&_&Hp&Hall)%verify_ram_ok. apply (inj PBytes) in E.
  destruct (commitment_binds_tree _ _ _ _ _ _ HT HT' (eq_sym E)) as [->|]; [left|by right].
  pose proof (from_py_rows _ _ _ HT) as Hrows.
  apply from_rows_ok in HT' as (b&M&w&k&_&(vs&Evs&Hvs)&Hv&->). cbn [tree_of mt_rows] in Hrows. subst M.
  assert (vs = tuples) as -> by (destruct Evs as [[= ->]|]; done).
  pose proof (opening_denotes _ _ _ Ht Hvs) as Hden.
  rewrite (scan_rows_ext _ _ (py_ints <$> rows)) in Hs by by apply Forall2_fmap_r.
  exists sc. split; [done|].
  assert (small sc) as Hsm.
  { eapply scan_rows_small; [|exact Hs]. rewrite zlen_fmap, (valid_table_zlen _ _ _ _ Hv).
    pose proof (valid_table_k _ _ _ _ Hv). apply Z.pow_le_mono_r; lia. }
  destruct (decide (consumed sc ≡ₚ produced sc)) as [Hb|Hnb].
  - left. destruct (scan_replays _ _ _ Hs Hb) as (log&mem&Hl&Hr). exists log, mem.
    split; [by apply unpack_rows_ints|done].
  - right. exists pairs. split; [done|]. split; [by apply challenges_pairs in Hp as [? _]|].
    intros p Hin. destruct (pair_holds_balanced _ _ Hsm (Hall p Hin)) as [|[|]]; tauto.
Qed.

(** ** How many challenges are bad *)

Definition canonical_entry (e : entry) : Prop := canonical e.1.1 /\ canonical e.1.2 /\ canonical e.2.

Lemma quadratic_zero (A B C : F) :
  (forall g, Zmod.add (Zmod.add A (Zmod.mul g B)) (Zmod.mul (Zmod.mul g g) C) = Zmod.zero) ->
  A = Zmod.zero /\ B = Zmod.zero /\ C = Zmod.zero.
Proof.
  intros Hz. set (one := Zmod.one : F). set (neg := Zmod.sub Zmod.zero one).
  assert (A = Zmod.zero) as EA by (rewrite <- (Hz Zmod.zero); ring).
  assert (C = Zmod.zero) as EC.
  { assert (Zmod.mul (Zmod.add one one) C = Zmod.zero) as E2.
    { transitivity (Zmod.sub (Zmod.add
        (Zmod.add (Zmod.add A (Zmod.mul one B)) (Zmod.mul (Zmod.mul one one) C))
        (Zmod.add (Zmod.add A (Zmod.mul neg B)) (Zmod.mul (Zmod.mul neg neg) C))) (Zmod.add A A)).
      - subst neg one. ring.
      - rewrite !Hz, EA. ring. }
    apply F_mul_zero in E2 as [E2|E2]; [|exact E2]. vm_compute in E2. discriminate E2. }
  split; [done|]. split; [|done]. specialize (Hz one). rewrite EA, EC in Hz. rewrite <- Hz. subst one. ring.
Qed.

Lemma pair_collisions e e' gammas :
  canonical_entry e -> canonical_entry e' -> e <> e' -> NoDup gammas ->
  (forall g, g ∈ gammas -> fingerprint g e = fingerprint g e') -> (length gammas <= 2)%nat.
Proof.
  intros (C1&C2&C3) (C1'&C2'&C3') Hne Hnd Hall.
  destruct (decide (length gammas <= 2)%nat) as [|Hgt]; [done|exfalso]. apply Hne.
  set (p := [Zmod.sub (toF e.1.1) (toF e'.1.1); Zmod.sub (toF e.1.2) (toF e'.1.2);
             Zmod.sub (toF e.2) (toF e'.2)]).
  assert (forall g, peval p g = Zmod.sub (fingerprint g e) (fingerprint g e')) as E
    by (intros g; unfold fingerprint; simpl; ring).
  assert (forall g, peval p g = Zmod.zero) as Hz.
  { apply (many_roots gammas); [done|simpl; lia|]. intros g Hg. rewrite E. by apply F_sub_zero, Hall. }
  destruct (quadratic_zero (Zmod.sub (toF e.1.1) (toF e'.1.1)) (Zmod.sub (toF e.1.2) (toF e'.1.2))
    (Zmod.sub (toF e.2) (toF e'.2))) as (E1&E2&E3).
  { intros g. rewrite <- (Hz g). simpl. ring. }
  apply (proj1 (F_sub_zero _ _)) in E1. apply (proj1 (F_sub_zero _ _)) in E2. apply (proj1 (F_sub_zero _ _)) in E3.
  apply toF_inj in E1; [|done..]. apply toF_inj in E2; [|done..]. apply toF_inj in E3; [|done..].
  destruct e as [[? ?] ?], e' as [[? ?] ?]. simpl in *. by subst.
Qed.

(** Counting by cases: if every element satisfies one of the predicates indexed
    by [ks], and at most [n] do each, there are at most [n * length ks]. *)
Lemma count_by_cases {A K} (P : K -> A -> Prop) `{forall k x, Decision (P k x)} (n : nat) ks (l : list A) :
  (forall x, x ∈ l -> exists k, k ∈ ks /\ P k x) ->
  (forall k, k ∈ ks -> (length (filter (P k) l) <= n)%nat) -> (length l <= n * length ks)%nat.
Proof.
  revert l. induction ks as [|k ks IH]; intros l Hex Hb.
  - destruct l as [|x l]; [simpl; lia|]. destruct (Hex x (list_elem_of_here _ _)) as (?&[]%not_elem_of_nil&_).
  - cbn [length]. assert (length l = length (filter (P k) l) + length (filter (fun x => ~ P k x) l))%nat as Hl.
    { clear. induction l as [|x l IH]; [done|]. destruct (decide (P k x)).
      - rewrite filter_cons_True by done. rewrite (filter_cons_False (fun x => ~ P k x)) by tauto. cbn [length]. lia.
      - rewrite filter_cons_False by done. rewrite (filter_cons_True (fun x => ~ P k x)) by done. cbn [length]. lia. }
    specialize (Hb k (list_elem_of_here _ _)) as Hk.
    enough (length (filter (fun x => ~ P k x) l) <= n * length ks)%nat by lia. apply IH.
    + intros x [Hn Hx]%list_elem_of_filter. destruct (Hex x Hx) as (k'&[->|Hk']%elem_of_cons&?); [done|]. by exists k'.
    + intros k' Hk'. rewrite list_filter_filter. etransitivity; [|apply (Hb k'); by right].
      clear. induction l as [|x l IH]; [done|]. rewrite !filter_cons. repeat case_decide; cbn [length]; try lia; tauto.
Qed.

(** Scanned tuples are canonical, so distinct ones differ in the field. *)
Lemma scan_rows_canonical statement rows st :
  zlen rows <= 2 ^ 21 -> rs_address_count statement < 2 ^ 32 ->
  scan_rows statement empty_scan 1 rows = Ok st -> Forall canonical_entry (consumed st ++ produced st).
Proof.
  intros Hl Ha Hs. pose proof modulus_bounds as Hp.
  enough (forall c st0, 1 <= c -> c + zlen rows <= 2 ^ 22 ->
    Forall canonical_entry (sc_reads st0 ++ sc_writes st0 ++ sc_inits st0) ->
    (forall a v k, sc_touched st0 !! a = Some (v, k) -> canonical_entry (a, v, k)) ->
    scan_rows statement st0 c rows = Ok st ->
    Forall canonical_entry (sc_reads st ++ sc_writes st ++ sc_inits st) /\
    forall a v k, sc_touched st !! a = Some (v, k) -> canonical_entry (a, v, k)) as Hgen.
  { destruct (Hgen 1 empty_scan) as [H1 H2]; [done|lia|constructor|done|done|].
    unfold consumed, produced. rewrite !Forall_app in H1. destruct H1 as (?&?&?).
    rewrite !Forall_app. split_and!; try done.
    apply Forall_forall. intros [[a v] k] Hin%elem_of_final_tuples. by apply H2. }
  clear Hs Hl. induction rows as [|row rows IH]; intros c st0 Hc Hl Hf Ht Hs; cbn [scan_rows] in Hs.
  { by apply (inj Ok) in Hs as <-. }
  apply bind_ok in Hs as (st1&H1&Hs). rewrite zlen_cons in Hl. pose proof (zlen_nonneg rows).
  apply (IH (c + 1) st1); [lia|lia| | |done];
    apply scan_row_ok in H1 as (op&a&v&pv&pc&_&[(_&_&_&_&_&->)|[_ [_ Hao Hv Hpv Hpc _ _ ->]]]);
    cbn [sc_reads sc_writes sc_inits sc_touched]; try done.
  - assert (canonical_entry (a, pv, pc) /\ canonical_entry (a, v, c) /\ canonical_entry (a, 0, 0)) as (?&?&?).
    { unfold canonical_entry, canonical in *. cbn [fst snd]. lia. }
    rewrite !Forall_app in Hf |- *. destruct Hf as (?&?&?). case_bool_decide; rewrite ?Forall_app, ?Forall_singleton; tauto.
  - intros a' v' k'. rewrite lookup_insert_Some. intros [(<-&[= <- <-])|[_ Hl']]; [|by apply Ht].
    unfold canonical_entry, canonical in *. cbn [fst snd]. lia.
Qed.

(** (memory error bound).  For one access log, at most [2 * n^2] of the [p]
    possible [gamma] make two of its [n] tuples collide, and for each [gamma]
    fewer than [n] of the [p] possible [alpha] satisfy the identity of an
    inconsistent log by accident. *)
Theorem ram_lucky_bound st rows sc gammas alphas gamma :
  zlen rows <= 2 ^ 21 -> rs_address_count st < 2 ^ 32 ->
  scan_rows st empty_scan 1 rows = Ok sc -> sc_reads sc <> [] ->
  NoDup gammas -> (forall g, g ∈ gammas -> collision (consumed sc ++ produced sc) g) ->
  NoDup alphas -> (forall x, x ∈ alphas -> lucky_point (tuple_weights gamma sc) x) ->
  let n := length (consumed sc ++ produced sc) in
  (length gammas <= 2 * (n * n))%nat /\ (length alphas < n)%nat.
Proof.
  intros Hl Ha Hs Hne Hg Hcol Hal Hluck n. split.
  - set (ts := consumed sc ++ produced sc) in *.
    pose proof (scan_rows_canonical _ _ _ Hl Ha Hs) as Hcan. fold ts in Hcan. rewrite Forall_forall in Hcan.
    set (P := fun (p : entry * entry) g => p.1 <> p.2 /\ fingerprint g p.1 = fingerprint g p.2).
    pose proof (count_by_cases P 2 (list_prod ts ts) gammas) as Hc.
    rewrite length_prod in Hc. apply Hc; clear Hc.
    + intros g Hin. destruct (Hcol g Hin) as (e&e'&He&He'&Hne'&E). exists (e, e'). split; [|done].
      apply list_elem_of_In, in_prod_iff. by rewrite <- !list_elem_of_In.
    + intros [x y] Hin. apply list_elem_of_In, in_prod_iff in Hin as [Hx%list_elem_of_In Hy%list_elem_of_In].
      destruct (decide (x = y)) as [->|Hxy].
      { destruct (filter _ gammas) as [|g l] eqn:E; [simpl; lia|].
        assert (g ∈ filter (P (y, y)) gammas) as Hg' by (rewrite E; by left).
        apply list_elem_of_filter in Hg' as [[] _]. done. }
      apply (pair_collisions x y); [by apply Hcan|by apply Hcan|done|by apply NoDup_filter|].
      by intros g [[_ ?] _]%list_elem_of_filter.
  - subst n. rewrite length_app, <- (tuple_weights_length gamma sc). apply lucky_points_bound; [|done|done].
    intros E%(f_equal length). rewrite tuple_weights_length in E. unfold consumed in E. rewrite length_app in E.
    destruct (sc_reads sc); [done|simpl in E; lia].
Qed.

(** ** Completeness

    The honest log of a run: each access records the value and the counter that
    its address last held. *)
Record request := MkRequest { rq_write : bool; rq_address : Z; rq_value : Z }.

Fixpoint record_log (touched : gmap Z (Z * Z)) (counter : Z) (requests : list request)
    : list GoldilocksRamAccessV3 :=
  match requests with
  | [] => []
  | rq :: requests =>
      let '(v, k) := default (0, 0) (touched !! rq_address rq) in
      let value := if rq_write rq then rq_value rq else v in
      MkRamAccess (PInt (if rq_write rq then _OP_WRITE else _OP_READ)) (rq_address rq) value v k
      :: record_log (<[rq_address rq := (value, counter)]> touched) (counter + 1) requests
  end.

Definition request_ok (st : GoldilocksRamStatementV3) (rq : request) : Prop :=
  0 <= rq_address rq < rs_address_count st /\ canonical (rq_value rq).

Definition row_fields (a : GoldilocksRamAccessV3) : list Z :=
  [match ra_op a with PInt z => z | _ => 0 end; ra_address a; ra_value a; ra_prev_value a; ra_prev_counter a].

Lemma record_log_rows touched c rqs :
  row <$> record_log touched c rqs = py_ints <$> (row_fields <$> record_log touched c rqs).
Proof.
  revert touched c. induction rqs as [|rq rqs IH]; intros touched c; [done|]. cbn [record_log].
  destruct (default (0, 0) (touched !! rq_address rq)) as [v k]. cbn [fmap list_fmap]. f_equal. apply IH.
Qed.

Lemma length_record_log touched c rqs : length (record_log touched c rqs) = length rqs.
Proof.
  revert touched c. induction rqs as [|rq rqs IH]; intros touched c; [done|]. cbn [record_log].
  destruct (default (0, 0) (touched !! rq_address rq)) as [v k]. cbn [length]. by rewrite IH.
Qed.

Definition as_padding (sc : scan) (b : bool) : scan :=
  MkScan (sc_touched sc) (sc_reads sc) (sc_writes sc) (sc_inits sc) (b || sc_in_padding sc).

Lemma scan_padding st sc c (n : nat) :
  scan_rows st sc c (py_ints <$> replicate n [2; 0; 0; 0; 0]) = Ok (as_padding sc (negb (n =? 0)%nat)).
Proof.
  revert sc c. induction n as [|n IH]; intros sc c; [by destruct sc|].
  cbn [replicate fmap list_fmap scan_rows]. change (list_fmap _ _ ?f ?l) with (f <$> l).
  assert (scan_row st sc c (py_ints [2; 0; 0; 0; 0]) = Ok (as_padding sc true)) as ->.
  { apply scan_row_ok. exists 2, 0, 0, 0, 0. split; [by apply unpack_ints|]. by left. }
  cbn [mbind res_bind]. rewrite IH. unfold as_padding. cbn. by rewrite orb_true_r.
Qed.

(** An honest log, followed by padding, scans to a balanced state. *)
Lemma record_log_scans st rqs sc c (n : nat) :
  1 <= c -> Forall (request_ok st) rqs ->
  (forall a v k, sc_touched sc !! a = Some (v, k) -> canonical v /\ 0 <= k < c) ->
  sc_in_padding sc = false -> balanced sc -> rqs <> [] \/ sc_touched sc <> ∅ ->
  exists sc', scan_rows st sc c (py_ints <$> ((row_fields <$> record_log (sc_touched sc) c rqs)
                                              ++ replicate n [2; 0; 0; 0; 0])) = Ok sc'
    /\ balanced sc' /\ sc_touched sc' <> ∅.
Proof.
  revert sc c. induction rqs as [|[w a v] rqs IH]; intros sc c Hc Hok Hcan Hpad Hb Hne.
  { destruct Hne as [|Hne]; [done|]. cbn [record_log fmap list_fmap app].
    change (list_fmap _ _ ?f ?l) with (f <$> l). rewrite scan_padding. by eexists. }
  apply Forall_cons in Hok as [[Ha Hv] Hok]. cbn [rq_address rq_value] in Ha, Hv. cbn [record_log].
  cbn [rq_address rq_write rq_value].
  destruct (default (0, 0) (sc_touched sc !! a)) as [pv pc] eqn:Ed. set (value := if w then v else pv).
  set (op := if w then _OP_WRITE else _OP_READ).
  cbn [fmap list_fmap app]. change (list_fmap _ _ ?f ?l) with (f <$> l).
  assert (canonical pv /\ 0 <= pc < c) as [Hpv Hpc].
  { destruct (sc_touched sc !! a) as [[v0 k0]|] eqn:El; simpl in Ed; injection Ed as <- <-.
    - by apply (Hcan a).
    - split; [split; [done|apply modulus_pos]|lia]. }
  assert (canonical value) as Hval by (unfold value; by destruct w).
  set (sc1 := MkScan (<[a := (value, c)]> (sc_touched sc)) (sc_reads sc ++ [(a, pv, pc)])
    (sc_writes sc ++ [(a, value, c)])
    (if bool_decide (sc_touched sc !! a = None) then sc_inits sc ++ [(a, 0, 0)] else sc_inits sc) false).
  assert (access_ok st sc c op a value pv pc sc1) as Hacc.
  { split; try done.
    - unfold op. destruct w; [by left|by right].
    - intros El. rewrite El in Ed. by injection Ed as <- <-.
    - unfold op, value. by destruct w. }
  cbn [scan_rows].
  match goal with |- context [scan_row st sc c ?r] => assert (scan_row st sc c r = Ok sc1) as -> end.
  { apply scan_row_ok. exists op, a, value, pv, pc. split; [|by right]. apply unpack_ints.
    unfold row_fields, op. by destruct w. }
  cbn [mbind res_bind]. destruct (IH sc1 (c + 1)) as (sc'&Hs&Hb'&Hne'); [lia|done| |done| | |].
  - intros b v' k'. cbn [sc1 sc_touched]. rewrite lookup_insert_Some.
    intros [(<-&[= <- <-])|[_ Hl]]; [split; [done|lia]|]. apply Hcan in Hl as [? ?]. split; [done|lia].
  - eapply access_balanced; [exact Hacc| |done]. intros v0 k0 El. rewrite El in Ed. by injection Ed as <- <-.
  - right. cbn [sc1 sc_touched]. apply insert_non_empty.
  - by exists sc'.
Qed.

Lemma access_rows_ok st accesses :
  Forall (fun a => ra_address a < rs_address_count st) accesses ->
  access_rows st (Some <$> accesses) = Ok (row <$> accesses).
Proof.
  induction 1 as [|a accesses Ha _ IH]; [done|]. cbn [fmap list_fmap access_rows].
  change (list_fmap _ _ ?f ?l) with (f <$> l). rewrite (proj2 (Z.leb_gt _ _)) by done. by rewrite IH.
Qed.

Lemma record_log_addresses st touched c rqs :
  Forall (request_ok st) rqs ->
  Forall (fun a => ra_address a < rs_address_count st) (record_log touched c rqs).
Proof.
  intros Hok. revert touched c. induction Hok as [|rq rqs [Ha _] _ IH]; intros touched c; [constructor|].
  cbn [record_log]. destruct (default (0, 0) (touched !! rq_address rq)) as [v k].
  constructor; [cbn [ra_address]; lia|apply IH].
Qed.

Lemma py_tuple_ints M : mapR py_tuple (py_ints <$> M) = Ok (py_ints <$> M).
Proof. apply mapR_Forall2, Forall2_fmap, Forall_Forall2_diag, Forall_forall. done. Qed.

(** A balanced scan passes at a pair that divides by no zero. *)
Lemma balanced_pair_holds sc p :
  balanced sc -> toF p.1 ∉ fingerprint (toF p.2) <$> produced sc -> pair_holds sc p.
Proof.
  intros Hb Hn. unfold balanced in Hb. split.
  - rewrite tuple_weights_points, Hb. by intros [|]%elem_of_app.
  - rewrite wsum_fractions. unfold fractions.
    assert (forall u, coef (tuple_weights (toF p.2) sc) u = Zmod.zero) as Hz.
    { intros u. rewrite coef_tuple_weights, !occurrences_count. apply F_sub_zero. do 2 f_equal.
      apply Permutation_count_occ. by rewrite Hb. }
    induction (remove_dups (tuple_weights (toF p.2) sc).*2) as [|u l IH]; [reflexivity|].
    cbn [fmap list_fmap fsum foldr]. change (list_fmap _ _ ?f l) with (f <$> l). unfold fsum in IH.
    rewrite IH, Hz. ring.
Qed.

(** The committed honest log, followed by padding, verifies. *)
Lemma honest_log_verifies `{Digest} st requests n T nonce pairs :
  let log := record_log ∅ 1 requests in
  requests <> [] -> Forall (request_ok st) requests ->
  from_rows (PTuple ((row <$> log) ++ replicate n padding_row)) (PBytes (log_binding_digest st)) = Ok T ->
  _challenges st (PBytes (mt_commitment T)) (PBytes nonce) = Ok pairs ->
  (forall sc p, scan_rows st empty_scan 1 (py_ints <$> mt_rows T) = Ok sc -> p ∈ pairs ->
     toF p.1 ∉ fingerprint (toF p.2) <$> produced sc) ->
  exists pf, prove_goldilocks_ram_reference_v3 T = Ok pf
    /\ verify_goldilocks_ram_reference_v3 (Some pf) (Some st) (PBytes (mt_commitment T)) (PBytes nonce) = Ok tt.
Proof.
  intros log Hne Hok Hf Hp Hn. unfold log in Hf. rewrite record_log_rows in Hf. fold log in Hf.
  set (M := (row_fields <$> log) ++ replicate n [2; 0; 0; 0; 0]).
  assert ((py_ints <$> (row_fields <$> log)) ++ replicate n padding_row = py_ints <$> M) as E.
  { unfold M. by rewrite fmap_app, fmap_replicate. }
  rewrite E in Hf. change (PTuple (py_ints <$> M)) with (py_rows M) in Hf.
  pose proof (from_py_rows _ _ _ Hf) as HM. rewrite HM in Hn.
  destruct (record_log_scans st requests empty_scan 1 n) as (sc&Hs&Hb&Hne'); try done;
    [vm_compute; constructor|by left|].
  change (sc_touched empty_scan) with (∅ : gmap Z (Z * Z)) in Hs. fold log in Hs. fold M in Hs.
  exists (MkRamProof (py_ints <$> M)). split.
  - unfold prove_goldilocks_ram_reference_v3. rewrite HM. unfold py_rows.
    assert (M <> []) as HMne.
    { unfold M, log. intros E'%(f_equal length). rewrite length_app, length_fmap, length_record_log in E'.
      destruct requests; [done|simpl in E'; lia]. }
    clearbody M. by destruct M.
  - apply verify_ram_ok. exists (py_ints <$> M), T, sc, pairs. cbn [rp_log_opening].
    split_and!; try done; [apply py_tuple_ints|]. intros p Hin. apply balanced_pair_holds; [done|]. by apply Hn.
Qed.

(** C40 (memory completeness).  Freezing the honest log of any run of requests
    and proving it gives a proof that the verifier accepts, whenever the
    challenges are derived and no [alpha] is the fingerprint of a tuple. *)
Theorem ram_complete `{Digest} st requests T nonce pairs :
  freeze_goldilocks_ram_log_v3 (Some st) (Some (Some <$> record_log ∅ 1 requests)) = Ok T ->
  Forall (request_ok st) requests ->
  _challenges st (PBytes (mt_commitment T)) (PBytes nonce) = Ok pairs ->
  (forall sc p, scan_rows st empty_scan 1 (py_ints <$> mt_rows T) = Ok sc -> p ∈ pairs ->
     toF p.1 ∉ fingerprint (toF p.2) <$> produced sc) ->
  exists pf, prove_goldilocks_ram_reference_v3 T = Ok pf
    /\ verify_goldilocks_ram_reference_v3 (Some pf) (Some st) (PBytes (mt_commitment T)) (PBytes nonce) = Ok tt.
Proof.
  intros Hf Hok Hp Hn. assert (requests <> []) as Hne by (intros ->; discriminate Hf).
  unfold freeze_goldilocks_ram_log_v3 in Hf.
  destruct (Some <$> record_log ∅ 1 requests) as [|a0 l0] eqn:El; [discriminate|]. rewrite <- El in Hf.
  destruct (rs_max_accesses st <? zlen (Some <$> record_log ∅ 1 requests)); [discriminate|].
  rewrite access_rows_ok in Hf by by apply record_log_addresses. cbn [mbind res_bind] in Hf. cbv zeta in Hf.
  by eapply honest_log_verifies.
Qed.

(** (the verifier does not enforce the access budget).  [max_accesses] is part
    of the signed statement and [freeze_goldilocks_ram_log_v3] refuses a longer
    log, but the verifier accepts the honest log of a longer run when it was
    committed without that check. *)
Theorem ram_verifier_ignores_budget `{Digest} st requests n T nonce pairs :
  let log := record_log ∅ 1 requests in
  rs_max_accesses st < zlen requests -> requests <> [] -> Forall (request_ok st) requests ->
  from_rows (PTuple ((row <$> log) ++ replicate n padding_row)) (PBytes (log_binding_digest st)) = Ok T ->
  _challenges st (PBytes (mt_commitment T)) (PBytes nonce) = Ok pairs ->
  (forall sc p, scan_rows st empty_scan 1 (py_ints <$> mt_rows T) = Ok sc -> p ∈ pairs ->
     toF p.1 ∉ fingerprint (toF p.2) <$> produced sc) ->
  freeze_goldilocks_ram_log_v3 (Some st) (Some (Some <$> log))
    = raise ProofV3Error "ram access log exceeds the signed budget"
  /\ exists pf, prove_goldilocks_ram_reference_v3 T = Ok pf
     /\ verify_goldilocks_ram_reference_v3 (Some pf) (Some st) (PBytes (mt_commitment T)) (PBytes nonce) = Ok tt.
Proof.
  intros log Hl Hne Hok Hf Hp Hn. split; [|by eapply honest_log_verifies].
  assert (zlen (Some <$> log) = zlen requests) as Hz
    by (unfold zlen; by rewrite length_fmap; unfold log; rewrite length_record_log).
  unfold freeze_goldilocks_ram_log_v3. destruct (Some <$> log) as [|a0 l0] eqn:E.
  - destruct requests; [done|discriminate Hz].
  - rewrite (proj2 (Z.ltb_lt _ _)); [done|lia].
Qed.

(** ** Witnesses *)

#[local] Existing Instance checksum_digest.

Definition example_statement : GoldilocksRamStatementV3 := MkRamStatement (replicate 32 Byte.x05) 8 4.
Definition example_requests : list request :=
  [MkRequest true 3 41; MkRequest false 3 0; MkRequest true 3 42].
Definition example_log : list GoldilocksRamAccessV3 := record_log ∅ 1 example_requests.
Definition example_log_tree : GoldilocksMerkleTreeReference :=
  ok_or no_tree (freeze_goldilocks_ram_log_v3 (Some example_statement) (Some (Some <$> example_log))).
Definition example_ram_proof : GoldilocksRamProofV3 :=
  ok_or (MkRamProof []) (prove_goldilocks_ram_reference_v3 example_log_tree).
Definition example_rows : list (list Z) := mt_rows example_log_tree.
Definition example_scan : scan := ok_or empty_scan (scan_rows example_statement empty_scan 1 (py_ints <$> example_rows)).
Definition example_pairs : list (Z * Z) :=
  ok_or [] (_challenges example_statement (PBytes (mt_commitment example_log_tree)) (PBytes example_nonce)).

Lemma ram_sound_witness :
  (exists sc, scan_rows example_statement empty_scan 1 (py_ints <$> example_rows) = Ok sc /\
    ((exists log mem, example_rows = access_row <$> log /\ replay ∅ log = Some mem)
     \/ exists pairs, _challenges example_statement (PBytes (mt_commitment example_log_tree)) (PBytes example_nonce) = Ok pairs
          /\ length pairs = 2%nat
          /\ forall p, p ∈ pairs ->
               collision (consumed sc ++ produced sc) (toF p.2)
               \/ lucky_point (tuple_weights (toF p.2) sc) (toF p.1)))
  \/ second_preimage (inputs_of_tree example_log_tree).
Proof.
  pose proof (ram_sound (H := checksum_digest) example_statement example_rows example_log_tree
    example_ram_proof (PBytes example_nonce)) as Hs.
  refine (Hs _ _); vm_compute; reflexivity.
Defined.

(** A tuple pair that collides at [gamma = 1]. *)
Definition colliding_rows : list pyval := py_ints <$> [[0; 0; 5; 0; 0]; [0; 0; 4; 5; 1]].
Definition colliding_scan : scan := ok_or empty_scan (scan_rows example_statement empty_scan 1 colliding_rows).

Lemma ram_lucky_bound_witness :
  let n := length (consumed colliding_scan ++ produced colliding_scan) in
  (length [toF 1] <= 2 * (n * n))%nat /\ (length (@nil F) < n)%nat.
Proof.
  refine (ram_lucky_bound example_statement colliding_rows colliding_scan [toF 1] [] (toF 0) _ _ _ _ _ _ _ _).
  - vm_compute. discriminate.
  - vm_compute. reflexivity.
  - vm_compute. reflexivity.
  - vm_compute. discriminate.
  - apply NoDup_singleton.
  - intros g ->%list_elem_of_singleton. exists (0, 5, 1), (0, 4, 2). split_and!.
    + refine (bool_decide_unpack _ _). vm_compute. exact I.
    + refine (bool_decide_unpack _ _). vm_compute. exact I.
    + discriminate.
    + vm_compute. reflexivity.
  - apply NoDup_nil_2.
  - intros x []%not_elem_of_nil.
Defined.

Lemma ram_complete_witness :
  exists pf, prove_goldilocks_ram_reference_v3 example_log_tree = Ok pf
    /\ verify_goldilocks_ram_reference_v3 (Some pf) (Some example_statement)
         (PBytes (mt_commitment example_log_tree)) (PBytes example_nonce) = Ok tt.
Proof.
  pose proof (ram_complete (H := checksum_digest) example_statement example_requests example_log_tree
    example_nonce example_pairs) as Hc.
  refine (Hc _ _ _ _).
  - vm_compute. reflexivity.
  - unfold example_requests, request_ok, canonical. repeat constructor; vm_compute; discriminate.
  - vm_compute. reflexivity.
  - intros sc p Hs Hp. assert (sc = example_scan) as ->.
    { assert (scan_rows example_statement empty_scan 1 (py_ints <$> example_rows) = Ok example_scan) as E
        by (vm_compute; reflexivity).
      unfold example_rows in E. rewrite E in Hs. by apply (inj Ok) in Hs. }
    revert p Hp. apply Forall_forall. refine (bool_decide_unpack _ _). vm_compute. exact I.
Defined.

Definition small_statement : GoldilocksRamStatementV3 := MkRamStatement (replicate 32 Byte.x05) 8 1.
Definition over_budget : list request := take 2 example_requests.
Definition over_budget_tree : GoldilocksMerkleTreeReference :=
  ok_or no_tree (from_rows (PTuple (row <$> record_log ∅ 1 over_budget))
    (PBytes (log_binding_digest small_statement))).
Definition over_budget_pairs : list (Z * Z) :=
  ok_or [] (_challenges small_statement (PBytes (mt_commitment over_budget_tree)) (PBytes example_nonce)).
Definition over_budget_scan : scan :=
  ok_or empty_scan (scan_rows small_statement empty_scan 1 (py_ints <$> mt_rows over_budget_tree)).

Lemma ram_verifier_ignores_budget_witness :
  freeze_goldilocks_ram_log_v3 (Some small_statement) (Some (Some <$> record_log ∅ 1 over_budget))
    = raise ProofV3Error "ram access log exceeds the signed budget"
  /\ exists pf, prove_goldilocks_ram_reference_v3 over_budget_tree = Ok pf
     /\ verify_goldilocks_ram_reference_v3 (Some pf) (Some small_statement)
          (PBytes (mt_commitment over_budget_tree)) (PBytes example_nonce) = Ok tt.
Proof.
  pose proof (ram_verifier_ignores_budget (H := checksum_digest) small_statement over_budget 0 over_budget_tree
    example_nonce over_budget_pairs) as Hb.
  refine (Hb _ _ _ _ _ _).
  - vm_compute. reflexivity.
  - discriminate.
  - unfold over_budget, request_ok, canonical. repeat constructor; vm_compute; discriminate.
  - vm_compute. reflexivity.
  - vm_compute. reflexivity.
  - intros sc p Hs Hp. assert (sc = over_budget_scan) as ->.
    { assert (scan_rows small_statement empty_scan 1 (py_ints <$> mt_rows over_budget_tree) = Ok over_budget_scan) as E
        by (vm_compute; reflexivity).
      rewrite E in Hs. by apply (inj Ok) in Hs. }
    revert p Hp. apply Forall_forall. refine (bool_decide_unpack _ _). vm_compute. exact I.
Defined.
