(* ===== verification/Wire.v ===== *)
(** * Canonical wire formats

    The pieces that the frames of [payload.py], [request.py], [challenge.py] and
    [session.py] are made of: the validators each of those modules defines, the
    bounded reader of [payload.py], and [Codec], the contract that every frame
    meets: exactly one byte string denotes each valid value, and nothing else
    parses. *)

From Stdlib Require Import ZArith Lia.
From coqutil Require Import Word.LittleEndianList.
From stdpp Require Import base list strings.
From S2P Require Import Prelude Merkle MerkleTheory Sha256.

Local Open Scope Z_scope.

(** ** Validators *)

Definition zero32 : bytes := zero_bytes 32.

(** [isinstance(value, bytes) and len(value) == 32], optionally nonzero, or an
    error of the module's class. *)
Definition fixed32 (k : exc_class) (value : pyval) (name : string) (nonzero : bool) : res bytes :=
  match value with
  | PBytes b =>
      if negb (length b =? 32)%nat then raise k (name +:+ " must be exactly 32 bytes")
      else if nonzero && bool_decide (b = zero32) then raise k (name +:+ " must not be the zero digest")
      else Ok b
  | _ => raise k (name +:+ " must be exactly 32 bytes")
  end.

(** [isinstance(value, int) and not isinstance(value, bool)] *)
Definition int_in (lo hi : Z) (value : pyval) : option Z :=
  match value with
  | PInt z => if (lo <=? z) && (z <? hi) then Some z else None
  | _ => None
  end.

Definition u32 (value : pyval) (name : string) (positive : bool) : res Z :=
  match value with
  | PInt _ =>
      match int_in (if positive then 1 else 0) (Z.shiftl 1 32) value with
      | Some z => Ok z
      | None => raise ProofV3Error (name +:+ " must be a " +:+ (if positive then "positive " else "")
                                    +:+ "unsigned 32-bit integer")
      end
  | _ => raise ProofV3Error (name +:+ " must be an unsigned 32-bit integer")
  end.

Definition u64 (value : pyval) (name : string) : res Z :=
  match int_in 0 (Z.shiftl 1 64) value with
  | Some z => Ok z
  | None => raise ProofV3Error (name +:+ " must be an unsigned 64-bit integer")
  end.

Lemma fixed32_spec k v name nz b :
  fixed32 k v name nz = Ok b <-> v = PBytes b /\ bytes32 b /\ (nz = true -> b <> zero32).
Proof.
  unfold fixed32, bytes32. destruct v; try (split; [discriminate|by intros [? _]]).
  change GOLDILOCKS_MERKLE_REFERENCE_DIGEST_BYTES with 32%nat.
  destruct (Nat.eqb_spec (length bs) 32) as [E|E]; cbn [negb].
  - destruct nz; cbn [andb]; [case_bool_decide as Hz|]; split; try discriminate.
    + intros ([= ->]&_&Hn). by specialize (Hn eq_refl).
    + by intros [= ->].
    + by intros ([= ->]&_).
    + by intros [= ->].
    + by intros ([= ->]&_).
  - split; [discriminate|]. by intros ([= ->]&?&_).
Qed.

Lemma int_in_spec lo hi v z : int_in lo hi v = Some z <-> v = PInt z /\ lo <= z < hi.
Proof.
  unfold int_in. destruct v as [| |y| | | | |]; try (split; [discriminate|by intros [? _]]).
  destruct ((lo <=? y) && (y <? hi)) eqn:E; split.
  - intros [= ->]. split; [done|lia].
  - by intros [[= ->] _].
  - discriminate.
  - intros [[= ->] ?]. lia.
Qed.

Lemma u32_spec v name p z :
  u32 v name p = Ok z <-> v = PInt z /\ (if p then 1 else 0) <= z < 2 ^ 32.
Proof.
  change (2 ^ 32) with (Z.shiftl 1 32). rewrite <- int_in_spec. unfold u32.
  destruct v; try (split; discriminate). unfold raise. destruct (int_in _ _ _); split; congruence.
Qed.

Lemma u32_int (z : Z) name (p : bool) : (if p then 1 else 0) <= z < 2 ^ 32 -> u32 (PInt z) name p = Ok z.
Proof. intros. by apply u32_spec. Qed.

Lemma u64_spec v name z : u64 v name = Ok z <-> v = PInt z /\ 0 <= z < 2 ^ 64.
Proof.
  unfold u64. change (2 ^ 64) with (Z.shiftl 1 64). rewrite <- int_in_spec.
  unfold raise. destruct (int_in _ _ _); split; congruence.
Qed.

(** ** The contract of a frame *)

Class Codec (A : Type) := {
  encode : A -> bytes;
  decode : pyval -> res A;
  valid : A -> Prop;
  codec_law v a : decode v = Ok a <-> valid a /\ v = PBytes (encode a);
}.

Section codec.
Context `{Codec A}.

Lemma decode_encode a : valid a -> decode (PBytes (encode a)) = Ok a.
Proof. intros. by apply codec_law. Qed.

Lemma encode_inj a a' : valid a -> valid a' -> encode a = encode a' -> a = a'.
Proof.
  intros Ha Ha' E. apply decode_encode in Ha, Ha'. rewrite E in Ha. rewrite Ha in Ha'.
  by apply (inj Ok) in Ha'.
Qed.

(** Hashing a frame under a fixed prefix binds the value. *)
Lemma encode_digest_binds `{Digest} (prefix : bytes) a a' :
  valid a -> valid a' -> sha256 (prefix ++ encode a) = sha256 (prefix ++ encode a') ->
  a = a' \/ second_preimage [prefix ++ encode a].
Proof.
  intros Ha Ha' E. destruct (sha256_inj_or [prefix ++ encode a] (prefix ++ encode a) (prefix ++ encode a'))
    as [E'|]; [by left|done| |by right].
  apply (inj (app prefix)) in E'. left. symmetry. by apply encode_inj.
Qed.
End codec.

(** ** The bounded reader of [payload.py] *)

Record reader := MkReader { rd_encoded : bytes; rd_offset : nat; rd_name : string }.

(** A parser reads from the reader, or raises. *)
Definition parser (A : Type) : Type := reader -> res (A * reader).
#[export] Instance parser_ret : MRet parser := fun A a r => Ok (a, r).
#[export] Instance parser_bind : MBind parser := fun A B f p r =>
  match p r with Ok (a, r) => f a r | Err e => Err e end.
Definition lift {A} (m : res A) : parser A := fun r => match m with Ok a => Ok (a, r) | Err e => Err e end.

Definition new_reader (encoded : pyval) (maximum : Z) (name : string) : res reader :=
  match encoded with
  | PBytes b => if maximum <? zlen b then raise ProofV3Error (name +:+ " byte length is out of range")
                else Ok (MkReader b 0 name)
  | _ => raise ProofV3Error (name +:+ " byte length is out of range")
  end.

Definition read (size : nat) : parser bytes := fun r =>
  if (length (rd_encoded r) <? rd_offset r + size)%nat then
    raise ProofV3Error (rd_name r +:+ " is truncated")
  else Ok (take size (drop (rd_offset r) (rd_encoded r)),
           MkReader (rd_encoded r) (rd_offset r + size) (rd_name r)).

(** An unsigned little-endian field of a [struct] format. *)
Definition read_uint (size : nat) : parser Z := b ← read size; mret (le_combine b).

Definition finish : parser unit := fun r =>
  if (rd_offset r =? length (rd_encoded r))%nat then Ok (tt, r)
  else raise ProofV3Error (rd_name r +:+ " has trailing bytes").

Lemma bind_read {A} n (f : bytes -> parser A) p b s name :
  length b = n ->
  (read n ≫= f) (MkReader (p ++ b ++ s) (length p) name)
  = f b (MkReader ((p ++ b) ++ s) (length (p ++ b)) name).
Proof.
  intros <-. unfold mbind, parser_bind, read. cbn [rd_encoded rd_offset rd_name].
  rewrite (proj2 (Nat.ltb_ge _ _)) by (rewrite !length_app; lia).
  by rewrite drop_app_length, take_app_length, app_assoc, length_app.
Qed.

Lemma bind_uint {A} n (f : Z -> parser A) p z s name :
  0 <= z < 2 ^ (Z.of_nat n * 8) ->
  (read_uint n ≫= f) (MkReader (p ++ le_split n z ++ s) (length p) name)
  = f z (MkReader ((p ++ le_split n z) ++ s) (length (p ++ le_split n z)) name).
Proof.
  intros Hz. transitivity ((read n ≫= fun b => f (le_combine b)) (MkReader (p ++ le_split n z ++ s) (length p) name)).
  - unfold read_uint, mbind, parser_bind. by destruct (read n _) as [[b r]|].
  - rewrite bind_read by apply le_split_length. by rewrite le_combine_split, Z.mod_small.
Qed.

Lemma finish_end p name : finish (MkReader (p ++ []) (length p) name) = Ok (tt, MkReader (p ++ []) (length p) name).
Proof. unfold finish. cbn [rd_encoded rd_offset]. by rewrite app_nil_r, Nat.eqb_refl. Qed.

Lemma new_reader_spec v maximum name r :
  new_reader v maximum name = Ok r <-> exists b, v = PBytes b /\ zlen b <= maximum /\ r = MkReader b 0 name.
Proof.
  unfold new_reader. destruct v; try (split; [discriminate|by intros (?&?&_)]).
  destruct (Z.ltb_spec maximum (zlen bs)); split.
  - discriminate.
  - intros (?&[= ->]&?&_). lia.
  - intros [= <-]. by exists bs.
  - by intros (?&[= ->]&_&->).
Qed.

(** ** Slices and concatenations *)

(** [encoded[i : i + n]] *)
Definition slice (encoded : bytes) (i n : nat) : bytes := take n (drop i encoded).

(** A field of a frame is found by skipping the fields before it. *)
Lemma slice_skip b s i n : (length b <= i)%nat -> slice (b ++ s) i n = slice s (i - length b) n.
Proof. intros. unfold slice. by rewrite drop_app_ge. Qed.

Lemma slice_here b s i n : i = 0%nat -> length b = n -> slice (b ++ s) i n = b.
Proof. intros -> <-. unfold slice. by rewrite drop_0, take_app_length. Qed.

Lemma slice_last b i n : i = 0%nat -> length b = n -> slice b i n = b.
Proof. intros -> <-. unfold slice. by rewrite drop_0, take_ge. Qed.

Ltac find_slice :=
  repeat (rewrite slice_skip by (autorewrite with vrt_len; lia));
  first [apply slice_here|apply slice_last]; autorewrite with vrt_len; lia.

(** Split an equation of concatenations of fields of known length. *)
Lemma same_length_32 (a b : bytes) : bytes32 a -> bytes32 b -> length a = length b.
Proof. unfold bytes32. congruence. Qed.

Ltac app_split H :=
  lazymatch type of H with
  | _ ++ _ = _ ++ _ =>
      let E := fresh "E" in
      apply app_inj_1 in H;
      [destruct H as [E H]; app_split H
      |first [apply same_length_32; [first [assumption|exact (sha256_length _)]..]
             |rewrite !pack_I_length; reflexivity]]
  | _ => idtac
  end.
