(* ===== verification/Payload.v ===== *)
(** * Commitment envelopes and folded proofs ([verallm/proof_v3/payload.py])

    The two frames a miner sends: the envelope with every root that is frozen
    before the nonce, and the folded proof that follows the nonce.  Their
    components are opaque here as they are in the code. *)

From Stdlib Require Import ZArith Lia.
From Stdlib Require Import Strings.Byte.
From coqutil Require Import Word.LittleEndianList.
From stdpp Require Import base list strings.
From S2P Require Import Prelude Sha256 Merkle MerkleTheory Validate Wire.

Local Open Scope Z_scope.

Module Payload.
Definition PROTOCOL_VERSION : Z := 3.
Definition COMMITMENT_ENVELOPE_FORMAT_VERSION : Z := 2.
Definition MAX_FOLDED_COMPONENT_BYTES : Z := Z.shiftl 16 20.
Definition MAX_FOLDED_PROOF_BYTES : Z := Z.shiftl 32 20.
Definition _ENVELOPE_MAGIC : bytes := b_lit "V3CE".
Definition _PROOF_MAGIC : bytes := b_lit "V3FP".
Definition _ENVELOPE_DIGEST_DOMAIN : bytes := b_lit "VERATHOS/PROOF_V3/COMMITMENT_ENVELOPE/SHA256".

Definition _fixed (value : pyval) (name : string) : res bytes := fixed32 ProofV3Error value name false.
Definition _u32 := u32.
Definition _u64 := u64.

Definition _bounded (value : pyval) (name : string) : res bytes :=
  match value with
  | PBytes ((_ :: _) as b) =>
      if MAX_FOLDED_COMPONENT_BYTES <? zlen b then raise ProofV3Error (name +:+ " exceeds the component limit")
      else Ok b
  | _ => raise ProofV3Error (name +:+ " must be non-empty bytes")
  end.

(** ** The commitment envelope *)

Record ProofV3CommitmentEnvelope := MkEnvelope {
  static_manifest_digest : bytes;
  execution_profile_digest : bytes;
  precommit_context_digest : bytes;
  prompt_token_root : bytes;
  sampler_config_digest : bytes;
  cache_lease_digest : bytes;
  request_digest : bytes;
  output_token_root : bytes;
  output_stream_digest : bytes;
  execution_root : bytes;
  prefill_root : bytes;
  cache_table_root : bytes;
  context_token_count : Z;
  decode_token_count : Z;
  cache_epoch : Z;
}.

Definition ProofV3CommitmentEnvelope_new (static profile precommit prompt sampler lease request
    output_token output_stream execution prefill cache_table context decode epoch : pyval)
    : res ProofV3CommitmentEnvelope :=
  static ← _fixed static "static_manifest_digest";
  profile ← _fixed profile "execution_profile_digest";
  precommit ← _fixed precommit "precommit_context_digest";
  prompt ← _fixed prompt "prompt_token_root";
  sampler ← _fixed sampler "sampler_config_digest";
  lease ← _fixed lease "cache_lease_digest";
  if bool_decide (lease = zero32) then raise ProofV3Error "cache_lease_digest must not be the zero digest"
  else
    request ← _fixed request "request_digest";
    output_token ← _fixed output_token "output_token_root";
    output_stream ← _fixed output_stream "output_stream_digest";
    execution ← _fixed execution "execution_root";
    prefill ← _fixed prefill "prefill_root";
    cache_table ← _fixed cache_table "cache_table_root";
    if bool_decide (cache_table = zero32) then raise ProofV3Error "cache_table_root must not be the zero digest"
    else
      context ← _u32 context "context_token_count" true;
      decode ← _u32 decode "decode_token_count" false;
      epoch ← _u64 epoch "cache_epoch";
      Ok (MkEnvelope static profile precommit prompt sampler lease request output_token output_stream
            execution prefill cache_table context decode epoch).

Definition envelope_bytes (e : ProofV3CommitmentEnvelope) : bytes :=
  _ENVELOPE_MAGIC ++ pack_H COMMITMENT_ENVELOPE_FORMAT_VERSION ++ pack_I (context_token_count e)
  ++ pack_I (decode_token_count e) ++ pack_Q (cache_epoch e)
  ++ static_manifest_digest e ++ execution_profile_digest e ++ precommit_context_digest e
  ++ prompt_token_root e ++ sampler_config_digest e ++ cache_lease_digest e ++ request_digest e
  ++ output_token_root e ++ output_stream_digest e ++ execution_root e ++ prefill_root e
  ++ cache_table_root e.

Definition envelope_digest `{Digest} (e : ProofV3CommitmentEnvelope) : bytes :=
  sha256 (_ENVELOPE_DIGEST_DOMAIN ++ envelope_bytes e).

(** [struct.unpack("<4sHIIQ", ...)] reads its fields in order; a short input is
    truncated at whichever field. *)
Definition parse_envelope : parser ProofV3CommitmentEnvelope :=
  magic ← read 4; version ← read_uint 2; context ← read_uint 4; decode ← read_uint 4; epoch ← read_uint 8;
  if negb (bool_decide (magic = _ENVELOPE_MAGIC)) || negb (version =? COMMITMENT_ENVELOPE_FORMAT_VERSION) then
    lift (raise ProofV3Error "commitment envelope header is not supported")
  else
    static ← read 32; profile ← read 32; precommit ← read 32; prompt ← read 32; sampler ← read 32;
    lease ← read 32; request ← read 32; output_token ← read 32; output_stream ← read 32;
    execution ← read 32; prefill ← read 32; cache_table ← read 32;
    result ← lift (ProofV3CommitmentEnvelope_new (PBytes static) (PBytes profile) (PBytes precommit)
                     (PBytes prompt) (PBytes sampler) (PBytes lease) (PBytes request) (PBytes output_token)
                     (PBytes output_stream) (PBytes execution) (PBytes prefill) (PBytes cache_table)
                     (PInt context) (PInt decode) (PInt epoch));
    _ ← finish;
    mret result.

Definition commitment_envelope_from_bytes (encoded : pyval) : res ProofV3CommitmentEnvelope :=
  r ← new_reader encoded (22 + 12 * 32) "commitment envelope";
  result ← parse_envelope r;
  if negb (py_eq_bytes (envelope_bytes result.1) encoded) then
    raise ProofV3Error "commitment envelope is not canonical"
  else Ok result.1.

(** ** The folded proof *)

Record FoldedExecutionProofV3 := MkFoldedProof {
  fx_commitment_envelope_digest : bytes;
  fx_execution_profile_digest : bytes;
  linear_fold_proof : bytes;
  transition_fold_proof : bytes;
  final_token_proof : bytes;
}.

Definition FoldedExecutionProofV3_new (envelope profile linear transition final : pyval)
    : res FoldedExecutionProofV3 :=
  envelope ← _fixed envelope "commitment_envelope_digest";
  profile ← _fixed profile "execution_profile_digest";
  linear ← _bounded linear "linear_fold_proof";
  transition ← _bounded transition "transition_fold_proof";
  final ← _bounded final "final_token_proof";
  if MAX_FOLDED_PROOF_BYTES <? zlen linear + zlen transition + zlen final then
    raise ProofV3Error "folded execution proof exceeds the payload limit"
  else Ok (MkFoldedProof envelope profile linear transition final).

Definition folded_bytes (p : FoldedExecutionProofV3) : bytes :=
  _PROOF_MAGIC ++ pack_H PROTOCOL_VERSION ++ pack_I (zlen (linear_fold_proof p))
  ++ pack_I (zlen (transition_fold_proof p)) ++ pack_I (zlen (final_token_proof p))
  ++ fx_commitment_envelope_digest p ++ fx_execution_profile_digest p ++ linear_fold_proof p
  ++ transition_fold_proof p ++ final_token_proof p.

Definition bad_component_length (n : Z) : bool := (n =? 0) || (MAX_FOLDED_COMPONENT_BYTES <? n).

Definition parse_folded : parser FoldedExecutionProofV3 :=
  magic ← read 4; version ← read_uint 2; linear_length ← read_uint 4; transition_length ← read_uint 4;
  final_length ← read_uint 4;
  if negb (bool_decide (magic = _PROOF_MAGIC)) || negb (version =? PROTOCOL_VERSION) then
    lift (raise ProofV3Error "folded execution proof header is not supported")
  else if existsb bad_component_length [linear_length; transition_length; final_length] then
    lift (raise ProofV3Error "folded execution proof component length is out of range")
  else if MAX_FOLDED_PROOF_BYTES <? linear_length + transition_length + final_length then
    lift (raise ProofV3Error "folded execution proof exceeds the payload limit")
  else
    envelope ← read 32; profile ← read 32; linear ← read (Z.to_nat linear_length);
    transition ← read (Z.to_nat transition_length); final ← read (Z.to_nat final_length);
    result ← lift (FoldedExecutionProofV3_new (PBytes envelope) (PBytes profile) (PBytes linear)
                     (PBytes transition) (PBytes final));
    _ ← finish;
    mret result.

Definition folded_execution_proof_from_bytes (encoded : pyval) : res FoldedExecutionProofV3 :=
  r ← new_reader encoded (MAX_FOLDED_PROOF_BYTES + 128) "folded execution proof";
  result ← parse_folded r;
  if negb (py_eq_bytes (folded_bytes result.1) encoded) then
    raise ProofV3Error "folded execution proof is not canonical"
  else Ok result.1.
End Payload.
