(* ===== verification/PayloadTheory.v ===== *)
(** * The envelope and proof frames are canonical *)

From Stdlib Require Import ZArith Lia.
From Stdlib Require Import Strings.Byte.
From coqutil Require Import Word.LittleEndianList.
From stdpp Require Import base list strings.
From S2P Require Import Prelude Sha256 Merkle MerkleTheory Validate Wire Payload.

Import Payload.
Local Open Scope Z_scope.

(** Take a chain of [bind]s on the success side apart. *)
Ltac bind_inv H :=
  lazymatch type of H with
  | (_ ≫= _) = Ok _ =>
      let x := fresh "x" in let E := fresh "E" in
      apply bind_ok in H; destruct H as (x & E & H); cbv beta in H; bind_inv H
  | _ => idtac
  end.

Definition digests (e : ProofV3CommitmentEnvelope) : list bytes :=
  [static_manifest_digest e; execution_profile_digest e; precommit_context_digest e; prompt_token_root e;
   sampler_config_digest e; cache_lease_digest e; request_digest e; output_token_root e;
   output_stream_digest e; execution_root e; prefill_root e; cache_table_root e].

Record valid_envelope (e : ProofV3CommitmentEnvelope) : Prop := {
  ve_digests : Forall bytes32 (digests e);
  ve_lease : cache_lease_digest e <> zero32;
  ve_cache_table : cache_table_root e <> zero32;
  ve_context : 1 <= context_token_count e < 2 ^ 32;
  ve_decode : 0 <= decode_token_count e < 2 ^ 32;
  ve_epoch : 0 <= cache_epoch e < 2 ^ 64;
}.

Definition new_envelope (e : ProofV3CommitmentEnvelope) : res ProofV3CommitmentEnvelope :=
  ProofV3CommitmentEnvelope_new (PBytes (static_manifest_digest e)) (PBytes (execution_profile_digest e))
    (PBytes (precommit_context_digest e)) (PBytes (prompt_token_root e)) (PBytes (sampler_config_digest e))
    (PBytes (cache_lease_digest e)) (PBytes (request_digest e)) (PBytes (output_token_root e))
    (PBytes (output_stream_digest e)) (PBytes (execution_root e)) (PBytes (prefill_root e))
    (PBytes (cache_table_root e)) (PInt (context_token_count e)) (PInt (decode_token_count e))
    (PInt (cache_epoch e)).

Lemma payload_fixed_ok v name b : _fixed v name = Ok b <-> v = PBytes b /\ bytes32 b.
Proof. unfold _fixed. rewrite fixed32_spec. naive_solver. Qed.

Lemma fixed_digest b name : bytes32 b -> _fixed (PBytes b) name = Ok b.
Proof. intros. by apply payload_fixed_ok. Qed.

(** The constructor accepts exactly the valid envelopes. *)
Lemma envelope_new_valid a1 a2 a3 a4 a5 a6 a7 a8 a9 a10 a11 a12 c d ep e :
  ProofV3CommitmentEnvelope_new a1 a2 a3 a4 a5 a6 a7 a8 a9 a10 a11 a12 c d ep = Ok e -> valid_envelope e.
Proof.
  unfold ProofV3CommitmentEnvelope_new. intros Hn. bind_inv Hn.
  case_bool_decide as Hl; [discriminate|]. bind_inv Hn. case_bool_decide as Hc; [discriminate|]. bind_inv Hn.
  apply (inj Ok) in Hn as <-.
  repeat match goal with
  | H : _fixed _ _ = Ok _ |- _ => apply payload_fixed_ok in H as [_ H]
  | H : _u32 _ _ _ = Ok _ |- _ => apply u32_spec in H as [_ H]
  | H : _u64 _ _ = Ok _ |- _ => apply u64_spec in H as [_ H]
  end.
  split; cbn; [by repeat constructor|done..].
Qed.

Lemma new_valid_envelope e : valid_envelope e -> new_envelope e = Ok e.
Proof.
  intros [Hd Hl Hc Hx Hy Hz]. unfold new_envelope, ProofV3CommitmentEnvelope_new.
  unfold digests in Hd. repeat (apply Forall_cons in Hd as [? Hd]).
  rewrite !fixed_digest by done. cbn [mbind res_bind].
  rewrite bool_decide_eq_false_2 by done. cbn [mbind res_bind].
  rewrite bool_decide_eq_false_2 by done.
  rewrite (proj2 (u32_spec _ _ true (context_token_count e))) by done. cbn [mbind res_bind].
  rewrite (proj2 (u32_spec _ _ false (decode_token_count e))) by done. cbn [mbind res_bind].
  rewrite (proj2 (u64_spec _ _ (cache_epoch e))) by done. by destruct e.
Qed.

(** Run a parser over the encoding of a valid value, one field at a time. *)
Ltac read_bytes := rewrite (bind_read 32) by assumption.

Lemma parse_envelope_bytes e :
  valid_envelope e -> exists r, parse_envelope (MkReader (envelope_bytes e) 0 "commitment envelope") = Ok (e, r).
Proof.
  intros Hv. destruct Hv as [Hd Hl Hc Hx Hy Hz] eqn:Ev. pose proof (new_valid_envelope e Hv) as Hn. clear Ev.
  unfold digests in Hd. repeat (apply Forall_cons in Hd as [? Hd]).
  assert (envelope_bytes e = [] ++ envelope_bytes e) as -> by done. unfold envelope_bytes.
  rewrite <- (app_nil_r (cache_table_root e)). unfold parse_envelope, pack_H, pack_I, pack_Q.
  change 0%nat with (length (@nil byte)).
  rewrite (bind_read 4) by done. rewrite (bind_uint 2) by done. rewrite (bind_uint 4) by lia.
  rewrite (bind_uint 4) by lia. rewrite (bind_uint 8) by lia. rewrite bool_decide_eq_true_2 by done. cbn [negb orb].
  change (negb (_ =? _)) with false. cbv iota.
  do 12 read_bytes.
  unfold new_envelope in Hn. unfold mbind at 1, parser_bind at 1, lift. rewrite Hn.
  unfold mbind, parser_bind. rewrite finish_end. by eexists.
Qed.

Lemma lift_ok {A} (m : res A) r a r' : lift m r = Ok (a, r') <-> m = Ok a /\ r' = r.
Proof. unfold lift. destruct m; split; naive_solver. Qed.

Lemma parser_ok {A B} (p : parser A) (f : A -> parser B) r b r' :
  (p ≫= f) r = Ok (b, r') <-> exists a r1, p r = Ok (a, r1) /\ f a r1 = Ok (b, r').
Proof.
  unfold mbind, parser_bind. destruct (p r) as [[a r1]|]; split.
  - intros H. by exists a, r1.
  - by intros (?&?&[= <- <-]&?).
  - discriminate.
  - by intros (?&?&?&?).
Qed.

(** Take a successful run of a parser apart. *)
Ltac parser_inv H :=
  lazymatch type of H with
  | (_ ≫= _) _ = Ok _ =>
      let x := fresh "x" in let r := fresh "r" in let E := fresh "E" in
      apply parser_ok in H; destruct H as (x & r & E & H); cbv beta in H; parser_inv H
  | _ => idtac
  end.

Lemma parse_envelope_valid r e r' : parse_envelope r = Ok (e, r') -> valid_envelope e.
Proof.
  unfold parse_envelope. intros Hp. parser_inv Hp. destruct (_ || _) in Hp; [discriminate|]. parser_inv Hp.
  injection Hp as -> ->. match goal with H : lift _ _ = Ok _ |- _ => apply lift_ok in H as [H _] end.
  by eapply envelope_new_valid.
Qed.

Lemma envelope_bytes_length e : valid_envelope e -> zlen (envelope_bytes e) = 22 + 12 * 32.
Proof.
  intros [Hd _ _ _ _ _]. unfold digests in Hd. repeat (apply Forall_cons in Hd as [? Hd]).
  unfold zlen, envelope_bytes, bytes32, pack_H in *. autorewrite with vrt_len.
  repeat match goal with H : length _ = _ |- _ => rewrite H; clear H end. done.
Qed.

Lemma envelope_codec_law v e :
  commitment_envelope_from_bytes v = Ok e <-> valid_envelope e /\ v = PBytes (envelope_bytes e).
Proof.
  unfold commitment_envelope_from_bytes. rewrite bind_ok. split.
  - intros (r&Hr&Hp). apply bind_ok in Hp as ([e' r']&Hp&Hc). cbn [fst] in Hc.
    destruct (py_eq_bytes _ _) eqn:Eq in Hc; [|discriminate]. cbn [negb] in Hc. apply (inj Ok) in Hc as ->.
    apply py_eq_bytes_spec in Eq. split; [by eapply parse_envelope_valid|done].
  - intros [Hv ->]. exists (MkReader (envelope_bytes e) 0 "commitment envelope"). split.
    + apply new_reader_spec. eexists. split; [done|]. rewrite envelope_bytes_length by done. done.
    + destruct (parse_envelope_bytes e Hv) as [r ->]. cbn [mbind res_bind fst].
      by rewrite (proj2 (py_eq_bytes_spec _ _)).
Qed.

#[export] Instance envelope_codec : Codec ProofV3CommitmentEnvelope := {|
  encode := envelope_bytes;
  decode := commitment_envelope_from_bytes;
  valid := valid_envelope;
  codec_law := envelope_codec_law;
|}.

(** ** The folded proof *)

Record valid_folded (p : FoldedExecutionProofV3) : Prop := {
  vf_envelope : bytes32 (fx_commitment_envelope_digest p);
  vf_profile : bytes32 (fx_execution_profile_digest p);
  vf_linear : 1 <= zlen (linear_fold_proof p) <= MAX_FOLDED_COMPONENT_BYTES;
  vf_transition : 1 <= zlen (transition_fold_proof p) <= MAX_FOLDED_COMPONENT_BYTES;
  vf_final : 1 <= zlen (final_token_proof p) <= MAX_FOLDED_COMPONENT_BYTES;
  vf_total : zlen (linear_fold_proof p) + zlen (transition_fold_proof p) + zlen (final_token_proof p)
             <= MAX_FOLDED_PROOF_BYTES;
}.

Lemma bounded_ok v name b :
  _bounded v name = Ok b <-> v = PBytes b /\ 1 <= zlen b <= MAX_FOLDED_COMPONENT_BYTES.
Proof.
  unfold _bounded. destruct v as [| | |bs| | | |]; try (split; [discriminate|by intros [? _]]).
  destruct bs as [|x bs]; [split; [discriminate|intros [[= <-] [H _]]; by vm_compute in H]|].
  destruct (Z.ltb_spec MAX_FOLDED_COMPONENT_BYTES (zlen (x :: bs))); split.
  - discriminate.
  - intros [[= <-] ?]. lia.
  - intros [= <-]. split; [done|]. split; [|done]. rewrite (zlen_cons x bs). pose proof (zlen_nonneg bs). lia.
  - by intros [[= ->] _].
Qed.

Lemma bounded_bytes b name : 1 <= zlen b <= MAX_FOLDED_COMPONENT_BYTES -> _bounded (PBytes b) name = Ok b.
Proof. intros. by apply bounded_ok. Qed.

Lemma folded_new_valid a b l t f p : FoldedExecutionProofV3_new a b l t f = Ok p -> valid_folded p.
Proof.
  unfold FoldedExecutionProofV3_new. intros Hn. bind_inv Hn.
  destruct (Z.ltb_spec MAX_FOLDED_PROOF_BYTES (zlen x1 + zlen x2 + zlen x3)); [discriminate|].
  apply (inj Ok) in Hn as <-.
  repeat match goal with
  | H : _fixed _ _ = Ok _ |- _ => apply payload_fixed_ok in H as [_ H]
  | H : _bounded _ _ = Ok _ |- _ => apply bounded_ok in H as [_ H]
  end.
  by split.
Qed.

Lemma new_valid_folded p :
  valid_folded p ->
  FoldedExecutionProofV3_new (PBytes (fx_commitment_envelope_digest p)) (PBytes (fx_execution_profile_digest p))
    (PBytes (linear_fold_proof p)) (PBytes (transition_fold_proof p)) (PBytes (final_token_proof p)) = Ok p.
Proof.
  intros [? ? ? ? ? ?]. unfold FoldedExecutionProofV3_new. do 2 (rewrite fixed_digest by assumption; cbn [mbind res_bind]).
  rewrite (bounded_bytes (linear_fold_proof p)) by assumption. cbn [mbind res_bind].
  rewrite (bounded_bytes (transition_fold_proof p)) by assumption. cbn [mbind res_bind].
  rewrite (bounded_bytes (final_token_proof p)) by assumption. cbn [mbind res_bind].
  rewrite (proj2 (Z.ltb_ge _ _)) by assumption. by destruct p.
Qed.

Lemma component_length_ok n : 1 <= n <= MAX_FOLDED_COMPONENT_BYTES -> bad_component_length n = false.
Proof.
  intros Hn. unfold bad_component_length.
  by rewrite (proj2 (Z.eqb_neq n 0)), (proj2 (Z.ltb_ge _ _)) by lia.
Qed.

Lemma parse_folded_bytes p :
  valid_folded p -> exists r, parse_folded (MkReader (folded_bytes p) 0 "folded execution proof") = Ok (p, r).
Proof.
  intros Hv. pose proof (new_valid_folded p Hv) as Hn. destruct Hv as [H1 H2 Hl Ht Hf Hs].
  assert (MAX_FOLDED_COMPONENT_BYTES < 2 ^ 32) as Hmax by done.
  assert (folded_bytes p = [] ++ folded_bytes p) as -> by done. unfold folded_bytes.
  set (n := zlen (final_token_proof p)). rewrite <- (app_nil_r (final_token_proof p)). subst n.
  unfold parse_folded, pack_H, pack_I.
  change 0%nat with (length (@nil byte)).
  rewrite (bind_read 4) by done. rewrite (bind_uint 2) by done. do 3 rewrite (bind_uint 4) by lia.
  rewrite bool_decide_eq_true_2 by done. cbn [negb orb]. change (negb (_ =? _)) with false. cbv iota.
  cbn [existsb]. rewrite !component_length_ok by done. cbn [orb].
  rewrite (proj2 (Z.ltb_ge MAX_FOLDED_PROOF_BYTES _)) by done.
  do 2 read_bytes. do 3 (rewrite bind_read by (unfold zlen; by rewrite Nat2Z.id)).
  unfold mbind at 1, parser_bind at 1, lift. rewrite Hn.
  unfold mbind, parser_bind. rewrite finish_end. by eexists.
Qed.

Lemma parse_folded_valid r p r' : parse_folded r = Ok (p, r') -> valid_folded p.
Proof.
  unfold parse_folded. intros Hp. parser_inv Hp. destruct (_ || _) in Hp; [discriminate|].
  destruct (existsb _ _) in Hp; [discriminate|]. destruct (_ <? _) in Hp; [discriminate|]. parser_inv Hp.
  injection Hp as -> ->. match goal with H : lift _ _ = Ok _ |- _ => apply lift_ok in H as [H _] end.
  by eapply folded_new_valid.
Qed.

Lemma folded_bytes_length p :
  valid_folded p -> zlen (folded_bytes p) <= MAX_FOLDED_PROOF_BYTES + 128.
Proof.
  intros [H1 H2 _ _ _ Hs]. unfold zlen, folded_bytes, bytes32, pack_H in *.
  change GOLDILOCKS_MERKLE_REFERENCE_DIGEST_BYTES with 32%nat in *. autorewrite with vrt_len.
  rewrite H1, H2. change (length _PROOF_MAGIC) with 4%nat. lia.
Qed.

Lemma folded_codec_law v p :
  folded_execution_proof_from_bytes v = Ok p <-> valid_folded p /\ v = PBytes (folded_bytes p).
Proof.
  unfold folded_execution_proof_from_bytes. rewrite bind_ok. split.
  - intros (r&Hr&Hp). apply bind_ok in Hp as ([p' r']&Hp&Hc). cbn [fst] in Hc.
    destruct (py_eq_bytes _ _) eqn:Eq in Hc; [|discriminate]. cbn [negb] in Hc. apply (inj Ok) in Hc as ->.
    apply py_eq_bytes_spec in Eq. split; [by eapply parse_folded_valid|done].
  - intros [Hv ->]. exists (MkReader (folded_bytes p) 0 "folded execution proof"). split.
    + apply new_reader_spec. eexists. split; [done|]. split; [by apply folded_bytes_length|done].
    + destruct (parse_folded_bytes p Hv) as [r ->]. cbn [mbind res_bind fst].
      by rewrite (proj2 (py_eq_bytes_spec _ _)).
Qed.

#[export] Instance folded_codec : Codec FoldedExecutionProofV3 := {|
  encode := folded_bytes;
  decode := folded_execution_proof_from_bytes;
  valid := valid_folded;
  codec_law := folded_codec_law;
|}.

(** ** The properties *)

(** C29 The envelope frame is canonical: the parser returns [e] on a value
    exactly when [e] is well formed and the value is the frame of [e]. *)
Theorem envelope_roundtrip v e :
  commitment_envelope_from_bytes v = Ok e <-> valid_envelope e /\ v = PBytes (envelope_bytes e).
Proof. apply envelope_codec_law. Qed.

(** The proof frame is canonical: the parser returns [p] on a value exactly
    when [p] is within the size limits and the value is the frame of [p]. *)
Theorem folded_roundtrip v p :
  folded_execution_proof_from_bytes v = Ok p <-> valid_folded p /\ v = PBytes (folded_bytes p).
Proof. apply folded_codec_law. Qed.

(** Two accepted envelope frames with the same digest are the same frame and
    carry the same roots, or a second preimage of the first one is given. *)
Theorem envelope_digest_binds `{Digest} v v' e e' :
  commitment_envelope_from_bytes v = Ok e -> commitment_envelope_from_bytes v' = Ok e' ->
  envelope_digest e = envelope_digest e' ->
  (v' = v /\ e' = e) \/ second_preimage [_ENVELOPE_DIGEST_DOMAIN ++ envelope_bytes e].
Proof.
  intros [Hv ->]%envelope_codec_law [Hv' ->]%envelope_codec_law E.
  destruct (encode_digest_binds (H := envelope_codec) _ e e' Hv Hv' E) as [-> |?]; [by left|by right].
Qed.

(** ** Witnesses *)

#[local] Existing Instance checksum_digest.

Definition example_envelope : ProofV3CommitmentEnvelope :=
  MkEnvelope (replicate 32 x01) (replicate 32 x02) (replicate 32 x03) (replicate 32 x04) (replicate 32 x05)
    (replicate 32 x06) (replicate 32 x07) (replicate 32 x08) (replicate 32 x09) (replicate 32 x0a)
    (replicate 32 x0b) (replicate 32 x0c) 5 4 1.

Lemma envelope_digest_binds_witness :
  (PBytes (envelope_bytes example_envelope) = PBytes (envelope_bytes example_envelope)
   /\ example_envelope = example_envelope)
  \/ second_preimage [_ENVELOPE_DIGEST_DOMAIN ++ envelope_bytes example_envelope].
Proof.
  pose proof (envelope_digest_binds (H := checksum_digest) (PBytes (envelope_bytes example_envelope))
    (PBytes (envelope_bytes example_envelope)) example_envelope example_envelope) as Hx.
  refine (Hx _ _ _); vm_compute; reflexivity.
Defined.

(** A truncated frame, one with a trailing byte and one with a zero lease are
    refused. *)
Example envelope_refused :
  is_ok (commitment_envelope_from_bytes (PBytes (take 405 (envelope_bytes example_envelope)))) = false
  /\ is_ok (commitment_envelope_from_bytes (PBytes (envelope_bytes example_envelope ++ [x00]))) = false
  /\ is_ok (commitment_envelope_from_bytes (PBytes (take 182 (envelope_bytes example_envelope)
       ++ replicate 32 x00 ++ drop 214 (envelope_bytes example_envelope)))) = false
  /\ is_ok (commitment_envelope_from_bytes (PBytes (envelope_bytes example_envelope))) = true.
Proof. split_and!; vm_compute; reflexivity. Qed.
