(* ===== verification/Text.v ===== *)
(** * Python text

    The [str] methods that the request code calls.  A [str] is the list of its
    code points; lone surrogates are allowed, as in Python.  The tables of
    [unicodedata] are not part of this library: [Unicode] is the one function
    the code calls. *)

From Stdlib Require Import ZArith Lia.
From Stdlib Require Import Strings.Byte.
From coqutil Require Import Word.LittleEndianList Byte.
From stdpp Require Import base list strings.
From S2P Require Import Prelude.

Local Open Scope Z_scope.

Abbreviation text := (list Z).

(** [unicodedata.normalize("NFC", s)] *)
Class Unicode := nfc : text -> text.

(** An ASCII literal. *)
Definition t_lit (s : string) : text := (fun c => Z.of_N (Ascii.N_of_ascii c)) <$> String.list_ascii_of_string s.
Arguments t_lit s%_string_scope.

(** [c.isspace()] *)
Definition isspace (c : Z) : bool :=
  (9 <=? c) && (c <=? 13) || (28 <=? c) && (c <=? 32) || (8192 <=? c) && (c <=? 8202)
  || existsb (Z.eqb c) [133; 160; 5760; 8232; 8233; 8239; 8287; 12288].

Fixpoint lstrip (s : text) : text :=
  match s with c :: s' => if isspace c then lstrip s' else s | [] => [] end.
Definition strip (s : text) : text := rev (lstrip (rev (lstrip s))).

Definition contains_nul (s : text) : bool := existsb (Z.eqb 0) s.

(** ** [encode("utf-8")] and [encode("ascii")] *)

Definition tail6 (c : Z) : byte := byte.of_Z (0x80 + c mod 64).

Definition utf8_char (c : Z) : option bytes :=
  if (c <? 0) || (0x10FFFF <? c) || (0xD800 <=? c) && (c <=? 0xDFFF) then None
  else if c <? 0x80 then Some [byte.of_Z c]
  else if c <? 0x800 then Some [byte.of_Z (0xC0 + c / 64); tail6 c]
  else if c <? 0x10000 then Some [byte.of_Z (0xE0 + c / 4096); tail6 (c / 64); tail6 c]
  else Some [byte.of_Z (0xF0 + c / 262144); tail6 (c / 4096); tail6 (c / 64); tail6 c].

Fixpoint utf8 (s : text) : res bytes :=
  match s with
  | [] => Ok []
  | c :: s =>
      match utf8_char c with
      | Some b => rest ← utf8 s; Ok (b ++ rest)
      | None => raise UnicodeEncodeError "surrogates not allowed"
      end
  end.

Definition ascii (s : text) : res bytes :=
  if forallb (fun c => (0 <=? c) && (c <? 0x80)) s then Ok (byte.of_Z <$> s)
  else raise UnicodeEncodeError "ordinal not in range(128)".

(** ** Injectivity *)

Lemma byte_of_Z_inj x y : 0 <= x < 256 -> 0 <= y < 256 -> byte.of_Z x = byte.of_Z y -> x = y.
Proof.
  intros Hx Hy E. apply (f_equal byte.unsigned) in E. rewrite !byte.unsigned_of_Z in E.
  unfold byte.wrap in E. by rewrite !Z.mod_small in E by lia.
Qed.

Lemma tail6_inj x y : tail6 x = tail6 y -> x mod 64 = y mod 64.
Proof.
  unfold tail6. pose proof (Z.mod_pos_bound x 64). pose proof (Z.mod_pos_bound y 64).
  intros E%byte_of_Z_inj; lia.
Qed.

(** [lia] with quotients and remainders. *)
Ltac div_lia := Z.to_euclidean_division_equations; lia.

(** Code points have encodings of which none starts another. *)
Lemma utf8_char_app_inj c c' b b' s s' :
  utf8_char c = Some b -> utf8_char c' = Some b' -> b ++ s = b' ++ s' -> c = c' /\ s = s'.
Proof.
  unfold utf8_char. intros Hb Hb'. repeat case_match; simplify_eq; cbn [app]; intros E; injection E; intros;
    repeat match goal with
    | H : byte.of_Z _ = byte.of_Z _ |- _ => apply byte_of_Z_inj in H; [|div_lia..]
    | H : tail6 _ = tail6 _ |- _ => apply tail6_inj in H
    end; split; try done; div_lia.
Qed.

Lemma utf8_inj s s' b : utf8 s = Ok b -> utf8 s' = Ok b -> s = s'.
Proof.
  assert (forall c b, utf8_char c = Some b -> b <> []) as Hne.
  { intros c b0 Hc ->. unfold utf8_char in Hc. by repeat case_match. }
  revert s' b. induction s as [|c s IH]; intros [|c' s'] b; cbn [utf8]; [done|..].
  - intros [= <-] H. destruct (utf8_char c') as [l|] eqn:E; [|done]. apply Hne in E. res_inv. by destruct l.
  - intros H [= <-]. destruct (utf8_char c) as [l|] eqn:E; [|done]. apply Hne in E. res_inv. by destruct l.
  - destruct (utf8_char c) eqn:E, (utf8_char c') eqn:E'; try done.
    intros (r & Hr & Hb)%bind_ok (r' & Hr' & Hb')%bind_ok. apply (inj Ok) in Hb, Hb'. subst b.
    destruct (utf8_char_app_inj _ _ _ _ _ _ E E' (eq_sym Hb')) as [-> ->]. f_equal. by eapply IH.
Qed.

Lemma ascii_inj s s' b : ascii s = Ok b -> ascii s' = Ok b -> s = s'.
Proof.
  unfold ascii. destruct (forallb _ s) eqn:E, (forallb _ s') eqn:E'; try done.
  intros [= <-] [= Heq]. revert s' E' Heq. induction s as [|c s IH]; intros [|c' s']; try done.
  cbn [forallb fmap list_fmap] in *. intros [? ?]%andb_true_iff [= Hc Hs]. apply andb_true_iff in E as [? ?].
  apply byte_of_Z_inj in Hc; [|lia..]. f_equal; [done|]. by apply IH.
Qed.

Example utf8_sample : utf8 (t_lit "stop" ++ [0xE9; 0x20AC; 0x1F600])
  = Ok [x73; x74; x6f; x70; xc3; xa9; xe2; x82; xac; xf0; x9f; x98; x80].
Proof. vm_compute. reflexivity. Qed.
