(* ===== verification/Request.v ===== *)
(** * Request and output binding ([verallm/proof_v3/request.py])

    What the validator fixes before the model runs (identities, the committed
    nonce, the manifest and profile, the prompt tokens, the cache lease, the
    sampler) and what it observes after the last token.  Objects whose class the
    code tests with [isinstance] are typed here; values of the builtin types are
    [pyval]s. *)

From Stdlib Require Import ZArith Lia.
From Stdlib Require Import Strings.Byte.
From coqutil Require Import Word.LittleEndianList.
From stdpp Require Import base gmap list strings pretty.
From S2P Require Import Prelude Sha256 Merkle MerkleTheory Validate Wire Text.

Local Open Scope Z_scope.

Module Request.
Definition MAX_EXECUTION_REQUEST_TOKENS_V3 : Z := Z.shiftl 1 24.
Definition MAX_OUTPUT_STREAM_BYTES_V3 : Z := Z.shiftl 16 20.
Definition MAX_FINISH_REASON_BYTES_V3 : Z := 256.
Definition PREEXECUTION_CONTEXT_FORMAT_VERSION_V3 : Z := 1.
Definition PREEXECUTION_CONTEXT_BYTES_V3 : Z := 4 + 2 + 9 * 32 + 4.
Definition _TOKEN_SEQUENCE_DOMAIN : bytes := b_lit "VERATHOS/PROOF_V3/TOKEN_SEQUENCE/SHA256".
Definition _PRE_NONCE_CONTEXT_DOMAIN : bytes := b_lit "VERATHOS/PROOF_V3/PRE_NONCE_CONTEXT/SHA256".
Definition _NONCE_COMMITMENT_DOMAIN : bytes := b_lit "VERATHOS/PROOF_V3/NONCE_COMMITMENT/SHA256".
Definition _PRECOMMIT_CONTEXT_DOMAIN : bytes := b_lit "VERATHOS/PROOF_V3/PRECOMMIT_CONTEXT/SHA256".
Definition _INITIAL_EXECUTION_STATE_DOMAIN : bytes := b_lit "VERATHOS/PROOF_V3/INITIAL_EXECUTION_STATE/SHA256".
Definition _OUTPUT_STREAM_DOMAIN : bytes := b_lit "VERATHOS/PROOF_V3/OUTPUT_STREAM/SHA256".
Definition _REQUEST_DIGEST_DOMAIN : bytes := b_lit "VERATHOS/PROOF_V3/REQUEST_CONTEXT/SHA256".
Definition _NETWORK_HOTKEY_IDENTITY_DOMAIN : bytes := b_lit "VERATHOS/PROOF_V3/NETWORK_HOTKEY_IDENTITY/V1/SHA256".
Definition _PREEXECUTION_CONTEXT_MAGIC_V3 : bytes := b_lit "V3PC".

(** ** Validators *)

Definition _fixed32 (value : pyval) (name : string) (nonzero : bool) : res bytes :=
  fixed32 ProofV3Error value name nonzero.

Definition _positive_u32 (value : pyval) (name : string) : res Z :=
  match value with
  | PInt z =>
      if negb ((0 <? z) && (z <? Z.shiftl 1 32)) then
        raise ProofV3Error (name +:+ " must be a positive unsigned 32-bit integer")
      else Ok z
  | _ => raise ProofV3Error (name +:+ " must be a positive unsigned 32-bit integer")
  end.

Definition _u32 (value : pyval) (name : string) : res Z :=
  match value with
  | PInt z =>
      if negb ((0 <=? z) && (z <? Z.shiftl 1 32)) then
        raise ProofV3Error (name +:+ " must be an unsigned 32-bit integer")
      else Ok z
  | _ => raise ProofV3Error (name +:+ " must be an unsigned 32-bit integer")
  end.

(** The final [raise] stands for an [IndexError], which the range tests exclude. *)
Definition execution_input_token_id_at_position_v3 (prompt_token_ids observed_output_token_ids : list pyval)
    (sequence_position : pyval) : res Z :=
  let context_count := zlen prompt_token_ids in
  let decode_count := zlen observed_output_token_ids in
  if (context_count <=? 0) || (decode_count <=? 0) then
    raise ProofV3Error "execution input-token mapping requires prompt and output tokens"
  else
    match sequence_position with
    | PInt p =>
        if (p <? 0) || (context_count + decode_count - 1 <=? p) then
          raise ProofV3Error "execution input-token position is out of range"
        else
          match (if p <? context_count then prompt_token_ids !! Z.to_nat p
                 else observed_output_token_ids !! Z.to_nat (p - context_count)) with
          | Some token => _u32 token "execution input token id"
          | None => raise IndexError "sequence index out of range"
          end
    | _ => raise ProofV3Error "execution input-token position is out of range"
    end.

Definition _frame (value : pyval) (name : string) (maximum : Z) : res bytes :=
  match value with
  | PBytes b =>
      if maximum <? zlen b then raise ProofV3Error (name +:+ " byte length is out of range")
      else Ok (pack_I (zlen b) ++ b)
  | _ => raise ProofV3Error (name +:+ " byte length is out of range")
  end.

Definition _finish_reason_bytes `{Unicode} (value : pyval) : res bytes :=
  match value with
  | PStr ((_ :: _) as s) =>
      if negb (bool_decide (s = nfc s)) || contains_nul s then
        raise ProofV3Error "finish_reason is not canonical text"
      else
        encoded ← utf8 s;
        if MAX_FINISH_REASON_BYTES_V3 <? zlen encoded then
          raise ProofV3Error "finish_reason exceeds the protocol limit"
        else Ok encoded
  | _ => raise ProofV3Error "finish_reason must be a non-empty string"
  end.

Definition _network_hotkey_identity_digest_v3 `{Digest} (role : bytes) (hotkey_ss58 : pyval) : res bytes :=
  if negb (bool_decide (role = b_lit "validator") || bool_decide (role = b_lit "miner")) then
    raise ProofV3Error "proof-v3 network identity role is unsupported"
  else
    match hotkey_ss58 with
    | PStr ((_ :: _) as s) =>
        if negb (bool_decide (s = strip s)) || contains_nul s then
          raise ProofV3Error "proof-v3 network hotkey is not canonical text"
        else
          encoded ← reraise_as [] [UnicodeEncodeError] ProofV3Error "proof-v3 network hotkey must be ASCII" (ascii s);
          if 128 <? zlen encoded then raise ProofV3Error "proof-v3 network hotkey exceeds 128 bytes"
          else Ok (sha256 (_NETWORK_HOTKEY_IDENTITY_DOMAIN ++ le_split 1 (zlen role) ++ role
                           ++ pack_H (zlen encoded) ++ encoded))
    | _ => raise ProofV3Error "proof-v3 network hotkey must be non-empty text"
    end.

Definition validator_hotkey_identity_digest_v3 `{Digest} (hotkey_ss58 : pyval) : res bytes :=
  _network_hotkey_identity_digest_v3 (b_lit "validator") hotkey_ss58.

Definition miner_hotkey_identity_digest_v3 `{Digest} (hotkey_ss58 : pyval) : res bytes :=
  _network_hotkey_identity_digest_v3 (b_lit "miner") hotkey_ss58.

(** ** Token sequences *)

(** The sequence a value is, if it is one ([str] and [bytes] are refused). *)
Definition token_items (token_ids : pyval) (name : string) : res (list pyval) :=
  match token_ids with
  | PTuple l | PList l => Ok l
  | _ => raise ProofV3Error (name +:+ " must be a token-id sequence")
  end.

Definition _token_sequence_count (token_ids : pyval) (name : string) : res Z :=
  items ← token_items token_ids name;
  if MAX_EXECUTION_REQUEST_TOKENS_V3 <? zlen items then
    raise ProofV3Error (name +:+ " exceeds the proof-v3 token limit")
  else Ok (zlen items).

Definition token_id (v : pyval) (name_index : string) : res Z :=
  match v with
  | PInt z =>
      if negb ((0 <=? z) && (z <? Z.shiftl 1 32)) then
        raise ProofV3Error (name_index +:+ " is outside the uint32 range")
      else Ok z
  | _ => raise ProofV3Error (name_index +:+ " must be an unsigned token id")
  end.

(** What a tokenizer returns: a mapping with an ["input_ids"] entry, or a value. *)
Inductive tokenizer_value :=
| TMapping (m : gmap string pyval)
| TValue (v : pyval).

Definition canonical_tokenizer_token_ids_v3 (value : tokenizer_value) (name : string) : res (list Z) :=
  let value := match value with
               | TMapping m => default PNone (m !! "input_ids"%string)
               | TValue v => v
               end in
  count ← _token_sequence_count value name;
  if count =? 0 then raise ProofV3Error (name +:+ " must not be empty")
  else items ← token_items value name; imapR token_id name items.

Definition token_sequence_digest_v3 `{Digest} (token_ids : pyval) (name : string) : res bytes :=
  count ← _token_sequence_count token_ids name;
  items ← token_items token_ids name;
  ids ← imapR token_id name items;
  Ok (sha256 (_TOKEN_SEQUENCE_DOMAIN ++ pack_I count ++ concat (pack_I <$> ids))).

(** ** Contexts *)

Definition _pre_nonce_context_digest_from_root `{Digest} (challenge validator miner static profile root
    count lease sampler : pyval) : res bytes :=
  challenge ← _fixed32 challenge "proof_challenge_id" false;
  validator ← _fixed32 validator "validator_identity_digest" false;
  miner ← _fixed32 miner "miner_identity_digest" false;
  static ← _fixed32 static "static_manifest_digest" false;
  profile ← _fixed32 profile "execution_profile_digest" false;
  root ← _fixed32 root "prompt_token_root" false;
  count ← _positive_u32 count "context_token_count";
  lease ← _fixed32 lease "cache_lease_digest" true;
  sampler ← _fixed32 sampler "sampler_config_digest" false;
  Ok (sha256 (_PRE_NONCE_CONTEXT_DOMAIN ++ challenge ++ validator ++ miner ++ static ++ profile ++ root
              ++ pack_I count ++ lease ++ sampler)).

Definition derive_pre_nonce_context_digest_v3 `{Digest} (challenge validator miner static profile
    prompt_token_ids lease sampler : pyval) : res bytes :=
  count ← _token_sequence_count prompt_token_ids "prompt_token_ids";
  context_count ← _positive_u32 (PInt count) "context_token_count";
  root ← token_sequence_digest_v3 prompt_token_ids "prompt_token_ids";
  _pre_nonce_context_digest_from_root challenge validator miner static profile (PBytes root)
    (PInt context_count) lease sampler.

Definition output_stream_digest_v3 `{Digest, Unicode} (emitted_text_utf8 finish_reason : pyval) : res bytes :=
  emitted ← _frame emitted_text_utf8 "emitted_text_utf8" MAX_OUTPUT_STREAM_BYTES_V3;
  reason ← _finish_reason_bytes finish_reason;
  reason ← _frame (PBytes reason) "finish_reason" MAX_FINISH_REASON_BYTES_V3;
  Ok (sha256 (_OUTPUT_STREAM_DOMAIN ++ emitted ++ reason)).

Record PreExecutionRequestContextV3 := MkPreContext {
  proof_challenge_id : bytes;
  validator_identity_digest : bytes;
  miner_identity_digest : bytes;
  validator_nonce_commitment : bytes;
  static_manifest_digest : bytes;
  execution_profile_digest : bytes;
  prompt_token_root : bytes;
  context_token_count : Z;
  cache_lease_digest : bytes;
  sampler_config_digest : bytes;
}.

Definition PreExecutionRequestContextV3_new (challenge validator miner commitment static profile root
    count lease sampler : pyval) : res PreExecutionRequestContextV3 :=
  challenge ← _fixed32 challenge "proof_challenge_id" false;
  validator ← _fixed32 validator "validator_identity_digest" false;
  miner ← _fixed32 miner "miner_identity_digest" false;
  commitment ← _fixed32 commitment "validator_nonce_commitment" false;
  static ← _fixed32 static "static_manifest_digest" false;
  profile ← _fixed32 profile "execution_profile_digest" false;
  root ← _fixed32 root "prompt_token_root" false;
  count ← _positive_u32 count "context_token_count";
  lease ← _fixed32 lease "cache_lease_digest" true;
  sampler ← _fixed32 sampler "sampler_config_digest" false;
  Ok (MkPreContext challenge validator miner commitment static profile root count lease sampler).

Definition nonce_context_digest `{Digest} (c : PreExecutionRequestContextV3) : res bytes :=
  _pre_nonce_context_digest_from_root (PBytes (proof_challenge_id c)) (PBytes (validator_identity_digest c))
    (PBytes (miner_identity_digest c)) (PBytes (static_manifest_digest c)) (PBytes (execution_profile_digest c))
    (PBytes (prompt_token_root c)) (PInt (context_token_count c)) (PBytes (cache_lease_digest c))
    (PBytes (sampler_config_digest c)).

Definition precontext_digest `{Digest} (c : PreExecutionRequestContextV3) : res bytes :=
  n ← nonce_context_digest c;
  Ok (sha256 (_PRECOMMIT_CONTEXT_DOMAIN ++ n ++ validator_nonce_commitment c)).

Definition precontext_bytes (c : PreExecutionRequestContextV3) : bytes :=
  _PREEXECUTION_CONTEXT_MAGIC_V3 ++ pack_H PREEXECUTION_CONTEXT_FORMAT_VERSION_V3
  ++ proof_challenge_id c ++ validator_identity_digest c ++ miner_identity_digest c
  ++ validator_nonce_commitment c ++ static_manifest_digest c ++ execution_profile_digest c
  ++ prompt_token_root c ++ pack_I (context_token_count c) ++ cache_lease_digest c
  ++ sampler_config_digest c.

(** The [n]-th call of [read_digest]: the offset starts at 6. *)
Definition read_digest (encoded : bytes) (n : nat) : pyval := PBytes (slice encoded (6 + 32 * n) 32).

Definition precontext_from_canonical_bytes (encoded : pyval) : res PreExecutionRequestContextV3 :=
  match encoded with
  | PBytes b =>
      if negb (zlen b =? PREEXECUTION_CONTEXT_BYTES_V3) then
        raise ProofV3Error "proof-v3 preexecution context byte length is invalid"
      else if negb (bool_decide (slice b 0 4 = _PREEXECUTION_CONTEXT_MAGIC_V3)) then
        raise ProofV3Error "proof-v3 preexecution context header is unsupported"
      else if negb (le_combine (slice b 4 2) =? PREEXECUTION_CONTEXT_FORMAT_VERSION_V3) then
        raise ProofV3Error "proof-v3 preexecution context version is unsupported"
      else
        let offset := (6 + 32 * 7)%nat in
        result ← PreExecutionRequestContextV3_new (read_digest b 0) (read_digest b 1) (read_digest b 2)
                   (read_digest b 3) (read_digest b 4) (read_digest b 5) (read_digest b 6) (PInt (le_combine (slice b offset 4)))
                   (PBytes (slice b (offset + 4) 32)) (PBytes (slice b (offset + 36) 32));
        if negb (bool_decide (precontext_bytes result = b)) then
          raise ProofV3Error "proof-v3 preexecution context is not canonical"
        else Ok result
  | _ => raise ProofV3Error "proof-v3 preexecution context byte length is invalid"
  end.

Definition initial_execution_state_anchor `{Digest} (c : PreExecutionRequestContextV3) : res bytes :=
  d ← precontext_digest c;
  Ok (sha256 (_INITIAL_EXECUTION_STATE_DOMAIN ++ d)).

Definition commit_validator_nonce_v3 `{Digest} (validator_nonce nonce_context_digest : pyval) : res bytes :=
  nonce ← _fixed32 validator_nonce "validator_nonce" false;
  context ← _fixed32 nonce_context_digest "nonce_context_digest" false;
  Ok (sha256 (_NONCE_COMMITMENT_DOMAIN ++ nonce ++ context)).

(** ** The observed output *)

Record ExecutionOutputBindingV3 := MkOutputBinding {
  output_token_root : bytes;
  output_stream_digest : bytes;
  decode_token_count : Z;
}.

Definition ExecutionOutputBindingV3_new (root stream count : pyval) : res ExecutionOutputBindingV3 :=
  root ← _fixed32 root "output_token_root" false;
  stream ← _fixed32 stream "output_stream_digest" false;
  count ← _u32 count "decode_token_count";
  Ok (MkOutputBinding root stream count).

Definition from_observed_output `{Digest, Unicode} (output_token_ids emitted_text_utf8 finish_reason : pyval)
    : res ExecutionOutputBindingV3 :=
  count ← _token_sequence_count output_token_ids "output_token_ids";
  root ← token_sequence_digest_v3 output_token_ids "output_token_ids";
  stream ← output_stream_digest_v3 emitted_text_utf8 finish_reason;
  count ← _u32 (PInt count) "decode_token_count";
  ExecutionOutputBindingV3_new (PBytes root) (PBytes stream) (PInt count).

Definition derive_execution_request_digest_v3 `{Digest} (precommit_context : PreExecutionRequestContextV3)
    (output : ExecutionOutputBindingV3) : res bytes :=
  d ← precontext_digest precommit_context;
  Ok (sha256 (_REQUEST_DIGEST_DOMAIN ++ d ++ output_token_root output ++ output_stream_digest output
              ++ pack_I (decode_token_count output))).

Record ExecutionRequestBindingV3 := MkRequestBinding {
  rb_precommit_context : PreExecutionRequestContextV3;
  rb_output : ExecutionOutputBindingV3;
  rb_request_digest : bytes;
}.

Definition ExecutionRequestBindingV3_new `{Digest} (precommit_context : PreExecutionRequestContextV3)
    (output : ExecutionOutputBindingV3) (request_digest : pyval) : res ExecutionRequestBindingV3 :=
  digest ← _fixed32 request_digest "request_digest" false;
  expected ← derive_execution_request_digest_v3 precommit_context output;
  if negb (bool_decide (digest = expected)) then
    raise ProofV3Error "request digest does not match its public context"
  else Ok (MkRequestBinding precommit_context output digest).

Definition bind_output `{Digest} (c : PreExecutionRequestContextV3) (output : ExecutionOutputBindingV3)
    : res ExecutionRequestBindingV3 :=
  d ← derive_execution_request_digest_v3 c output;
  ExecutionRequestBindingV3_new c output (PBytes d).

(** ** The validator's context *)

Record ValidatorExecutionRequestContextV3 := MkValidatorContext {
  vc_proof_challenge_id : bytes;
  vc_validator_identity_digest : bytes;
  vc_miner_identity_digest : bytes;
  vc_validator_nonce_commitment : bytes;
  vc_prompt_token_ids : pyval;
  vc_cache_lease_digest : bytes;
  vc_sampler_config_digest : bytes;
}.

Definition ValidatorExecutionRequestContextV3_new (challenge validator miner commitment prompt_token_ids
    lease sampler : pyval) : res ValidatorExecutionRequestContextV3 :=
  challenge ← _fixed32 challenge "proof_challenge_id" false;
  validator ← _fixed32 validator "validator_identity_digest" false;
  miner ← _fixed32 miner "miner_identity_digest" false;
  commitment ← _fixed32 commitment "validator_nonce_commitment" false;
  lease ← _fixed32 lease "cache_lease_digest" true;
  sampler ← _fixed32 sampler "sampler_config_digest" false;
  Ok (MkValidatorContext challenge validator miner commitment prompt_token_ids lease sampler).

Definition prompt_token_count (c : ValidatorExecutionRequestContextV3) : res Z :=
  count ← _token_sequence_count (vc_prompt_token_ids c) "prompt_token_ids";
  _positive_u32 (PInt count) "context_token_count".

Definition validator_nonce_context_digest `{Digest} (c : ValidatorExecutionRequestContextV3)
    (static_manifest_digest execution_profile_digest : pyval) : res bytes :=
  _ ← prompt_token_count c;
  derive_pre_nonce_context_digest_v3 (PBytes (vc_proof_challenge_id c))
    (PBytes (vc_validator_identity_digest c)) (PBytes (vc_miner_identity_digest c))
    static_manifest_digest execution_profile_digest (vc_prompt_token_ids c)
    (PBytes (vc_cache_lease_digest c)) (PBytes (vc_sampler_config_digest c)).

Definition derive_precommit_context `{Digest} (c : ValidatorExecutionRequestContextV3)
    (static_manifest_digest execution_profile_digest : pyval) : res PreExecutionRequestContextV3 :=
  context_count ← prompt_token_count c;
  static_manifest ← _fixed32 static_manifest_digest "static_manifest_digest" false;
  profile ← _fixed32 execution_profile_digest "execution_profile_digest" false;
  prompt_root ← token_sequence_digest_v3 (vc_prompt_token_ids c) "prompt_token_ids";
  result ← PreExecutionRequestContextV3_new (PBytes (vc_proof_challenge_id c))
             (PBytes (vc_validator_identity_digest c)) (PBytes (vc_miner_identity_digest c))
             (PBytes (vc_validator_nonce_commitment c)) (PBytes static_manifest) (PBytes profile)
             (PBytes prompt_root) (PInt context_count) (PBytes (vc_cache_lease_digest c))
             (PBytes (vc_sampler_config_digest c));
  mine ← nonce_context_digest result;
  theirs ← validator_nonce_context_digest c (PBytes static_manifest) (PBytes profile);
  if negb (bool_decide (mine = theirs)) then
    raise ProofV3Error "validator pre-request context derivation is inconsistent"
  else Ok result.

Record ObservedExecutionOutputV3 := MkObserved {
  output_token_ids : pyval;
  emitted_text_utf8 : pyval;
  finish_reason : pyval;
}.

Definition output_token_count (o : ObservedExecutionOutputV3) : res Z :=
  count ← _token_sequence_count (output_token_ids o) "output_token_ids";
  _u32 (PInt count) "decode_token_count".

Definition derive_output_binding `{Digest, Unicode} (o : ObservedExecutionOutputV3) : res ExecutionOutputBindingV3 :=
  _ ← output_token_count o;
  from_observed_output (output_token_ids o) (emitted_text_utf8 o) (finish_reason o).
End Request.
