(* ===== verification/RequestTheory.v ===== *)
(** * Request digests bind requests

    The frame of the pre-execution context is canonical, the digests of
    [Request] determine what they were computed from unless SHA-256 has a
    second preimage, and the validator's derivation succeeds exactly on
    well-formed contexts. *)

From Stdlib Require Import ZArith Lia.
From Stdlib Require Import Strings.Byte.
From coqutil Require Import Word.LittleEndianList.
From stdpp Require Import base sets list strings pretty.
From S2P Require Import Prelude Sha256 Merkle MerkleTheory Validate Wire Text Request.

Import Request.
Local Open Scope Z_scope.

(** ** Validators *)

Lemma fixed_ok v name nz b :
  _fixed32 v name nz = Ok b <-> v = PBytes b /\ bytes32 b /\ (nz = true -> b <> zero32).
Proof. apply fixed32_spec. Qed.

Lemma fixed_bytes b name : bytes32 b -> _fixed32 (PBytes b) name false = Ok b.
Proof. intros. by apply fixed_ok. Qed.

Lemma fixed_nonzero b name : bytes32 b -> b <> zero32 -> _fixed32 (PBytes b) name true = Ok b.
Proof. intros. by apply fixed_ok. Qed.

Lemma positive_ok v name z : _positive_u32 v name = Ok z <-> v = PInt z /\ 1 <= z < 2 ^ 32.
Proof.
  unfold _positive_u32. change (Z.shiftl 1 32) with (2 ^ 32).
  destruct v; try (split; [discriminate|by intros [? _]]).
  destruct ((0 <? z0) && (z0 <? 2 ^ 32)) eqn:E; cbn [negb]; split.
  - intros [= ->]. split; [done|lia].
  - by intros [[= ->] _].
  - discriminate.
  - intros [[= ->] ?]. lia.
Qed.

Lemma u32_ok v name z : _u32 v name = Ok z <-> v = PInt z /\ 0 <= z < 2 ^ 32.
Proof.
  unfold _u32. change (Z.shiftl 1 32) with (2 ^ 32).
  destruct v; try (split; [discriminate|by intros [? _]]).
  destruct ((0 <=? z0) && (z0 <? 2 ^ 32)) eqn:E; cbn [negb]; split.
  - intros [= ->]. split; [done|lia].
  - by intros [[= ->] _].
  - discriminate.
  - intros [[= ->] ?]. lia.
Qed.

Lemma token_id_ok v name z : token_id v name = Ok z <-> v = PInt z /\ 0 <= z < 2 ^ 32.
Proof.
  unfold token_id. change (Z.shiftl 1 32) with (2 ^ 32).
  destruct v; try (split; [discriminate|by intros [? _]]).
  destruct ((0 <=? z0) && (z0 <? 2 ^ 32)) eqn:E; cbn [negb]; split.
  - intros [= ->]. split; [done|lia].
  - by intros [[= ->] _].
  - discriminate.
  - intros [[= ->] ?]. lia.
Qed.

(** ** Token sequences *)

Definition token (z : Z) : Prop := 0 <= z < 2 ^ 32.

(** The value is the sequence [ids] of tokens, within the protocol limit. *)
Definition tokens (v : pyval) (ids : list Z) : Prop :=
  (v = PTuple (PInt <$> ids) \/ v = PList (PInt <$> ids))
  /\ Forall token ids /\ zlen ids <= MAX_EXECUTION_REQUEST_TOKENS_V3.

Definition token_frame (ids : list Z) : bytes :=
  _TOKEN_SEQUENCE_DOMAIN ++ pack_I (zlen ids) ++ concat (pack_I <$> ids).

Lemma token_ids_ok items name i ids :
  imapR_from token_id name i items = Ok ids <-> items = PInt <$> ids /\ Forall token ids.
Proof.
  rewrite (imapR_from_ok _ (fun v => token_id v "")), mapR_Forall2 by (intros; by rewrite !token_id_ok).
  split.
  - induction 1 as [|v z vs l Hv _ [-> IH]]; [by split|].
    apply token_id_ok in Hv as [-> ?]. split; [done|by constructor].
  - intros [-> Hc]. apply Forall2_fmap_l, Forall_Forall2_diag.
    apply (Forall_impl _ _ _ Hc). intros z ?. by apply token_id_ok.
Qed.

Lemma token_count_ok v name n :
  _token_sequence_count v name = Ok n <->
  exists items, token_items v name = Ok items /\ n = zlen items /\ n <= MAX_EXECUTION_REQUEST_TOKENS_V3.
Proof.
  unfold _token_sequence_count. rewrite bind_ok. split.
  - intros (items & Hi & Hn). destruct (Z.ltb_spec MAX_EXECUTION_REQUEST_TOKENS_V3 (zlen items)); [done|].
    apply (inj Ok) in Hn as <-. by exists items.
  - intros (items & Hi & -> & Hn). exists items. by rewrite (proj2 (Z.ltb_ge _ _)).
Qed.

Lemma tokens_items v name ids :
  tokens v ids -> token_items v name = Ok (PInt <$> ids) /\ _token_sequence_count v name = Ok (zlen ids).
Proof.
  intros (Hv & _ & Hn). assert (token_items v name = Ok (PInt <$> ids)) as Hi by by destruct Hv as [-> | ->].
  split; [done|]. apply token_count_ok. exists (PInt <$> ids). unfold zlen in *. by rewrite length_fmap.
Qed.

Lemma token_items_value v name items : token_items v name = Ok items -> v = PTuple items \/ v = PList items.
Proof. destruct v; cbn; try discriminate; intros [= ->]; auto. Qed.

Lemma token_digest_ok `{Digest} v name d :
  token_sequence_digest_v3 v name = Ok d <-> exists ids, tokens v ids /\ d = sha256 (token_frame ids).
Proof.
  unfold token_sequence_digest_v3. split.
  - intros (n & Hn & (items & Hi & (ids & Hids & Hd)%bind_ok)%bind_ok)%bind_ok.
    apply (inj Ok) in Hd as <-. apply token_count_ok in Hn as (? & Hi' & -> & Hn).
    rewrite Hi in Hi'. apply (inj Ok) in Hi' as <-. apply token_ids_ok in Hids as [-> Hf].
    exists ids. unfold tokens, token_frame, zlen in *. rewrite length_fmap in *.
    split_and!; [by apply token_items_value in Hi|done..].
  - intros (ids & Hv & ->). destruct (tokens_items v name ids Hv) as [Hi Hc]. rewrite Hc. cbn [mbind res_bind].
    rewrite Hi. cbn [mbind res_bind]. destruct Hv as (_ & Hf & _).
    unfold imapR. by rewrite (proj2 (token_ids_ok _ name 0 ids)).
Qed.

Lemma pack_I_concat_inj ids ids' :
  Forall token ids -> Forall token ids' -> length ids = length ids' ->
  concat (pack_I <$> ids) = concat (pack_I <$> ids') -> ids = ids'.
Proof.
  intros Hf. revert ids'. induction Hf as [|z ids Hz _ IH]; intros [|z' ids'] Hf' Hl; try done.
  inversion Hf' as [|? ? Hz' Hf2]; subst. rewrite !fmap_cons. cbn [concat].
  intros [Hp Hc]%app_inj_1; [|by rewrite !pack_I_length]. apply pack_I_inj in Hp as ->; [|done..].
  f_equal. apply IH; [done|by injection Hl|done].
Qed.

Lemma token_frame_inj ids ids' :
  Forall token ids -> Forall token ids' ->
  zlen ids <= MAX_EXECUTION_REQUEST_TOKENS_V3 -> zlen ids' <= MAX_EXECUTION_REQUEST_TOKENS_V3 ->
  token_frame ids = token_frame ids' -> ids = ids'.
Proof.
  intros Hf Hf' Hl Hl' E. unfold token_frame in E. apply app_inv_head in E.
  apply app_inj_1 in E as [El Ec]; [|by rewrite !pack_I_length].
  assert (MAX_EXECUTION_REQUEST_TOKENS_V3 < 2 ^ 32) by done.
  pose proof (zlen_nonneg ids). pose proof (zlen_nonneg ids').
  apply pack_I_inj in El; [|lia..]. apply pack_I_concat_inj; [done..| |done].
  unfold zlen in El. lia.
Qed.

(** ** The pre-execution context *)

Definition digests (c : PreExecutionRequestContextV3) : list bytes :=
  [proof_challenge_id c; validator_identity_digest c; miner_identity_digest c; validator_nonce_commitment c;
   static_manifest_digest c; execution_profile_digest c; prompt_token_root c; cache_lease_digest c;
   sampler_config_digest c].

Record valid_precontext (c : PreExecutionRequestContextV3) : Prop := {
  vp_digests : Forall bytes32 (digests c);
  vp_lease : cache_lease_digest c <> zero32;
  vp_count : 1 <= context_token_count c < 2 ^ 32;
}.

Definition new_precontext (c : PreExecutionRequestContextV3) : res PreExecutionRequestContextV3 :=
  PreExecutionRequestContextV3_new (PBytes (proof_challenge_id c)) (PBytes (validator_identity_digest c))
    (PBytes (miner_identity_digest c)) (PBytes (validator_nonce_commitment c))
    (PBytes (static_manifest_digest c)) (PBytes (execution_profile_digest c)) (PBytes (prompt_token_root c))
    (PInt (context_token_count c)) (PBytes (cache_lease_digest c)) (PBytes (sampler_config_digest c)).

Lemma precontext_new_ok a1 a2 a3 a4 a5 a6 a7 n a8 a9 c :
  PreExecutionRequestContextV3_new a1 a2 a3 a4 a5 a6 a7 n a8 a9 = Ok c ->
  valid_precontext c /\ a1 = PBytes (proof_challenge_id c) /\ a2 = PBytes (validator_identity_digest c)
  /\ a3 = PBytes (miner_identity_digest c) /\ a4 = PBytes (validator_nonce_commitment c)
  /\ a5 = PBytes (static_manifest_digest c) /\ a6 = PBytes (execution_profile_digest c)
  /\ a7 = PBytes (prompt_token_root c) /\ n = PInt (context_token_count c)
  /\ a8 = PBytes (cache_lease_digest c) /\ a9 = PBytes (sampler_config_digest c).
Proof.
  unfold PreExecutionRequestContextV3_new. intros Hn.
  repeat (let x := fresh "x" in let E := fresh "E" in apply bind_ok in Hn as (x & E & Hn);
    first [apply fixed_ok in E as (-> & ? & ?)|apply positive_ok in E as (-> & ?)]).
  apply (inj Ok) in Hn as <-. split; [|done]. split; cbn; [by repeat constructor|auto|done].
Qed.

Lemma new_valid_precontext c : valid_precontext c -> new_precontext c = Ok c.
Proof.
  intros [Hd Hl Hc]. unfold new_precontext, PreExecutionRequestContextV3_new.
  unfold digests in Hd. repeat (apply Forall_cons in Hd as [? Hd]).
  do 7 (rewrite fixed_bytes by assumption; cbn [mbind res_bind]).
  rewrite (proj2 (positive_ok _ _ (context_token_count c))) by done. cbn [mbind res_bind].
  rewrite fixed_nonzero by assumption. cbn [mbind res_bind].
  rewrite fixed_bytes by assumption. cbn [mbind res_bind]. by destruct c.
Qed.

Lemma length_magic : length _PREEXECUTION_CONTEXT_MAGIC_V3 = 4%nat.
Proof. done. Qed.
#[local] Hint Rewrite length_magic : vrt_len.

Lemma precontext_bytes_length c : valid_precontext c -> length (precontext_bytes c) = 298%nat.
Proof.
  intros [Hd _ _]. unfold digests in Hd. repeat (apply Forall_cons in Hd as [? Hd]).
  unfold precontext_bytes, bytes32, pack_H in *. autorewrite with vrt_len.
  repeat match goal with H : length _ = _ |- _ => rewrite H; clear H end. done.
Qed.

Lemma precontext_slices c (b := precontext_bytes c) :
  valid_precontext c ->
  slice b 0 4 = _PREEXECUTION_CONTEXT_MAGIC_V3 /\ slice b 4 2 = pack_H PREEXECUTION_CONTEXT_FORMAT_VERSION_V3
  /\ read_digest b 0 = PBytes (proof_challenge_id c) /\ read_digest b 1 = PBytes (validator_identity_digest c)
  /\ read_digest b 2 = PBytes (miner_identity_digest c)
  /\ read_digest b 3 = PBytes (validator_nonce_commitment c)
  /\ read_digest b 4 = PBytes (static_manifest_digest c) /\ read_digest b 5 = PBytes (execution_profile_digest c)
  /\ read_digest b 6 = PBytes (prompt_token_root c) /\ slice b (6 + 32 * 7) 4 = pack_I (context_token_count c)
  /\ slice b (6 + 32 * 7 + 4) 32 = cache_lease_digest c /\ slice b (6 + 32 * 7 + 36) 32 = sampler_config_digest c.
Proof.
  intros [Hd _ _]. unfold digests in Hd. repeat (apply Forall_cons in Hd as [? Hd]). clear Hd.
  assert (forall b, bytes32 b -> length b = 32%nat) as H32 by done.
  repeat match goal with H : bytes32 _ |- _ => apply H32 in H end. clear H32.
  subst b. unfold read_digest, precontext_bytes.
  split_and!; try (apply (f_equal PBytes)); find_slice.
Qed.

Lemma parse_precontext c :
  valid_precontext c -> precontext_from_canonical_bytes (PBytes (precontext_bytes c)) = Ok c.
Proof.
  intros Hv. pose proof (new_valid_precontext c Hv) as Hn. pose proof (precontext_bytes_length c Hv) as Hl.
  destruct (precontext_slices c Hv) as (E1&E2&E3&E4&E5&E6&E7&E8&E9&E10&E11&E12).
  unfold precontext_from_canonical_bytes, zlen. rewrite Hl, E1, E2, E3, E4, E5, E6, E7, E8, E9, E10, E11, E12.
  change (negb (_ =? PREEXECUTION_CONTEXT_BYTES_V3)) with false. cbv iota.
  rewrite bool_decide_eq_true_2 by done. cbn [negb].
  change (negb (_ =? _)) with false. cbv iota. unfold pack_I. destruct Hv as [_ _ Hc].
  rewrite le_combine_split, Z.mod_small by (cbn; lia).
  unfold new_precontext in Hn. rewrite Hn. cbn [mbind res_bind]. by rewrite bool_decide_eq_true_2.
Qed.

Lemma precontext_codec_law v c :
  precontext_from_canonical_bytes v = Ok c <-> valid_precontext c /\ v = PBytes (precontext_bytes c).
Proof.
  split; [|by intros [? ->]; apply parse_precontext].
  unfold precontext_from_canonical_bytes. intros H. destruct v as [| | |b| | | |]; try discriminate H.
  destruct (negb (zlen b =? _)) in H; [discriminate|].
  destruct (negb (bool_decide _)) in H; [discriminate|].
  destruct (negb (_ =? _)) in H; [discriminate|].
  apply bind_ok in H as (c' & Hc & H). case_bool_decide as Heq; cbn [negb] in H; [|discriminate].
  apply (inj Ok) in H as ->. apply precontext_new_ok in Hc as [Hc _]. by rewrite Heq.
Qed.

#[export] Instance precontext_codec : Codec PreExecutionRequestContextV3 := {|
  encode := precontext_bytes;
  decode := precontext_from_canonical_bytes;
  valid := valid_precontext;
  codec_law := precontext_codec_law;
|}.

(** ** What is hashed *)

Definition nonce_input (c : PreExecutionRequestContextV3) : bytes :=
  _PRE_NONCE_CONTEXT_DOMAIN ++ proof_challenge_id c ++ validator_identity_digest c ++ miner_identity_digest c
  ++ static_manifest_digest c ++ execution_profile_digest c ++ prompt_token_root c
  ++ pack_I (context_token_count c) ++ cache_lease_digest c ++ sampler_config_digest c.

Definition precontext_input `{Digest} (c : PreExecutionRequestContextV3) : bytes :=
  _PRECOMMIT_CONTEXT_DOMAIN ++ sha256 (nonce_input c) ++ validator_nonce_commitment c.

Definition request_input `{Digest} (c : PreExecutionRequestContextV3) (o : ExecutionOutputBindingV3) : bytes :=
  _REQUEST_DIGEST_DOMAIN ++ sha256 (precontext_input c) ++ output_token_root o ++ output_stream_digest o
  ++ pack_I (decode_token_count o).

Definition commitment_input (nonce context : bytes) : bytes := _NONCE_COMMITMENT_DOMAIN ++ nonce ++ context.

Record valid_output (o : ExecutionOutputBindingV3) : Prop := {
  vo_root : bytes32 (output_token_root o);
  vo_stream : bytes32 (output_stream_digest o);
  vo_count : token (decode_token_count o);
}.

Lemma nonce_context_ok `{Digest} c :
  valid_precontext c -> nonce_context_digest c = Ok (sha256 (nonce_input c)).
Proof.
  intros [Hd Hl Hc]. unfold nonce_context_digest, _pre_nonce_context_digest_from_root.
  unfold digests in Hd. repeat (apply Forall_cons in Hd as [? Hd]).
  do 6 (rewrite fixed_bytes by assumption; cbn [mbind res_bind]).
  rewrite (proj2 (positive_ok _ _ (context_token_count c))) by done. cbn [mbind res_bind].
  rewrite fixed_nonzero by assumption. cbn [mbind res_bind]. by rewrite fixed_bytes.
Qed.

Lemma precontext_digest_ok `{Digest} c :
  valid_precontext c -> precontext_digest c = Ok (sha256 (precontext_input c)).
Proof. intros Hv. unfold precontext_digest. by rewrite nonce_context_ok. Qed.

Lemma request_digest_ok `{Digest} c o :
  valid_precontext c -> derive_execution_request_digest_v3 c o = Ok (sha256 (request_input c o)).
Proof. intros Hv. unfold derive_execution_request_digest_v3. by rewrite precontext_digest_ok. Qed.

Lemma output_new_ok r s n o :
  ExecutionOutputBindingV3_new r s n = Ok o <->
  valid_output o /\ r = PBytes (output_token_root o) /\ s = PBytes (output_stream_digest o)
  /\ n = PInt (decode_token_count o).
Proof.
  unfold ExecutionOutputBindingV3_new. split.
  - intros (r' & (-> & ? & _)%fixed_ok & (s' & (-> & ? & _)%fixed_ok & (n' & [-> ?]%u32_ok & [= <-])%bind_ok)
      %bind_ok)%bind_ok. by split.
  - intros ([? ? ?] & -> & -> & ->). do 2 (rewrite fixed_bytes by done; cbn [mbind res_bind]).
    rewrite (proj2 (u32_ok _ _ (decode_token_count o))) by done. by destruct o.
Qed.

Lemma nonce_input_inj c c' :
  valid_precontext c -> valid_precontext c' -> nonce_input c = nonce_input c' ->
  validator_nonce_commitment c = validator_nonce_commitment c' -> c = c'.
Proof.
  intros [Hd _ Hc] [Hd' _ Hc'] E Hn. unfold digests in Hd, Hd'.
  repeat (apply Forall_cons in Hd as [? Hd]). repeat (apply Forall_cons in Hd' as [? Hd']).
  unfold nonce_input in E. apply app_inv_head in E. app_split E.
  match goal with H : pack_I _ = pack_I _ |- _ => apply pack_I_inj in H; [|lia..] end.
  destruct c, c'. cbn in *. congruence.
Qed.

Lemma precontext_binds `{Digest} c c' :
  valid_precontext c -> valid_precontext c' -> sha256 (precontext_input c) = sha256 (precontext_input c') ->
  c' = c \/ second_preimage [precontext_input c; nonce_input c].
Proof.
  intros Hv Hv' E.
  destruct (sha256_inj_or [precontext_input c; nonce_input c] (precontext_input c) (precontext_input c'))
    as [E1|]; [set_solver|done| |by right].
  unfold precontext_input in E1. apply app_inv_head in E1. app_split E1.
  destruct (sha256_inj_or [precontext_input c; nonce_input c] (nonce_input c) (nonce_input c'))
    as [E2|]; [set_solver|done| |by right].
  left. by apply nonce_input_inj.
Qed.

Lemma request_input_binds `{Digest} c c' o o' :
  valid_precontext c -> valid_precontext c' -> valid_output o -> valid_output o' ->
  sha256 (request_input c o) = sha256 (request_input c' o') ->
  (c' = c /\ o' = o) \/ second_preimage [request_input c o; precontext_input c; nonce_input c].
Proof.
  intros Hv Hv' [? ? ?] [? ? ?] E.
  destruct (sha256_inj_or [request_input c o; precontext_input c; nonce_input c]
    (request_input c o) (request_input c' o')) as [E1|]; [set_solver|done| |by right].
  unfold request_input in E1. apply app_inv_head in E1. app_split E1.
  apply pack_I_inj in E1; [|done..].
  destruct (precontext_binds c c') as [->|Hs]; [done..| |].
  - left. split; [done|]. destruct o, o'. cbn in *. congruence.
  - right. eapply second_preimage_mono; [|exact Hs]. set_solver.
Qed.

(** ** The observed output *)

Definition stream_input (emitted reason : bytes) : bytes :=
  _OUTPUT_STREAM_DOMAIN ++ (pack_I (zlen emitted) ++ emitted) ++ (pack_I (zlen reason) ++ reason).

Lemma frame_ok v name maximum r :
  _frame v name maximum = Ok r <-> exists b, v = PBytes b /\ zlen b <= maximum /\ r = pack_I (zlen b) ++ b.
Proof.
  unfold _frame. destruct v; try (split; [discriminate|by intros (?&?&_)]).
  destruct (Z.ltb_spec maximum (zlen bs)); split.
  - discriminate.
  - intros (?&[= <-]&?&_). lia.
  - intros [= <-]. by exists bs.
  - by intros (?&[= ->]&_&->).
Qed.

Lemma finish_reason_ok `{Unicode} v r :
  _finish_reason_bytes v = Ok r <->
  exists s, v = PStr s /\ s <> [] /\ s = nfc s /\ contains_nul s = false /\ utf8 s = Ok r
            /\ zlen r <= MAX_FINISH_REASON_BYTES_V3.
Proof.
  unfold _finish_reason_bytes. destruct v as [| | | |s| | |]; try (split; [discriminate|by intros (?&?&_)]).
  destruct s as [|x s]; [split; [discriminate|by intros (?&[= <-]&?&_)]|].
  remember (x :: s) as t eqn:Et. assert (t <> []) as Hne by by subst. clear Et.
  case_bool_decide as Hn; cbn [negb orb]; [|split; [discriminate|by intros (?&[= <-]&_&?&_)]].
  destruct (contains_nul t) eqn:Hz; [split; [discriminate|by intros (?&[= <-]&_&_&?&_); congruence]|].
  rewrite bind_ok. split.
  - intros (e & He & Hr). destruct (Z.ltb_spec MAX_FINISH_REASON_BYTES_V3 (zlen e)); [discriminate|].
    apply (inj Ok) in Hr as ->. by exists t.
  - intros (? & [= <-] & _ & _ & _ & He & Hl). exists r. by rewrite (proj2 (Z.ltb_ge _ _)).
Qed.

Definition stream (emitted finish : pyval) (b : bytes) (s : text) (r : bytes) : Prop :=
  emitted = PBytes b /\ zlen b <= MAX_OUTPUT_STREAM_BYTES_V3 /\ finish = PStr s /\ utf8 s = Ok r
  /\ zlen r <= MAX_FINISH_REASON_BYTES_V3.

Lemma stream_digest_ok `{Digest, Unicode} e f d :
  output_stream_digest_v3 e f = Ok d -> exists b s r, stream e f b s r /\ d = sha256 (stream_input b r).
Proof.
  unfold output_stream_digest_v3.
  intros (x & (b & -> & Hb & ->)%frame_ok & (r & (s & -> & _ & _ & _ & Hs & Hr)%finish_reason_ok
    & (y & (r' & [= <-] & _ & ->)%frame_ok & Hd)%bind_ok)%bind_ok)%bind_ok.
  apply (inj Ok) in Hd as <-. by exists b, s, r.
Qed.

Lemma stream_input_inj b b' r r' :
  zlen b <= MAX_OUTPUT_STREAM_BYTES_V3 -> zlen b' <= MAX_OUTPUT_STREAM_BYTES_V3 ->
  zlen r <= MAX_FINISH_REASON_BYTES_V3 -> zlen r' <= MAX_FINISH_REASON_BYTES_V3 ->
  stream_input b r = stream_input b' r' -> b = b' /\ r = r'.
Proof.
  intros Hb Hb' Hr Hr' E. unfold stream_input in E. apply app_inv_head in E.
  assert (MAX_OUTPUT_STREAM_BYTES_V3 < 2 ^ 32 /\ MAX_FINISH_REASON_BYTES_V3 < 2 ^ 32) as [? ?] by done.
  pose proof (zlen_nonneg b). pose proof (zlen_nonneg b'). pose proof (zlen_nonneg r). pose proof (zlen_nonneg r').
  rewrite <- !app_assoc in E. apply app_inj_1 in E as [El E]; [|by rewrite !pack_I_length].
  apply pack_I_inj in El; [|lia..]. apply app_inj_1 in E as [-> E]; [|unfold zlen in El; lia].
  by apply app_inj_1 in E as [_ ->]; [|by rewrite !pack_I_length].
Qed.

Lemma observed_ok `{Digest, Unicode} o ob :
  derive_output_binding o = Ok ob ->
  valid_output ob /\ exists ids b s r,
    tokens (output_token_ids o) ids /\ stream (emitted_text_utf8 o) (finish_reason o) b s r
    /\ output_token_root ob = sha256 (token_frame ids) /\ output_stream_digest ob = sha256 (stream_input b r).
Proof.
  unfold derive_output_binding, from_observed_output.
  intros (_ & _ & (n & _ & (d & (ids & Hids & ->)%token_digest_ok & (e & (b & s & r & Hs & ->)%stream_digest_ok
    & (m & _ & (Hv & Hr & Hd & _)%output_new_ok)%bind_ok)%bind_ok)%bind_ok)%bind_ok)%bind_ok.
  split; [done|]. exists ids, b, s, r. injection Hr as ->. by injection Hd as ->.
Qed.

Lemma bind_output_ok `{Digest} c ob rb :
  valid_precontext c -> bind_output c ob = Ok rb ->
  rb = MkRequestBinding c ob (sha256 (request_input c ob)).
Proof.
  intros Hv. unfold bind_output, ExecutionRequestBindingV3_new. rewrite request_digest_ok by done.
  cbn [mbind res_bind]. rewrite fixed_bytes by exact (sha256_length _). cbn [mbind res_bind].
  rewrite bool_decide_eq_true_2 by done. cbn [negb]. intros E. by apply (inj Ok) in E as <-.
Qed.

(** ** The validator's derivation *)

Record valid_validator_context (vc : ValidatorExecutionRequestContextV3) : Prop := {
  vv_digests : Forall bytes32 [vc_proof_challenge_id vc; vc_validator_identity_digest vc;
    vc_miner_identity_digest vc; vc_validator_nonce_commitment vc; vc_cache_lease_digest vc;
    vc_sampler_config_digest vc];
  vv_lease : vc_cache_lease_digest vc <> zero32;
}.

Lemma validator_context_new_ok a1 a2 a3 a4 t a5 a6 vc :
  ValidatorExecutionRequestContextV3_new a1 a2 a3 a4 t a5 a6 = Ok vc -> valid_validator_context vc.
Proof.
  unfold ValidatorExecutionRequestContextV3_new. intros Hn.
  repeat (let x := fresh "x" in let E := fresh "E" in apply bind_ok in Hn as (x & E & Hn);
    apply fixed_ok in E as (-> & ? & ?)).
  apply (inj Ok) in Hn as <-. split; cbn; [by repeat constructor|auto].
Qed.

Definition context_of `{Digest} (vc : ValidatorExecutionRequestContextV3) (static profile : bytes) (ids : list Z)
    : PreExecutionRequestContextV3 :=
  MkPreContext (vc_proof_challenge_id vc) (vc_validator_identity_digest vc) (vc_miner_identity_digest vc)
    (vc_validator_nonce_commitment vc) static profile (sha256 (token_frame ids)) (zlen ids)
    (vc_cache_lease_digest vc) (vc_sampler_config_digest vc).

Lemma context_of_valid `{Digest} vc static profile ids :
  valid_validator_context vc -> bytes32 static -> bytes32 profile -> ids <> [] ->
  zlen ids <= MAX_EXECUTION_REQUEST_TOKENS_V3 -> valid_precontext (context_of vc static profile ids).
Proof.
  intros [Hd Hl] Hs Hp Hi Hn. repeat (apply Forall_cons in Hd as [? Hd]).
  assert (MAX_EXECUTION_REQUEST_TOKENS_V3 < 2 ^ 32) by done.
  split; cbn; [|done|destruct ids; [done|unfold zlen in *; cbn [length] in *; lia]].
  repeat constructor; try assumption. exact (sha256_length _).
Qed.

Lemma prompt_count_ok vc ids :
  tokens (vc_prompt_token_ids vc) ids -> ids <> [] -> prompt_token_count vc = Ok (zlen ids).
Proof.
  intros Ht Hi. unfold prompt_token_count. rewrite (proj2 (tokens_items _ _ ids Ht)). cbn [mbind res_bind].
  apply positive_ok. split; [done|]. destruct Ht as (_ & _ & Hn).
  assert (MAX_EXECUTION_REQUEST_TOKENS_V3 < 2 ^ 32) by done.
  destruct ids; [done|]. unfold zlen in *. cbn [length] in *. lia.
Qed.

(** The digest that the validator commits its nonce to is the one of the
    derived context, so the consistency test of the derivation passes. *)
Lemma validator_nonce_context_ok `{Digest} vc static profile ids :
  valid_validator_context vc -> bytes32 static -> bytes32 profile -> tokens (vc_prompt_token_ids vc) ids ->
  ids <> [] ->
  validator_nonce_context_digest vc (PBytes static) (PBytes profile)
  = nonce_context_digest (context_of vc static profile ids).
Proof.
  intros Hv Hs Hp Ht Hi. unfold validator_nonce_context_digest, derive_pre_nonce_context_digest_v3.
  rewrite (prompt_count_ok vc ids) by done. cbn [mbind res_bind].
  pose proof (prompt_count_ok vc ids Ht Hi) as Hc. unfold prompt_token_count in Hc.
  rewrite (proj2 (tokens_items _ _ ids Ht)) in Hc |- *. cbn [mbind res_bind] in Hc |- *. rewrite Hc.
  cbn [mbind res_bind].
  by rewrite (proj2 (token_digest_ok _ _ (sha256 (token_frame ids)))) by eauto.
Qed.

Lemma derive_precommit_ok `{Digest} vc s p c :
  valid_validator_context vc ->
  derive_precommit_context vc s p = Ok c <->
  exists static profile ids, s = PBytes static /\ p = PBytes profile /\ bytes32 static /\ bytes32 profile
    /\ tokens (vc_prompt_token_ids vc) ids /\ ids <> [] /\ c = context_of vc static profile ids.
Proof.
  intros Hv. unfold derive_precommit_context. split.
  - intros (n & Hn & (static & (-> & Hs & _)%fixed_ok & (profile & (-> & Hp & _)%fixed_ok
      & (d & (ids & Ht & ->)%token_digest_ok & (c' & Hc & (m & Hm & (t & Hth & H')%bind_ok)%bind_ok)
      %bind_ok)%bind_ok)%bind_ok)%bind_ok)%bind_ok.
    assert (ids <> []) as Hi.
    { intros ->. unfold prompt_token_count in Hn. rewrite (proj2 (tokens_items _ _ [] Ht)) in Hn. discriminate. }
    exists static, profile, ids. split_and!; try done.
    rewrite (prompt_count_ok vc ids) in Hn by done. apply (inj Ok) in Hn as <-.
    case_bool_decide; cbn [negb] in H'; [|discriminate]. apply (inj Ok) in H' as <-.
    apply precontext_new_ok in Hc as (_&H1&H2&H3&H4&H5&H6&H7&H8&H9&H10).
    unfold context_of. destruct c'. cbn in *. congruence.
  - intros (static & profile & ids & -> & -> & Hs & Hp & Ht & Hi & ->).
    rewrite (prompt_count_ok vc ids) by done. cbn [mbind res_bind].
    do 2 (rewrite fixed_bytes by done; cbn [mbind res_bind]).
    rewrite (proj2 (token_digest_ok _ _ (sha256 (token_frame ids)))) by eauto. cbn [mbind res_bind].
    assert (valid_precontext (context_of vc static profile ids)) as Hvc by
      (apply context_of_valid; try done; apply Ht).
    pose proof (new_valid_precontext _ Hvc) as Hn. unfold new_precontext in Hn.
    unfold context_of at 1 2 3 4 5 6 7 8 9 10 in Hn.
    cbn [proof_challenge_id validator_identity_digest miner_identity_digest validator_nonce_commitment
         static_manifest_digest execution_profile_digest prompt_token_root context_token_count
         cache_lease_digest sampler_config_digest] in Hn. rewrite Hn.
    cbn [mbind res_bind].
    rewrite (validator_nonce_context_ok vc static profile ids), (nonce_context_ok _ Hvc) by done.
    cbn [mbind res_bind]. by rewrite bool_decide_eq_true_2.
Qed.

(** ** The properties *)

(** The frame of the pre-execution context is canonical: the parser returns
    [c] on a value exactly when [c] is well formed and the value is the frame of
    [c].  So parsing inverts writing, two frames never denote the same context,
    and nothing else parses. *)
Theorem precontext_roundtrip v c :
  precontext_from_canonical_bytes v = Ok c <-> valid_precontext c /\ v = PBytes (precontext_bytes c).
Proof. apply precontext_codec_law. Qed.

(** The statement a validator derives from its own context and the output it
    observed. *)
Definition validator_statement `{Digest, Unicode} (vc : ValidatorExecutionRequestContextV3) (s p : pyval)
    (o : ObservedExecutionOutputV3) : res ExecutionRequestBindingV3 :=
  c ← derive_precommit_context vc s p;
  ob ← derive_output_binding o;
  bind_output c ob.

Definition same_tokens (v v' : pyval) : Prop := exists ids, tokens v ids /\ tokens v' ids.

(** The two statements are about the same request and the same response. *)
Record same_exchange (vc vc' : ValidatorExecutionRequestContextV3) (s s' p p' : pyval)
    (o o' : ObservedExecutionOutputV3) : Prop := {
  se_challenge : vc_proof_challenge_id vc' = vc_proof_challenge_id vc;
  se_validator : vc_validator_identity_digest vc' = vc_validator_identity_digest vc;
  se_miner : vc_miner_identity_digest vc' = vc_miner_identity_digest vc;
  se_commitment : vc_validator_nonce_commitment vc' = vc_validator_nonce_commitment vc;
  se_lease : vc_cache_lease_digest vc' = vc_cache_lease_digest vc;
  se_sampler : vc_sampler_config_digest vc' = vc_sampler_config_digest vc;
  se_manifest : s' = s;
  se_profile : p' = p;
  se_prompt : same_tokens (vc_prompt_token_ids vc) (vc_prompt_token_ids vc');
  se_output : same_tokens (output_token_ids o) (output_token_ids o');
  se_text : emitted_text_utf8 o' = emitted_text_utf8 o;
  se_finish : finish_reason o' = finish_reason o;
}.

(** The strings that a statement hashes, the token sequences and the stream
    included. *)
Definition statement_inputs `{Digest} (rb : ExecutionRequestBindingV3) (prompt output : list Z) (emitted reason : bytes)
    : list bytes :=
  [request_input (rb_precommit_context rb) (rb_output rb); precontext_input (rb_precommit_context rb);
   nonce_input (rb_precommit_context rb); token_frame prompt; token_frame output; stream_input emitted reason].

Lemma token_frame_binds `{Digest} Q v v' ids ids' :
  tokens v ids -> tokens v' ids' -> token_frame ids ∈ Q ->
  sha256 (token_frame ids) = sha256 (token_frame ids') -> same_tokens v v' \/ second_preimage Q.
Proof.
  intros Ht Ht' HQ E. destruct (sha256_inj_or Q (token_frame ids) (token_frame ids') HQ (eq_sym E)) as [E1|]; [|by right].
  left. exists ids. destruct Ht as (Hv & Hf & Hn), Ht' as (Hv' & Hf' & Hn').
  apply token_frame_inj in E1 as ->; [by split|done..].
Qed.

Lemma stream_binds `{Digest} Q e e' f f' b b' s s' r r' :
  stream e f b s r -> stream e' f' b' s' r' -> stream_input b r ∈ Q ->
  sha256 (stream_input b r) = sha256 (stream_input b' r') -> (e' = e /\ f' = f) \/ second_preimage Q.
Proof.
  intros (-> & Hb & -> & Hs & Hr) (-> & Hb' & -> & Hs' & Hr') HQ E.
  destruct (sha256_inj_or Q (stream_input b r) (stream_input b' r') HQ (eq_sym E)) as [E1|]; [|by right].
  apply stream_input_inj in E1 as [-> ->]; [|done..]. by rewrite (utf8_inj _ _ _ Hs Hs'); left.
Qed.

Lemma validator_statement_ok `{Digest, Unicode} vc s p o rb :
  valid_validator_context vc -> validator_statement vc s p o = Ok rb ->
  exists static profile ids oids b t r, s = PBytes static /\ p = PBytes profile
    /\ tokens (vc_prompt_token_ids vc) ids /\ tokens (output_token_ids o) oids
    /\ stream (emitted_text_utf8 o) (finish_reason o) b t r
    /\ rb_precommit_context rb = context_of vc static profile ids
    /\ output_token_root (rb_output rb) = sha256 (token_frame oids)
    /\ output_stream_digest (rb_output rb) = sha256 (stream_input b r)
    /\ rb_request_digest rb = sha256 (request_input (rb_precommit_context rb) (rb_output rb))
    /\ valid_precontext (rb_precommit_context rb) /\ valid_output (rb_output rb).
Proof.
  intros Hv (c & Hc & (ob & (Hob & oids & b & t & r & Ht & Hst & Hr & Hd)%observed_ok & Hb)%bind_ok)%bind_ok.
  apply derive_precommit_ok in Hc as (static & profile & ids & -> & -> & Hs & Hp & Hids & Hne & ->); [|done].
  pose proof (context_of_valid vc static profile ids Hv Hs Hp Hne (proj2 (proj2 Hids))) as Hvc.
  apply bind_output_ok in Hb as ->; [|done]. cbn. by exists static, profile, ids, oids, b, t, r.
Qed.

(** C28 One request digest, one exchange: when two validator statements have the
    same request digest, they agree on the identities, the committed nonce, the
    manifest, the profile, every prompt and output token, the lease, the
    sampler, the streamed bytes and the finish reason, or a second preimage of
    one of the strings that the first statement hashes is given: its two
    records, the frames of its own prompt and output tokens, and its own
    streamed bytes and finish reason. *)
Theorem request_digest_binds_exchange `{Digest, Unicode} vc vc' s s' p p' o o' rb rb' :
  valid_validator_context vc -> valid_validator_context vc' ->
  validator_statement vc s p o = Ok rb -> validator_statement vc' s' p' o' = Ok rb' ->
  rb_request_digest rb = rb_request_digest rb' ->
  same_exchange vc vc' s s' p p' o o'
  \/ exists prompt output emitted text reason,
       tokens (vc_prompt_token_ids vc) prompt /\ tokens (output_token_ids o) output
       /\ stream (emitted_text_utf8 o) (finish_reason o) emitted text reason
       /\ second_preimage (statement_inputs rb prompt output emitted reason).
Proof.
  intros Hv Hv' Hs Hs' E.
  apply validator_statement_ok in Hs as (st & pr & ids & oids & b & t & r & -> & -> & Ht & Hot & Hst & Hc & Hr & Hd & Hq & Hvc & Hvo); [|done].
  apply validator_statement_ok in Hs' as (st' & pr' & ids' & oids' & b' & t' & r' & -> & -> & Ht' & Hot' & Hst' & Hc' & Hr' & Hd' & Hq' & Hvc' & Hvo'); [|done].
  set (Q := statement_inputs rb ids oids b r).
  assert (same_exchange vc vc' (PBytes st) (PBytes st') (PBytes pr) (PBytes pr') o o' \/ second_preimage Q) as [?|?];
    [|by left|right; by exists ids, oids, b, t, r].
  rewrite Hq, Hq' in E. destruct (request_input_binds _ _ _ _ Hvc Hvc' Hvo Hvo' E) as [[Ec Eo]|Hx].
  2:{ right. eapply second_preimage_mono; [|exact Hx]. unfold Q, statement_inputs. set_solver. }
  rewrite Hc, Hc' in Ec. injection Ec as ? ? ? ? ? ? Ert Ecnt ? ?.
  rewrite Eo in Hr', Hd'.
  destruct (token_frame_binds Q _ _ _ _ Ht Ht') as [?|?]; [unfold Q, statement_inputs; set_solver|done| |by right].
  destruct (token_frame_binds Q _ _ _ _ Hot Hot') as [?|?]; [unfold Q, statement_inputs; set_solver|congruence| |by right].
  destruct (stream_binds Q _ _ _ _ _ _ _ _ _ _ Hst Hst') as [[? ?]|?]; [unfold Q, statement_inputs; set_solver|congruence| |by right].
  left. split; congruence.
Qed.

(** A nonce commitment opens in one way: if the commitments to two nonces
    under the nonce contexts of two requests are equal, the nonces are equal and
    the requests differ at most in the commitment they carry, or a second
    preimage of a string hashed for the first one is given. *)
Theorem nonce_commitment_binds `{Digest} nonce nonce' c c' d d' k :
  valid_precontext c -> valid_precontext c' ->
  nonce_context_digest c = Ok d -> nonce_context_digest c' = Ok d' ->
  commit_validator_nonce_v3 nonce (PBytes d) = Ok k -> commit_validator_nonce_v3 nonce' (PBytes d') = Ok k ->
  (nonce' = nonce /\ forall commitment,
     let with_commitment x := MkPreContext (proof_challenge_id x) (validator_identity_digest x)
       (miner_identity_digest x) commitment (static_manifest_digest x) (execution_profile_digest x)
       (prompt_token_root x) (context_token_count x) (cache_lease_digest x) (sampler_config_digest x) in
     with_commitment c' = with_commitment c)
  \/ exists n, nonce = PBytes n /\ second_preimage [commitment_input n d; nonce_input c].
Proof.
  intros Hv Hv' Hd Hd'. rewrite nonce_context_ok in Hd, Hd' by done. apply (inj Ok) in Hd as <-, Hd' as <-.
  unfold commit_validator_nonce_v3.
  intros (n & (-> & Hn & _)%fixed_ok & (x & ([= <-] & Hx & _)%fixed_ok & Hk)%bind_ok)%bind_ok.
  intros (n' & (-> & Hn' & _)%fixed_ok & (x' & ([= <-] & Hx' & _)%fixed_ok & Hk')%bind_ok)%bind_ok.
  set (Q := [commitment_input n (sha256 (nonce_input c)); nonce_input c]).
  assert (sha256 (commitment_input n' (sha256 (nonce_input c'))) = sha256 (commitment_input n (sha256 (nonce_input c))))
    as E by (apply (inj Ok) in Hk, Hk'; unfold commitment_input; congruence).
  destruct (sha256_inj_or Q (commitment_input n (sha256 (nonce_input c)))
              (commitment_input n' (sha256 (nonce_input c')))) as [E1|]; [set_solver|done| |right; by exists n].
  unfold commitment_input in E1. apply app_inv_head in E1. app_split E1. subst n'.
  destruct (sha256_inj_or Q (nonce_input c) (nonce_input c')) as [E2|]; [set_solver|done| |right; by exists n].
  left. split; [done|]. intros k'. cbv zeta.
  destruct Hv as [Hf _ Hc], Hv' as [Hf' _ Hc']. unfold digests in Hf, Hf'.
  repeat (apply Forall_cons in Hf as [? Hf]). repeat (apply Forall_cons in Hf' as [? Hf']).
  unfold nonce_input in E2. apply app_inv_head in E2. app_split E2.
  match goal with H : pack_I _ = pack_I _ |- _ => apply pack_I_inj in H; [|lia..] end.
  congruence.
Qed.

(** The derivation of the pre-execution context succeeds exactly when the
    digests are 32-byte strings and the prompt is a nonempty token sequence
    within the limit, and returns the fields of the validator's context, the
    digest of the tokens and their number; its nonce context is the one the
    validator commits to, so the consistency error is never raised. *)
Theorem derive_precommit_context_exact `{Digest} a1 a2 a3 a4 prompt a5 a6 vc s p c :
  ValidatorExecutionRequestContextV3_new a1 a2 a3 a4 prompt a5 a6 = Ok vc ->
  (derive_precommit_context vc s p = Ok c <->
   exists static profile ids, s = PBytes static /\ p = PBytes profile /\ bytes32 static /\ bytes32 profile
     /\ tokens (vc_prompt_token_ids vc) ids /\ ids <> [] /\ c = context_of vc static profile ids
     /\ validator_nonce_context_digest vc s p = nonce_context_digest c).
Proof.
  intros Hv%validator_context_new_ok. rewrite derive_precommit_ok by done. split.
  - intros (static & profile & ids & -> & -> & Hs & Hp & Ht & Hi & ->).
    exists static, profile, ids. split_and!; [done..|]. by apply validator_nonce_context_ok.
  - intros (static & profile & ids & -> & -> & Hs & Hp & Ht & Hi & -> & _). by exists static, profile, ids.
Qed.

Lemma lookup_app_Z {A} (l k : list A) p :
  0 <= p -> (if p <? zlen l then l !! Z.to_nat p else k !! Z.to_nat (p - zlen l)) = (l ++ k) !! Z.to_nat p.
Proof.
  unfold zlen. intros Hp. destruct (Z.ltb_spec p (Z.of_nat (length l))).
  - by rewrite lookup_app_l by lia.
  - rewrite lookup_app_r by lia. f_equal. lia.
Qed.

(** The token of a captured position is the entry at that position of the
    prompt followed by the output, for every position but the one of the last
    output token; outside this range, and for an entry that is not a token, a
    [ProofV3Error] is raised and never an [IndexError]. *)
Theorem execution_position_token prompt output position :
  match execution_input_token_id_at_position_v3 prompt output position with
  | Ok t => prompt <> [] /\ output <> [] /\ exists p, position = PInt p /\ 0 <= p < zlen (prompt ++ output) - 1
              /\ (prompt ++ output) !! Z.to_nat p = Some (PInt t) /\ token t
  | Err e => exc_kind e = ProofV3Error
             /\ ~ exists p t, prompt <> [] /\ output <> [] /\ position = PInt p /\ 0 <= p < zlen (prompt ++ output) - 1
                  /\ (prompt ++ output) !! Z.to_nat p = Some (PInt t) /\ token t
  end.
Proof.
  unfold execution_input_token_id_at_position_v3.
  assert (forall l : list pyval, l <> [] <-> 0 < zlen l) as Hne.
  { intros [|x l]; unfold zlen; cbn [length]; split; intros; try done; lia. }
  assert (zlen (prompt ++ output) = zlen prompt + zlen output) as Hl.
  { unfold zlen. rewrite length_app. lia. }
  pose proof (zlen_nonneg prompt) as Hp0. pose proof (zlen_nonneg output) as Ho0.
  destruct ((zlen prompt <=? 0) || (zlen output <=? 0)) eqn:E0.
  { split; [done|]. intros (?&?&Hp%Hne&Ho%Hne&_). lia. }
  destruct position as [| |p| | | | |]; try (split; [done|]; by intros (?&?&?&?&?&_)).
  destruct ((p <? 0) || (zlen prompt + zlen output - 1 <=? p)) eqn:E1.
  { split; [done|]. intros (?&?&?&?&[= <-]&?&_). lia. }
  rewrite lookup_app_Z by lia.
  destruct (lookup_lt_is_Some_2 (prompt ++ output) (Z.to_nat p)) as [v Hv]; [unfold zlen in *; lia|].
  rewrite Hv. destruct (_u32 v _) as [t|e] eqn:Et.
  - apply u32_ok in Et as [-> Ht]. split_and!; [apply Hne; lia..|]. exists p. split_and!; [done|lia..|done|done].
  - split.
    + unfold _u32 in Et. repeat case_match; by inversion Et.
    + intros (q & t & _ & _ & [= <-] & _ & Hq & Ht). rewrite Hv in Hq. injection Hq as ->.
      by rewrite (proj2 (u32_ok _ _ t)) in Et.
Qed.

(** ** Hotkey identities *)

Definition hotkey_input (role encoded : bytes) : bytes :=
  _NETWORK_HOTKEY_IDENTITY_DOMAIN ++ le_split 1 (zlen role) ++ role ++ pack_H (zlen encoded) ++ encoded.

Lemma hotkey_ok `{Digest} role v d :
  _network_hotkey_identity_digest_v3 role v = Ok d ->
  (role = b_lit "validator" \/ role = b_lit "miner") /\
  exists s e, v = PStr s /\ ascii s = Ok e /\ zlen e <= 128 /\ d = sha256 (hotkey_input role e).
Proof.
  unfold _network_hotkey_identity_digest_v3. intros Hd.
  destruct (negb (_ || _)) eqn:Er in Hd; [discriminate|].
  apply negb_false_iff, orb_true_iff in Er. rewrite !bool_decide_eq_true in Er. split; [done|].
  destruct v as [| | | |s| | |]; try discriminate Hd. destruct s as [|x s]; [discriminate|].
  destruct (_ || _) in Hd; [discriminate|]. apply bind_ok in Hd as (e & He%reraise_as_ok & Hd).
  destruct (Z.ltb_spec 128 (zlen e)); [discriminate|]. apply (inj Ok) in Hd as <-. by exists (x :: s), e.
Qed.

(** A hotkey identity names one role and one hotkey: equal digests come from
    the same role and the same text, or a second preimage is given; a
    validator's identity is never a miner's. *)
Theorem hotkey_identity_binds `{Digest} role role' v v' d :
  _network_hotkey_identity_digest_v3 role v = Ok d -> _network_hotkey_identity_digest_v3 role' v' = Ok d ->
  (role' = role /\ v' = v)
  \/ exists s e, v = PStr s /\ ascii s = Ok e /\ second_preimage [hotkey_input role e].
Proof.
  intros (Hr & s & e & -> & He & Hl & ->)%hotkey_ok (Hr' & s' & e' & -> & He' & Hl' & E)%hotkey_ok.
  destruct (sha256_inj_or [hotkey_input role e] (hotkey_input role e) (hotkey_input role' e')) as [E1|];
    [set_solver|done| |right; by exists s, e].
  left. unfold hotkey_input in E1. apply app_inv_head in E1.
  apply app_inj_1 in E1 as [El E1]; [|by rewrite !le_split_length].
  assert (role' = role) as ->.
  { destruct Hr as [-> | ->], Hr' as [-> | ->]; by vm_compute in El. }
  apply app_inv_head in E1. apply app_inj_1 in E1 as [_ ->]; [|by rewrite !pack_H_length].
  split; [done|]. f_equal. by apply (ascii_inj s' s e).
Qed.

(** ** Witnesses *)

#[local] Existing Instance checksum_digest.

(** Text in normal form already. *)
#[local] Instance nfc_identity : Unicode := fun s => s.

Definition example_context (prompt : pyval) : ValidatorExecutionRequestContextV3 :=
  MkValidatorContext (replicate 32 x01) (replicate 32 x02) (replicate 32 x03) (replicate 32 x04) prompt
    (replicate 32 x05) (replicate 32 x06).

Definition example_prompt : pyval := PTuple [PInt 5; PInt 6; PInt 7].

Definition example_output (ids : pyval) : ObservedExecutionOutputV3 :=
  MkObserved ids (PBytes (b_lit "hello")) (PStr (t_lit "stop")).

Definition example_static : bytes := replicate 32 x07.
Definition example_profile : bytes := replicate 32 x08.

Lemma example_context_valid prompt : valid_validator_context (example_context prompt).
Proof. split; [by repeat constructor|done]. Qed.

Definition example_statement (prompt output : pyval) : res ExecutionRequestBindingV3 :=
  validator_statement (example_context prompt) (PBytes example_static) (PBytes example_profile) (example_output output).

Example example_statement_ok :
  is_ok (example_statement example_prompt (PTuple [PInt 9; PInt 10])) = true
  /\ is_ok (example_statement (PTuple []) (PTuple [])) = false.
Proof. split; vm_compute; reflexivity. Qed.

Definition example_binding : ExecutionRequestBindingV3 :=
  ok_or (MkRequestBinding (MkPreContext [] [] [] [] [] [] [] 0 [] []) (MkOutputBinding [] [] 0) [])
    (example_statement example_prompt (PTuple [PInt 9; PInt 10])).

Lemma request_digest_binds_exchange_witness :
  same_exchange (example_context example_prompt) (example_context (PList [PInt 5; PInt 6; PInt 7]))
    (PBytes example_static) (PBytes example_static) (PBytes example_profile) (PBytes example_profile)
    (example_output (PTuple [PInt 9; PInt 10])) (example_output (PList [PInt 9; PInt 10]))
  \/ exists prompt output emitted text reason,
       tokens example_prompt prompt /\ tokens (PTuple [PInt 9; PInt 10]) output
       /\ stream (emitted_text_utf8 (example_output (PTuple [PInt 9; PInt 10])))
            (finish_reason (example_output (PTuple [PInt 9; PInt 10]))) emitted text reason
       /\ second_preimage (statement_inputs example_binding prompt output emitted reason).
Proof.
  pose proof (request_digest_binds_exchange (H := checksum_digest) (H0 := nfc_identity)
    (example_context example_prompt) (example_context (PList [PInt 5; PInt 6; PInt 7]))
    (PBytes example_static) (PBytes example_static) (PBytes example_profile) (PBytes example_profile)
    (example_output (PTuple [PInt 9; PInt 10])) (example_output (PList [PInt 9; PInt 10]))
    example_binding example_binding (example_context_valid _) (example_context_valid _)) as Hx.
  refine (Hx _ _ _); vm_compute; reflexivity.
Defined.

Definition example_precontext : PreExecutionRequestContextV3 := rb_precommit_context example_binding.

Lemma example_precontext_valid : valid_precontext example_precontext.
Proof. split; vm_compute; [by repeat constructor|done|done]. Qed.

Definition example_nonce : bytes := replicate 32 x09.
Definition example_nonce_context : bytes := ok_or [] (nonce_context_digest example_precontext).
Definition example_commitment : bytes :=
  ok_or [] (commit_validator_nonce_v3 (PBytes example_nonce) (PBytes example_nonce_context)).

Lemma nonce_commitment_binds_witness :
  (PBytes example_nonce = PBytes example_nonce /\ forall commitment,
     let with_commitment x := MkPreContext (proof_challenge_id x) (validator_identity_digest x)
       (miner_identity_digest x) commitment (static_manifest_digest x) (execution_profile_digest x)
       (prompt_token_root x) (context_token_count x) (cache_lease_digest x) (sampler_config_digest x) in
     with_commitment example_precontext = with_commitment example_precontext)
  \/ exists n, PBytes example_nonce = PBytes n
       /\ second_preimage [commitment_input n example_nonce_context; nonce_input example_precontext].
Proof.
  pose proof (nonce_commitment_binds (H := checksum_digest) (PBytes example_nonce) (PBytes example_nonce)
    example_precontext example_precontext example_nonce_context example_nonce_context example_commitment
    example_precontext_valid example_precontext_valid) as Hx.
  refine (Hx _ _ _ _); vm_compute; reflexivity.
Defined.

Lemma derive_precommit_context_exact_witness :
  derive_precommit_context (example_context example_prompt) (PBytes example_static) (PBytes example_profile)
    = Ok example_precontext <->
  exists static profile ids, PBytes example_static = PBytes static /\ PBytes example_profile = PBytes profile
    /\ bytes32 static /\ bytes32 profile /\ tokens example_prompt ids /\ ids <> []
    /\ example_precontext = context_of (example_context example_prompt) static profile ids
    /\ validator_nonce_context_digest (example_context example_prompt) (PBytes example_static)
         (PBytes example_profile) = nonce_context_digest example_precontext.
Proof.
  pose proof (derive_precommit_context_exact (H := checksum_digest) (PBytes (replicate 32 x01))
    (PBytes (replicate 32 x02)) (PBytes (replicate 32 x03)) (PBytes (replicate 32 x04)) example_prompt
    (PBytes (replicate 32 x05)) (PBytes (replicate 32 x06)) (example_context example_prompt)
    (PBytes example_static) (PBytes example_profile) example_precontext) as Hx.
  refine (Hx _). vm_compute. reflexivity.
Defined.

Definition example_hotkey : text := t_lit "5F3sa2TJAWMqDhXG6jhV4N8ko9SxwGy8TpaNS1repo5EYjQX".
Definition example_identity : bytes := ok_or [] (validator_hotkey_identity_digest_v3 (PStr example_hotkey)).

Lemma hotkey_identity_binds_witness :
  (b_lit "validator" = b_lit "validator" /\ PStr example_hotkey = PStr example_hotkey)
  \/ exists s e, PStr example_hotkey = PStr s /\ ascii s = Ok e
       /\ second_preimage [hotkey_input (b_lit "validator") e].
Proof.
  pose proof (hotkey_identity_binds (H := checksum_digest) (b_lit "validator") (b_lit "validator")
    (PStr example_hotkey) (PStr example_hotkey) example_identity) as Hx.
  refine (Hx _ _); vm_compute; reflexivity.
Defined.

Example execution_position_token_example :
  execution_input_token_id_at_position_v3 [PInt 5; PInt 6] [PInt 9; PInt 10] (PInt 2) = Ok 9
  /\ is_ok (execution_input_token_id_at_position_v3 [PInt 5; PInt 6] [PInt 9; PInt 10] (PInt 3)) = false.
Proof. done. Qed.
