(* ===== verification/Relation.v ===== *)
(** * Signed statements ([verallm/proof_v3/relation.py])

    Validators of scalars and sequences, dimensions and the sequence domain,
    registered operations and the audit plans of the layers. *)

From Stdlib Require Import ZArith Lia.
From Stdlib Require Import Strings.Byte.
From coqutil Require Import Word.LittleEndianList.
From stdpp Require Import base gmap list strings sorting.
From S2P Require Import Prelude Sha256 Merkle MerkleTheory Validate Wire Text.

Local Open Scope Z_scope.

Module Relation.
Definition MAX_IDENTIFIER_BYTES : Z := 128.
Definition GLOBAL_EXECUTION_RELATION_ABI_V3 : text := t_lit "global_execution.air.v2".
Definition GLOBAL_EXECUTION_COVERAGE_MODE_V3 : text := t_lit "all_graph_nodes".
Definition ECONOMIC_SHELL_COVERAGE_MODE_V3 : text := t_lit "economic_shell_only".
Definition POSTCOMMIT_GLOBAL_NONCE_ABI_V3 : text := t_lit "postcommit.global_fold.v1".
Definition POSTCOMMIT_AUDIT_TIER_ABI_V3 : text := t_lit "postcommit.audit_tier.v1".
Definition STRATIFIED_LAYER_HEAD_SELECTION_ABI_V3 : text := t_lit "stratified.layer_head.v1".
Definition RECURSIVE_CHUNK_ACCUMULATOR_ABI_V3 : text := t_lit "recursive.chunk.v2".
Definition SEQUENCE_DOMAIN_RELATION_ID_V3 : text := t_lit "context_plus_decode.v1".
Definition _EXACT_COMPARATORS : list text := [t_lit "exact.field.v1"; t_lit "exact.integer.v1"].
Definition _TRANSITION_KINDS : list text := [t_lit "full_attention"; t_lit "gdn"].
Definition MAX_OPERATION_REFERENCES : Z := 65535.
Definition GLOBAL_HARD_AUDIT_MIN_LAYERS_V3 : Z := 4.
Definition GLOBAL_HARD_AUDIT_MIN_FULL_ATTENTION_LAYERS_V3 : Z := 2.
Definition GLOBAL_HARD_AUDIT_MIN_GDN_LAYERS_V3 : Z := 1.
Definition GLOBAL_HARD_AUDIT_MIN_HEADS_PER_FULL_ATTENTION_LAYER_V3 : Z := 2.
Definition MAX_HARD_AUDIT_QUERY_ROWS_V3 : Z := 256.

(** ** Validators *)

(** [^[a-z0-9][a-z0-9_.:/-]{0,127}$] *)
Definition alphanumeric (c : Z) : bool := (97 <=? c) && (c <=? 122) || (48 <=? c) && (c <=? 57).
Definition identifier_char (c : Z) : bool := alphanumeric c || existsb (Z.eqb c) (t_lit "_.:/-").
Definition identifier_match (s : text) : bool :=
  match s with
  | [] => false
  | c :: s => alphanumeric c && forallb identifier_char s && (zlen s <=? 127)
  end.

Definition _identifier (value : pyval) (name : string) : res text :=
  match value with
  | PStr s =>
      encoded ← reraise_as [] [UnicodeEncodeError] ProofV3Error (name +:+ " must be ASCII") (ascii s);
      if (MAX_IDENTIFIER_BYTES <? zlen encoded) || negb (identifier_match s) then
        raise ProofV3Error (name +:+ " must be a lowercase canonical identifier no longer than 128 bytes")
      else Ok s
  | _ => raise ProofV3Error (name +:+ " must be a string")
  end.

Definition _fixed32 (value : pyval) (name : string) (nonzero : bool) : res bytes :=
  fixed32 ProofV3Error value name nonzero.
Definition _u32 := u32.

Definition _i32 (value : pyval) (name : string) (minimum : Z) : res Z :=
  match int_in minimum (Z.shiftl 1 31) value with
  | Some z => Ok z
  | None => raise ProofV3Error (name +:+ " must be a signed 32-bit integer")
  end.

(** [value in {...}] for a set of strings: an unhashable value raises. *)
Fixpoint hashable (v : pyval) : bool :=
  match v with
  | PList _ => false
  | PTuple l => forallb hashable l
  | _ => true
  end.

Definition member (value : pyval) (strings : list text) : res (option text) :=
  match value with
  | PStr s => Ok (if bool_decide (s ∈ strings) then Some s else None)
  | v => if hashable v then Ok None else raise TypeError "unhashable type"
  end.

(** [_strictly_sorted] over a key type with a boolean order: the keys are their
    own sorting when no key is above its successor, and then duplicates are
    adjacent. *)
Section sorted.
Context {K : Type} (ltb : K -> K -> bool).

Fixpoint sorted (keys : list K) : bool :=
  match keys with
  | k :: ((k' :: _) as rest) => negb (ltb k' k) && sorted rest
  | _ => true
  end.

Fixpoint duplicate_free `{EqDecision K} (keys : list K) : bool :=
  match keys with
  | [] => true
  | k :: keys => negb (bool_decide (k ∈ keys)) && duplicate_free keys
  end.

Definition _strictly_sorted `{EqDecision K} (keys : list K) (name : string) : res unit :=
  if negb (sorted keys) then raise ProofV3Error (name +:+ " must be sorted canonically")
  else if negb (duplicate_free keys) then raise ProofV3Error (name +:+ " must not contain duplicates")
  else Ok tt.
End sorted.

(** [sorted(...)] and [sorted(set(...))] of integers. *)
Definition py_sorted (l : list Z) : list Z := merge_sort Z.le l.
Definition py_sorted_set (l : list Z) : list Z := merge_sort Z.le (remove_dups l).

(** ** Dimensions *)

Record DeclaredDimensionV3 := MkDimension { dimension_id : text; minimum : Z; maximum : Z }.

Definition DeclaredDimensionV3_new (id lo hi : pyval) : res DeclaredDimensionV3 :=
  id ← _identifier id "dimension_id";
  lo ← _u32 lo "dimension minimum" false;
  hi ← _u32 hi "dimension maximum" true;
  if hi <? lo then raise ProofV3Error "dimension minimum exceeds its maximum"
  else Ok (MkDimension id lo hi).

Definition exact_value (d : DeclaredDimensionV3) : option Z :=
  if minimum d =? maximum d then Some (minimum d) else None.

Record SequenceDomainV3 := MkSequenceDomain {
  context_dimension_id : text;
  decode_dimension_id : text;
  sequence_dimension_id : text;
  relation_id : text;
}.

Definition SequenceDomainV3_new (context decode sequence relation : pyval) : res SequenceDomainV3 :=
  context ← _identifier context "context_dimension_id";
  decode ← _identifier decode "decode_dimension_id";
  sequence ← _identifier sequence "sequence_dimension_id";
  if negb (size (list_to_set [context; decode; sequence] : gset text) =? 3)%nat then
    raise ProofV3Error "sequence-domain dimensions must be distinct"
  else
    match relation with
    | PStr r =>
        if negb (bool_decide (r = SEQUENCE_DOMAIN_RELATION_ID_V3)) then
          raise ProofV3Error "sequence-domain relation_id is not supported"
        else Ok (MkSequenceDomain context decode sequence r)
    | _ => raise ProofV3Error "sequence-domain relation_id is not supported"
    end.

(** [dimensions[id]] *)
Definition get_dimension (dimensions : gmap text DeclaredDimensionV3) (id : text) : res DeclaredDimensionV3 :=
  match dimensions !! id with Some d => Ok d | None => raise KeyError "dimension" end.

Definition declared (dimensions : gmap text DeclaredDimensionV3) (id : text) : bool :=
  match dimensions !! id with Some _ => true | None => false end.

Definition validate_dimensions (self : SequenceDomainV3) (dimensions : gmap text DeclaredDimensionV3) : res unit :=
  if existsb (fun id => negb (declared dimensions id))
       [context_dimension_id self; decode_dimension_id self; sequence_dimension_id self] then
    raise ProofV3Error "sequence-domain dimensions are not declared"
  else
    context ← get_dimension dimensions (context_dimension_id self);
    decode ← get_dimension dimensions (decode_dimension_id self);
    sequence ← get_dimension dimensions (sequence_dimension_id self);
    if minimum context <? 1 then raise ProofV3Error "context token domain must exclude an empty prompt"
    else if negb (minimum sequence =? minimum context + minimum decode) then
      raise ProofV3Error "sequence token minimum does not match context plus decode"
    else if negb (maximum sequence =? maximum context + maximum decode) then
      raise ProofV3Error "sequence token maximum does not match context plus decode"
    else Ok tt.

Definition within (d : DeclaredDimensionV3) (n : Z) : bool := (minimum d <=? n) && (n <=? maximum d).

Definition bind_counts (self : SequenceDomainV3) (dimensions : gmap text DeclaredDimensionV3)
    (context_token_count decode_token_count : pyval) : res Z :=
  _ ← validate_dimensions self dimensions;
  context_count ← _u32 context_token_count "context_token_count" true;
  decode_count ← _u32 decode_token_count "decode_token_count" false;
  context ← get_dimension dimensions (context_dimension_id self);
  decode ← get_dimension dimensions (decode_dimension_id self);
  sequence ← get_dimension dimensions (sequence_dimension_id self);
  if negb (within context context_count) then
    raise ProofV3Error "context token count is outside the signed domain"
  else if negb (within decode decode_count) then
    raise ProofV3Error "decode token count is outside the signed domain"
  else
    let sequence_count := context_count + decode_count in
    if Z.shiftl 1 32 <=? sequence_count then raise ProofV3Error "combined token coordinate space overflows"
    else if negb (within sequence sequence_count) then
      raise ProofV3Error "sequence token count is outside the signed domain"
    else Ok sequence_count.

(** ** Registered operations and layer plans *)

Record RegisteredOperationReferenceV3 := MkOperation {
  op_layer_index : Z;
  operation_id : text;
  expert_id : option Z;
  op_rows : Z;
  op_cols : Z;
  weight_commitment : bytes;
  descriptor_digest : bytes;
}.

Definition RegisteredOperationReferenceV3_new (layer op expert rows cols commitment digest : pyval)
    : res RegisteredOperationReferenceV3 :=
  layer ← _i32 layer "operation layer_index" (-1);
  op ← _identifier op "operation_id";
  expert ← match expert with
           | PNone => Ok None
           | v => z ← _u32 v "operation expert_id" false; Ok (Some z)
           end;
  rows ← _u32 rows "operation rows" true;
  cols ← _u32 cols "operation cols" true;
  commitment ← _fixed32 commitment "operation weight_commitment" true;
  digest ← _fixed32 digest "operation descriptor_digest" true;
  Ok (MkOperation layer op expert rows cols commitment digest).

Definition sort_key (o : RegisteredOperationReferenceV3) : Z * text * Z :=
  (op_layer_index o, operation_id o, match expert_id o with None => -1 | Some e => e end).

(** [<] on [str] and on the tuples of [sort_key]. *)
Fixpoint text_ltb (s t : text) : bool :=
  match s, t with
  | _, [] => false
  | [], _ :: _ => true
  | c :: s, d :: t => (c <? d) || ((c =? d) && text_ltb s t)
  end.

Definition key_ltb (k l : Z * text * Z) : bool :=
  let '(a, s, e) := k in
  let '(b, t, f) := l in
  (a <? b) || ((a =? b) && (text_ltb s t || (bool_decide (s = t) && (e <? f)))).

Record LayerAuditPlanV3 := MkPlan {
  layer_index : Z;
  transition_node_id : text;
  bridge_node_id : text;
  required_operation_references : list RegisteredOperationReferenceV3;
  attention_query_head_count : Z;
  attention_key_value_head_count : Z;
  attention_head_dimension : Z;
  attention_semantics_id : option text;
}.

(** The operations are a tuple of [RegisteredOperationReferenceV3]. *)
Definition LayerAuditPlanV3_new (layer transition bridge : pyval)
    (operations : list RegisteredOperationReferenceV3) (query kv dimension semantics : pyval)
    : res LayerAuditPlanV3 :=
  layer ← _i32 layer "layer audit layer_index" 0;
  transition ← _identifier transition "layer audit transition_node_id";
  bridge ← _identifier bridge "layer audit bridge_node_id";
  if bool_decide (transition = bridge) then
    raise ProofV3Error "layer audit transition and bridge nodes must differ"
  else if MAX_OPERATION_REFERENCES <? zlen operations then
    raise ProofV3Error "layer audit required_operation_references must be a bounded tuple"
  else if bool_decide (zlen operations = 0) then
    raise ProofV3Error "layer audit requires registered PCS operations"
  else
    _ ← _strictly_sorted key_ltb (sort_key <$> operations) "layer audit registered PCS operations";
    if existsb (fun o => negb (op_layer_index o =? layer)) operations then
      raise ProofV3Error "layer audit operations must all belong to their declared layer"
    else
      query ← _u32 query "attention_query_head_count" false;
      kv ← _u32 kv "attention_key_value_head_count" false;
      dimension ← _u32 dimension "attention_head_dimension" false;
      if (query =? kv) && (kv =? dimension) && (dimension =? 0) then
        match semantics with
        | PNone => Ok (MkPlan layer transition bridge operations query kv dimension None)
        | _ => raise ProofV3Error "non-attention layer audits must not declare attention semantics"
        end
      else if (query =? 0) || (kv =? 0) || (dimension =? 0) then
        raise ProofV3Error "full-attention audit geometry is incomplete"
      else if negb (query mod kv =? 0) then
        raise ProofV3Error "full-attention query heads must divide evenly into KV groups"
      else
        match semantics with
        | PNone => raise ProofV3Error "full-attention layer audits require attention semantics"
        | v => s ← _identifier v "attention_semantics_id";
               Ok (MkPlan layer transition bridge operations query kv dimension (Some s))
        end.

Definition is_full_attention (p : LayerAuditPlanV3) : bool := 0 <? attention_query_head_count p.

Definition validate_for_transition_kind (p : LayerAuditPlanV3) (transition_kind : pyval) : res unit :=
  kind ← member transition_kind _TRANSITION_KINDS;
  match kind with
  | None => raise ProofV3Error "layer audit transition kind is not supported"
  | Some kind =>
      if bool_decide (kind = t_lit "full_attention") && negb (is_full_attention p) then
        raise ProofV3Error "full-attention transitions require signed head geometry"
      else if bool_decide (kind = t_lit "gdn") && is_full_attention p then
        raise ProofV3Error "GDN transitions must not declare attention head geometry"
      else Ok tt
  end.
End Relation.
