(* ===== verification/Graph.v ===== *)
(** * The parts of a relation graph ([verallm/proof_v3/relation.py])

    Tensors, static bindings and tables, tolerances, nodes and cache families:
    the records of the module from which a specification is assembled, each with
    the checks of its constructor.  [SpecGraph] checks the graph they form. *)

From Stdlib Require Import ZArith Lia.
From Stdlib Require Import Strings.Byte.
From coqutil Require Import Word.LittleEndianList.
From stdpp Require Import base gmap list strings.
From S2P Require Import Prelude Merkle MerkleTheory Sha256 Wire Text Relation.

Import Relation.
Local Open Scope Z_scope.

Module Graph.
Definition RELATION_SPEC_FORMAT_VERSION : Z := 6.
Definition MAX_DECLARED_DIMENSIONS : Z := 128.
Definition MAX_TENSORS : Z := 65535.
Definition MAX_RELATION_NODES : Z := 65535.
Definition MAX_STATIC_BINDINGS : Z := 65535.
Definition MAX_STATIC_TABLE_BINDINGS : Z := 65535.
Definition MAX_TOLERANCE_PROFILES : Z := 256.
Definition MAX_TENSOR_RANK : Z := 8.
Definition MAX_NODE_TENSORS : Z := 32.
Definition LOGICAL_CACHE_ADDRESS_ABI_V3 : text := t_lit "logical_cache.address.v2".
Definition LOGICAL_CACHE_TABLES_SEMANTICS_V3 : text := t_lit "logical_cache_tables.v2".
Definition PAGED_KV_CACHE_SEMANTICS_V3 : text := t_lit "paged_kv.logical.v1".
Definition GDN_STATE_CACHE_SEMANTICS_V3 : text := t_lit "gdn.recurrent_state.v1".
Definition GPU_RETENTION_LEASE_ABI_V3 : text := t_lit "gpu.retention_lease.v1".
Definition PREFIX_CACHE_LOGICAL_ADDRESS_ABI_V3 : text := t_lit "logical_cache.address.v3.prefix_blocks".
Definition PREFIX_CACHE_TABLES_SEMANTICS_V3 : text :=
  t_lit "logical_cache_tables.v4.prefix_blocks.cross_geometry_corridor".
Definition PREFIX_CACHE_RETENTION_LEASE_ABI_V3 : text := t_lit "gpu.retention_lease.v2.prefix_blocks".
Definition _COMMITMENT_ROLES : list text :=
  t_lit <$> ["request_input"; "runtime_state"; "cache"; "final_hidden"; "logits"; "token_output"].
Definition _STATIC_BINDING_KINDS : list text :=
  t_lit <$> ["attention"; "bridge"; "embedding"; "final_norm"; "model_boundary"; "rope"; "sampler"; "transition"].
Definition _STATIC_TABLE_SUBJECT_KINDS : list text := t_lit <$> ["operation"; "static_parameter"].
Definition _BOUNDED_COMPARATORS : list text := [t_lit "bounded.fixed_point.v1"].
Definition _RELATION_ADAPTERS : list (text * list text) :=
  [(t_lit "embedding", [t_lit "embedding.v1"]); (t_lit "linear", [t_lit "global.linear.v1"]);
   (t_lit "full_attention", [t_lit "full_attention.v1"]); (t_lit "gdn", [t_lit "gdn.v1"]);
   (t_lit "bridge", [t_lit "residual.bridge.v1"]); (t_lit "final_norm", [t_lit "final_norm.v1"]);
   (t_lit "sampler", [t_lit "canonical.sampler.v1"])].
Definition _LAYER_RELATIONS : list text := t_lit <$> ["full_attention"; "gdn"; "bridge"].
Definition _NODE_BINDING_KINDS : list (text * list text) :=
  [(t_lit "embedding", t_lit <$> ["embedding"; "model_boundary"]);
   (t_lit "full_attention", t_lit <$> ["attention"; "rope"; "transition"]);
   (t_lit "gdn", t_lit <$> ["bridge"; "transition"]);
   (t_lit "bridge", [t_lit "bridge"]);
   (t_lit "final_norm", t_lit <$> ["final_norm"; "model_boundary"]);
   (t_lit "sampler", [t_lit "sampler"])].
Definition _CACHE_FAMILY_KINDS : list text := t_lit <$> ["attention_kv"; "gdn_state"].

Definition reject (b : bool) (m : string) : res unit := if b then raise ProofV3Error m else Ok tt.
Arguments reject b m%_string_scope.

(** [d[key]] and [d.get(key)] for a dict that is a list of pairs. *)
Fixpoint dict_get {K A} `{EqDecision K} (d : list (K * A)) (key : K) : option A :=
  match d with
  | [] => None
  | (k, a) :: d => if bool_decide (k = key) then Some a else dict_get d key
  end.

(** A Python set of strings or operations is the list of its elements. *)
Definition subset {A} `{EqDecision A} (l k : list A) : bool := forallb (fun x => bool_decide (x ∈ k)) l.
Definition same_set {A} `{EqDecision A} (l k : list A) : bool := subset l k && subset k l.
Definition disjoint_lists {A} `{EqDecision A} (l k : list A) : bool :=
  forallb (fun x => negb (bool_decide (x ∈ k))) l.

Definition _tuple (value : pyval) (name : string) (maximum : Z) : res (list pyval) :=
  match value with
  | PTuple l => if maximum <? zlen l then raise ProofV3Error (name +:+ " must be a bounded tuple") else Ok l
  | _ => raise ProofV3Error (name +:+ " must be a bounded tuple")
  end.

(** A bounded tuple of identifiers. *)
Definition identifiers (value : pyval) (name : string) : res (list text) :=
  items ← _tuple value name MAX_NODE_TENSORS;
  imapR _identifier name items.

(** [x not in {...}], for a set of strings. *)
Definition one_of (value : pyval) (strings : list text) (message : string) : res text :=
  m ← member value strings;
  match m with Some s => Ok s | None => raise ProofV3Error message end.

Definition optional {A} (validate : pyval -> res A) (value : pyval) : res (option A) :=
  match value with PNone => Ok None | v => a ← validate v; Ok (Some a) end.

Definition _u64 (value : pyval) (name : string) (positive : bool) : res Z :=
  match value with
  | PInt _ =>
      match int_in (if positive then 1 else 0) (Z.shiftl 1 64) value with
      | Some z => Ok z
      | None => raise ProofV3Error (name +:+ " must be a " +:+ (if positive then "positive " else "")
                                    +:+ "unsigned 64-bit integer")
      end
  | _ => raise ProofV3Error (name +:+ " must be an unsigned 64-bit integer")
  end.

(** ** Tensors *)

Inductive ShapeDimensionV3 := ConcreteDimension (n : Z) | SymbolicDimension (id : text).

#[export] Instance shape_dimension_eq_dec : EqDecision ShapeDimensionV3.
Proof. solve_decision. Defined.

Record TensorDescriptorV3 := MkTensor {
  tensor_id : text;
  shape : list ShapeDimensionV3;
  encoding_id : text;
  layout_id : text;
  scale_rule_id : text;
  commitment_role : text;
}.

Definition shape_dimension (value : pyval) (name : string) : res ShapeDimensionV3 :=
  match value with
  | PInt _ => n ← _u32 value name true; Ok (ConcreteDimension n)
  | PStr _ => s ← _identifier value name; Ok (SymbolicDimension s)
  | _ => raise ProofV3Error (name +:+ " must be a positive integer or dimension id")
  end.

Definition TensorDescriptorV3_new (id dims encoding layout scale role : pyval) : res TensorDescriptorV3 :=
  id ← _identifier id "tensor_id";
  items ← _tuple dims "tensor shape" MAX_TENSOR_RANK;
  _ ← reject (zlen items =? 0) "tensor shape must not be empty";
  dims ← imapR shape_dimension "tensor shape" items;
  encoding ← _identifier encoding "encoding_id";
  layout ← _identifier layout "layout_id";
  scale ← _identifier scale "scale_rule_id";
  role ← one_of role _COMMITMENT_ROLES "tensor commitment_role is not supported";
  Ok (MkTensor id dims encoding layout scale role).

(** ** Static parameters *)

Record StaticParameterBindingV3 := MkBindingRef {
  binding_id : text;
  binding_kind : text;
  binding_digest : bytes;
  binding_layer_index : Z;
}.

Definition StaticParameterBindingV3_new (id kind digest layer : pyval) : res StaticParameterBindingV3 :=
  id ← _identifier id "binding_id";
  kind ← one_of kind _STATIC_BINDING_KINDS "static binding_kind is not supported";
  digest ← _fixed32 digest "binding_digest" true;
  layer ← _i32 layer "binding layer_index" (-1);
  if bool_decide (kind ∈ t_lit <$> ["attention"; "bridge"; "rope"; "transition"]) then
    if layer <? 0 then raise ProofV3Error "layer transition bindings require a layer index"
    else Ok (MkBindingRef id kind digest layer)
  else if negb (layer =? -1) then raise ProofV3Error "model-bound static bindings must use layer -1"
  else Ok (MkBindingRef id kind digest layer).

(** The subject of a table: an operation, by its digest, or a static parameter,
    by its name and digest. *)
Inductive table_subject :=
| OperationSubject (operation_descriptor_digest : bytes)
| ParameterSubject (static_binding_id : text) (static_binding_digest : bytes).

Record StaticTableBindingV3 := MkTable {
  tb_binding_id : text;
  tb_subject : table_subject;
  tb_table_id : text;
  static_table_descriptor_digest : bytes;
  logical_leaf_start : Z;
  logical_leaf_count : Z;
  page_start : Z;
  page_count : Z;
  element_encoding_id : text;
  scale_encoding_id : text;
}.

Definition is_none (v : pyval) : bool := match v with PNone => true | _ => false end.

Definition StaticTableBindingV3_new (id subject operation parameter parameter_digest table descriptor leaf_start leaf_count
    pages_from pages element scale : pyval) : res StaticTableBindingV3 :=
  id ← _identifier id "static table binding_id";
  subject ← one_of subject _STATIC_TABLE_SUBJECT_KINDS "static table subject_kind is not supported";
  table ← _identifier table "static table binding table_id";
  descriptor ← _fixed32 descriptor "static table descriptor_digest" true;
  leaf_start ← _u64 leaf_start "static table logical_leaf_start" false;
  leaf_count ← _u64 leaf_count "static table logical_leaf_count" true;
  pages_from ← _u64 pages_from "static table page_start" false;
  pages ← _u64 pages "static table page_count" true;
  element ← _identifier element "static table element_encoding_id";
  scale ← _identifier scale "static table scale_encoding_id";
  subject ←
    (if bool_decide (subject = t_lit "operation") then
       operation ← _fixed32 operation "static table operation_descriptor_digest" true;
       _ ← reject (negb (is_none parameter) || negb (is_none parameter_digest))
             "operation static table bindings must not carry static parameter fields";
       Ok (OperationSubject operation)
     else
       _ ← reject (negb (is_none operation)) "static parameter table bindings must not carry an operation digest";
       parameter ← _identifier parameter "static table static_binding_id";
       digest ← _fixed32 parameter_digest "static table static_binding_digest" true;
       Ok (ParameterSubject parameter digest));
  Ok (MkTable id subject table descriptor leaf_start leaf_count pages_from pages element scale).

(** ** Tolerances *)

Record RelationToleranceV3 := MkTolerance {
  tolerance_id : text;
  comparator_id : text;
  absolute_q32 : Z;
  relative_bps : Z;
}.

Definition RelationToleranceV3_new (id comparator absolute relative : pyval) : res RelationToleranceV3 :=
  id ← _identifier id "tolerance_id";
  comparator ← one_of comparator (_EXACT_COMPARATORS ++ _BOUNDED_COMPARATORS) "tolerance comparator_id is not supported";
  absolute ← _u32 absolute "absolute_q32" false;
  relative ← _u32 relative "relative_bps" false;
  _ ← reject (10000 <? relative) "relative_bps must not exceed 10000";
  _ ← reject (bool_decide (comparator ∈ _EXACT_COMPARATORS) && (negb (absolute =? 0) || negb (relative =? 0)))
        "exact tolerance comparators must have zero tolerance";
  Ok (MkTolerance id comparator absolute relative).

(** ** Nodes *)

Record ExecutionRelationNodeV3 := MkNode {
  node_id : text;
  relation_id : text;
  transition_adapter_id : text;
  input_tensor_ids : list text;
  output_tensor_ids : list text;
  node_tolerance_id : text;
  static_binding_ids : list text;
  operation_reference : option RegisteredOperationReferenceV3;
  node_layer_index : Z;
}.

Definition node_linear (relation : text) : bool := bool_decide (relation = t_lit "linear").

(** The operation reference is [None] or a [RegisteredOperationReferenceV3]. *)
Definition ExecutionRelationNodeV3_new (id relation adapter inputs outputs tolerance bindings : pyval)
    (operation : option RegisteredOperationReferenceV3) (layer : pyval) : res ExecutionRelationNodeV3 :=
  id ← _identifier id "node_id";
  relation ← _identifier relation "relation_id";
  adapter ← _identifier adapter "transition_adapter_id";
  match dict_get _RELATION_ADAPTERS relation with
  | None => raise ProofV3Error "relation_id is not supported by relation format v3"
  | Some adapters =>
      _ ← reject (negb (bool_decide (adapter ∈ adapters))) "transition_adapter_id is not valid for relation_id";
      layer ← _i32 layer "node layer_index" (-1);
      _ ← reject (bool_decide (relation ∈ _LAYER_RELATIONS) && (layer <? 0))
            "layer relation nodes require a nonnegative layer index";
      _ ← reject (bool_decide (relation ∈ t_lit <$> ["embedding"; "final_norm"; "sampler"]) && negb (layer =? -1))
            "model-bound relation nodes must use layer -1";
      input_items ← _tuple inputs "node input_tensor_ids" MAX_NODE_TENSORS;
      output_items ← _tuple outputs "node output_tensor_ids" MAX_NODE_TENSORS;
      _ ← reject ((zlen input_items =? 0) || (zlen output_items =? 0)) "relation nodes require input and output tensors";
      inputs ← imapR _identifier "node input_tensor_ids" input_items;
      outputs ← imapR _identifier "node output_tensor_ids" output_items;
      _ ← reject (negb (duplicate_free inputs) || negb (duplicate_free outputs))
            "relation node tensor lists must not contain duplicates";
      tolerance ← _identifier tolerance "node tolerance_id";
      bindings ← identifiers bindings "node static_binding_ids";
      _ ← reject (negb (duplicate_free bindings)) "relation node static bindings must not contain duplicates";
      _ ← (if node_linear relation then
             match operation with
             | None => raise ProofV3Error "linear relation nodes require an operation reference"
             | Some o => reject (negb (op_layer_index o =? layer)) "linear relation layer does not match its PCS operation"
             end
           else
             match operation with
             | Some _ => raise ProofV3Error "only linear relation nodes may reference PCS operations"
             | None => reject (zlen bindings =? 0) "nonlinear relation nodes require static parameter bindings"
             end);
      Ok (MkNode id relation adapter inputs outputs tolerance bindings operation layer)
  end.

(** ** Cache families *)

(** The tables of a family: keys and values, with states besides, or states. *)
Record LayerCacheRelationV3 := MkLayerCache {
  cache_layer_index : Z;
  cache_kind : text;
  family_semantics_id : text;
  key_tensor_id : option text;
  value_tensor_id : option text;
  state_tensor_ids : list text;
}.

Definition ATTENTION_KV : text := t_lit "attention_kv".
Definition GDN_STATE : text := t_lit "gdn_state".

(** The key and value tensors by the kind of the family. *)
Definition family_tensors (kind semantics : text) (key value : pyval) : res (option text * option text) :=
  if bool_decide (kind = ATTENTION_KV) then
    _ ← reject (negb (bool_decide (semantics = PAGED_KV_CACHE_SEMANTICS_V3)))
          "attention K/V cache family has an unsupported semantics ABI";
    key ← _identifier key "cache key_tensor_id";
    value ← _identifier value "cache value_tensor_id";
    _ ← reject (bool_decide (key = value)) "cache key and value tensors must differ";
    Ok (Some key, Some value)
  else
    _ ← reject (negb (bool_decide (semantics = GDN_STATE_CACHE_SEMANTICS_V3)))
          "GDN cache family has an unsupported semantics ABI";
    _ ← reject (negb (is_none key) || negb (is_none value)) "GDN cache families must not declare K/V tensors";
    Ok (None, None).

Definition LayerCacheRelationV3_new (layer kind semantics key value states : pyval) : res LayerCacheRelationV3 :=
  layer ← _i32 layer "cache layer_index" 0;
  kind ← one_of kind _CACHE_FAMILY_KINDS "cache family kind is not supported";
  semantics ← _identifier semantics "cache_semantics_id";
  '(key, value) ← family_tensors kind semantics key value;
  states ← identifiers states "cache state_tensor_ids";
  _ ← reject (negb (duplicate_free states)) "cache state tensors must not contain duplicates";
  let aliased t := match t with Some t => bool_decide (t ∈ states) | None => false end in
  _ ← reject (aliased key || aliased value) "cache state tensors must not alias key or value";
  _ ← reject (bool_decide (kind = GDN_STATE) && (zlen states =? 0)) "GDN cache families require recurrent state tensors";
  Ok (MkLayerCache layer kind semantics key value states).

Definition some_list {A} (x : option A) : list A := match x with Some a => [a] | None => [] end.
Definition tensor_ids (f : LayerCacheRelationV3) : list text :=
  some_list (key_tensor_id f) ++ some_list (value_tensor_id f) ++ state_tensor_ids f.

(** The corridors of a shared prefix cache; all zero without sharing. *)
Record CacheRelationSpecV3 := MkCache {
  logical_address_abi_id : text;
  cache_semantics_id : text;
  retention_lease_abi_id : text;
  page_token_count : Z;
  max_cache_tokens : Z;
  layer_caches : list LayerCacheRelationV3;
  allows_prefix_cache_sharing : bool;
  prefix_cache_k_cell_delta_max : Z;
  prefix_cache_k_row_sq_delta_max : Z;
  prefix_cache_v_cell_delta_max : Z;
  prefix_cache_v_row_sq_delta_max : Z;
}.

(** A flag that must be a boolean, and false. *)
Definition unqualified_flag (value : pyval) (name display : string) : res unit :=
  match value with
  | PBool false => Ok tt
  | PBool true => raise ProofV3Error (display +:+ " cache profiles are not yet qualified")
  | _ => raise ProofV3Error (name +:+ " must be a boolean")
  end.

(** [value != expected], for a value of any type. *)
Definition expect_text (value : pyval) (expected : text) (message : string) : res text :=
  match value with
  | PStr s => if bool_decide (s = expected) then Ok s else raise ProofV3Error message
  | _ => raise ProofV3Error message
  end.

Definition cell_bound (value : pyval) (name : string) (maximum : Z) (sharing : bool) : res Z :=
  v ← _u32 value name sharing;
  _ ← reject (maximum <? v) (name +:+ " exceeds its physical quantized range");
  Ok v.

(** The families are a tuple of [LayerCacheRelationV3]. *)
Definition CacheRelationSpecV3_new (address semantics lease page capacity : pyval) (families : list LayerCacheRelationV3)
    (sliding sharing speculative k_cell k_row v_cell v_row : pyval) : res CacheRelationSpecV3 :=
  match sharing with
  | PBool sharing =>
      let mode := if sharing then "prefix-cache"%string else "logical cache"%string in
      address ← expect_text address
                  (if sharing then PREFIX_CACHE_LOGICAL_ADDRESS_ABI_V3 else LOGICAL_CACHE_ADDRESS_ABI_V3)
                  (mode +:+ " address ABI is not supported");
      semantics ← expect_text semantics
                    (if sharing then PREFIX_CACHE_TABLES_SEMANTICS_V3 else LOGICAL_CACHE_TABLES_SEMANTICS_V3)
                    (mode +:+ " table semantics are not supported");
      lease ← expect_text lease
                (if sharing then PREFIX_CACHE_RETENTION_LEASE_ABI_V3 else GPU_RETENTION_LEASE_ABI_V3)
                (mode +:+ " retention lease ABI is not supported");
      page ← _u32 page "page_token_count" true;
      capacity ← _u32 capacity "max_cache_tokens" true;
      _ ← reject (MAX_RELATION_NODES <? zlen families) "layer_caches must be a bounded tuple";
      _ ← reject (zlen families =? 0) "cache relation requires layer-local cache families";
      _ ← _strictly_sorted Z.ltb (cache_layer_index <$> families) "layer-local cache families";
      _ ← reject (negb (duplicate_free (concat (tensor_ids <$> families))))
            "layer-local cache families must not share tensors";
      _ ← reject (capacity <? page) "cache page size exceeds the declared cache capacity";
      k_cell ← cell_bound k_cell "prefix_cache_k_cell_delta_max" 8190 sharing;
      v_cell ← cell_bound v_cell "prefix_cache_v_cell_delta_max" 254 sharing;
      k_row ← _u64 k_row "prefix_cache_k_row_sq_delta_max" sharing;
      v_row ← _u64 v_row "prefix_cache_v_row_sq_delta_max" sharing;
      _ ← (if sharing : bool then
             reject ((k_row <? k_cell ^ 2) || (v_row <? v_cell ^ 2))
               "prefix-cache row corridor cannot be smaller than its cell corridor"
           else
             reject (negb ((k_cell =? 0) && (k_row =? 0) && (v_cell =? 0) && (v_row =? 0)))
               "prefix-cache replay corridors require prefix-cache sharing");
      _ ← unqualified_flag sliding "allows_sliding_window" "sliding-window";
      _ ← unqualified_flag speculative "allows_speculative_decode" "speculative decode";
      Ok (MkCache address semantics lease page capacity families sharing k_cell k_row v_cell v_row)
  | _ => raise ProofV3Error "allows_prefix_cache_sharing must be a boolean"
  end.

(** [{family.layer_index: family}]: the layers of a validated cache are distinct. *)
Definition cache_by_layer (c : CacheRelationSpecV3) : list (Z * LayerCacheRelationV3) :=
  (fun f => (cache_layer_index f, f)) <$> layer_caches c.
End Graph.
