(* ===== verification/Json.v ===== *)
(** * JSON, as [json.dumps] prints it

    [json.dumps(value, sort_keys=True, separators=(",", ":"), ensure_ascii=True)]
    for the values that the [to_dict] methods build.  Printing is injective on
    values whose strings need no escape. *)

From Stdlib Require Import Strings.Byte.
From coqutil Require Import Byte.
From Stdlib Require Import ZArith Lia DecimalString DecimalZ DecimalFacts.
From stdpp Require Import base list strings.
From S2P Require Import Prelude Text Relation.

Local Open Scope Z_scope.

Inductive json :=
| JNull
| JBool (b : bool)
| JInt (z : Z)
| JStr (s : text)
| JList (l : list json)
| JObj (fields : list (text * json)).

(** ** Printing *)

Definition int_text (z : Z) : text := t_lit (NilEmpty.string_of_int (Z.to_int z)).

Definition hex_digit (n : Z) : Z := if n <? 10 then 48 + n else 87 + n.
Definition hex4 (n : Z) : text :=
  [hex_digit (n / 4096 mod 16); hex_digit (n / 256 mod 16); hex_digit (n / 16 mod 16); hex_digit (n mod 16)].

(** One character of [py_encode_basestring_ascii]. *)
Definition escape (c : Z) : text :=
  if c =? 34 then [92; 34]
  else if c =? 92 then [92; 92]
  else if (32 <=? c) && (c <=? 126) then [c]
  else if c =? 10 then [92; 110]
  else if c =? 13 then [92; 114]
  else if c =? 9 then [92; 116]
  else if c =? 12 then [92; 102]
  else if c =? 8 then [92; 98]
  else if c <? 0x10000 then [92; 117] ++ hex4 c
  else
    let n := c - 0x10000 in
    [92; 117] ++ hex4 (0xD800 + n / 1024 mod 1024) ++ [92; 117] ++ hex4 (0xDC00 + n mod 1024).

Definition string_text (s : text) : text := [34] ++ concat (escape <$> s) ++ [34].

(** [bytes.hex()] *)
Definition hex (b : bytes) : text := b ≫= fun x => [hex_digit (byte.unsigned x / 16); hex_digit (byte.unsigned x mod 16)].

(** The items of an object by key; keys are distinct. *)
Fixpoint insert_field {A} (f : text * A) (l : list (text * A)) : list (text * A) :=
  match l with
  | [] => [f]
  | g :: l => if Relation.text_ltb f.1 g.1 then f :: g :: l else g :: insert_field f l
  end.
Definition sort_fields {A} (l : list (text * A)) : list (text * A) := foldr insert_field [] l.

Definition comma : text := [44].
Fixpoint separated (parts : list text) : text :=
  match parts with
  | [] => []
  | [p] => p
  | p :: parts => p ++ comma ++ separated parts
  end.

Fixpoint dumps (v : json) : text :=
  match v with
  | JNull => t_lit "null"
  | JBool b => if b then t_lit "true" else t_lit "false"
  | JInt z => int_text z
  | JStr s => string_text s
  | JList l => [91] ++ separated (dumps <$> l) ++ [93]
  | JObj fields =>
      [123]
      ++ separated ((fun f : text * text => string_text f.1 ++ [58] ++ f.2)
                      <$> sort_fields ((fun f : text * json => (f.1, dumps f.2)) <$> fields))
      ++ [125]
  end.

Example dumps_sample :
  dumps (JObj [(t_lit "b", JList [JInt (-12); JNull]); (t_lit "a", JStr [97; 34; 0xE9; 0x1F600])])
  = [123] ++ string_text (t_lit "a") ++ [58; 34; 97; 92; 34] ++ t_lit "\u00e9\ud83d\ude00" ++ [34; 44]
    ++ string_text (t_lit "b") ++ t_lit ":[-12,null]}".
Proof. vm_compute. reflexivity. Qed.

(** ** Printing is injective *)

(** Characters that are printed as they are. *)
Definition safe (c : Z) : bool := (32 <=? c) && (c <=? 126) && negb (c =? 34) && negb (c =? 92).
Definition safe_text (s : text) : Prop := Forall (fun c => safe c = true) s.

Lemma safe_identifier s : Relation.identifier_match s = true -> safe_text s.
Proof.
  destruct s as [|c s]; [done|]. cbn. rewrite !andb_true_iff, forallb_forall. intros [[Hc Hs] _]. constructor.
  - unfold Relation.alphanumeric in Hc. unfold safe. lia.
  - apply Forall_forall. intros d Hd%list_elem_of_In%Hs. unfold Relation.identifier_char in Hd.
    apply orb_true_iff in Hd as [Hd|Hd]; [unfold Relation.alphanumeric in Hd; unfold safe; lia|].
    apply existsb_exists in Hd as (e & He & ->%Z.eqb_eq). cbn in He. unfold safe.
    repeat destruct He as [<-|He]; done || lia.
Qed.

(** A text of a class of characters ends where the class ends. *)
Lemma split_class (P : Z -> Prop) s s' r r' :
  Forall P s -> Forall P s' -> (forall c, head r = Some c -> ~ P c) -> (forall c, head r' = Some c -> ~ P c) ->
  s ++ r = s' ++ r' -> s = s' /\ r = r'.
Proof.
  intros Hs. revert s'. induction Hs as [|c s Hc Hs IH]; intros [|c' s'] Hs' Hr Hr'; cbn.
  - done.
  - intros ->. apply Forall_cons in Hs' as [? _]. by destruct (Hr c').
  - intros <-. by destruct (Hr' c).
  - intros [= <- E]. apply Forall_cons in Hs' as [_ Hs']. by destruct (IH s' Hs' Hr Hr' E) as [-> ->].
Qed.

Definition int_char (c : Z) : Prop := c = 45 \/ 48 <= c <= 57.

Lemma uint_chars d : Forall int_char (t_lit (NilEmpty.string_of_uint d)).
Proof. unfold t_lit. induction d; cbn; constructor; auto; unfold int_char; cbn; lia. Qed.

Lemma int_chars z : Forall int_char (int_text z).
Proof.
  unfold int_text. destruct (Z.to_int z) as [d|d]; [apply uint_chars|]. unfold t_lit. cbn.
  constructor; [left; done|apply uint_chars].
Qed.

Lemma t_lit_inj s s' : t_lit s = t_lit s' -> s = s'.
Proof.
  unfold t_lit. intros E. rewrite <- (String.string_of_list_ascii_of_string s), <- (String.string_of_list_ascii_of_string s').
  f_equal. revert E. generalize (String.list_ascii_of_string s) (String.list_ascii_of_string s').
  intros l. induction l as [|a l IH]; intros [|b k]; cbn; try done. intros [= E1 E2]. f_equal; [|by apply IH].
  apply N2Z.inj in E1. rewrite <- (Ascii.ascii_N_embedding a), <- (Ascii.ascii_N_embedding b). by rewrite E1.
Qed.

Lemma int_text_inj z z' : int_text z = int_text z' -> z = z'.
Proof.
  intros E%t_lit_inj. apply (f_equal NilEmpty.int_of_string) in E. rewrite !NilEmpty.isi in E.
  injection E as E. by apply DecimalZ.to_int_inj.
Qed.

Lemma int_text_head z : exists c t, int_text z = c :: t /\ int_char c.
Proof.
  pose proof (int_chars z) as Hz. destruct (int_text z) as [|c t] eqn:E; [|apply Forall_cons in Hz as [? _]; by exists c, t].
  exfalso. assert (z = 0) as ->; [|discriminate E].
  change [] with (t_lit "") in E. apply t_lit_inj in E. apply (f_equal NilEmpty.int_of_string) in E.
  rewrite NilEmpty.isi in E. injection E as E. apply (f_equal Z.of_int) in E. rewrite DecimalZ.of_to in E. done.
Qed.

Lemma safe_string_text s : safe_text s -> string_text s = [34] ++ s ++ [34].
Proof.
  intros Hs. unfold string_text. do 2 f_equal. induction Hs as [|c s Hc Hs IH]; [done|]. cbn. rewrite IH.
  unfold safe in Hc. unfold escape. destruct (Z.eqb_spec c 34); [lia|]. destruct (Z.eqb_spec c 92); [lia|].
  destruct (Z.leb_spec 32 c); [|lia]. destruct (Z.leb_spec c 126); [|lia]. done.
Qed.

Lemma string_text_inj s s' r r' :
  safe_text s -> safe_text s' -> string_text s ++ r = string_text s' ++ r' -> s = s' /\ r = r'.
Proof.
  intros Hs Hs'. rewrite !safe_string_text by done. rewrite <- !app_assoc. cbn. intros [= E].
  apply (split_class (fun c => safe c = true)) in E as [-> [= ->]]; try done; by intros c [= <-].
Qed.

(** Well formed: printed without escapes, objects in the order of their keys. *)
Inductive plain : json -> Prop :=
| plain_null : plain JNull
| plain_bool b : plain (JBool b)
| plain_int z : plain (JInt z)
| plain_str s : safe_text s -> plain (JStr s)
| plain_list l : Forall plain l -> plain (JList l)
| plain_obj l : Forall (fun f : text * json => safe_text f.1 /\ plain f.2) l -> sort_fields l = l -> plain (JObj l).

(** What may follow a value. *)
Definition stop (r : text) : Prop := forall c, head r = Some c -> c = 44 \/ c = 93 \/ c = 125.

Section separated.
Context {A : Type} (print : A -> text) (close : Z) (Q : A -> Prop).
Hypothesis close_cases : close = 93 \/ close = 125.
Hypothesis print_head : forall x, Q x -> exists c t, print x = c :: t /\ c <> close.

Definition parses (x : A) : Prop :=
  forall x' r r', Q x' -> stop r -> stop r' -> print x ++ r = print x' ++ r' -> x = x' /\ r = r'.

Definition rest (parts : list text) : text := match parts with [] => [] | _ => comma ++ separated parts end.

Lemma separated_cons p parts : separated (p :: parts) = p ++ rest parts.
Proof. destruct parts; [by rewrite app_nil_r|done]. Qed.

Lemma stop_rest parts r : stop (rest parts ++ [close] ++ r).
Proof. destruct parts; intros c; cbn; intros [= <-]; naive_solver. Qed.

Lemma separated_inj l l' r r' :
  Forall parses l -> Forall Q l -> Forall Q l' ->
  separated (print <$> l) ++ [close] ++ r = separated (print <$> l') ++ [close] ++ r' -> l = l' /\ r = r'.
Proof using close_cases print_head.
  intros Hl. revert l'. induction Hl as [|x l Hx Hl IH]; intros [|x' l'] HQ HQ'.
  - by intros [= ->].
  - apply Forall_cons in HQ' as [(c & t & E & Hc)%print_head _]. rewrite fmap_cons, separated_cons, E. cbn. congruence.
  - apply Forall_cons in HQ as [(c & t & E & Hc)%print_head _]. rewrite fmap_cons, separated_cons, E. cbn. congruence.
  - apply Forall_cons in HQ as [_ HQ], HQ' as [Hx' HQ']. rewrite !fmap_cons, !separated_cons, <- !app_assoc.
    intros E. apply Hx in E as [-> E]; [|done|apply stop_rest|apply stop_rest].
    destruct l as [|y l], l' as [|y' l']; cbn [fmap list_fmap rest] in E.
    + by injection E as ->.
    + cbn in E. exfalso. destruct close_cases; congruence.
    + cbn in E. exfalso. destruct close_cases; congruence.
    + unfold rest in E. rewrite <- !app_assoc in E. apply app_inv_head in E.
      by apply (IH (y' :: l')) in E as [-> ->].
Qed.
End separated.

Section json_induction.
Context (P : json -> Prop) (P_null : P JNull) (P_bool : forall b, P (JBool b)) (P_int : forall z, P (JInt z))
  (P_str : forall s, P (JStr s)) (P_list : forall l, Forall P l -> P (JList l))
  (P_obj : forall l, Forall (fun f : text * json => P f.2) l -> P (JObj l)).

Fixpoint json_induction (v : json) : P v :=
  match v with
  | JNull => P_null
  | JBool b => P_bool b
  | JInt z => P_int z
  | JStr s => P_str s
  | JList l => P_list l ((fix go l : Forall P l :=
      match l with [] => Forall_nil_2 P | x :: l => Forall_cons_2 P x l (json_induction x) (go l) end) l)
  | JObj l => P_obj l ((fix go l : Forall (fun f : text * json => P f.2) l :=
      match l with [] => Forall_nil_2 _ | x :: l => Forall_cons_2 _ x l (json_induction x.2) (go l) end) l)
  end.
End json_induction.

Definition field_text (f : text * json) : text := string_text f.1 ++ [58] ++ dumps f.2.

Lemma insert_field_fmap {A B} (g : A -> B) f l :
  insert_field (f.1, g f.2) ((fun f : text * A => (f.1, g f.2)) <$> l) = (fun f : text * A => (f.1, g f.2)) <$> insert_field f l.
Proof.
  induction l as [|h l IH]; [done|]. cbn. destruct (Relation.text_ltb _ _); [done|]. cbn. f_equal. apply IH.
Qed.

Lemma sort_fields_fmap {A B} (g : A -> B) l :
  sort_fields ((fun f : text * A => (f.1, g f.2)) <$> l) = (fun f : text * A => (f.1, g f.2)) <$> sort_fields l.
Proof.
  induction l as [|f l IH]; [done|]. cbn. unfold sort_fields in IH. rewrite IH. apply (insert_field_fmap g f).
Qed.

Lemma dumps_obj l : dumps (JObj l) = [123] ++ separated (field_text <$> sort_fields l) ++ [125].
Proof. cbn [dumps]. rewrite sort_fields_fmap, <- list_fmap_compose. done. Qed.

Lemma dumps_list l : dumps (JList l) = [91] ++ separated (dumps <$> l) ++ [93].
Proof. done. Qed.

(** The order in which fields are given does not matter. *)
Lemma dumps_sorted l k : sort_fields l = k -> sort_fields k = k -> dumps (JObj l) = dumps (JObj k).
Proof. intros E E'. by rewrite !dumps_obj, E, E'. Qed.

(** The first character tells the kind of a value. *)
Definition kind_head (v : json) (c : Z) : Prop :=
  match v with
  | JNull => c = 110
  | JBool true => c = 116
  | JBool false => c = 102
  | JInt _ => int_char c
  | JStr _ => c = 34
  | JList _ => c = 91
  | JObj _ => c = 123
  end.

Lemma dumps_head v : exists c t, dumps v = c :: t /\ kind_head v c.
Proof.
  destruct v as [|[]|z|s|l|l]; try by do 2 eexists. apply int_text_head.
Qed.

Lemma dumps_head_ne v : exists c t, dumps v = c :: t /\ c <> 93.
Proof.
  destruct (dumps_head v) as (c & t & E & Hc). exists c, t. split; [done|].
  destruct v as [|[]|z|s|l|l]; cbn in Hc; unfold int_char in Hc; lia.
Qed.

Lemma same_kind v v' r r' : dumps v ++ r = dumps v' ++ r' -> exists c, kind_head v c /\ kind_head v' c.
Proof.
  destruct (dumps_head v) as (c & t & E & Hc), (dumps_head v') as (c' & t' & E' & Hc'). rewrite E, E'.
  intros [= -> _]. by exists c'.
Qed.

Lemma dumps_app_inj v : plain v -> parses dumps plain v.
Proof.
  induction v as [|b|z|s|l IH|l IH] using json_induction; intros Hv v' r r' Hv' Hr Hr' E;
    destruct (same_kind _ _ _ _ E) as (c & Hc & Hc'); destruct Hv' as [|b'|z'|s' Hs'|l' Hl'|l' Hl' Hsort'];
    try (exfalso; try destruct b; try destruct b'; cbn in Hc, Hc'; unfold int_char in *; lia).
  - by apply app_inv_head in E.
  - destruct b, b'; cbn in Hc, Hc'; try lia; by apply app_inv_head in E.
  - cbn in E. apply (split_class int_char) in E as [->%int_text_inj ->]; [done|apply int_chars|apply int_chars| |].
    + intros d Hd Hi. apply Hr in Hd. unfold int_char in Hi. lia.
    + intros d Hd Hi. apply Hr' in Hd. unfold int_char in Hi. lia.
  - inversion Hv; subst. cbn in E. by apply string_text_inj in E as [-> ->].
  - inversion Hv as [| | | |? Hl|]; subst. rewrite !dumps_list, <- !app_assoc in E. apply app_inv_head in E.
    apply (separated_inj dumps 93 plain) in E as [-> ->]; try done; [by left|by intros; apply dumps_head_ne|].
    apply Forall_forall. intros x Hx. rewrite Forall_forall in IH, Hl. by apply IH, Hl.
  - inversion Hv as [| | | | |? Hl Hsort]; subst. rewrite !dumps_obj, Hsort, Hsort', <- !app_assoc in E.
    apply app_inv_head in E.
    apply (separated_inj field_text 125 (fun f : text * json => safe_text f.1 /\ plain f.2)) in E as [-> ->];
      try done; [by right| |].
    + intros x _. unfold field_text, string_text. by do 2 eexists.
    + apply Forall_forall. intros [k x] Hx. rewrite Forall_forall in IH, Hl. destruct (Hl _ Hx) as [Hk Hp].
      intros [k' x'] t t' [Hk' Hp'] Ht Ht' E'. unfold field_text in E'. rewrite <- !app_assoc in E'. cbn [fst snd] in *.
      apply string_text_inj in E' as [-> E']; [|done|done]. apply app_inv_head in E'.
      destruct (IH (k', x) Hx Hp x' t t' Hp' Ht Ht' E') as [E1 ->]; cbn [snd] in E1; by subst.
Qed.

Theorem dumps_injective v v' : plain v -> plain v' -> dumps v = dumps v' -> v = v'.
Proof.
  intros Hv Hv' E. destruct (dumps_app_inj v Hv v' [] []) as [-> _]; try done. by rewrite !app_nil_r.
Qed.
