(* ===== verification/Policy.v ===== *)
(** * Audit policies ([verallm/proof_v3/relation.py])

    The signed minimum policy, the validator's runtime policy, their comparison,
    and the coverage of the layers by a policy. *)

From Stdlib Require Import ZArith Lia.
From Stdlib Require Import Strings.Byte.
From coqutil Require Import Word.LittleEndianList.
From stdpp Require Import base gmap list strings.
From S2P Require Import Prelude Sha256 Merkle MerkleTheory Validate Wire Text Relation.

Import Relation.
Local Open Scope Z_scope.

Module Policy.
Definition ORGANIC : text := t_lit "organic".
Definition CANARY : text := t_lit "canary".

Record RuntimeHardAuditPolicyV3 := MkRuntimePolicy {
  request_kind : text;
  effective_organic_hard_bps : Z;
  effective_canary_hard_bps : Z;
  effective_probation_failures : Z;
  rt_nonce_selection_abi_id : text;
  rt_tier_selection_abi_id : text;
  rt_selection_abi_id : text;
}.

Definition RuntimeHardAuditPolicyV3_new (kind organic canary probation nonce_abi tier_abi abi : pyval)
    : res RuntimeHardAuditPolicyV3 :=
  kind ← member kind [ORGANIC; CANARY];
  match kind with
  | None => raise ProofV3Error "runtime hard-audit request_kind is not supported"
  | Some kind =>
      organic ← _u32 organic "effective_organic_hard_bps" false;
      canary ← _u32 canary "effective_canary_hard_bps" false;
      probation ← _u32 probation "effective_probation_failures" true;
      nonce_abi ← _identifier nonce_abi "runtime nonce_selection_abi_id";
      tier_abi ← _identifier tier_abi "runtime tier_selection_abi_id";
      abi ← _identifier abi "runtime selection_abi_id";
      if 10000 <? organic then raise ProofV3Error "effective_organic_hard_bps must not exceed 10000"
      else if 10000 <? canary then raise ProofV3Error "effective_canary_hard_bps must not exceed 10000"
      else Ok (MkRuntimePolicy kind organic canary probation nonce_abi tier_abi abi)
  end.

Record HardAuditPolicyV3 := MkPolicy {
  coverage_mode : text;
  nonce_selection_abi_id : text;
  tier_selection_abi_id : text;
  selection_abi_id : text;
  minimum_organic_hard_bps : Z;
  minimum_canary_hard_bps : Z;
  probation_failures : Z;
  selected_layer_count : Z;
  minimum_full_attention_layers : Z;
  minimum_gdn_layers : Z;
  full_attention_heads_per_layer : Z;
  transition_query_rows : Z;
}.

(** The condition under which a global policy is refused. *)
Definition global_policy_too_weak (p : HardAuditPolicyV3) : bool :=
  negb (bool_decide (nonce_selection_abi_id p = POSTCOMMIT_GLOBAL_NONCE_ABI_V3))
  || negb (bool_decide (tier_selection_abi_id p = POSTCOMMIT_AUDIT_TIER_ABI_V3))
  || negb (bool_decide (selection_abi_id p = STRATIFIED_LAYER_HEAD_SELECTION_ABI_V3))
  || (minimum_organic_hard_bps p <? 1000)
  || negb (minimum_canary_hard_bps p =? 10000)
  || negb (probation_failures p =? 1)
  || (selected_layer_count p <? GLOBAL_HARD_AUDIT_MIN_LAYERS_V3)
  || (full_attention_heads_per_layer p <? GLOBAL_HARD_AUDIT_MIN_HEADS_PER_FULL_ATTENTION_LAYER_V3).

Definition HardAuditPolicyV3_new (mode nonce_abi tier_abi abi organic canary probation layers full gdn heads rows
    : pyval) : res HardAuditPolicyV3 :=
  mode ← member mode [GLOBAL_EXECUTION_COVERAGE_MODE_V3; ECONOMIC_SHELL_COVERAGE_MODE_V3];
  match mode with
  | None => raise ProofV3Error "hard audit coverage_mode is not supported"
  | Some mode =>
      nonce_abi ← _identifier nonce_abi "nonce_selection_abi_id";
      tier_abi ← _identifier tier_abi "tier_selection_abi_id";
      abi ← _identifier abi "selection_abi_id";
      if negb (bool_decide (tier_abi = POSTCOMMIT_AUDIT_TIER_ABI_V3)) then
        raise ProofV3Error "postcommit audit-tier selection ABI is not supported"
      else
        organic ← _u32 organic "minimum_organic_hard_bps" false;
        canary ← _u32 canary "minimum_canary_hard_bps" false;
        probation ← _u32 probation "probation_failures" true;
        layers ← _u32 layers "selected_layer_count" true;
        full ← _u32 full "minimum_full_attention_layers" false;
        gdn ← _u32 gdn "minimum_gdn_layers" false;
        heads ← _u32 heads "full_attention_heads_per_layer" true;
        rows ← _u32 rows "transition_query_rows" true;
        if 10000 <? organic then raise ProofV3Error "minimum_organic_hard_bps must not exceed 10000"
        else if 10000 <? canary then raise ProofV3Error "minimum_canary_hard_bps must not exceed 10000"
        else if MAX_HARD_AUDIT_QUERY_ROWS_V3 <? rows then
          raise ProofV3Error "transition_query_rows exceeds the protocol maximum"
        else if layers <? full + gdn then
          raise ProofV3Error "required transition coverage exceeds selected layer count"
        else
          let self := MkPolicy mode nonce_abi tier_abi abi organic canary probation layers full gdn heads rows in
          if bool_decide (mode = GLOBAL_EXECUTION_COVERAGE_MODE_V3) && global_policy_too_weak self then
            raise ProofV3Error "global execution profiles require postcommit tier selection and stratified folding, at least 1000 organic bps, 10000 canary bps, one-failure probation, four selected layers, and two selected heads"
          else Ok self
  end.

Definition policy_global_execution_qualified (p : HardAuditPolicyV3) : bool :=
  bool_decide (coverage_mode p = GLOBAL_EXECUTION_COVERAGE_MODE_V3).

Definition validate_runtime (p : HardAuditPolicyV3) (r : RuntimeHardAuditPolicyV3) : res unit :=
  if negb (bool_decide (rt_nonce_selection_abi_id r = nonce_selection_abi_id p)) then
    raise ProofV3VerificationError "runtime nonce-selection ABI does not match the signed profile"
  else if negb (bool_decide (rt_tier_selection_abi_id r = tier_selection_abi_id p)) then
    raise ProofV3VerificationError "runtime tier-selection ABI does not match the signed profile"
  else if negb (bool_decide (rt_selection_abi_id r = selection_abi_id p)) then
    raise ProofV3VerificationError "runtime selection ABI does not match the signed profile"
  else if effective_organic_hard_bps r <? minimum_organic_hard_bps p then
    raise ProofV3VerificationError "runtime organic hard-audit rate is weaker than the signed profile"
  else if effective_canary_hard_bps r <? minimum_canary_hard_bps p then
    raise ProofV3VerificationError "runtime canary hard-audit rate is weaker than the signed profile"
  else if probation_failures p <? effective_probation_failures r then
    raise ProofV3VerificationError "runtime probation policy is weaker than the signed profile"
  else if bool_decide (request_kind r = CANARY) && negb (effective_canary_hard_bps r =? 10000) then
    raise ProofV3VerificationError "canary hard-audit requests must run at 10000 basis points"
  else Ok tt.

(** ** Coverage *)

(** The end of [_validate_graph]: the policy must be met by the layers, and must
    not ask for less than the protocol. *)
Definition audit_coverage (policy : HardAuditPolicyV3) (layers : Z)
    (full_attention_audits gdn_audits : list LayerAuditPlanV3) : res unit :=
  if layers <? selected_layer_count policy then
    raise ProofV3Error "hard-audit layer count exceeds the signed execution graph"
  else
    let required_full_attention :=
      Z.min GLOBAL_HARD_AUDIT_MIN_FULL_ATTENTION_LAYERS_V3 (zlen full_attention_audits) in
    let required_gdn := Z.min GLOBAL_HARD_AUDIT_MIN_GDN_LAYERS_V3 (zlen gdn_audits) in
    if minimum_full_attention_layers policy <? required_full_attention then
      raise ProofV3Error "hard-audit policy weakens signed full-attention coverage"
    else if minimum_gdn_layers policy <? required_gdn then
      raise ProofV3Error "hard-audit policy weakens signed GDN coverage"
    else if zlen full_attention_audits <? minimum_full_attention_layers policy then
      raise ProofV3Error "hard-audit policy requires unavailable full-attention layers"
    else if zlen gdn_audits <? minimum_gdn_layers policy then
      raise ProofV3Error "hard-audit policy requires unavailable GDN layers"
    else if existsb (fun a => attention_query_head_count a <? full_attention_heads_per_layer policy)
              full_attention_audits then
      raise ProofV3Error "full-attention audit has fewer heads than the signed policy"
    else Ok tt.

(** The same, for plans that are known to have the kind of their transition. *)
Definition validate_audit_coverage (policy : HardAuditPolicyV3) (plans : list LayerAuditPlanV3) : res unit :=
  audit_coverage policy (zlen plans) (filter (fun p => is_full_attention p = true) plans)
    (filter (fun p => is_full_attention p = false) plans).
End Policy.
