(* ===== verification/Spec.v ===== *)
(** * The relation spec ([verallm/proof_v3/relation.py])

    The signed statement about one model: its fields, what it says about token
    counts, and the JSON it is signed as.  [SpecGraph] has its constructor. *)

From Stdlib Require Import ZArith Lia.
From Stdlib Require Import Strings.Byte.
From coqutil Require Import Word.LittleEndianList.
From stdpp Require Import base gmap list strings.
From S2P Require Import Prelude Merkle MerkleTheory Sha256 Wire Text Relation Graph Json Policy.

Import Relation Policy Graph.
Local Open Scope Z_scope.

Module Spec.
Definition MAX_RELATION_SPEC_BYTES : Z := Z.shiftl 960 10.

(** [relation_spec_version] is always [RELATION_SPEC_FORMAT_VERSION]: the
    constructor refuses any other. *)
Record ExecutionRelationSpecV3 := MkSpec {
  relation_abi_id : text;
  capture_abi_digest : bytes;
  constraint_system_digest : bytes;
  tokenizer_binding_digest : bytes;
  sampler_abi_id : text;
  sampler_abi_digest : bytes;
  quantization_binding_digest : bytes;
  recursive_accumulator_abi_id : text;
  recursive_accumulator_digest : bytes;
  prefill_chunk_tokens : Z;
  decode_chunk_tokens : Z;
  request_tensor_id : text;
  final_token_tensor_id : text;
  sequence_domain : SequenceDomainV3;
  dimensions : list DeclaredDimensionV3;
  tensors : list TensorDescriptorV3;
  registered_operations : list RegisteredOperationReferenceV3;
  static_bindings : list StaticParameterBindingV3;
  static_table_bindings : list StaticTableBindingV3;
  tolerances : list RelationToleranceV3;
  nodes : list ExecutionRelationNodeV3;
  layer_audits : list LayerAuditPlanV3;
  cache : CacheRelationSpecV3;
  audit_policy : HardAuditPolicyV3;
}.

(** [{key(item): item for item in items}]: the last of equal keys stays. *)
Definition dict_of {K A} `{Countable K} (key : A -> K) (items : list A) : gmap K A :=
  fold_left (fun m a => <[key a := a]> m) items ∅.

(** [{item.dimension_id: item for item in self.dimensions}] *)
Definition dimension_map : list DeclaredDimensionV3 -> gmap text DeclaredDimensionV3 := dict_of dimension_id.

(** ** Token counts *)

Definition validate_for_limits (s : ExecutionRelationSpecV3) (max_context_tokens max_decode_tokens : pyval) : res unit :=
  context_limit ← _u32 max_context_tokens "max_context_tokens" true;
  decode_limit ← _u32 max_decode_tokens "max_decode_tokens" true;
  if context_limit <? prefill_chunk_tokens s then
    raise ProofV3Error "prefill chunk exceeds the signed context limit"
  else if decode_limit <? decode_chunk_tokens s then
    raise ProofV3Error "decode chunk exceeds the signed decode limit"
  else if Z.shiftl 1 32 <=? context_limit + decode_limit then
    raise ProofV3Error "logical token coordinate space overflows"
  else if max_cache_tokens (cache s) <? context_limit + decode_limit then
    raise ProofV3Error "cache capacity does not cover signed token limits"
  else
    let dims := dimension_map (dimensions s) in
    _ ← validate_dimensions (sequence_domain s) dims;
    context ← get_dimension dims (context_dimension_id (sequence_domain s));
    decode ← get_dimension dims (decode_dimension_id (sequence_domain s));
    sequence ← get_dimension dims (sequence_dimension_id (sequence_domain s));
    if negb (maximum context =? context_limit) then
      raise ProofV3Error "context token domain must exactly match the profile limit"
    else if negb (maximum decode =? decode_limit) then
      raise ProofV3Error "decode token domain must exactly match the profile limit"
    else if negb (maximum sequence =? context_limit + decode_limit) then
      raise ProofV3Error "sequence token domain must exactly match profile limits"
    else Ok tt.

Definition validate_execution_counts (s : ExecutionRelationSpecV3) (context_token_count decode_token_count : pyval)
    : res Z :=
  bind_counts (sequence_domain s) (dimension_map (dimensions s)) context_token_count decode_token_count.

Definition spec_global_execution_qualified (s : ExecutionRelationSpecV3) : bool :=
  bool_decide (relation_abi_id s = GLOBAL_EXECUTION_RELATION_ABI_V3)
  && policy_global_execution_qualified (audit_policy s)
  && bool_decide (recursive_accumulator_abi_id s = RECURSIVE_CHUNK_ACCUMULATOR_ABI_V3)
  && forallb (fun c => bool_decide (c ∈ _EXACT_COMPARATORS)) (comparator_id <$> tolerances s).

(** ** JSON

    The fields of a [to_dict] are listed in the order of their names, in which
    [dumps] prints them; the order of a dict is not observed otherwise. *)

Notation field k v := (t_lit k, v).
Definition j_bytes (b : bytes) : json := JStr (hex b).
Definition j_option {A} (f : A -> json) (x : option A) : json := match x with Some a => f a | None => JNull end.
Definition j_texts (l : list text) : json := JList (JStr <$> l).
Definition j_list {A} (f : A -> json) (l : list A) : json := JList (f <$> l).

Definition DeclaredDimensionV3_to_dict (d : DeclaredDimensionV3) : json :=
  JObj [field "dimension_id" (JStr (dimension_id d)); field "maximum" (JInt (maximum d));
        field "minimum" (JInt (minimum d))].

Definition SequenceDomainV3_to_dict (s : SequenceDomainV3) : json :=
  JObj [field "context_dimension_id" (JStr (context_dimension_id s));
        field "decode_dimension_id" (JStr (decode_dimension_id s));
        field "relation_id" (JStr (Relation.relation_id s));
        field "sequence_dimension_id" (JStr (sequence_dimension_id s))].

Definition j_dimension (d : ShapeDimensionV3) : json :=
  match d with ConcreteDimension n => JInt n | SymbolicDimension id => JStr id end.

Definition TensorDescriptorV3_to_dict (t : TensorDescriptorV3) : json :=
  JObj [field "commitment_role" (JStr (commitment_role t)); field "encoding_id" (JStr (encoding_id t));
        field "layout_id" (JStr (layout_id t)); field "scale_rule_id" (JStr (scale_rule_id t));
        field "shape" (j_list j_dimension (shape t)); field "tensor_id" (JStr (tensor_id t))].

Definition RegisteredOperationReferenceV3_to_dict (o : RegisteredOperationReferenceV3) : json :=
  JObj [field "cols" (JInt (op_cols o)); field "descriptor_digest" (j_bytes (descriptor_digest o));
        field "expert_id" (j_option JInt (expert_id o)); field "layer_index" (JInt (op_layer_index o));
        field "operation_id" (JStr (operation_id o)); field "rows" (JInt (op_rows o));
        field "weight_commitment" (j_bytes (weight_commitment o))].

Definition StaticParameterBindingV3_to_dict (b : StaticParameterBindingV3) : json :=
  JObj [field "binding_digest" (j_bytes (binding_digest b)); field "binding_id" (JStr (binding_id b));
        field "binding_kind" (JStr (binding_kind b)); field "layer_index" (JInt (binding_layer_index b))].

(** The fields of a table's subject. *)
Definition subject_kind (s : table_subject) : text :=
  match s with OperationSubject _ => t_lit "operation" | ParameterSubject _ _ => t_lit "static_parameter" end.
Definition subject_operation (s : table_subject) : option bytes :=
  match s with OperationSubject d => Some d | ParameterSubject _ _ => None end.
Definition subject_parameter (s : table_subject) : option (text * bytes) :=
  match s with OperationSubject _ => None | ParameterSubject id d => Some (id, d) end.

Definition StaticTableBindingV3_to_dict (t : StaticTableBindingV3) : json :=
  JObj [field "binding_id" (JStr (tb_binding_id t)); field "element_encoding_id" (JStr (element_encoding_id t));
        field "logical_leaf_count" (JInt (logical_leaf_count t)); field "logical_leaf_start" (JInt (logical_leaf_start t));
        field "operation_descriptor_digest" (j_option j_bytes (subject_operation (tb_subject t)));
        field "page_count" (JInt (page_count t)); field "page_start" (JInt (page_start t));
        field "scale_encoding_id" (JStr (scale_encoding_id t));
        field "static_binding_digest" (j_option j_bytes (snd <$> subject_parameter (tb_subject t)));
        field "static_binding_id" (j_option JStr (fst <$> subject_parameter (tb_subject t)));
        field "static_table_descriptor_digest" (j_bytes (static_table_descriptor_digest t));
        field "subject_kind" (JStr (subject_kind (tb_subject t))); field "table_id" (JStr (tb_table_id t))].

Definition RelationToleranceV3_to_dict (t : RelationToleranceV3) : json :=
  JObj [field "absolute_q32" (JInt (absolute_q32 t)); field "comparator_id" (JStr (comparator_id t));
        field "relative_bps" (JInt (relative_bps t)); field "tolerance_id" (JStr (tolerance_id t))].

Definition ExecutionRelationNodeV3_to_dict (n : ExecutionRelationNodeV3) : json :=
  JObj [field "input_tensor_ids" (j_texts (input_tensor_ids n)); field "layer_index" (JInt (node_layer_index n));
        field "node_id" (JStr (node_id n));
        field "operation_reference" (j_option RegisteredOperationReferenceV3_to_dict (operation_reference n));
        field "output_tensor_ids" (j_texts (output_tensor_ids n)); field "relation_id" (JStr (relation_id n));
        field "static_binding_ids" (j_texts (static_binding_ids n));
        field "tolerance_id" (JStr (node_tolerance_id n));
        field "transition_adapter_id" (JStr (transition_adapter_id n))].

Definition LayerCacheRelationV3_to_dict (f : LayerCacheRelationV3) : json :=
  JObj [field "cache_kind" (JStr (cache_kind f)); field "cache_semantics_id" (JStr (family_semantics_id f));
        field "key_tensor_id" (j_option JStr (key_tensor_id f)); field "layer_index" (JInt (cache_layer_index f));
        field "state_tensor_ids" (j_texts (state_tensor_ids f)); field "value_tensor_id" (j_option JStr (value_tensor_id f))].

(** The flags that the constructor refuses are false. *)
Definition CacheRelationSpecV3_to_dict (c : CacheRelationSpecV3) : json :=
  JObj ([field "allows_prefix_cache_sharing" (JBool (allows_prefix_cache_sharing c));
         field "allows_sliding_window" (JBool false); field "allows_speculative_decode" (JBool false);
         field "cache_semantics_id" (JStr (cache_semantics_id c));
         field "layer_caches" (j_list LayerCacheRelationV3_to_dict (layer_caches c));
         field "logical_address_abi_id" (JStr (logical_address_abi_id c));
         field "max_cache_tokens" (JInt (max_cache_tokens c)); field "page_token_count" (JInt (page_token_count c))]
        ++ (if allows_prefix_cache_sharing c then
             [field "prefix_cache_k_cell_delta_max" (JInt (prefix_cache_k_cell_delta_max c));
              field "prefix_cache_k_row_sq_delta_max" (JInt (prefix_cache_k_row_sq_delta_max c));
              field "prefix_cache_v_cell_delta_max" (JInt (prefix_cache_v_cell_delta_max c));
              field "prefix_cache_v_row_sq_delta_max" (JInt (prefix_cache_v_row_sq_delta_max c))]
           else [])
        ++ [field "retention_lease_abi_id" (JStr (retention_lease_abi_id c))]).

Definition LayerAuditPlanV3_to_dict (p : LayerAuditPlanV3) : json :=
  JObj [field "attention_head_dimension" (JInt (attention_head_dimension p));
        field "attention_key_value_head_count" (JInt (attention_key_value_head_count p));
        field "attention_query_head_count" (JInt (attention_query_head_count p));
        field "attention_semantics_id" (j_option JStr (attention_semantics_id p));
        field "bridge_node_id" (JStr (bridge_node_id p)); field "layer_index" (JInt (layer_index p));
        field "required_operation_references"
          (j_list RegisteredOperationReferenceV3_to_dict (required_operation_references p));
        field "transition_node_id" (JStr (transition_node_id p))].

Definition HardAuditPolicyV3_to_dict (p : HardAuditPolicyV3) : json :=
  JObj [field "coverage_mode" (JStr (coverage_mode p));
        field "full_attention_heads_per_layer" (JInt (full_attention_heads_per_layer p));
        field "minimum_canary_hard_bps" (JInt (minimum_canary_hard_bps p));
        field "minimum_full_attention_layers" (JInt (minimum_full_attention_layers p));
        field "minimum_gdn_layers" (JInt (minimum_gdn_layers p));
        field "minimum_organic_hard_bps" (JInt (minimum_organic_hard_bps p));
        field "nonce_selection_abi_id" (JStr (nonce_selection_abi_id p));
        field "probation_failures" (JInt (probation_failures p));
        field "selected_layer_count" (JInt (selected_layer_count p));
        field "selection_abi_id" (JStr (selection_abi_id p));
        field "tier_selection_abi_id" (JStr (tier_selection_abi_id p));
        field "transition_query_rows" (JInt (transition_query_rows p))].

Definition ExecutionRelationSpecV3_to_dict (s : ExecutionRelationSpecV3) : json :=
  JObj [field "audit_policy" (HardAuditPolicyV3_to_dict (audit_policy s));
        field "cache" (CacheRelationSpecV3_to_dict (cache s));
        field "capture_abi_digest" (j_bytes (capture_abi_digest s));
        field "constraint_system_digest" (j_bytes (constraint_system_digest s));
        field "decode_chunk_tokens" (JInt (decode_chunk_tokens s));
        field "dimensions" (j_list DeclaredDimensionV3_to_dict (dimensions s));
        field "final_token_tensor_id" (JStr (final_token_tensor_id s));
        field "layer_audits" (j_list LayerAuditPlanV3_to_dict (layer_audits s));
        field "nodes" (j_list ExecutionRelationNodeV3_to_dict (nodes s));
        field "prefill_chunk_tokens" (JInt (prefill_chunk_tokens s));
        field "quantization_binding_digest" (j_bytes (quantization_binding_digest s));
        field "recursive_accumulator_abi_id" (JStr (recursive_accumulator_abi_id s));
        field "recursive_accumulator_digest" (j_bytes (recursive_accumulator_digest s));
        field "registered_operations" (j_list RegisteredOperationReferenceV3_to_dict (registered_operations s));
        field "relation_abi_id" (JStr (relation_abi_id s));
        field "relation_spec_version" (JInt RELATION_SPEC_FORMAT_VERSION);
        field "request_tensor_id" (JStr (request_tensor_id s));
        field "sampler_abi_digest" (j_bytes (sampler_abi_digest s));
        field "sampler_abi_id" (JStr (sampler_abi_id s));
        field "sequence_domain" (SequenceDomainV3_to_dict (sequence_domain s));
        field "static_bindings" (j_list StaticParameterBindingV3_to_dict (static_bindings s));
        field "static_table_bindings" (j_list StaticTableBindingV3_to_dict (static_table_bindings s));
        field "tensors" (j_list TensorDescriptorV3_to_dict (tensors s));
        field "tokenizer_binding_digest" (j_bytes (tokenizer_binding_digest s));
        field "tolerances" (j_list RelationToleranceV3_to_dict (tolerances s))].

Definition canonical_json_bytes (s : ExecutionRelationSpecV3) : res bytes :=
  encoded ← ascii (dumps (ExecutionRelationSpecV3_to_dict s));
  if MAX_RELATION_SPEC_BYTES <? zlen encoded then raise ProofV3Error "relation spec exceeds the protocol size limit"
  else Ok encoded.
End Spec.
