(* ===== verification/Profile.v ===== *)
(** * The signed profile ([verallm/proof_v3/profile.py])

    A profile names a model's static artifacts, its proof system and its relation
    spec; its digest is what requests and envelopes are bound to. *)

From Stdlib Require Import ZArith Lia.
From Stdlib Require Import Strings.Byte.
From coqutil Require Import Word.LittleEndianList.
From stdpp Require Import base gmap list strings.
From S2P Require Import Prelude Sha256 Merkle MerkleTheory Validate Wire Text Relation Policy Spec.

Import Relation Policy Spec.
Local Open Scope Z_scope.

Module Profile.
Definition PROTOCOL_VERSION : Z := 3.
Definition PROFILE_FORMAT_VERSION : Z := 8.
Definition _PROFILE_MAGIC : bytes := b_lit "V3PR".
Definition _PROFILE_DIGEST_DOMAIN : bytes := b_lit "VERATHOS/PROOF_V3/EXECUTION_PROFILE/SHA256".
Definition GLOBAL_FOLDED_EXECUTION_PROOF_SYSTEM_V3 : text := t_lit "global_folded_execution_v3".

Record ExecutionSecurityProfileV3 := MkProfile {
  static_manifest_digest : bytes;
  static_artifact_digest : bytes;
  adapter_id : text;
  adapter_version : text;
  proof_system_id : text;
  verifier_key_digest : bytes;
  quantization_semantics_id : text;
  max_verified_context_tokens : Z;
  max_verified_decode_tokens : Z;
  relation_spec : ExecutionRelationSpecV3;
  profile_version : Z;
}.

Definition _fixed (value : pyval) (name : string) (nonzero : bool) : res bytes :=
  fixed32 ProofV3Error value name nonzero.

Definition ExecutionSecurityProfileV3_new (manifest artifact adapter adapter_v proof_system key quantization
    max_context max_decode : pyval) (spec : ExecutionRelationSpecV3) (version : pyval)
    : res ExecutionSecurityProfileV3 :=
  manifest ← _fixed manifest "static_manifest_digest" true;
  artifact ← _fixed artifact "static_artifact_digest" true;
  adapter ← _identifier adapter "adapter_id";
  adapter_v ← _identifier adapter_v "adapter_version";
  proof_system ← _identifier proof_system "proof_system_id";
  key ← _fixed key "verifier_key_digest" false;
  quantization ← _identifier quantization "quantization_semantics_id";
  max_context ← _u32 max_context "max_verified_context_tokens" true;
  max_decode ← _u32 max_decode "max_verified_decode_tokens" true;
  if Z.shiftl 1 32 <=? max_context + max_decode then
    raise ProofV3Error "combined context and decode limits exceed the logical coordinate space"
  else
    version ← _u32 version "profile_version" true;
    if negb (version =? PROFILE_FORMAT_VERSION) then
      raise ProofV3Error "execution profile version is not supported"
    else
      _ ← validate_for_limits spec (PInt max_context) (PInt max_decode);
      Ok (MkProfile manifest artifact adapter adapter_v proof_system key quantization max_context max_decode
            spec version).

Definition hard_execution_capable (p : ExecutionSecurityProfileV3) : bool :=
  bool_decide (proof_system_id p = GLOBAL_FOLDED_EXECUTION_PROOF_SYSTEM_V3)
  && spec_global_execution_qualified (relation_spec p).

Definition require_hard_execution_capability (p : ExecutionSecurityProfileV3) : res unit :=
  if negb (hard_execution_capable p) then
    raise ProofV3VerificationError "execution profile is not qualified for proof-v3 hard auditing"
  else Ok tt.

Definition _encode_identifier (value : text) (name : string) : res bytes :=
  value ← _identifier (PStr value) name;
  encoded ← ascii value;
  Ok (le_split 1 (zlen encoded) ++ encoded).

Definition profile_canonical_bytes (p : ExecutionSecurityProfileV3) : res bytes :=
  relation_bytes ← canonical_json_bytes (relation_spec p);
  adapter ← _encode_identifier (adapter_id p) "adapter_id";
  adapter_v ← _encode_identifier (adapter_version p) "adapter_version";
  proof_system ← _encode_identifier (proof_system_id p) "proof_system_id";
  quantization ← _encode_identifier (quantization_semantics_id p) "quantization_semantics_id";
  Ok (_PROFILE_MAGIC ++ pack_H PROTOCOL_VERSION ++ pack_H (profile_version p)
      ++ pack_I (max_verified_context_tokens p) ++ pack_I (max_verified_decode_tokens p)
      ++ static_manifest_digest p ++ static_artifact_digest p ++ verifier_key_digest p
      ++ adapter ++ adapter_v ++ proof_system ++ quantization
      ++ pack_I (zlen relation_bytes) ++ relation_bytes).

Definition profile_digest `{Digest} (p : ExecutionSecurityProfileV3) : res bytes :=
  encoded ← profile_canonical_bytes p;
  Ok (sha256 (_PROFILE_DIGEST_DOMAIN ++ encoded)).
End Profile.
