(* ===== verification/SpecGraph.v ===== *)
(** * The graph of a relation spec ([verallm/proof_v3/relation.py])

    [ExecutionRelationSpecV3.__post_init__] and [_validate_graph]: the checks of
    the declarations, the walk over the nodes in their order, and the checks of
    what the walk collected.  A Python set is the list of its elements; the
    order in which a set is iterated is not specified by the language, and only
    decides which message a failing loop raises. *)

From Stdlib Require Import ZArith Lia.
From Stdlib Require Import Strings.Byte.
From coqutil Require Import Word.LittleEndianList.
From stdpp Require Import base gmap list strings pretty.
From S2P Require Import Prelude Merkle MerkleTheory Sha256 Wire Text Relation Graph Policy Spec.

Import Relation Policy Graph Spec.
Local Open Scope Z_scope.

#[export] Instance operation_eq_dec : EqDecision RegisteredOperationReferenceV3.
Proof. solve_decision. Defined.

Module SpecGraph.
(** [d[key]] *)
Definition index {K A} `{Countable K} (d : gmap K A) (key : K) : res A :=
  match d !! key with Some a => Ok a | None => raise KeyError "key" end.

(** [for x in l: f(x)] *)
Fixpoint each {A} (f : A -> res unit) (l : list A) : res unit :=
  match l with [] => Ok tt | x :: l => _ ← f x; each f l end.

(** [any(f(x) for x in l)] *)
Fixpoint any_of {A} (f : A -> res bool) (l : list A) : res bool :=
  match l with [] => Ok false | x :: l => b ← f x; if b : bool then Ok true else any_of f l end.

Fixpoint fold_res {S A} (f : S -> A -> res S) (s : S) (l : list A) : res S :=
  match l with [] => Ok s | x :: l => s ← f s x; fold_res f s l end.

Section spec.
Context (self : ExecutionRelationSpecV3).

(** ** The declarations by their names *)

Definition dimensions_by_id : gmap text DeclaredDimensionV3 := dimension_map (dimensions self).
Definition tensors_by_id : gmap text TensorDescriptorV3 := dict_of tensor_id (tensors self).
Definition bindings_by_id : gmap text StaticParameterBindingV3 := dict_of binding_id (static_bindings self).
Definition tensor_names : list text := tensor_id <$> tensors self.
Definition binding_names : list text := binding_id <$> static_bindings self.
Definition tolerance_names : list text := tolerance_id <$> tolerances self.

Definition context_dimension : text := context_dimension_id (sequence_domain self).
Definition decode_dimension : text := decode_dimension_id (sequence_domain self).
Definition sequence_dimension : text := sequence_dimension_id (sequence_domain self).

(** [dimension in tensors[tensor_id].shape] *)
Definition indexed_by (dimension : text) (t : TensorDescriptorV3) : bool := bool_decide (SymbolicDimension dimension ∈ shape t).

Definition has_role (role : string) (t : TensorDescriptorV3) : bool := bool_decide (commitment_role t = t_lit role).
Arguments has_role role%_string_scope t.

(** ** Source, final tensor and static tables *)

Definition check_ends : res unit :=
  _ ← reject (negb (bool_decide (request_tensor_id self ∈ tensor_names))
              || negb (bool_decide (final_token_tensor_id self ∈ tensor_names)))
        "relation source or final tensor is not declared";
  _ ← reject (bool_decide (request_tensor_id self = final_token_tensor_id self))
        "relation source and final tensors must differ";
  request ← index tensors_by_id (request_tensor_id self);
  _ ← reject (negb (has_role "request_input" request)) "request tensor must have request_input role";
  final ← index tensors_by_id (final_token_tensor_id self);
  reject (negb (has_role "token_output" final)) "final token tensor must have token_output role".

Definition operation_digests : list bytes := descriptor_digest <$> registered_operations self.
Definition operation_table_digests : list bytes := omap (fun t => subject_operation (tb_subject t)) (static_table_bindings self).
Definition parameter_tables : list (text * bytes) := omap (fun t => subject_parameter (tb_subject t)) (static_table_bindings self).

Definition check_tables : res unit :=
  _ ← reject (negb (duplicate_free operation_digests)) "registered operation descriptor digests are duplicated";
  _ ← reject (negb (same_set operation_table_digests operation_digests))
        "static table bindings do not exactly cover registered operations";
  _ ← reject (negb (length operation_table_digests =? length (remove_dups operation_digests))%nat)
        "registered operation has multiple static table bindings";
  _ ← each (fun '(id, digest) =>
              reject (match bindings_by_id !! id with
                      | None => true
                      | Some bound => negb (bool_decide (binding_digest bound = digest))
                      end) "static table binding does not match a signed static parameter") parameter_tables;
  _ ← reject (negb (same_set parameter_tables.*1 binding_names)) "static table bindings do not cover signed static parameters";
  _ ← reject (negb (duplicate_free (tb_table_id <$> static_table_bindings self)))
        "static table bindings reuse a table descriptor";
  reject (negb (duplicate_free (static_table_descriptor_digest <$> static_table_bindings self)))
    "static table bindings reuse a descriptor digest".

(** ** Shapes *)

Definition final_hidden_tensors : list text := tensor_id <$> filter (fun t => has_role "final_hidden" t = true) (tensors self).
Definition logit_tensors : list text := tensor_id <$> filter (fun t => has_role "logits" t = true) (tensors self).

Definition check_shapes : res unit :=
  _ ← validate_dimensions (sequence_domain self) dimensions_by_id;
  request ← index tensors_by_id (request_tensor_id self);
  _ ← reject (negb (indexed_by context_dimension request)) "request tensor must be indexed by context_tokens";
  final ← index tensors_by_id (final_token_tensor_id self);
  _ ← reject (negb (indexed_by decode_dimension final)) "final token tensor must be indexed by decode_tokens";
  _ ← each (fun t => each (fun d => reject (match d with
                                            | ConcreteDimension _ => false
                                            | SymbolicDimension id => negb (declared dimensions_by_id id)
                                            end) "tensor shape references an undeclared dimension") (shape t)) (tensors self);
  _ ← reject (bool_decide (final_hidden_tensors = []) || bool_decide (logit_tensors = []))
        "relation requires final-hidden and logits tensors";
  each (fun id => t ← index tensors_by_id id;
                  reject (negb (indexed_by decode_dimension t))
                    "final-hidden and logits tensors must cover every decode token")
    (final_hidden_tensors ++ logit_tensors).

(** ** Cache tables *)

Definition families : gmap Z LayerCacheRelationV3 := dict_of cache_layer_index (layer_caches (cache self)).
Definition cache_tensors : list text := (map_to_list families).*2 ≫= tensor_ids.

Definition check_cache_tensors : res unit :=
  each (fun id =>
          _ ← reject (negb (bool_decide (id ∈ tensor_names))) "cache tensors are not declared";
          t ← index tensors_by_id id;
          _ ← reject (negb (has_role "cache" t)) "cache tensors must have cache commitment role";
          reject (negb (indexed_by sequence_dimension t)) "cache tensors must cover the full sequence domain")
    cache_tensors.

(** ** The walk *)

Record walk := MkWalk {
  available : list text;
  used_operations : list RegisteredOperationReferenceV3;
  used_bindings : list text;
  cache_producers : list text;
  cache_consumers : list text;
  transition_nodes_by_layer : gmap Z text;
  transition_node_ids_by_layer : gmap Z text;
  bridge_node_ids_by_layer : gmap Z text;
}.

Definition walk_start : walk := MkWalk [request_tensor_id self] [] [] [] [] ∅ ∅ ∅.

Definition exact_tail_width (id : text) : res (option Z) :=
  t ← index tensors_by_id id;
  match last (shape t) with
  | None => raise IndexError "tuple index out of range"
  | Some (ConcreteDimension n) => Ok (Some n)
  | Some (SymbolicDimension d) => d ← index dimensions_by_id d; Ok (exact_value d)
  end.

Definition check_node_names (w : walk) (i : nat) (node : ExecutionRelationNodeV3) : res unit :=
  let inputs := input_tensor_ids node in
  let outputs := output_tensor_ids node in
  _ ← reject (negb (subset inputs tensor_names) || negb (subset outputs tensor_names))
        "relation node references an undeclared tensor";
  _ ← reject (negb (subset inputs (available w)))
        ("relation node " +:+ pretty (N.of_nat i) +:+ " consumes a tensor before its producer");
  _ ← reject (bool_decide (request_tensor_id self ∈ outputs) || negb (disjoint_lists outputs (available w)))
        "relation graph has duplicate tensor producers";
  _ ← reject (negb (bool_decide (node_tolerance_id node ∈ tolerance_names))) "relation node references an undeclared tolerance";
  reject (negb (subset (static_binding_ids node) binding_names)) "relation node references an undeclared static binding".

Definition check_linear (node : ExecutionRelationNodeV3) (operation : RegisteredOperationReferenceV3) : res unit :=
  _ ← reject (negb (bool_decide (operation ∈ registered_operations self)))
        "linear relation node references an undeclared PCS operation";
  match input_tensor_ids node, output_tensor_ids node with
  | [x], [y] =>
      x_width ← exact_tail_width x;
      _ ← reject (negb (bool_decide (x_width = Some (op_rows operation)))) "linear X tensor width does not match PCS rows";
      y_width ← exact_tail_width y;
      _ ← reject (negb (bool_decide (y_width = Some (op_cols operation)))) "linear Y tensor width does not match PCS cols";
      _ ← reject (negb (bool_decide (static_binding_ids node = []))) "linear relation nodes may not add static bindings";
      if 0 <=? node_layer_index node then
        tx ← index tensors_by_id x;
        ty ← index tensors_by_id y;
        reject (negb (indexed_by sequence_dimension tx) || negb (indexed_by sequence_dimension ty))
          "layer PCS operations must cover the full sequence domain"
      else Ok tt
  | _, _ => raise ProofV3Error "linear relation nodes require one X and one Y tensor"
  end.

Definition check_static (node : ExecutionRelationNodeV3) : res unit :=
  allowed_kinds ← match dict_get _NODE_BINDING_KINDS (relation_id node) with
                  | Some kinds => Ok kinds
                  | None => raise KeyError "relation_id"
                  end;
  each (fun id =>
          binding ← index bindings_by_id id;
          _ ← reject (negb (binding_layer_index binding =? node_layer_index node))
                "relation node binding layer does not match the node";
          reject (negb (bool_decide (binding_kind binding ∈ allowed_kinds)))
            "relation node binding kind does not match the relation")
    (static_binding_ids node).

(** A tensor of the running state of the layers, over the sequence. *)
Definition sequence_state (id : text) : res bool :=
  t ← index tensors_by_id id;
  Ok (indexed_by sequence_dimension t && has_role "runtime_state" t).

Definition FULL_ATTENTION_RELATION : text := t_lit "full_attention".
Definition transition_relation (r : text) : bool := bool_decide (r ∈ t_lit <$> ["full_attention"; "gdn"]).
Definition bridge_relation (r : text) : bool := bool_decide (r = t_lit "bridge").
Definition expected_cache_kind (r : text) : text := if bool_decide (r = FULL_ATTENTION_RELATION) then ATTENTION_KV else GDN_STATE.

Definition check_transition (w : walk) (node : ExecutionRelationNodeV3) : res unit :=
  match families !! node_layer_index node with
  | None => raise ProofV3Error "transition layer has no signed cache family"
  | Some family =>
      _ ← reject (negb (bool_decide (cache_kind family = expected_cache_kind (relation_id node))))
            "transition relation has an incompatible cache family";
      _ ← reject (negb (subset (tensor_ids family) (output_tensor_ids node)))
            "transition relations must produce their complete layer cache family";
      reads ← any_of sequence_state (input_tensor_ids node);
      writes ← (if reads : bool then any_of sequence_state (output_tensor_ids node) else Ok false);
      _ ← reject (negb writes) "transition relations must bind sequence-indexed runtime state";
      reject (bool_decide (is_Some (transition_nodes_by_layer w !! node_layer_index node)))
        "each layer may have only one transition relation"
  end.

Definition check_bridge (w : walk) (node : ExecutionRelationNodeV3) : res unit :=
  match families !! node_layer_index node with
  | None => raise ProofV3Error "bridge layer has no signed cache family"
  | Some family =>
      _ ← reject (negb (subset (tensor_ids family) (input_tensor_ids node)))
            "bridge relations must consume their complete layer cache family";
      reject (bool_decide (is_Some (bridge_node_ids_by_layer w !! node_layer_index node)))
        "each layer may have only one bridge relation"
  end.

(** [set(l) & set(k)] *)
Definition intersect (l k : list text) : list text := filter (fun x => x ∈ k) l.

(** What one node adds to the walk. *)
Definition advance (w : walk) (node : ExecutionRelationNodeV3) : walk :=
  let layer := node_layer_index node in
  let transition := transition_relation (relation_id node) in
  {| available := available w ++ output_tensor_ids node;
     used_operations := used_operations w ++ some_list (operation_reference node);
     used_bindings := used_bindings w ++ static_binding_ids node;
     cache_producers := cache_producers w ++ intersect cache_tensors (output_tensor_ids node);
     cache_consumers := cache_consumers w ++ intersect cache_tensors (input_tensor_ids node);
     transition_nodes_by_layer :=
       if transition then <[layer := relation_id node]> (transition_nodes_by_layer w) else transition_nodes_by_layer w;
     transition_node_ids_by_layer :=
       if transition then <[layer := node_id node]> (transition_node_ids_by_layer w) else transition_node_ids_by_layer w;
     bridge_node_ids_by_layer :=
       if bridge_relation (relation_id node) then <[layer := node_id node]> (bridge_node_ids_by_layer w)
       else bridge_node_ids_by_layer w |}.

Definition walk_node (w : walk) (item : nat * ExecutionRelationNodeV3) : res walk :=
  let '(i, node) := item in
  _ ← check_node_names w i node;
  _ ← match operation_reference node with
      | Some operation => check_linear node operation
      | None => check_static node
      end;
  _ ← (if transition_relation (relation_id node) then check_transition w node else Ok tt);
  _ ← (if bridge_relation (relation_id node) then check_bridge w node else Ok tt);
  Ok (advance w node).

Definition enumerate {A} (l : list A) : list (nat * A) := imap pair l.

(** ** After the walk *)

Definition lm_head (node : ExecutionRelationNodeV3) : bool :=
  match operation_reference node with Some o => op_layer_index o =? -1 | None => false end.

Definition check_sampler : res unit :=
  match last (nodes self) with
  | None => raise IndexError "tuple index out of range"
  | Some node =>
      _ ← reject (negb (bool_decide (final_token_tensor_id self ∈ output_tensor_ids node)))
            "final token tensor must be produced by the last node";
      _ ← reject (negb (bool_decide (relation_id node = t_lit "sampler"))) "last relation node must be the canonical sampler";
      _ ← reject (negb (bool_decide (transition_adapter_id node = sampler_abi_id self)))
            "final sampler node does not match the sampler ABI";
      _ ← reject (negb (same_set (output_tensor_ids node) [final_token_tensor_id self]))
            "last relation node may only produce the final token";
      match filter (fun n => lm_head n = true) (nodes self) with
      | [head] =>
          match input_tensor_ids head, output_tensor_ids head with
          | x :: _, y :: _ =>
              _ ← reject (negb (bool_decide (x ∈ final_hidden_tensors)))
                    "LM-head input must be an authenticated final-hidden tensor";
              _ ← reject (negb (bool_decide (y ∈ logit_tensors))) "LM-head output must be an authenticated logits tensor";
              reject (negb (same_set (input_tensor_ids node) [y])) "canonical sampler must consume the registered LM-head logits"
          | _, _ => raise IndexError "tuple index out of range"
          end
      | _ => raise ProofV3Error "relation requires exactly one registered LM-head node"
      end
  end.

Definition required_layers : list Z :=
  remove_dups (filter (fun l => 0 <= l) (op_layer_index <$> registered_operations self)).
Definition keys {A} (m : gmap Z A) : list Z := (map_to_list m).*1.

Definition check_coverage (w : walk) : res unit :=
  _ ← reject (negb (same_set (used_operations w) (registered_operations self)))
        "every registered PCS operation must appear in the graph";
  _ ← reject (negb (same_set (used_bindings w) binding_names)) "every static binding must appear in the graph";
  _ ← reject (negb (same_set (available w) tensor_names)) "every declared tensor must have one graph producer";
  _ ← reject (negb (same_set (cache_producers w) cache_tensors) || negb (same_set (cache_consumers w) cache_tensors))
        "relation graph must produce and consume both cache tensors";
  _ ← reject (negb (same_set (keys families) required_layers)) "every registered layer requires one cache family";
  _ ← reject (negb (same_set (keys (transition_nodes_by_layer w)) required_layers))
        "every registered layer requires one full-attention or GDN transition";
  reject (negb (same_set (keys (bridge_node_ids_by_layer w)) required_layers))
    "every registered layer requires one bridge transition".

(** ** Audit plans *)

Definition audit_by_layer : gmap Z LayerAuditPlanV3 := dict_of layer_index (layer_audits self).

(** The loop over the layers collects the plans by the kind of the transition. *)
Definition check_layer (w : walk) (audits : list LayerAuditPlanV3 * list LayerAuditPlanV3) (layer : Z)
    : res (list LayerAuditPlanV3 * list LayerAuditPlanV3) :=
  let '(full_attention_audits, gdn_audits) := audits in
  audit ← index audit_by_layer layer;
  kind ← index (transition_nodes_by_layer w) layer;
  _ ← validate_for_transition_kind audit (PStr kind);
  transition ← index (transition_node_ids_by_layer w) layer;
  _ ← reject (negb (bool_decide (transition_node_id audit = transition)))
        "layer audit plan does not reference its transition node";
  bridge ← index (bridge_node_ids_by_layer w) layer;
  _ ← reject (negb (bool_decide (bridge_node_id audit = bridge))) "layer audit plan does not reference its bridge node";
  let expected_operations := filter (fun o => op_layer_index o = layer) (registered_operations self) in
  _ ← reject (negb (same_set (required_operation_references audit) expected_operations))
        "layer audit plan does not cover every registered layer operation";
  Ok (if bool_decide (kind = FULL_ATTENTION_RELATION) then (full_attention_audits ++ [audit], gdn_audits)
      else (full_attention_audits, gdn_audits ++ [audit])).

Definition check_audits (w : walk) : res unit :=
  _ ← reject (negb (same_set (keys audit_by_layer) required_layers)) "every registered layer requires one signed audit plan";
  '(full_attention_audits, gdn_audits) ← fold_res (check_layer w) ([], []) (py_sorted_set required_layers);
  audit_coverage (audit_policy self) (Z.of_nat (size audit_by_layer)) full_attention_audits gdn_audits.

(** ** Connection to the final token *)

Definition needed_before (needed : list text) (node : ExecutionRelationNodeV3) : res (list text) :=
  _ ← reject (negb (subset (output_tensor_ids node) needed)) "relation graph contains a disconnected output";
  Ok (needed ++ input_tensor_ids node).

Definition check_connected : res unit :=
  needed ← fold_res needed_before [final_token_tensor_id self] (rev (nodes self));
  reject (negb (same_set needed
                  ([request_tensor_id self] ++ (nodes self ≫= fun n => input_tensor_ids n ++ output_tensor_ids n))))
    "relation graph is disconnected from the final token".

Definition _validate_graph : res unit :=
  _ ← check_ends;
  _ ← check_tables;
  _ ← check_shapes;
  _ ← check_cache_tensors;
  w ← fold_res walk_node walk_start (enumerate (nodes self));
  _ ← check_sampler;
  _ ← check_coverage w;
  _ ← check_audits w;
  check_connected.

(** ** The constructor *)

Definition bounded {A} (l : list A) (name : string) (maximum : Z) : res unit :=
  reject (maximum <? zlen l) (name +:+ " must be a bounded tuple").

Definition is_nil {A} (l : list A) : bool := match l with [] => true | _ => false end.

(** The part of [__post_init__] about the declared items. *)
Definition check_items : res unit :=
  _ ← bounded (dimensions self) "dimensions" MAX_DECLARED_DIMENSIONS;
  _ ← bounded (tensors self) "tensors" MAX_TENSORS;
  _ ← bounded (registered_operations self) "registered_operations" MAX_OPERATION_REFERENCES;
  _ ← bounded (static_bindings self) "static_bindings" MAX_STATIC_BINDINGS;
  _ ← bounded (static_table_bindings self) "static_table_bindings" MAX_STATIC_TABLE_BINDINGS;
  _ ← bounded (tolerances self) "tolerances" MAX_TOLERANCE_PROFILES;
  _ ← bounded (nodes self) "relation nodes" MAX_RELATION_NODES;
  _ ← bounded (layer_audits self) "layer_audits" MAX_RELATION_NODES;
  _ ← reject (is_nil (dimensions self) || is_nil (tensors self) || is_nil (registered_operations self)
              || is_nil (static_bindings self) || is_nil (static_table_bindings self) || is_nil (tolerances self))
        "relation spec has an incomplete signed statement";
  _ ← reject (is_nil (nodes self)) "relation spec requires ordered graph nodes";
  _ ← reject (is_nil (layer_audits self)) "relation spec requires per-layer audit plans";
  _ ← _strictly_sorted text_ltb (dimension_id <$> dimensions self) "relation dimensions";
  _ ← _strictly_sorted text_ltb (tensor_id <$> tensors self) "relation tensors";
  _ ← _strictly_sorted key_ltb (sort_key <$> registered_operations self) "registered operations";
  _ ← _strictly_sorted text_ltb (binding_id <$> static_bindings self) "static bindings";
  _ ← _strictly_sorted text_ltb (tb_binding_id <$> static_table_bindings self) "static table bindings";
  _ ← _strictly_sorted text_ltb (tolerance_id <$> tolerances self) "tolerances";
  _ ← _strictly_sorted Z.ltb (layer_index <$> layer_audits self) "layer audit plans";
  reject (negb (duplicate_free (node_id <$> nodes self))) "relation nodes must not contain duplicate ids".

Definition post_init : res unit := _ ← check_items; _validate_graph.
End spec.

(** The items, the cache and the policy are values of their classes. *)
Definition ExecutionRelationSpecV3_new (relation_abi capture constraint tokenizer sampler_abi sampler quantization
    accumulator_abi accumulator prefill decode request final : pyval) (domain : SequenceDomainV3)
    (dims : list DeclaredDimensionV3) (tens : list TensorDescriptorV3) (operations : list RegisteredOperationReferenceV3)
    (bindings : list StaticParameterBindingV3) (tables : list StaticTableBindingV3) (tols : list RelationToleranceV3)
    (ns : list ExecutionRelationNodeV3) (audits : list LayerAuditPlanV3) (kv : CacheRelationSpecV3)
    (policy : HardAuditPolicyV3) (version : pyval) : res ExecutionRelationSpecV3 :=
  relation_abi ← _identifier relation_abi "relation_abi_id";
  capture ← _fixed32 capture "capture_abi_digest" true;
  constraint ← _fixed32 constraint "constraint_system_digest" true;
  tokenizer ← _fixed32 tokenizer "tokenizer_binding_digest" true;
  sampler_abi ← _identifier sampler_abi "sampler_abi_id";
  sampler ← _fixed32 sampler "sampler_abi_digest" true;
  quantization ← _fixed32 quantization "quantization_binding_digest" true;
  accumulator_abi ← _identifier accumulator_abi "recursive_accumulator_abi_id";
  accumulator ← _fixed32 accumulator "recursive_accumulator_digest" true;
  prefill ← _u32 prefill "prefill_chunk_tokens" true;
  decode ← _u32 decode "decode_chunk_tokens" true;
  request ← _identifier request "request_tensor_id";
  final ← _identifier final "final_token_tensor_id";
  version ← _u32 version "relation_spec_version" true;
  _ ← reject (negb (version =? RELATION_SPEC_FORMAT_VERSION)) "relation spec version is not supported";
  let self := MkSpec relation_abi capture constraint tokenizer sampler_abi sampler quantization accumulator_abi accumulator
                prefill decode request final domain dims tens operations bindings tables tols ns audits kv policy in
  _ ← post_init self;
  Ok self.
End SpecGraph.
