(* ===== verification/Challenge.v ===== *)
(** * Post-commitment challenges ([verallm/proof_v3/challenge.py])

    Everything the validator derives from its nonce once the envelope is frozen:
    the audit tier, the selected layers, rows and heads, the chunks to cover and
    the coefficients.  Objects that only this code builds have typed fields. *)

From Stdlib Require Import ZArith Lia.
From Stdlib Require Import Strings.Byte.
From coqutil Require Import Word.LittleEndianList.
From stdpp Require Import base gmap list strings sorting.
From S2P Require Import Prelude Sha256 Merkle MerkleTheory Validate Wire Text Relation Policy Spec Profile Payload.

Import Relation Policy Spec Profile.
Local Open Scope Z_scope.

(** The scalar field of Pallas, from the compiled module [zkllm.crypto.pcs_v2]. *)
Class PallasField := PALLAS_SCALAR_MODULUS : Z.

Module Challenge.
Definition _TRANSCRIPT_DOMAIN : bytes := b_lit "VERATHOS/PROOF_V3/FOLDED_EXECUTION/TRANSCRIPT/SHA256".
Definition _PALLAS_AUXILIARY_SCALAR_DOMAIN : bytes :=
  b_lit "VERATHOS/PROOF_V3/FOLDED_EXECUTION/PALLAS_AUXILIARY_SCALAR/SHA256".
Definition _SELECTION_DOMAIN : bytes := b_lit "VERATHOS/PROOF_V3/STRATIFIED_LAYER_HEADS/SHA256".
Definition _TIER_SEED_DOMAIN : bytes := b_lit "VERATHOS/PROOF_V3/AUDIT_TIER/SEED/SHA256".
Definition _TIER_DRAW_DOMAIN : bytes := b_lit "VERATHOS/PROOF_V3/AUDIT_TIER/DRAW/SHA256".
Definition _GLOBAL_RELATION_SEED_DOMAIN : bytes := b_lit "VERATHOS/PROOF_V3/GLOBAL_RELATION/SEED/SHA256".
Definition _PALLAS_AFFINE_FOLD_SCALAR_DOMAIN : bytes := b_lit "VERATHOS/PROOF_V3/PALLAS_AFFINE_FOLD/SCALAR/SHA256".
Definition _LABELS : list bytes :=
  [b_lit "linear-alpha"; b_lit "bridge-alpha"; b_lit "attention-alpha"; b_lit "prefill-alpha";
   b_lit "final-token-alpha"].
Definition _MAX_REJECTION_ATTEMPTS : nat := 4096.
Definition PREFILL : text := t_lit "prefill".
Definition DECODE : text := t_lit "decode".
Definition _PHASE_CODES : list (text * Z) := [(PREFILL, 1); (DECODE, 2)].
Definition _REQUEST_KIND_CODES : list (text * Z) := [(ORGANIC, 1); (CANARY, 2)].

(** [codes.get(name)], and the first name that has a code. *)
Fixpoint code_of (codes : list (text * Z)) (name : text) : option Z :=
  match codes with
  | [] => None
  | (n, c) :: codes => if bool_decide (n = name) then Some c else code_of codes name
  end.
Fixpoint name_of (codes : list (text * Z)) (code : Z) : option text :=
  match codes with
  | [] => None
  | (n, c) :: codes => if c =? code then Some n else name_of codes code
  end.

Definition _nonce (value : pyval) : res bytes :=
  match value with
  | PBytes b => if negb (length b =? 32)%nat then raise ProofV3Error "validator_nonce must be exactly 32 bytes" else Ok b
  | _ => raise ProofV3Error "validator_nonce must be exactly 32 bytes"
  end.

Definition _identifier (value : pyval) (name : string) : res bytes :=
  match value with
  | PStr s => if identifier_match s then ascii s else raise ProofV3Error (name +:+ " is not a canonical identifier")
  | _ => raise ProofV3Error (name +:+ " is not a canonical identifier")
  end.

Definition _u32 := u32.
Definition _u64 := u64.

(** [isinstance(value, bytes) and len(value) == 32], with its message. *)
Definition bytes_32 (value : pyval) (message : string) : res bytes :=
  match value with
  | PBytes b => if (length b =? 32)%nat then Ok b else raise ProofV3Error message
  | _ => raise ProofV3Error message
  end.

(** ** Scalars *)

(** [int.from_bytes(sha256(...), "little")] and its ["big"] variant. *)
Definition word_le `{Digest} (m : bytes) : Z := le_combine (sha256 m).
Definition word_be `{Digest} (m : bytes) : Z := le_combine (rev (sha256 m)).

Definition attempts (draw : Z -> Z) (accept : Z -> bool) (failure : string) : res Z :=
  match rejection_loop _MAX_REJECTION_ATTEMPTS 0 draw accept with
  | Some c => Ok c
  | None => raise ProofV3Error failure
  end.

Definition nonzero_pallas `{PallasField} (candidate : Z) : bool :=
  (0 <? candidate) && (candidate <? PALLAS_SCALAR_MODULUS).

Definition _nonzero_pallas_auxiliary_scalar `{Digest, PallasField} (transcript_digest label : bytes) : res Z :=
  attempts (fun counter => word_le (_PALLAS_AUXILIARY_SCALAR_DOMAIN ++ transcript_digest
                                    ++ le_split 1 (zlen label) ++ label ++ pack_I counter))
    nonzero_pallas "unable to derive a canonical nonzero Pallas challenge".

Definition _execution_transcript_digest_v3 `{Digest} (validator_nonce : pyval)
    (profile : ExecutionSecurityProfileV3) (envelope : Payload.ProofV3CommitmentEnvelope) : res bytes :=
  validator_nonce ← _nonce validator_nonce;
  digest ← profile_digest profile;
  if negb (bool_decide (Payload.execution_profile_digest envelope = digest)) then
    raise ProofV3Error "commitment envelope is bound to a different execution profile"
  else if negb (bool_decide (Payload.static_manifest_digest envelope = static_manifest_digest profile)) then
    raise ProofV3Error "commitment envelope is bound to a different static manifest"
  else
    Ok (sha256 (_TRANSCRIPT_DOMAIN ++ validator_nonce ++ digest ++ Payload.envelope_digest envelope
                ++ Payload.envelope_bytes envelope)).

(** ** The audit tier *)

(** The words of 256 bits below the largest multiple of the bound. *)
Definition ceiling_of (bound : Z) : Z := Z.shiftl 1 256 - Z.shiftl 1 256 mod bound.

Definition _audit_tier_draw_from_precommit_context_v3 `{Digest} (validator_nonce : pyval)
    (profile : ExecutionSecurityProfileV3) (precommit_context_digest : pyval)
    (runtime_policy : RuntimeHardAuditPolicyV3) (effective_hard_bps : pyval) : res Z :=
  validator_nonce ← _nonce validator_nonce;
  context ← bytes_32 precommit_context_digest "audit-tier precommit context digest must be exactly 32 bytes";
  rate ← _u32 effective_hard_bps "audit-tier effective_hard_bps" false;
  if 10000 <? rate then raise ProofV3Error "audit-tier effective_hard_bps must not exceed 10000"
  else
    tier_abi ← _identifier (PStr (rt_tier_selection_abi_id runtime_policy)) "audit-tier selection ABI";
    match code_of _REQUEST_KIND_CODES (request_kind runtime_policy) with
    | None => raise ProofV3Error "audit-tier request kind is unsupported"
    | Some code =>
        digest ← profile_digest profile;
        let tier_seed := sha256 (_TIER_SEED_DOMAIN ++ validator_nonce ++ digest ++ context) in
        candidate ← attempts
          (fun counter => word_be (_TIER_DRAW_DOMAIN ++ le_split 1 (zlen tier_abi) ++ tier_abi ++ tier_seed
                                   ++ le_split 1 code ++ pack_H rate ++ pack_I counter))
          (fun candidate => candidate <? ceiling_of 10000)
          "unable to derive an unbiased postcommit audit-tier draw";
        Ok (candidate mod 10000)
    end.

Definition _audit_tier_draw_basis_point_v3 `{Digest} (validator_nonce : pyval)
    (profile : ExecutionSecurityProfileV3) (envelope : Payload.ProofV3CommitmentEnvelope)
    (runtime_policy : RuntimeHardAuditPolicyV3) (effective_hard_bps : pyval) : res Z :=
  _audit_tier_draw_from_precommit_context_v3 validator_nonce profile
    (PBytes (Payload.precommit_context_digest envelope)) runtime_policy effective_hard_bps.

(** ** The sampler *)

Record _SelectionSamplerV3 := MkSampler { _seed : bytes; _counter : Z }.

Definition _SelectionSamplerV3_new (seed : pyval) : res _SelectionSamplerV3 :=
  seed ← bytes_32 seed "hard-audit selection seed must be exactly 32 bytes";
  Ok (MkSampler seed 0).

Definition _word `{Digest} (s : _SelectionSamplerV3) : res (Z * _SelectionSamplerV3) :=
  if Z.shiftl 1 64 <=? _counter s then raise ProofV3Error "hard-audit selection counter overflowed"
  else Ok (word_le (_SELECTION_DOMAIN ++ _seed s ++ pack_Q (_counter s)), MkSampler (_seed s) (_counter s + 1)).

(** One pass of the loop of [below]. *)
Definition below_step `{Digest} (bound : Z) (s : _SelectionSamplerV3)
    : _SelectionSamplerV3 + res (Z * _SelectionSamplerV3) :=
  match _word s with
  | Err e => inr (Err e)
  | Ok (candidate, s) =>
      if candidate <? ceiling_of bound then inr (Ok (candidate mod bound, s)) else inl s
  end.

(** The counter overflows after at most 2^64 passes; the last one raises. *)
Definition below_passes : positive := 2 ^ 64 + 1.

Definition below `{Digest} (s : _SelectionSamplerV3) (bound : Z) : res (Z * _SelectionSamplerV3) :=
  if bound <=? 0 then raise ProofV3Error "hard-audit selection bound must be positive"
  else match iterate (below_step bound) below_passes s with
       | inr r => r
       | inl _ => raise AssertionError "unreachable"
       end.

(** [selected.append(candidates.pop(self.below(len(candidates))))], [n] times;
    the index is in range, see [below_spec]. *)
Fixpoint choose_loop `{Digest} (n : nat) (candidates : list Z) (s : _SelectionSamplerV3)
    : res (list Z * _SelectionSamplerV3) :=
  match n with
  | O => Ok ([], s)
  | S n =>
      '(index, s) ← below s (zlen candidates);
      match candidates !! Z.to_nat index with
      | None => raise IndexError "pop index out of range"
      | Some x =>
          '(selected, s) ← choose_loop n (delete (Z.to_nat index) candidates) s;
          Ok (x :: selected, s)
      end
  end.

Definition choose `{Digest} (s : _SelectionSamplerV3) (population : list Z) (count : Z)
    : res (list Z * _SelectionSamplerV3) :=
  if (count <? 0) || (zlen population <? count) then raise ProofV3Error "hard-audit sample count is invalid"
  else choose_loop (Z.to_nat count) population s.

(** ** Selections *)

Record HardAuditLayerSelectionV3 := MkLayerSelection {
  sel_layer_index : Z;
  transition_kind : text;
  query_row_offset : Z;
  query_row_count : Z;
  attention_head_indices : list Z;
}.

Definition FULL_ATTENTION : text := t_lit "full_attention".
Definition GDN : text := t_lit "gdn".

Definition outside_u32 (value : Z) (positive : bool) : bool :=
  (value <? (if positive then 1 else 0)) || (Z.shiftl 1 32 <=? value).

Definition HardAuditLayerSelectionV3_new (layer : Z) (kind : text) (offset count : Z) (heads : list Z)
    : res HardAuditLayerSelectionV3 :=
  if outside_u32 layer false then raise ProofV3Error "hard-audit layer_index must be an unsigned 32-bit integer"
  else if outside_u32 offset false then
    raise ProofV3Error "hard-audit query_row_offset must be an unsigned 32-bit integer"
  else if outside_u32 count true then
    raise ProofV3Error "hard-audit query_row_count must be an unsigned 32-bit integer"
  else if negb (bool_decide (kind ∈ [FULL_ATTENTION; GDN])) then
    raise ProofV3Error "hard-audit transition kind is not supported"
  else if negb (bool_decide (heads = py_sorted_set heads)) then
    raise ProofV3Error "hard-audit attention heads must be sorted and distinct"
  else if bool_decide (kind = FULL_ATTENTION) && (zlen heads =? 0) then
    raise ProofV3Error "full-attention layer selections require query heads"
  else if bool_decide (kind = GDN) && negb (zlen heads =? 0) then
    raise ProofV3Error "GDN layer selections must not include query heads"
  else if existsb (fun head => negb ((0 <=? head) && (head <? Z.shiftl 1 32))) heads then
    raise ProofV3Error "hard-audit attention head is not an unsigned integer"
  else Ok (MkLayerSelection layer kind offset count heads).

Record HardAuditSelectionV3 := MkSelection {
  sel_selection_abi_id : text;
  sequence_token_count : Z;
  layers : list HardAuditLayerSelectionV3;
}.

Definition HardAuditSelectionV3_new (abi : text) (count : Z) (layers : list HardAuditLayerSelectionV3)
    : res HardAuditSelectionV3 :=
  if negb (bool_decide (abi = STRATIFIED_LAYER_HEAD_SELECTION_ABI_V3)) then
    raise ProofV3Error "hard-audit selection ABI is not supported"
  else if negb ((0 <? count) && (count <? Z.shiftl 1 32)) then
    raise ProofV3Error "hard-audit sequence token count is invalid"
  else if zlen layers =? 0 then raise ProofV3Error "hard-audit selection layers are malformed"
  else
    let indices := sel_layer_index <$> layers in
    if negb (bool_decide (indices = py_sorted indices))
       || negb (length indices =? size (list_to_set indices : gset Z))%nat then
      raise ProofV3Error "hard-audit selected layers must be sorted and distinct"
    else if existsb (fun item => count <? query_row_offset item + query_row_count item) layers then
      raise ProofV3Error "hard-audit query range exceeds the sequence domain"
    else Ok (MkSelection abi count layers).

(** [{plan.layer_index: plan for plan in plans}] *)
Definition by_layer (plans : list LayerAuditPlanV3) : gmap Z LayerAuditPlanV3 :=
  fold_left (fun m p => <[layer_index p := p]> m) plans ∅.

Definition selection_seed `{Digest} (transcript_digest digest : bytes)
    (envelope : Payload.ProofV3CommitmentEnvelope) (policy : HardAuditPolicyV3) : bytes :=
  sha256 (_SELECTION_DOMAIN ++ transcript_digest ++ digest ++ Payload.envelope_digest envelope
          ++ pack_I (selected_layer_count policy) ++ pack_I (minimum_full_attention_layers policy)
          ++ pack_I (minimum_gdn_layers policy) ++ pack_I (full_attention_heads_per_layer policy)
          ++ pack_I (transition_query_rows policy)).

(** The layers, before they are sorted. *)
Definition select_layers `{Digest} (policy : HardAuditPolicyV3) (plans : list LayerAuditPlanV3)
    (s : _SelectionSamplerV3) : res (list Z * _SelectionSamplerV3) :=
  let full_attention := filter (fun p => is_full_attention p = true) plans in
  let gdn := filter (fun p => is_full_attention p = false) plans in
  '(selected, s) ← choose s (layer_index <$> full_attention) (minimum_full_attention_layers policy);
  '(more, s) ← choose s (layer_index <$> gdn) (minimum_gdn_layers policy);
  let selected := selected ++ more in
  let remaining := filter (fun l => l ∉ selected) (layer_index <$> plans) in
  '(rest, s) ← choose s remaining (selected_layer_count policy - zlen selected);
  Ok (selected ++ rest, s).

(** The window and the heads of each layer, in the order of the layers. *)
Fixpoint select_windows `{Digest} (policy : HardAuditPolicyV3) (plans : gmap Z LayerAuditPlanV3)
    (sequence_token_count rows : Z) (indices : list Z) (s : _SelectionSamplerV3)
    : res (list HardAuditLayerSelectionV3) :=
  match indices with
  | [] => Ok []
  | index :: indices =>
      match plans !! index with
      | None => raise KeyError "layer_index"
      | Some plan =>
          '(row_offset, s) ← below s (sequence_token_count - rows + 1);
          '(selection, s) ←
            (if is_full_attention plan then
               '(heads, s) ← choose s (seqZ 0 (attention_query_head_count plan)) (full_attention_heads_per_layer policy);
               selection ← HardAuditLayerSelectionV3_new index FULL_ATTENTION row_offset rows (py_sorted heads);
               Ok (selection, s)
             else
               selection ← HardAuditLayerSelectionV3_new index GDN row_offset rows [];
               Ok (selection, s));
          selections ← select_windows policy plans sequence_token_count rows indices s;
          Ok (selection :: selections)
      end
  end.

Definition derive_hard_audit_selection_v3 `{Digest} (transcript_digest : pyval)
    (profile : ExecutionSecurityProfileV3) (envelope : Payload.ProofV3CommitmentEnvelope)
    : res HardAuditSelectionV3 :=
  transcript ← bytes_32 transcript_digest "hard-audit transcript_digest must be exactly 32 bytes";
  let policy := audit_policy (relation_spec profile) in
  if negb (bool_decide (selection_abi_id policy = STRATIFIED_LAYER_HEAD_SELECTION_ABI_V3)) then
    raise ProofV3Error "signed hard-audit selection ABI is not supported"
  else
    let count := Payload.context_token_count envelope + Payload.decode_token_count envelope in
    if negb ((0 <? count) && (count <? Z.shiftl 1 32)) then
      raise ProofV3Error "hard-audit sequence token count is invalid"
    else
      let plans := layer_audits (relation_spec profile) in
      if zlen plans <? selected_layer_count policy then
        raise ProofV3Error "signed hard-audit layer count exceeds the relation graph"
      else if zlen (filter (fun p => is_full_attention p = true) plans) <? minimum_full_attention_layers policy then
        raise ProofV3Error "signed hard-audit full-attention coverage is impossible"
      else if zlen (filter (fun p => is_full_attention p = false) plans) <? minimum_gdn_layers policy then
        raise ProofV3Error "signed hard-audit GDN coverage is impossible"
      else
        digest ← profile_digest profile;
        s ← _SelectionSamplerV3_new (PBytes (selection_seed transcript digest envelope policy));
        '(selected, s) ← select_layers policy plans s;
        if negb (zlen selected =? selected_layer_count policy)
           || negb (Z.of_nat (size (list_to_set selected : gset Z)) =? selected_layer_count policy) then
          raise ProofV3Error "hard-audit selection did not produce distinct layers"
        else
          let rows := Z.min (transition_query_rows policy) count in
          selections ← select_windows policy (by_layer plans) count rows (py_sorted selected) s;
          HardAuditSelectionV3_new (selection_abi_id policy) count selections.
End Challenge.
