(* ===== verification/TierAudit.v ===== *)
(** * Decisions, chunks and coefficients ([verallm/proof_v3/challenge.py])

    The second half of the module: the tier decision and its frame, the chunks
    that a proof must cover, the relation coordinates and the coefficients. *)

From Stdlib Require Import ZArith Lia.
From Stdlib Require Import Strings.Byte.
From coqutil Require Import Word.LittleEndianList Byte.
From stdpp Require Import base gmap list strings sorting.
From S2P Require Import Prelude Sha256 Merkle MerkleTheory Validate Wire Text Relation Graph Policy Spec Profile Payload Challenge.

Import Relation Policy Spec Profile Challenge.
Local Open Scope Z_scope.

Module TierAudit.

(** ** The decision *)

Record PostCommitAuditDecisionV3 := MkDecision {
  d_tier_selection_abi_id : text;
  d_request_kind : text;
  d_effective_hard_bps : Z;
  d_draw_basis_point : Z;
  d_hard_audit_selected : bool;
  d_transcript_digest : bytes;
  d_commitment_envelope_digest : bytes;
}.

Definition PostCommitAuditDecisionV3_new (abi kind : text) (rate draw : Z) (hard : bool)
    (transcript envelope : bytes) : res PostCommitAuditDecisionV3 :=
  if negb (bool_decide (abi = POSTCOMMIT_AUDIT_TIER_ABI_V3)) then
    raise ProofV3Error "postcommit audit-tier ABI is not supported"
  else if bool_decide (code_of _REQUEST_KIND_CODES kind = None) then
    raise ProofV3Error "postcommit audit-tier request kind is unsupported"
  else
    rate ← _u32 (PInt rate) "postcommit audit-tier effective_hard_bps" false;
    draw ← _u32 (PInt draw) "postcommit audit-tier draw_basis_point" false;
    if 10000 <? rate then
      raise ProofV3Error "postcommit audit-tier effective_hard_bps must not exceed 10000"
    else if 10000 <=? draw then raise ProofV3Error "postcommit audit-tier draw_basis_point must be below 10000"
    else if negb (Bool.eqb hard (draw <? rate)) then
      raise ProofV3Error "postcommit audit-tier result does not match its draw and rate"
    else if bool_decide (kind = CANARY) && (negb (rate =? 10000) || negb hard) then
      raise ProofV3Error "postcommit canary audit tier must select the hard proof"
    else if negb (length transcript =? 32)%nat then
      raise ProofV3Error "postcommit audit-tier transcript_digest must be exactly 32 bytes"
    else if negb (length envelope =? 32)%nat then
      raise ProofV3Error "postcommit audit-tier commitment_envelope_digest must be exactly 32 bytes"
    else Ok (MkDecision abi kind rate draw hard transcript envelope).

Definition decision_canonical_bytes (d : PostCommitAuditDecisionV3) : res bytes :=
  abi ← _identifier (PStr (d_tier_selection_abi_id d)) "postcommit audit-tier ABI";
  match code_of _REQUEST_KIND_CODES (d_request_kind d) with
  | None => raise KeyError "request_kind"
  | Some code =>
      Ok (le_split 1 (zlen abi) ++ abi ++ le_split 1 code ++ pack_H (d_effective_hard_bps d)
          ++ pack_H (d_draw_basis_point d) ++ le_split 1 (if d_hard_audit_selected d then 1 else 0)
          ++ d_transcript_digest d ++ d_commitment_envelope_digest d)
  end.

(** [b.decode("ascii")] *)
Definition decode_ascii (b : bytes) : option text :=
  if forallb (fun x => byte.unsigned x <? 0x80) b then Some (byte.unsigned <$> b) else None.

Definition decision_from_canonical_bytes (encoded : pyval) : res PostCommitAuditDecisionV3 :=
  match encoded with
  | PBytes ((first :: _) as b) =>
      if negb ((1 + 1 + 2 + 2 + 1 + 64 <=? zlen b) && (zlen b <=? 1 + 128 + 6 + 64)) then
        raise ProofV3Error "postcommit audit-tier decision length is invalid"
      else
        let abi_length := byte.unsigned first in
        if negb ((1 <=? abi_length) && (abi_length <=? 128)) || negb (1 + abi_length + 6 + 64 =? zlen b) then
          raise ProofV3Error "postcommit audit-tier decision framing is invalid"
        else
          let n := Z.to_nat abi_length in
          match decode_ascii (slice b 1 n) with
          | None => raise ProofV3Error "postcommit audit-tier ABI is not ASCII"
          | Some abi =>
              let offset := (1 + n)%nat in
              let request_kind_code := le_combine (slice b offset 1) in
              let effective_hard_bps := le_combine (slice b (offset + 1) 2) in
              let draw_basis_point := le_combine (slice b (offset + 3) 2) in
              let hard_bit := le_combine (slice b (offset + 5) 1) in
              let offset := (offset + 6)%nat in
              match name_of _REQUEST_KIND_CODES request_kind_code with
              | None => raise ProofV3Error "postcommit audit-tier request kind is unsupported"
              | Some kind =>
                  if negb ((hard_bit =? 0) || (hard_bit =? 1)) then
                    raise ProofV3Error "postcommit audit-tier hard result is not canonical"
                  else
                    result ← PostCommitAuditDecisionV3_new abi kind effective_hard_bps draw_basis_point
                               (negb (hard_bit =? 0)) (slice b offset 32) (slice b (offset + 32) 32);
                    encoded ← decision_canonical_bytes result;
                    if negb (bool_decide (encoded = b)) then
                      raise ProofV3Error "postcommit audit-tier decision is not canonical"
                    else Ok result
              end
          end
  | _ => raise ProofV3Error "postcommit audit-tier decision must be nonempty bytes"
  end.

Definition effective_bps (runtime_policy : RuntimeHardAuditPolicyV3) : Z :=
  if bool_decide (request_kind runtime_policy = CANARY) then effective_canary_hard_bps runtime_policy
  else effective_organic_hard_bps runtime_policy.

Definition derive_postcommit_audit_decision_v3 `{Digest} (validator_nonce : pyval)
    (profile : ExecutionSecurityProfileV3) (envelope : Payload.ProofV3CommitmentEnvelope)
    (runtime_policy : RuntimeHardAuditPolicyV3) : res PostCommitAuditDecisionV3 :=
  _ ← validate_runtime (audit_policy (relation_spec profile)) runtime_policy;
  transcript_digest ← _execution_transcript_digest_v3 validator_nonce profile envelope;
  let effective_hard_bps := effective_bps runtime_policy in
  draw ← _audit_tier_draw_basis_point_v3 validator_nonce profile envelope runtime_policy (PInt effective_hard_bps);
  PostCommitAuditDecisionV3_new (rt_tier_selection_abi_id runtime_policy) (request_kind runtime_policy)
    effective_hard_bps draw (draw <? effective_hard_bps) transcript_digest (Payload.envelope_digest envelope).

(** ** Chunks *)

Record ExpectedExecutionChunkV3 := MkChunk {
  phase : text;
  chunk_index : Z;
  logical_token_start : Z;
  token_count : Z;
}.

Definition ExpectedExecutionChunkV3_new (ph : text) (index start count : Z) : res ExpectedExecutionChunkV3 :=
  if bool_decide (code_of _PHASE_CODES ph = None) then
    raise ProofV3Error "expected execution chunk phase is not supported"
  else
    _ ← _u32 (PInt index) "expected execution chunk_index" false;
    start ← _u32 (PInt start) "expected execution logical_token_start" false;
    count ← _u32 (PInt count) "expected execution token_count" true;
    if Z.shiftl 1 32 <? start + count then
      raise ProofV3Error "expected execution chunk token range overflows"
    else Ok (MkChunk ph index start count).

Definition chunk_canonical_bytes (c : ExpectedExecutionChunkV3) : res bytes :=
  match code_of _PHASE_CODES (phase c) with
  | None => raise KeyError "phase"
  | Some code => Ok (le_split 1 code ++ pack_I (chunk_index c) ++ pack_I (logical_token_start c) ++ pack_I (token_count c))
  end.

(** [range(0, n, step)] *)
Definition py_range (n step : Z) : res (list Z) :=
  if step =? 0 then raise ValueError "range() arg 3 must not be zero"
  else if 0 <? step then Ok ((fun k => k * step) <$> seqZ 0 ((n + step - 1) / step))
  else Ok ((fun k => k * step) <$> seqZ 0 ((- n + - step - 1) / - step)).

(** The chunks of one phase from index [i] on. *)
Fixpoint phase_chunks (ph : text) (logical_start count chunk_size : Z) (i : Z) (offsets : list Z)
    : res (list ExpectedExecutionChunkV3) :=
  match offsets with
  | [] => Ok []
  | offset :: offsets =>
      chunk ← ExpectedExecutionChunkV3_new ph i (logical_start + offset) (Z.min chunk_size (count - offset));
      chunks ← phase_chunks ph logical_start count chunk_size (i + 1) offsets;
      Ok (chunk :: chunks)
  end.

(** [except Exception] *)
Definition all_exceptions : list exc_class := [ValueError; TypeError; IndexError; KeyError; AssertionError; OverflowError].

Definition expected_execution_chunks_v3 `{Digest} (profile : ExecutionSecurityProfileV3)
    (envelope : Payload.ProofV3CommitmentEnvelope) : res (list ExpectedExecutionChunkV3) :=
  _ ← require_hard_execution_capability profile;
  digest ← profile_digest profile;
  if negb (bool_decide (Payload.execution_profile_digest envelope = digest)) then
    raise ProofV3Error "execution chunk universe has an unexpected profile"
  else if negb (bool_decide (Payload.static_manifest_digest envelope = static_manifest_digest profile)) then
    raise ProofV3Error "execution chunk universe has an unexpected static manifest"
  else
    let relation := relation_spec profile in
    let context := Payload.context_token_count envelope in
    let decode := Payload.decode_token_count envelope in
    _ ← reraise_as [ProofV3Error] all_exceptions ProofV3Error "execution chunk universe has invalid token counts"
          (validate_execution_counts relation (PInt context) (PInt decode));
    offsets ← py_range context (prefill_chunk_tokens relation);
    prefill ← phase_chunks PREFILL 0 context (prefill_chunk_tokens relation) 0 offsets;
    offsets ← py_range decode (decode_chunk_tokens relation);
    decoded ← phase_chunks DECODE context decode (decode_chunk_tokens relation) (zlen prefill) offsets;
    Ok (prefill ++ decoded).

(** ** Relation coordinates *)

Record GlobalRelationCoordinateV3 := MkCoordinate {
  node_id : text;
  c_phase : text;
  c_chunk_index : Z;
  c_logical_token_start : Z;
  c_token_count : Z;
  relation_index : Z;
}.

Definition GlobalRelationCoordinateV3_new (node ph index start count relation : pyval)
    : res GlobalRelationCoordinateV3 :=
  match node with
  | PStr node_text =>
      _ ← _identifier node "global relation node_id";
      phase ← member ph (fst <$> _PHASE_CODES);
      match phase with
      | None => raise ProofV3Error "global relation phase is not supported"
      | Some ph =>
          start ← _u32 start "global relation logical_token_start" false;
          count ← _u32 count "global relation token_count" true;
          if Z.shiftl 1 32 <? start + count then raise ProofV3Error "global relation token range overflows"
          else
            index ← _u32 index "global relation chunk_index" false;
            relation ← _u64 relation "global relation relation_index";
            Ok (MkCoordinate node_text ph index start count relation)
      end
  | _ => raise ProofV3Error "global relation node_id is not a canonical identifier"
  end.

Definition coordinate_canonical_bytes (c : GlobalRelationCoordinateV3) : res bytes :=
  node ← _identifier (PStr (node_id c)) "global relation node_id";
  match code_of _PHASE_CODES (c_phase c) with
  | None => raise KeyError "phase"
  | Some code =>
      Ok (le_split 1 (zlen node) ++ node ++ le_split 1 code ++ pack_I (c_chunk_index c)
          ++ pack_I (c_logical_token_start c) ++ pack_I (c_token_count c) ++ pack_Q (relation_index c))
  end.

Definition _validate_global_relation_coordinate `{Digest} (profile : ExecutionSecurityProfileV3)
    (envelope : Payload.ProofV3CommitmentEnvelope) (coordinate : GlobalRelationCoordinateV3) : res unit :=
  if negb (bool_decide (node_id coordinate ∈ Graph.node_id <$> nodes (relation_spec profile))) then
    raise ProofV3Error "global relation coordinate has an undeclared graph node"
  else
    expected_chunks ← expected_execution_chunks_v3 profile envelope;
    if zlen expected_chunks <=? c_chunk_index coordinate then
      raise ProofV3Error "global relation coordinate has an out-of-range chunk"
    else
      match expected_chunks !! Z.to_nat (c_chunk_index coordinate) with
      | None => raise IndexError "tuple index out of range"
      | Some expected =>
          if negb (bool_decide (c_phase coordinate = phase expected))
             || negb (c_logical_token_start coordinate =? logical_token_start expected)
             || negb (c_token_count coordinate =? token_count expected) then
            raise ProofV3Error "global relation coordinate does not match the verifier-derived chunk"
          else Ok tt
      end.

(** ** The challenge *)

Record FoldedExecutionChallengeV3 := MkChallenge {
  transcript_digest : bytes;
  global_relation_seed : bytes;
  linear_alpha : Z;
  bridge_alpha : Z;
  attention_alpha : Z;
  prefill_alpha : Z;
  final_token_alpha : Z;
  hard_audit_selection : HardAuditSelectionV3;
}.

Definition pallas_scalar `{PallasField} (value : Z) (name : string) : res Z :=
  if nonzero_pallas value then Ok value else raise ProofV3Error (name +:+ " must be a nonzero Pallas scalar").

Definition FoldedExecutionChallengeV3_new `{PallasField} (transcript seed : bytes)
    (linear bridge attention prefill final_token : Z) (selection : HardAuditSelectionV3)
    : res FoldedExecutionChallengeV3 :=
  transcript ← bytes_32 (PBytes transcript) "transcript_digest must be exactly 32 bytes";
  seed ← bytes_32 (PBytes seed) "global_relation_seed must be exactly 32 bytes";
  linear ← pallas_scalar linear "linear_alpha";
  bridge ← pallas_scalar bridge "bridge_alpha";
  attention ← pallas_scalar attention "attention_alpha";
  prefill ← pallas_scalar prefill "prefill_alpha";
  final_token ← pallas_scalar final_token "final_token_alpha";
  Ok (MkChallenge transcript seed linear bridge attention prefill final_token selection).

Definition derive_pallas_affine_fold_scalar_v3 `{Digest, PallasField} (challenge : FoldedExecutionChallengeV3)
    (profile : ExecutionSecurityProfileV3) (envelope : Payload.ProofV3CommitmentEnvelope)
    (coordinate : GlobalRelationCoordinateV3) : res Z :=
  _ ← _validate_global_relation_coordinate profile envelope coordinate;
  encoded ← coordinate_canonical_bytes coordinate;
  attempts (fun counter => word_le (_PALLAS_AFFINE_FOLD_SCALAR_DOMAIN ++ global_relation_seed challenge
                                    ++ encoded ++ pack_I counter))
    nonzero_pallas "unable to derive a canonical Pallas affine-fold scalar".

Definition derive_folded_execution_challenge_v3 `{Digest, PallasField} (validator_nonce : pyval)
    (profile : ExecutionSecurityProfileV3) (envelope : Payload.ProofV3CommitmentEnvelope)
    : res FoldedExecutionChallengeV3 :=
  transcript_digest ← _execution_transcript_digest_v3 validator_nonce profile envelope;
  coefficients ← mapR (_nonzero_pallas_auxiliary_scalar transcript_digest) _LABELS;
  let global_relation_seed :=
    sha256 (_GLOBAL_RELATION_SEED_DOMAIN ++ transcript_digest ++ constraint_system_digest (relation_spec profile)
            ++ recursive_accumulator_digest (relation_spec profile) ++ Payload.execution_root envelope
            ++ Payload.cache_table_root envelope) in
  selection ← derive_hard_audit_selection_v3 (PBytes transcript_digest) profile envelope;
  match coefficients with
  | [linear; bridge; attention; prefill; final_token] =>
      FoldedExecutionChallengeV3_new transcript_digest global_relation_seed linear bridge attention prefill
        final_token selection
  | _ => raise IndexError "tuple index out of range"
  end.
End TierAudit.
