(* ===== verification/SampleProfile.v ===== *)
(** * A sample profile

    A signed profile that passes the checks of its constructors, with an
    envelope bound to it: the input at which the theorems on challenges,
    sessions and decisions are instantiated. *)

From Stdlib Require Import ZArith Lia.
From Stdlib Require Import Strings.Byte.
From coqutil Require Import Byte Word.LittleEndianList.
From stdpp Require Import base gmap list strings.
From S2P Require Import Prelude Sha256 Merkle MerkleTheory Validate Wire Text Relation Graph Policy Spec Profile Payload.

Import Relation Policy Spec Profile.
Local Open Scope Z_scope.

Definition sample_policy_args : res HardAuditPolicyV3 :=
  HardAuditPolicyV3_new (PStr GLOBAL_EXECUTION_COVERAGE_MODE_V3) (PStr POSTCOMMIT_GLOBAL_NONCE_ABI_V3)
    (PStr POSTCOMMIT_AUDIT_TIER_ABI_V3) (PStr STRATIFIED_LAYER_HEAD_SELECTION_ABI_V3)
    (PInt 1000) (PInt 10000) (PInt 1) (PInt 4) (PInt 2) (PInt 1) (PInt 2) (PInt 8).

Definition sample_policy : HardAuditPolicyV3 :=
  MkPolicy GLOBAL_EXECUTION_COVERAGE_MODE_V3 POSTCOMMIT_GLOBAL_NONCE_ABI_V3 POSTCOMMIT_AUDIT_TIER_ABI_V3
    STRATIFIED_LAYER_HEAD_SELECTION_ABI_V3 1000 10000 1 4 2 1 2 8.

Example sample_policy_ok : sample_policy_args = Ok sample_policy.
Proof. vm_compute. reflexivity. Qed.

(** A name with a layer. *)
Definition at_layer (name : string) (layer : Z) : text := t_lit name ++ t_lit "." ++ [48 + layer].
Arguments at_layer name%_string_scope layer.

(** A digest with a tag and a layer. *)
Definition sample_tag (tag layer : Z) : bytes := replicate 31 (byte.of_Z tag) ++ [byte.of_Z (1 + layer)].

Definition sample_operation (layer : Z) : RegisteredOperationReferenceV3 :=
  MkOperation layer (t_lit "q_proj") None 16 16 (sample_tag 1 layer) (sample_tag 2 layer).
Definition sample_head : RegisteredOperationReferenceV3 :=
  MkOperation (-1) (t_lit "lm_head") None 16 32 (sample_tag 1 20) (sample_tag 2 20).

(** A full-attention layer has four query heads. *)
Definition sample_plan (layer : Z) (full : bool) : LayerAuditPlanV3 :=
  if full then
    MkPlan layer (at_layer "transition" layer) (at_layer "bridge" layer) [sample_operation layer] 4 2 8 (Some (t_lit "gqa.v1"))
  else MkPlan layer (at_layer "transition" layer) (at_layer "bridge" layer) [sample_operation layer] 0 0 0 None.

Definition sample_plan_args (layer : Z) (full : bool) : res LayerAuditPlanV3 :=
  LayerAuditPlanV3_new (PInt layer) (PStr (at_layer "transition" layer)) (PStr (at_layer "bridge" layer))
    [sample_operation layer]
    (PInt (if full then 4 else 0)) (PInt (if full then 2 else 0)) (PInt (if full then 8 else 0))
    (if full then PStr (t_lit "gqa.v1") else PNone).

Definition sample_layers : list (Z * bool) := [(0, true); (1, false); (2, true); (3, false); (4, false)].
Definition sample_plans : list LayerAuditPlanV3 := (fun '(l, f) => sample_plan l f) <$> sample_layers.

Example sample_plans_ok :
  (fun '(l, f) => sample_plan_args l f) <$> sample_layers = Ok <$> sample_plans.
Proof. vm_compute. reflexivity. Qed.

Definition sample_dimensions : list DeclaredDimensionV3 :=
  [MkDimension (t_lit "context") 1 64; MkDimension (t_lit "decode") 0 32; MkDimension (t_lit "sequence") 1 96].

Definition sample_domain : SequenceDomainV3 :=
  MkSequenceDomain (t_lit "context") (t_lit "decode") (t_lit "sequence") SEQUENCE_DOMAIN_RELATION_ID_V3.

(** A spec with the fields that an exchange reads; [SampleGraph] completes it. *)
Definition sample_spec : ExecutionRelationSpecV3 :=
  MkSpec GLOBAL_EXECUTION_RELATION_ABI_V3 (sample_tag 9 0) (replicate 32 x03) (sample_tag 9 1) (t_lit "canonical.sampler.v1")
    (sample_tag 9 2) (sample_tag 9 3) RECURSIVE_CHUNK_ACCUMULATOR_ABI_V3 (replicate 32 x04) 16 8 (t_lit "prompt")
    (t_lit "output") sample_domain sample_dimensions [] [] [] []
    [Graph.MkTolerance (t_lit "exact") (t_lit "exact.field.v1") 0 0]
    [Graph.MkNode (t_lit "transition") (t_lit "gdn") (t_lit "gdn.v1") [] [] (t_lit "exact") [] None 1] sample_plans
    (Graph.MkCache Graph.LOGICAL_CACHE_ADDRESS_ABI_V3 Graph.LOGICAL_CACHE_TABLES_SEMANTICS_V3
       Graph.GPU_RETENTION_LEASE_ABI_V3 16 96 [] false 0 0 0 0)
    sample_policy.

Definition sample_profile : ExecutionSecurityProfileV3 :=
  MkProfile (replicate 32 x05) (replicate 32 x06) (t_lit "adapter") (t_lit "1.0")
    GLOBAL_FOLDED_EXECUTION_PROOF_SYSTEM_V3 (replicate 32 x07) (t_lit "int8") 64 32 sample_spec 8.

Example sample_profile_ok :
  ExecutionSecurityProfileV3_new (PBytes (replicate 32 x05)) (PBytes (replicate 32 x06)) (PStr (t_lit "adapter"))
    (PStr (t_lit "1.0")) (PStr GLOBAL_FOLDED_EXECUTION_PROOF_SYSTEM_V3) (PBytes (replicate 32 x07))
    (PStr (t_lit "int8")) (PInt 64) (PInt 32) sample_spec (PInt 8) = Ok sample_profile.
Proof. vm_compute. reflexivity. Qed.

Definition sample_digest `{Digest} : bytes := ok_or [] (profile_digest sample_profile).

(** An envelope of 40 prompt tokens and 20 output tokens, bound to the profile. *)
Definition sample_envelope_with `{Digest} (output_root : bytes) (decode : Z) : Payload.ProofV3CommitmentEnvelope :=
  Payload.MkEnvelope (replicate 32 x05) sample_digest (replicate 32 x0b) (replicate 32 x0c) (replicate 32 x0d)
    (replicate 32 x0e) (replicate 32 x0f) output_root (replicate 32 x11) (replicate 32 x12) (replicate 32 x13)
    (replicate 32 x14) 40 decode 1.
Definition sample_envelope `{Digest} : Payload.ProofV3CommitmentEnvelope := sample_envelope_with (replicate 32 x10) 20.

Definition sample_nonce : bytes := replicate 32 x15.

Definition sample_runtime (kind : text) : RuntimeHardAuditPolicyV3 :=
  MkRuntimePolicy kind 5000 10000 1 POSTCOMMIT_GLOBAL_NONCE_ABI_V3 POSTCOMMIT_AUDIT_TIER_ABI_V3
    STRATIFIED_LAYER_HEAD_SELECTION_ABI_V3.
