(* ===== verification/GraphLemmas.v ===== *)
(** * Lemmas for the graph of a spec

    Loops that may raise, sets kept as lists, dictionaries built from a sequence,
    and the items of a spec as their constructors accept them. *)

From Stdlib Require Import ZArith Lia.
From Stdlib Require Import Strings.Byte.
From coqutil Require Import Word.LittleEndianList.
From stdpp Require Import base gmap list strings sorting.
From S2P Require Import Prelude Merkle MerkleTheory Sha256 Wire Text Relation Graph Policy Spec SpecGraph.

Import Relation Policy Graph Spec SpecGraph.
Local Open Scope Z_scope.

(** ** Loops *)

Lemma reject_ok b m : reject b m = Ok tt <-> b = false.
Proof. unfold reject, raise. by destruct b. Qed.

Lemma reject_ok' b m u : reject b m = Ok u <-> b = false.
Proof. destruct u. apply reject_ok. Qed.

Lemma each_ok {A} (f : A -> res unit) l : each f l = Ok tt <-> forall x, x ∈ l -> f x = Ok tt.
Proof.
  induction l as [|x l IH]; cbn [each].
  - split; [intros _ x []%not_elem_of_nil|done].
  - rewrite bind_ok. split.
    + intros ([] & Hx & Hl) y [->|Hy]%elem_of_cons; [done|by apply IH].
    + intros Hf. exists tt. split; [apply Hf; left|]. apply IH. intros y Hy. apply Hf. by right.
Qed.

Lemma any_of_ok {A} (f : A -> res bool) l : any_of f l = Ok true -> exists x, x ∈ l /\ f x = Ok true.
Proof.
  induction l as [|x l IH]; cbn [any_of]; [done|]. rewrite bind_ok. intros ([] & Hx & Hl).
  - exists x. by split; [left|].
  - apply IH in Hl as (y & ? & ?). exists y. by split; [right|].
Qed.

(** A property of the prefix that every iteration extends holds of the whole. *)
Lemma fold_res_ind {S A} (f : S -> A -> res S) (P : list A -> S -> Prop) s l s' :
  P [] s -> (forall pre x s1 s2, P pre s1 -> f s1 x = Ok s2 -> P (pre ++ [x]) s2) ->
  fold_res f s l = Ok s' -> P l s'.
Proof.
  intros Hs Hstep. change l with ([] ++ l) at 2. revert s Hs. generalize (@nil A) as pre.
  induction l as [|x l IH]; intros pre s Hs; cbn [fold_res].
  - intros [= <-]. by rewrite app_nil_r.
  - rewrite bind_ok. intros (s1 & Hx & Hl). rewrite cons_middle, app_assoc. by eapply IH; [eapply Hstep|].
Qed.

(** Every iteration of a loop that succeeds has succeeded. *)
Lemma fold_res_each {S A} (f : S -> A -> res S) s l s' x :
  fold_res f s l = Ok s' -> x ∈ l -> exists s1 s2, f s1 x = Ok s2.
Proof.
  apply (fold_res_ind f (fun pre _ => x ∈ pre -> exists s1 s2, f s1 x = Ok s2)).
  - by intros []%not_elem_of_nil.
  - intros pre y s1 s2 Hpre Hy [Hx|Hx%list_elem_of_singleton]%elem_of_app; [by apply Hpre|]. subst y. eauto.
Qed.

(** ** Sets *)

Section sets.
Context {A : Type} `{EqDecision A}.

Lemma subset_ok (l k : list A) : subset l k = true <-> l ⊆ k.
Proof.
  unfold subset. rewrite forallb_forall. split.
  - intros Hl x Hx%list_elem_of_In. by apply Hl, bool_decide_eq_true in Hx.
  - intros Hl x Hx%list_elem_of_In. apply bool_decide_eq_true. by apply Hl.
Qed.

Lemma same_set_ok (l k : list A) : same_set l k = true <-> forall x, x ∈ l <-> x ∈ k.
Proof.
  unfold same_set. rewrite andb_true_iff, !subset_ok. split; [intros [? ?] x; split; auto|].
  intros Hlk. split; intros x; apply Hlk.
Qed.

Lemma disjoint_lists_ok (l k : list A) : disjoint_lists l k = true <-> forall x, x ∈ l -> x ∈ k -> False.
Proof.
  unfold disjoint_lists. rewrite forallb_forall. split.
  - intros Hl x Hx%list_elem_of_In. by apply Hl, negb_true_iff, bool_decide_eq_false in Hx.
  - intros Hl x Hx%list_elem_of_In. apply negb_true_iff, bool_decide_eq_false. intros Hk.
    exact (Hl x Hx Hk).
Qed.

Lemma duplicate_free_ok (l : list A) : duplicate_free l = true <-> NoDup l.
Proof.
  induction l as [|x l IH]; cbn [duplicate_free]; [split; [constructor|done]|].
  by rewrite andb_true_iff, negb_true_iff, bool_decide_eq_false, IH, NoDup_cons.
Qed.

Lemma filter_key {B} (key : B -> A) l x :
  NoDup (key <$> l) -> x ∈ l -> filter (fun y => key y = key x) l = [x].
Proof.
  induction l as [|y l IH]; [by intros _ []%not_elem_of_nil|]. rewrite fmap_cons, NoDup_cons.
  intros [Hy Hl] [->|Hx]%elem_of_cons.
  - rewrite filter_cons_True by done. f_equal. destruct (filter _ l) as [|z k] eqn:Ef; [done|].
    assert (z ∈ filter (fun z => key z = key y) l) as [E Hz]%list_elem_of_filter by (rewrite Ef; left).
    destruct Hy. rewrite <- E. by apply list_elem_of_fmap_2.
  - rewrite filter_cons_False; [by apply IH|]. intros E. apply Hy. rewrite E. by apply list_elem_of_fmap_2.
Qed.
End sets.

Lemma strictly_sorted_ok {K} `{EqDecision K} (ltb : K -> K -> bool) l name :
  _strictly_sorted ltb l name = Ok tt -> NoDup l.
Proof.
  unfold _strictly_sorted. destruct (negb (sorted ltb l)); [discriminate|].
  destruct (duplicate_free l) eqn:E; [intros _|discriminate]. by apply duplicate_free_ok.
Qed.

(** A strictly sorted list of integers is [sorted(set(...))] of its elements. *)
Lemma py_sorted_set_unique l k name :
  _strictly_sorted Z.ltb l name = Ok tt -> (forall x, x ∈ l <-> x ∈ k) -> py_sorted_set k = l.
Proof.
  intros Hl Hlk. pose proof (strictly_sorted_ok _ _ _ Hl) as Hn. unfold py_sorted_set.
  apply (Sorted_unique Z.le); [apply (Sorted_merge_sort Z.le)| |].
  - clear Hn Hlk. unfold _strictly_sorted in Hl. destruct (sorted Z.ltb l) eqn:Es; [clear Hl|discriminate].
    induction l as [|x [|y l] IH]; [constructor|by repeat constructor|].
    cbn [sorted] in Es. apply andb_true_iff in Es as [Ex%negb_true_iff%Z.ltb_ge Es]. constructor; [by apply IH|].
    by constructor.
  - rewrite merge_sort_Permutation. apply NoDup_Permutation; [apply NoDup_remove_dups|done|].
    intros x. by rewrite elem_of_remove_dups, Hlk.
Qed.

Lemma elem_of_py_sorted_set l x : x ∈ py_sorted_set l <-> x ∈ l.
Proof. unfold py_sorted_set. by rewrite merge_sort_Permutation, elem_of_remove_dups. Qed.

(** ** Dictionaries *)

Section dict.
Context {K A : Type} `{Countable K} (key : A -> K).

Lemma dict_of_snoc l a : dict_of key (l ++ [a]) = <[key a := a]> (dict_of key l).
Proof. unfold dict_of. by rewrite fold_left_app. Qed.

Lemma dict_of_some l k a : dict_of key l !! k = Some a -> a ∈ l /\ key a = k.
Proof.
  induction l as [|b l IH] using rev_ind; [by unfold dict_of; cbn; rewrite lookup_empty|]. rewrite dict_of_snoc.
  intros [[<- <-]|[_ ?%IH]]%lookup_insert_Some; rewrite elem_of_app, list_elem_of_singleton; naive_solver.
Qed.

Lemma dict_of_is_some l k : is_Some (dict_of key l !! k) <-> k ∈ key <$> l.
Proof.
  induction l as [|b l IH] using rev_ind.
  - unfold dict_of. cbn. rewrite lookup_empty. split; [by intros []|by intros []%not_elem_of_nil].
  - rewrite dict_of_snoc, fmap_app, elem_of_app, <- IH, lookup_insert_is_Some'. cbn. rewrite list_elem_of_singleton.
    naive_solver.
Qed.

Lemma dict_of_lookup l a : NoDup (key <$> l) -> a ∈ l -> dict_of key l !! key a = Some a.
Proof.
  intros Hl Ha. destruct (proj2 (dict_of_is_some l (key a)) (list_elem_of_fmap_2 _ _ _ Ha)) as [b Hb].
  rewrite Hb. f_equal. apply dict_of_some in Hb as [Hb E].
  pose proof (filter_key key l a Hl Ha) as Hf.
  assert (b ∈ filter (fun y => key y = key a) l) as Hin by (by apply list_elem_of_filter).
  rewrite Hf in Hin. by apply list_elem_of_singleton.
Qed.

Lemma dict_of_size l : NoDup (key <$> l) -> size (dict_of key l) = length l.
Proof.
  induction l as [|b l IH] using rev_ind; [done|]. rewrite fmap_app, NoDup_app. intros (Hl & Hb & _).
  rewrite dict_of_snoc, map_size_insert_None.
  - rewrite IH, length_app by done. cbn. lia.
  - apply eq_None_not_Some. rewrite dict_of_is_some. intros Hk. apply (Hb _ Hk). by apply list_elem_of_singleton.
Qed.
End dict.

Lemma index_ok {K A} `{Countable K} (d : gmap K A) k a : index d k = Ok a <-> d !! k = Some a.
Proof. unfold index. destruct (d !! k); [|done]. split; [by intros [= ->]|by intros [= ->]]. Qed.

Lemma elem_of_keys {A} (m : gmap Z A) k : k ∈ keys m <-> is_Some (m !! k).
Proof.
  unfold keys. rewrite list_elem_of_fmap. split.
  - intros ([k' a] & -> & Hk%elem_of_map_to_list). by exists a.
  - intros [a Ha%elem_of_map_to_list]. by exists (k, a).
Qed.

(** Split a successful check into the checks it consists of. *)
Ltac checks :=
  repeat match goal with
  | H : (_ ≫= _) = Ok _ |- _ =>
      let a := fresh "a" in let E := fresh "E" in apply bind_ok in H; destruct H as (a & E & H); cbv beta in H
  | H : reject _ _ = Ok _ |- _ => apply reject_ok' in H
  | u : unit |- _ => destruct u
  end.
