(* ===== verification/SampleGraph.v ===== *)
(** * A sample graph

    A relation spec that passes the checks of its constructor: an embedding, five
    layers of a registered operation, a transition and a bridge, the final norm,
    the head and the sampler. *)

From Stdlib Require Import ZArith Lia.
From Stdlib Require Import Strings.Byte.
From coqutil Require Import Byte Word.LittleEndianList.
From stdpp Require Import base gmap list strings.
From S2P Require Import Prelude Sha256 Merkle MerkleTheory Validate Wire Text Relation Graph Json Policy Spec SpecGraph Profile SampleProfile.

Import Relation Policy Spec Profile.
Local Open Scope Z_scope.

Section graph.
Import Graph.

Definition by_name {A} (name : A -> text) (l : list A) : list A := snd <$> Json.sort_fields ((fun a => (name a, a)) <$> l).

Definition sample_tensor (id : text) (dims : list ShapeDimensionV3) (role : string) : TensorDescriptorV3 :=
  MkTensor id dims (t_lit "int8") (t_lit "row_major") (t_lit "per_row") (t_lit role).
Arguments sample_tensor id dims role%_string_scope.

Definition rows_of (dimension : string) (width : Z) : list ShapeDimensionV3 :=
  [SymbolicDimension (t_lit dimension); ConcreteDimension width].
Arguments rows_of dimension%_string_scope width.

Definition sample_states (layer : Z) (full : bool) : list text :=
  if full then [at_layer "keys" layer; at_layer "values" layer] else [at_layer "state" layer].

Definition layer_tensors (layer : Z) (full : bool) : list TensorDescriptorV3 :=
  [sample_tensor (at_layer "query" layer) (rows_of "sequence" 16) "runtime_state";
   sample_tensor (at_layer "mixed" layer) (rows_of "sequence" 16) "runtime_state";
   sample_tensor (at_layer "hidden" (layer + 1)) (rows_of "sequence" 16) "runtime_state"]
  ++ ((fun id => sample_tensor id (rows_of "sequence" 8) "cache") <$> sample_states layer full).

Definition sample_tensors : list TensorDescriptorV3 :=
  by_name tensor_id
    ([sample_tensor (t_lit "prompt") [SymbolicDimension (t_lit "context")] "request_input";
      sample_tensor (at_layer "hidden" 0) (rows_of "sequence" 16) "runtime_state";
      sample_tensor (t_lit "normed") (rows_of "decode" 16) "final_hidden";
      sample_tensor (t_lit "logits") (rows_of "decode" 32) "logits";
      sample_tensor (t_lit "output") [SymbolicDimension (t_lit "decode")] "token_output"]
     ++ (sample_layers ≫= fun '(l, f) => layer_tensors l f)).

Definition sample_binding (id : text) (kind : string) (tag layer : Z) : StaticParameterBindingV3 :=
  MkBindingRef id (t_lit kind) (sample_tag tag (layer + 1)) layer.
Arguments sample_binding id kind%_string_scope tag layer.

Definition sample_bindings : list StaticParameterBindingV3 :=
  by_name binding_id
    ([sample_binding (t_lit "embedding") "embedding" 3 (-1); sample_binding (t_lit "final_norm") "final_norm" 4 (-1);
      sample_binding (t_lit "sampler") "sampler" 5 (-1)]
     ++ (sample_layers ≫= fun '(l, _) =>
           [sample_binding (at_layer "mix" l) "transition" 6 l; sample_binding (at_layer "residual" l) "bridge" 7 l])).

Definition sample_operations : list RegisteredOperationReferenceV3 :=
  sample_head :: ((fun '(l, _) => sample_operation l) <$> sample_layers).

Definition sample_table (id : text) (subject : table_subject) (n : nat) : StaticTableBindingV3 :=
  MkTable id subject id (sample_tag 8 (Z.of_nat n)) 0 256 0 1 (t_lit "int8") (t_lit "fp32").

Definition sample_tables : list StaticTableBindingV3 :=
  by_name tb_binding_id
    (imap (fun n s => sample_table (at_layer "table" (Z.of_nat n + 49)) s n)
       (((fun o => OperationSubject (descriptor_digest o)) <$> sample_operations)
        ++ ((fun b => ParameterSubject (binding_id b) (binding_digest b)) <$> sample_bindings))).

Definition sample_node (id : text) (relation adapter : string) (inputs outputs bindings : list text)
    (operation : option RegisteredOperationReferenceV3) (layer : Z) : ExecutionRelationNodeV3 :=
  MkNode id (t_lit relation) (t_lit adapter) inputs outputs (t_lit "exact") bindings operation layer.
Arguments sample_node id (relation adapter)%_string_scope inputs outputs bindings operation layer.

Definition layer_nodes (layer : Z) (full : bool) : list ExecutionRelationNodeV3 :=
  [sample_node (at_layer "q_proj" layer) "linear" "global.linear.v1" [at_layer "hidden" layer] [at_layer "query" layer] []
     (Some (sample_operation layer)) layer;
   (if full then sample_node (at_layer "transition" layer) "full_attention" "full_attention.v1"
    else sample_node (at_layer "transition" layer) "gdn" "gdn.v1")
     [at_layer "query" layer] (at_layer "mixed" layer :: sample_states layer full) [at_layer "mix" layer] None layer;
   sample_node (at_layer "bridge" layer) "bridge" "residual.bridge.v1" (at_layer "mixed" layer :: sample_states layer full)
     [at_layer "hidden" (layer + 1)] [at_layer "residual" layer] None layer].

Definition sample_nodes : list ExecutionRelationNodeV3 :=
  [sample_node (t_lit "embedding") "embedding" "embedding.v1" [t_lit "prompt"] [at_layer "hidden" 0] [t_lit "embedding"] None (-1)]
  ++ (sample_layers ≫= fun '(l, f) => layer_nodes l f)
  ++ [sample_node (t_lit "final_norm") "final_norm" "final_norm.v1" [at_layer "hidden" 5] [t_lit "normed"] [t_lit "final_norm"] None (-1);
      sample_node (t_lit "lm_head") "linear" "global.linear.v1" [t_lit "normed"] [t_lit "logits"] [] (Some sample_head) (-1);
      sample_node (t_lit "sampler") "sampler" "canonical.sampler.v1" [t_lit "logits"] [t_lit "output"] [t_lit "sampler"] None (-1)].

Definition sample_family (layer : Z) (full : bool) : LayerCacheRelationV3 :=
  if full then MkLayerCache layer ATTENTION_KV PAGED_KV_CACHE_SEMANTICS_V3 (Some (at_layer "keys" layer))
                 (Some (at_layer "values" layer)) []
  else MkLayerCache layer GDN_STATE GDN_STATE_CACHE_SEMANTICS_V3 None None [at_layer "state" layer].

Definition sample_cache : CacheRelationSpecV3 :=
  MkCache LOGICAL_CACHE_ADDRESS_ABI_V3 LOGICAL_CACHE_TABLES_SEMANTICS_V3 GPU_RETENTION_LEASE_ABI_V3 16 96
    ((fun '(l, f) => sample_family l f) <$> sample_layers) false 0 0 0 0.

Definition sample_tolerances : list RelationToleranceV3 := [MkTolerance (t_lit "exact") (t_lit "exact.field.v1") 0 0].
End graph.

Definition graph_spec : ExecutionRelationSpecV3 :=
  MkSpec GLOBAL_EXECUTION_RELATION_ABI_V3 (sample_tag 9 0) (replicate 32 x03) (sample_tag 9 1) (t_lit "canonical.sampler.v1")
    (sample_tag 9 2) (sample_tag 9 3) RECURSIVE_CHUNK_ACCUMULATOR_ABI_V3 (replicate 32 x04) 16 8 (t_lit "prompt")
    (t_lit "output") sample_domain sample_dimensions sample_tensors sample_operations sample_bindings sample_tables
    sample_tolerances sample_nodes sample_plans sample_cache sample_policy.

Example graph_spec_ok :
  SpecGraph.ExecutionRelationSpecV3_new (PStr GLOBAL_EXECUTION_RELATION_ABI_V3) (PBytes (sample_tag 9 0))
    (PBytes (replicate 32 x03)) (PBytes (sample_tag 9 1)) (PStr (t_lit "canonical.sampler.v1")) (PBytes (sample_tag 9 2))
    (PBytes (sample_tag 9 3)) (PStr RECURSIVE_CHUNK_ACCUMULATOR_ABI_V3) (PBytes (replicate 32 x04)) (PInt 16) (PInt 8)
    (PStr (t_lit "prompt")) (PStr (t_lit "output")) sample_domain sample_dimensions sample_tensors sample_operations
    sample_bindings sample_tables sample_tolerances sample_nodes sample_plans sample_cache sample_policy (PInt 6)
  = Ok graph_spec.
Proof. vm_compute. reflexivity. Qed.

Definition graph_profile : ExecutionSecurityProfileV3 :=
  MkProfile (replicate 32 x05) (replicate 32 x06) (t_lit "adapter") (t_lit "1.0")
    GLOBAL_FOLDED_EXECUTION_PROOF_SYSTEM_V3 (replicate 32 x07) (t_lit "int8") 64 32 graph_spec 8.
