(* ===== verification/SelectionTheory.v ===== *)
(** * The hard-audit selection is what the signed policy promises

    The sampler draws uniformly and always returns or reports that its counter
    overflowed; the selection has the signed number of layers, covers both
    kinds of layers, and stays inside the sequence and the head ranges. *)

From Stdlib Require Import ZArith Lia.
From Stdlib Require Import Strings.Byte.
From coqutil Require Import Word.LittleEndianList.
From stdpp Require Import base gmap sets list strings sorting.
From S2P Require Import Prelude Sha256 Merkle MerkleTheory Validate Wire Text Relation Policy Spec Profile Payload Challenge SampleProfile.

Import Relation Policy Spec Profile Challenge.
Local Open Scope Z_scope.

Definition overflow : exc := Exc ProofV3Error "hard-audit selection counter overflowed".

(** ** The sampler *)

Section sampler.
Context `{Digest}.

(** The word that the sampler draws at a counter. *)
Definition word_at (seed : bytes) (counter : Z) : Z := word_le (_SELECTION_DOMAIN ++ seed ++ pack_Q counter).

Lemma word_le_bound m : 0 <= word_le m < Z.shiftl 1 256.
Proof. unfold word_le. pose proof (le_combine_bound (sha256 m)) as Hb. rewrite sha256_length in Hb. exact Hb. Qed.

(** [s'] continues [s]. *)
Definition continues (s s' : _SelectionSamplerV3) : Prop := _seed s' = _seed s /\ _counter s <= _counter s'.

#[local] Instance continues_preorder : PreOrder continues.
Proof. split; [done|]. intros s1 s2 s3 [E1 ?] [E2 ?]. split; [congruence|lia]. Qed.

(** All words from the counter of [s] up to [c] are above the ceiling. *)
Definition rejected (bound : Z) (s : _SelectionSamplerV3) (c : Z) : Prop :=
  forall j, _counter s <= j < c -> ceiling_of bound <= word_at (_seed s) j.

Definition drawn (bound : Z) (s s' : _SelectionSamplerV3) (x : Z) : Prop :=
  exists c, _counter s <= c /\ s' = MkSampler (_seed s) (c + 1) /\ rejected bound s c
            /\ word_at (_seed s) c < ceiling_of bound /\ x = word_at (_seed s) c mod bound.

Lemma below_step_spec bound s0 s :
  continues s0 s -> rejected bound s0 (_counter s) ->
  match below_step bound s with
  | inl s' => _counter s < 2 ^ 64 /\ _counter s' = _counter s + 1 /\ continues s0 s' /\ rejected bound s0 (_counter s')
  | inr (Ok (x, s')) => drawn bound s0 s' x
  | inr (Err e) => e = overflow
  end.
Proof.
  intros [Es Hc] Hr. unfold below_step, _word. change (Z.shiftl 1 64) with (2 ^ 64).
  destruct (Z.leb_spec (2 ^ 64) (_counter s)) as [|Hlt]; [done|].
  change (word_le _) with (word_at (_seed s) (_counter s)).
  destruct (Z.ltb_spec (word_at (_seed s) (_counter s)) (ceiling_of bound)) as [Ha|Ha]; cbn [_counter _seed].
  - exists (_counter s). rewrite <- Es. by split_and!.
  - split_and!; [done|done|split; cbn; [done|lia]|]. intros j Hj.
    destruct (decide (j = _counter s)) as [->|]; [by rewrite <- Es|]. apply Hr. lia.
Qed.

(** The loop of [below] returns within [below_passes] passes, and its result is
    the first word below the ceiling. *)
Lemma below_spec s bound :
  0 <= _counter s -> 0 < bound ->
  match below s bound with
  | Ok (x, s') => drawn bound s s' x
  | Err e => e = overflow
  end.
Proof.
  intros Hc Hb. unfold below. rewrite (proj2 (Z.leb_gt _ _)) by done.
  set (I := fun s' => continues s s' /\ rejected bound s (_counter s')).
  assert (I s) as Hs by (split; [done|]; intros j ?; lia).
  destruct (iterate_returns (below_step bound) (fun s => Z.max 0 (2 ^ 64 - _counter s)) I) with (n := below_passes) (s := s)
    as [r Hr]; [intros; lia| |done|unfold below_passes; lia|].
  - intros s1 s2 [Hc1 Hr1] E. pose proof (below_step_spec bound s s1 Hc1 Hr1) as Hstep. rewrite E in Hstep.
    destruct Hstep as (?&?&?&?). split; [done|lia].
  - pose proof (iterate_inv (below_step bound) I (fun r => match r with Ok (x, s') => drawn bound s s' x | Err e => e = overflow end))
      as Hinv.
    specialize (fun H1 => Hinv H1 below_passes s Hs). rewrite Hr in Hinv |- *. apply Hinv.
    intros s1 [Hc1 Hr1]. pose proof (below_step_spec bound s s1 Hc1 Hr1) as Hstep.
    destruct (below_step bound s1) as [s2|[[x s2]|e]]; [|done..]. by destruct Hstep as (_&_&?&?).
Qed.

Lemma drawn_range bound s s' x : 0 < bound -> drawn bound s s' x -> 0 <= x < bound /\ continues s s'.
Proof.
  intros Hb (c & Hc & -> & _ & _ & ->). split; [by apply Z.mod_pos_bound|]. split; cbn; [done|lia].
Qed.

(** ** Choosing without replacement *)

Lemma choose_loop_spec n candidates s :
  0 <= _counter s -> (n <= length candidates)%nat ->
  match choose_loop n candidates s with
  | Ok (selected, s') => continues s s' /\ length selected = n /\ exists rest, candidates ≡ₚ selected ++ rest
  | Err e => e = overflow
  end.
Proof.
  revert candidates s. induction n as [|n IH]; intros candidates s Hc Hn; cbn [choose_loop].
  { split_and!; [done|done|by exists candidates]. }
  assert (0 < zlen candidates) as Hpos by (unfold zlen; lia).
  pose proof (below_spec s (zlen candidates) Hc Hpos) as Hb.
  destruct (below s (zlen candidates)) as [[i s1]|e]; cbn [mbind res_bind]; [|done].
  apply drawn_range in Hb as [Hi Hs]; [|done].
  destruct (lookup_lt_is_Some_2 candidates (Z.to_nat i)) as [x Hx]; [unfold zlen in *; lia|]. rewrite Hx.
  pose proof (delete_Permutation candidates (Z.to_nat i) x Hx) as Hp.
  assert (length candidates = S (length (delete (Z.to_nat i) candidates))) as Hl by (by rewrite Hp at 1).
  pose proof (IH (delete (Z.to_nat i) candidates) s1) as IH'.
  destruct (choose_loop n _ s1) as [[selected s2]|e]; cbn [mbind res_bind].
  - destruct IH' as (Hs2 & Hlen & rest & Hr); [destruct Hs; lia|lia|]. split_and!.
    + by transitivity s1.
    + cbn. lia.
    + exists rest. rewrite Hp. cbn. by rewrite Hr.
  - apply IH'; [destruct Hs; lia|lia].
Qed.

Lemma choose_spec s population count :
  0 <= _counter s -> 0 <= count <= zlen population ->
  match choose s population count with
  | Ok (selected, s') => continues s s' /\ zlen selected = count /\ exists rest, population ≡ₚ selected ++ rest
  | Err e => e = overflow
  end.
Proof.
  intros Hc Hn. unfold choose. rewrite (proj2 (Z.ltb_ge count 0)), (proj2 (Z.ltb_ge (zlen population) count)) by lia.
  cbn [orb]. pose proof (choose_loop_spec (Z.to_nat count) population s Hc) as Hl. unfold zlen in *.
  destruct (choose_loop _ _ _) as [[selected s']|e]; [|apply Hl; lia].
  destruct Hl as (?&?&?); [lia|]. split_and!; [done|lia|done].
Qed.

Lemma choose_ok s population count selected s' :
  0 <= _counter s -> choose s population count = Ok (selected, s') ->
  continues s s' /\ 0 <= _counter s' /\ zlen selected = count /\ exists rest, population ≡ₚ selected ++ rest.
Proof.
  intros Hc E. assert (0 <= count <= zlen population) as Hn.
  { unfold choose in E. destruct (_ || _) eqn:Eb in E; [discriminate|]. lia. }
  pose proof (choose_spec s population count Hc Hn) as Hs. rewrite E in Hs.
  destruct Hs as (Hs & ? & ?). split_and!; [done|destruct Hs; lia|done|done].
Qed.
End sampler.

#[export] Existing Instance continues_preorder.

(** ** Sorting *)

Lemma py_sorted_perm l : py_sorted l ≡ₚ l.
Proof. apply merge_sort_Permutation. Qed.

Lemma py_sorted_unique l : Sorted Z.le l -> py_sorted l = l.
Proof.
  intros Hs. apply (Sorted_unique Z.le); [apply (Sorted_merge_sort Z.le)|done|apply py_sorted_perm].
Qed.

Lemma Sorted_lt l : Sorted Z.le l -> NoDup l -> StronglySorted Z.lt l.
Proof.
  intros Hs%Sorted_StronglySorted Hn; [|intros x y z; lia].
  induction Hs as [|x l Hs IH Hf]; [constructor|]. apply NoDup_cons in Hn as [Hx Hn].
  constructor; [by apply IH|]. rewrite Forall_forall in Hf |- *. intros y Hy.
  specialize (Hf y Hy). assert (y <> x) by (intros ->; done). lia.
Qed.

Lemma Sorted_lt_inv l : StronglySorted Z.lt l -> Sorted Z.le l /\ NoDup l.
Proof.
  induction 1 as [|x l Hs [IHs IHn] Hf]; [split; constructor|]. split.
  - apply Sorted_cons; [done|]. destruct Hf; constructor. lia.
  - apply NoDup_cons. split; [|done]. rewrite Forall_forall in Hf. intros Hx%Hf. lia.
Qed.

Lemma py_sorted_lt l : NoDup l -> StronglySorted Z.lt (py_sorted l).
Proof. intros Hn. apply Sorted_lt; [apply (Sorted_merge_sort Z.le)|by rewrite py_sorted_perm]. Qed.

(** [l == sorted(set(l))] says that [l] increases strictly. *)
Lemma py_sorted_set_iff l : l = py_sorted_set l <-> StronglySorted Z.lt l.
Proof.
  unfold py_sorted_set. split.
  - intros ->. apply Sorted_lt; [apply (Sorted_merge_sort Z.le)|].
    rewrite merge_sort_Permutation. apply NoDup_remove_dups.
  - intros [Hs Hn]%Sorted_lt_inv. symmetry.
    apply (Sorted_unique Z.le); [apply (Sorted_merge_sort Z.le)|done|].
    rewrite merge_sort_Permutation. apply NoDup_Permutation; [apply NoDup_remove_dups|done|].
    intros x. apply elem_of_remove_dups.
Qed.

(** ** Layers *)

Definition indices (plans : list LayerAuditPlanV3) : list Z := layer_index <$> plans.
Definition full_plans (plans : list LayerAuditPlanV3) := filter (fun p => is_full_attention p = true) plans.
Definition gdn_plans (plans : list LayerAuditPlanV3) := filter (fun p => is_full_attention p = false) plans.

Lemma plans_split plans : plans ≡ₚ full_plans plans ++ gdn_plans plans.
Proof.
  unfold full_plans, gdn_plans. induction plans as [|p plans IH]; [done|].
  rewrite !filter_cons. destruct (is_full_attention p) eqn:E.
  - rewrite decide_True, decide_False by (done || congruence). cbn. by rewrite <- IH.
  - rewrite decide_False, decide_True by (done || congruence). by rewrite <- Permutation_middle, <- IH.
Qed.

Lemma by_layer_fold plans (m : gmap Z LayerAuditPlanV3) :
  NoDup (indices plans) -> forall p, p ∈ plans -> fold_left (fun m p => <[layer_index p := p]> m) plans m !! layer_index p = Some p.
Proof.
  assert (forall plans (m : gmap Z LayerAuditPlanV3) i, i ∉ indices plans ->
    fold_left (fun m p => <[layer_index p := p]> m) plans m !! i = m !! i) as Hout.
  { clear. intros plans. induction plans as [|q plans IH]; intros m i Hi; cbn [fold_left]; [done|].
    unfold indices in Hi. rewrite fmap_cons, not_elem_of_cons in Hi. destruct Hi as [Hne Hi].
    rewrite IH by done. by rewrite lookup_insert_ne by done. }
  revert m. induction plans as [|q plans IH]; intros m Hn p Hp; [by apply not_elem_of_nil in Hp|].
  unfold indices in Hn. rewrite fmap_cons, NoDup_cons in Hn. destruct Hn as [Hq Hn]. cbn [fold_left].
  apply elem_of_cons in Hp as [->|Hp]; [|by apply IH].
  rewrite Hout by done. by rewrite lookup_insert_eq.
Qed.

Lemma by_layer_lookup plans p : NoDup (indices plans) -> p ∈ plans -> by_layer plans !! layer_index p = Some p.
Proof. intros. by apply by_layer_fold. Qed.

Section selection.
Context `{Digest}.

(** What [select_layers] promises of the layers it returns. *)
Record layers_selected (policy : HardAuditPolicyV3) (plans : list LayerAuditPlanV3) (selected : list Z) : Prop := {
  ls_count : zlen selected = selected_layer_count policy;
  ls_distinct : NoDup selected;
  ls_from : forall i, i ∈ selected -> i ∈ indices plans;
  ls_full : exists l, l ⊆+ selected /\ zlen l = minimum_full_attention_layers policy
              /\ forall i, i ∈ l -> i ∈ indices (full_plans plans);
  ls_gdn : exists l, l ⊆+ selected /\ zlen l = minimum_gdn_layers policy
              /\ forall i, i ∈ l -> i ∈ indices (gdn_plans plans);
}.

(** The policy can be met by the layers of the graph. *)
Record feasible (policy : HardAuditPolicyV3) (plans : list LayerAuditPlanV3) : Prop := {
  fe_distinct : NoDup (indices plans);
  fe_layers : selected_layer_count policy <= zlen plans;
  fe_full : 0 <= minimum_full_attention_layers policy <= zlen (full_plans plans);
  fe_gdn : 0 <= minimum_gdn_layers policy <= zlen (gdn_plans plans);
  fe_sum : minimum_full_attention_layers policy + minimum_gdn_layers policy <= selected_layer_count policy;
}.

Lemma select_layers_spec policy plans s :
  0 <= _counter s -> feasible policy plans ->
  match select_layers policy plans s with
  | Ok (selected, s') => layers_selected policy plans selected /\ continues s s'
  | Err e => e = overflow
  end.
Proof.
  intros Hc [Hd Hl Hf Hg Hsum]. unfold select_layers. fold (full_plans plans) (gdn_plans plans).
  fold (indices plans) (indices (full_plans plans)) (indices (gdn_plans plans)).
  assert (forall l, zlen (indices l) = zlen l) as Hzi by (intros; unfold zlen, indices; by rewrite length_fmap).
  assert (indices plans ≡ₚ indices (full_plans plans) ++ indices (gdn_plans plans)) as Hsplit.
  { unfold indices. rewrite <- fmap_app. by rewrite <- plans_split. }
  pose proof (choose_spec s (indices (full_plans plans)) (minimum_full_attention_layers policy) Hc) as H1.
  destruct (choose s _ _) as [[a s1]|e]; cbn [mbind res_bind]; [|apply H1; rewrite Hzi; lia].
  destruct H1 as (Hs1 & Ha & ra & Hpa); [rewrite Hzi; lia|].
  pose proof (choose_spec s1 (indices (gdn_plans plans)) (minimum_gdn_layers policy)) as H2.
  destruct (choose s1 _ _) as [[b s2]|e]; cbn [mbind res_bind]; [|apply H2; [destruct Hs1; lia|rewrite Hzi; lia]].
  destruct H2 as (Hs2 & Hb & rb & Hpb); [destruct Hs1; lia|rewrite Hzi; lia|].
  (* the remaining layers are the ones not chosen *)
  set (remaining := filter (fun l => l ∉ a ++ b) (indices plans)).
  assert (indices plans ≡ₚ (a ++ b) ++ (ra ++ rb)) as Hall.
  { rewrite Hsplit, Hpa, Hpb. rewrite <- !app_assoc. f_equiv. rewrite !app_assoc. f_equiv. apply Permutation_app_comm. }
  assert (NoDup ((a ++ b) ++ (ra ++ rb))) as Hnd by (by rewrite <- Hall).
  assert (remaining ≡ₚ ra ++ rb) as Hrem.
  { apply NoDup_app in Hnd as (Hn1 & Hn2 & Hn3).
    apply NoDup_Permutation; [by apply NoDup_filter|done|]. intros x. unfold remaining.
    rewrite list_elem_of_filter, Hall, (elem_of_app (a ++ b)). split; [tauto|].
    intros Hx. split; [|by right]. intros Hx2. by apply (Hn2 x). }
  assert (zlen (indices plans) = zlen (a ++ b) + zlen remaining) as Hlen.
  { unfold zlen. rewrite Hall at 1. rewrite (length_app (a ++ b)), Hrem. lia. }
  assert (zlen (a ++ b) = zlen a + zlen b) as Hab by (unfold zlen; rewrite length_app; lia).
  rewrite Hzi in Hlen.
  pose proof (choose_spec s2 remaining (selected_layer_count policy - zlen (a ++ b))) as H3.
  destruct (choose s2 _ _) as [[c s3]|e]; cbn [mbind res_bind]; [|apply H3; [destruct Hs1, Hs2; lia|lia]].
  destruct H3 as (Hs3 & Hc3 & rc & Hpc); [destruct Hs1, Hs2; lia|lia|].
  assert (indices plans ≡ₚ ((a ++ b) ++ c) ++ rc) as Hfinal by (by rewrite Hall, <- Hrem, Hpc, app_assoc).
  split; [|by transitivity s1; [|transitivity s2]]. split.
  - unfold zlen in *. rewrite length_app. lia.
  - rewrite Hfinal in Hd. by apply NoDup_app in Hd as [? _].
  - intros i Hi. rewrite Hfinal. apply elem_of_app. by left.
  - exists a. split_and!; [|done|].
    + rewrite <- app_assoc. apply submseteq_inserts_r. done.
    + intros i Hi. rewrite Hpa. apply elem_of_app. by left.
  - exists b. split_and!; [|done|].
    + rewrite <- app_assoc. apply submseteq_inserts_l, submseteq_inserts_r. done.
    + intros i Hi. rewrite Hpb. apply elem_of_app. by left.
Qed.

(** ** Windows and heads *)

(** The bounds that the constructors of policies, plans and graphs enforce. *)
Record signed_bounds (policy : HardAuditPolicyV3) (plans : list LayerAuditPlanV3) : Prop := {
  sb_rows : 1 <= transition_query_rows policy;
  sb_heads : 1 <= full_attention_heads_per_layer policy;
  sb_layer : forall p, p ∈ plans -> 0 <= layer_index p < 2 ^ 31;
  sb_query : forall p, p ∈ plans -> 0 <= attention_query_head_count p < 2 ^ 32;
  sb_enough : forall p, p ∈ plans -> is_full_attention p = true ->
                full_attention_heads_per_layer policy <= attention_query_head_count p;
}.

(** What is promised of one selected layer. *)
Definition window_ok (policy : HardAuditPolicyV3) (plans : list LayerAuditPlanV3) (count : Z)
    (sel : HardAuditLayerSelectionV3) : Prop :=
  exists p, p ∈ plans /\ sel_layer_index sel = layer_index p
    /\ query_row_count sel = Z.min (transition_query_rows policy) count
    /\ 0 <= query_row_offset sel /\ query_row_offset sel + query_row_count sel <= count
    /\ StronglySorted Z.lt (attention_head_indices sel)
    /\ if is_full_attention p then
         transition_kind sel = FULL_ATTENTION
         /\ zlen (attention_head_indices sel) = full_attention_heads_per_layer policy
         /\ Forall (fun h => 0 <= h < attention_query_head_count p) (attention_head_indices sel)
       else transition_kind sel = GDN /\ attention_head_indices sel = [].

Lemma layer_selection_new_ok layer kind offset count heads :
  0 <= layer < 2 ^ 32 -> 0 <= offset < 2 ^ 32 -> 1 <= count < 2 ^ 32 -> StronglySorted Z.lt heads ->
  (kind = FULL_ATTENTION /\ heads <> [] \/ kind = GDN /\ heads = []) ->
  Forall (fun h => 0 <= h < 2 ^ 32) heads ->
  HardAuditLayerSelectionV3_new layer kind offset count heads
  = Ok (MkLayerSelection layer kind offset count heads).
Proof.
  intros Hl Ho Hc Hs Hk Hh. unfold HardAuditLayerSelectionV3_new, outside_u32. change (Z.shiftl 1 32) with (2 ^ 32).
  do 3 rewrite (proj2 (orb_false_iff _ _)) by lia. apply py_sorted_set_iff in Hs.
  rewrite (bool_decide_eq_true_2 (kind ∈ _)) by (destruct Hk as [[-> _]|[-> _]]; set_solver). cbn [negb].
  rewrite (bool_decide_eq_true_2 (heads = _)) by done. cbn [negb].
  assert (existsb (fun head => negb ((0 <=? head) && (head <? 2 ^ 32))) heads = false) as ->.
  { apply not_true_is_false. intros (h & Hh' & E)%existsb_exists. apply list_elem_of_In in Hh'.
    rewrite Forall_forall in Hh. specialize (Hh h Hh'). lia. }
  destruct Hk as [[-> Hne]|[-> ->]]; [|done].
  rewrite bool_decide_eq_true_2, bool_decide_eq_false_2 by done.
  destruct (Z.eqb_spec (zlen heads) 0); [|done]. by destruct heads; [|unfold zlen in *; cbn [length] in *; lia].
Qed.

Lemma seqZ_elem n x : x ∈ seqZ 0 n <-> 0 <= x < n.
Proof. rewrite elem_of_seqZ. lia. Qed.

Lemma select_windows_spec policy plans count indices s :
  0 <= _counter s -> 0 < count < 2 ^ 32 -> NoDup (SelectionTheory.indices plans) -> signed_bounds policy plans ->
  (forall i, i ∈ indices -> i ∈ SelectionTheory.indices plans) ->
  match select_windows policy (by_layer plans) count (Z.min (transition_query_rows policy) count) indices s with
  | Ok sels => sel_layer_index <$> sels = indices /\ Forall (window_ok policy plans count) sels
  | Err e => e = overflow
  end.
Proof.
  intros Hc Hcount Hn Hb. destruct Hb as [Hrows Hheads Hlayer Hquery Henough] eqn:Eb. clear Eb.
  set (rows := Z.min (transition_query_rows policy) count). assert (1 <= rows <= count) as Hr by lia.
  revert s Hc. induction indices as [|i indices IH]; intros s Hc Hin; cbn [select_windows]; [done|].
  assert (i ∈ SelectionTheory.indices plans) as (p & -> & Hp)%list_elem_of_fmap by (apply Hin; left).
  rewrite (by_layer_lookup plans p) by done.
  pose proof (below_spec s (count - rows + 1) Hc ltac:(lia)) as Hbelow.
  destruct (below s _) as [[o s1]|e]; cbn [mbind res_bind]; [|done].
  apply drawn_range in Hbelow as [Ho Hs1]; [|lia].
  assert (forall s2 sel, continues s1 s2 -> window_ok policy plans count sel -> sel_layer_index sel = layer_index p ->
    match (selections ← select_windows policy (by_layer plans) count rows indices s2; Ok (sel :: selections)) with
    | Ok sels => sel_layer_index <$> sels = layer_index p :: indices /\ Forall (window_ok policy plans count) sels
    | Err e => e = overflow
    end) as Hrest.
  { intros s2 sel Hs2 Hw Hi. assert (0 <= _counter s2) as Hc2 by (destruct Hs1, Hs2; lia).
    specialize (IH s2 Hc2 (fun i Hi => Hin i ltac:(by right))).
    destruct (select_windows policy _ count rows indices s2) as [sels|e]; cbn [mbind res_bind]; [|done].
    destruct IH as [<- IH]. rewrite fmap_cons, Hi. split; [done|by constructor]. }
  specialize (Hlayer p Hp). specialize (Hquery p Hp). specialize (Henough p Hp).
  destruct (is_full_attention p) eqn:Ef.
  - pose proof (choose_spec s1 (seqZ 0 (attention_query_head_count p)) (full_attention_heads_per_layer policy)) as Hch.
    assert (zlen (seqZ 0 (attention_query_head_count p)) = attention_query_head_count p) as Hlen.
    { unfold zlen. rewrite length_seqZ. lia. }
    destruct (choose s1 _ _) as [[hs s2]|e]; cbn [mbind res_bind];
      [|apply Hch; [destruct Hs1; lia|rewrite Hlen; specialize (Henough eq_refl); lia]].
    destruct Hch as (Hs2 & Hn2 & rest & Hp2); [destruct Hs1; lia|rewrite Hlen; specialize (Henough eq_refl); lia|].
    pose proof (NoDup_seqZ 0 (attention_query_head_count p)) as Hnd. rewrite Hp2 in Hnd.
    apply NoDup_app in Hnd as [Hnd _].
    assert (Forall (fun h => 0 <= h < attention_query_head_count p) (py_sorted hs)) as Hf.
    { apply Forall_forall. intros h. rewrite py_sorted_perm. intros Hh. apply seqZ_elem. rewrite Hp2. apply elem_of_app. by left. }
    assert (zlen (py_sorted hs) = full_attention_heads_per_layer policy) as Hz.
    { unfold zlen in *. by rewrite py_sorted_perm. }
    rewrite layer_selection_new_ok; [|lia|lia|lia|by apply py_sorted_lt| |].
    + cbn [mbind res_bind]. apply Hrest; [done| |done].
      exists p. rewrite Ef. split_and!; cbn; [done|done|done|lia|lia|by apply py_sorted_lt|done|done|done].
    + left. split; [done|]. intros E. rewrite E in Hz. unfold zlen in Hz. cbn in Hz. lia.
    + apply (Forall_impl _ _ _ Hf). intros h Hh. lia.
  - rewrite layer_selection_new_ok; [|lia|lia|lia|constructor|by right|constructor].
    cbn [mbind res_bind]. apply Hrest; [done| |done].
    exists p. rewrite Ef. split_and!; cbn; [done|done|done|lia|lia|constructor|done|done].
Qed.
End selection.

(** ** What the signed profile guarantees *)

(** The plan comes out of its constructor. *)
Definition signed_plan (p : LayerAuditPlanV3) : Prop :=
  exists layer transition bridge operations query kv dimension semantics,
    LayerAuditPlanV3_new layer transition bridge operations query kv dimension semantics = Ok p.

Lemma i32_ok v name lo z : _i32 v name lo = Ok z <-> v = PInt z /\ lo <= z < 2 ^ 31.
Proof.
  unfold _i32. change (2 ^ 31) with (Z.shiftl 1 31). rewrite <- int_in_spec. unfold raise.
  destruct (int_in _ _ _); split; congruence.
Qed.

Lemma signed_plan_bounds p :
  signed_plan p -> 0 <= layer_index p < 2 ^ 31 /\ 0 <= attention_query_head_count p < 2 ^ 32.
Proof.
  intros (layer & transition & bridge & operations & query & kv & dimension & semantics & Hn).
  unfold LayerAuditPlanV3_new in Hn.
  apply bind_ok in Hn as (l & [_ Hl]%i32_ok & (t & _ & (b & _ & Hn)%bind_ok)%bind_ok).
  destruct (bool_decide _) in Hn; [discriminate|]. destruct (_ <? _) in Hn; [discriminate|].
  destruct (bool_decide _) in Hn; [discriminate|]. apply bind_ok in Hn as (_ & _ & Hn).
  destruct (existsb _ _) in Hn; [discriminate|].
  apply bind_ok in Hn as (q & [_ Hq]%u32_spec & (k & _ & (d & _ & Hn)%bind_ok)%bind_ok).
  destruct (_ && _) in Hn.
  - destruct semantics; try discriminate Hn. apply (inj Ok) in Hn as <-. done.
  - destruct (_ || _) in Hn; [discriminate|]. destruct (negb _) in Hn; [discriminate|].
    destruct semantics; try discriminate Hn; apply bind_ok in Hn as (sem & _ & Hn); by apply (inj Ok) in Hn as <-.
Qed.

(** The policy comes out of its constructor. *)
Definition signed_policy (p : HardAuditPolicyV3) : Prop :=
  exists mode nonce_abi tier_abi abi organic canary probation layers full gdn heads rows,
    HardAuditPolicyV3_new mode nonce_abi tier_abi abi organic canary probation layers full gdn heads rows = Ok p.

Lemma signed_policy_bounds p :
  signed_policy p ->
  1 <= transition_query_rows p /\ 1 <= full_attention_heads_per_layer p /\ 1 <= selected_layer_count p
  /\ 0 <= minimum_full_attention_layers p /\ 0 <= minimum_gdn_layers p
  /\ minimum_full_attention_layers p + minimum_gdn_layers p <= selected_layer_count p.
Proof.
  intros (mode & nonce_abi & tier_abi & abi & organic & canary & probation & layers & full & gdn & heads & rows & Hn).
  unfold HardAuditPolicyV3_new in Hn. apply bind_ok in Hn as (m & _ & Hn). destruct m as [m|]; [|discriminate].
  apply bind_ok in Hn as (na & _ & (ta & _ & (sa & _ & Hn)%bind_ok)%bind_ok).
  destruct (negb _) in Hn; [discriminate|].
  apply bind_ok in Hn as (o & _ & (c & _ & (pr & _ & (ly & [_ Hly]%u32_spec & (fu & [_ Hfu]%u32_spec
    & (gd & [_ Hgd]%u32_spec & (he & [_ Hhe]%u32_spec & (ro & [_ Hro]%u32_spec & Hn)
    %bind_ok)%bind_ok)%bind_ok)%bind_ok)%bind_ok)%bind_ok)%bind_ok).
  destruct (10000 <? o); [discriminate|]. destruct (10000 <? c); [discriminate|].
  destruct (_ <? ro); [discriminate|]. destruct (Z.ltb_spec ly (fu + gd)); [discriminate|].
  destruct (_ && _) in Hn; [discriminate|]. apply (inj Ok) in Hn as <-. cbn. lia.
Qed.

Lemma sorted_distinct {K} `{EqDecision K} (ltb : K -> K -> bool) keys name :
  _strictly_sorted ltb keys name = Ok tt -> NoDup keys.
Proof.
  unfold _strictly_sorted. destruct (negb (sorted ltb keys)); [discriminate|].
  destruct (duplicate_free keys) eqn:E; cbn [negb]; [intros _|discriminate].
  induction keys as [|k keys IH]; [constructor|]. cbn [duplicate_free] in E.
  apply andb_true_iff in E as [Ek E]. apply negb_true_iff, bool_decide_eq_false in Ek.
  constructor; [done|by apply IH].
Qed.

(** A spec whose plans, policy and coverage pass the checks of its constructor. *)
Record signed_audits (policy : HardAuditPolicyV3) (plans : list LayerAuditPlanV3) : Prop := {
  sa_policy : signed_policy policy;
  sa_plans : Forall signed_plan plans;
  sa_sorted : _strictly_sorted Z.ltb (indices plans) "layer audit plans" = Ok tt;
  sa_coverage : validate_audit_coverage policy plans = Ok tt;
}.

Lemma signed_audits_feasible policy plans :
  signed_audits policy plans -> feasible policy plans /\ signed_bounds policy plans.
Proof.
  intros [Hp Hf Hs Hc]. pose proof (signed_policy_bounds policy Hp) as (?&?&?&?&?&?).
  unfold validate_audit_coverage, audit_coverage in Hc. fold (full_plans plans) (gdn_plans plans) in Hc.
  destruct (Z.ltb_spec (zlen plans) (selected_layer_count policy)); [discriminate|].
  destruct (_ <? Z.min _ _) in Hc; [discriminate|]. destruct (_ <? Z.min _ _) in Hc; [discriminate|].
  destruct (Z.ltb_spec (zlen (full_plans plans)) (minimum_full_attention_layers policy)); [discriminate|].
  destruct (Z.ltb_spec (zlen (gdn_plans plans)) (minimum_gdn_layers policy)); [discriminate|].
  destruct (existsb _ _) eqn:Ee in Hc; [discriminate|]. rewrite Forall_forall in Hf.
  split; split; try lia.
  - by eapply sorted_distinct.
  - intros p Hp'. by apply signed_plan_bounds, Hf.
  - intros p Hp'. by apply signed_plan_bounds, Hf.
  - intros p Hp' Hfull. apply Z.nlt_ge. intros Hlt.
    assert (existsb (fun a => attention_query_head_count a <? full_attention_heads_per_layer policy) (full_plans plans) = true)
      as E2; [|congruence].
    apply existsb_exists. exists p. split; [|by apply Z.ltb_lt].
    apply list_elem_of_In. unfold full_plans. apply list_elem_of_filter. done.
Qed.

(** ** The selection *)

Record selection_correct (policy : HardAuditPolicyV3) (plans : list LayerAuditPlanV3) (count : Z)
    (sel : HardAuditSelectionV3) : Prop := {
  sc_count : sequence_token_count sel = count;
  sc_number : zlen (layers sel) = selected_layer_count policy;
  sc_sorted : StronglySorted Z.lt (sel_layer_index <$> layers sel);
  sc_windows : Forall (window_ok policy plans count) (layers sel);
  sc_full : minimum_full_attention_layers policy
            <= zlen (filter (fun l => transition_kind l = FULL_ATTENTION) (layers sel));
  sc_gdn : minimum_gdn_layers policy <= zlen (filter (fun l => transition_kind l = GDN) (layers sel));
}.

(** Layers that must be of one kind are counted among the selections of that
    kind. *)
Lemma covered policy plans count sels (want : bool) kind l :
  NoDup (indices plans) -> Forall (window_ok policy plans count) sels -> NoDup l ->
  (forall i, i ∈ l -> i ∈ (sel_layer_index <$> sels)) ->
  (forall i, i ∈ l -> i ∈ indices (filter (fun p => is_full_attention p = want) plans)) ->
  kind = (if want then FULL_ATTENTION else GDN) ->
  zlen l <= zlen (filter (fun s => transition_kind s = kind) sels).
Proof.
  intros Hn Hw Hl Hin Hkind ->. rewrite Forall_forall in Hw.
  assert (l ⊆+ (sel_layer_index <$> filter (fun s => transition_kind s = if want then FULL_ATTENTION else GDN) sels)) as Hs.
  { apply NoDup_submseteq; [done|]. intros i Hi. apply Hin in Hi as Hs. apply list_elem_of_fmap in Hs as (s & -> & Hs).
    apply Hkind, list_elem_of_fmap in Hi as (q & Eq & Hq). apply list_elem_of_filter in Hq as [Hq Hqp].
    apply list_elem_of_fmap. exists s. split; [done|]. apply list_elem_of_filter. split; [|done].
    destruct (Hw s Hs) as (p & Hp & Ep & _ & _ & _ & _ & Hp2).
    assert (p = q) as ->.
    { apply (inj Some). by rewrite <- (by_layer_lookup plans p), <- (by_layer_lookup plans q), <- Ep, <- Eq. }
    rewrite Hq in Hp2. by destruct want; destruct Hp2. }
  apply submseteq_length in Hs. rewrite length_fmap in Hs. unfold zlen. lia.
Qed.

Lemma selection_new_ok count sels :
  0 < count < 2 ^ 32 -> 0 < zlen sels -> StronglySorted Z.lt (sel_layer_index <$> sels) ->
  Forall (fun s => query_row_offset s + query_row_count s <= count) sels ->
  HardAuditSelectionV3_new STRATIFIED_LAYER_HEAD_SELECTION_ABI_V3 count sels
  = Ok (MkSelection STRATIFIED_LAYER_HEAD_SELECTION_ABI_V3 count sels).
Proof.
  intros Hc Hl Hs Hf. unfold HardAuditSelectionV3_new. change (Z.shiftl 1 32) with (2 ^ 32).
  rewrite bool_decide_eq_true_2 by done. cbn [negb].
  rewrite (proj2 (Z.ltb_lt _ _)), (proj2 (Z.ltb_lt count _)), (proj2 (Z.eqb_neq _ _)) by lia. cbn [negb andb].
  apply Sorted_lt_inv in Hs as [Hs Hn]. rewrite bool_decide_eq_true_2 by (by rewrite py_sorted_unique).
  rewrite size_list_to_set by done. rewrite Nat.eqb_refl. cbn [negb orb].
  assert (existsb (fun item => count <? query_row_offset item + query_row_count item) sels = false) as ->; [|done].
  apply not_true_is_false. intros (s & Hs' & E)%existsb_exists. apply list_elem_of_In in Hs'.
  rewrite Forall_forall in Hf. specialize (Hf s Hs'). lia.
Qed.

Lemma layers_chosen policy plans count selected sels :
  NoDup (indices plans) -> layers_selected policy plans selected -> Forall (window_ok policy plans count) sels ->
  sel_layer_index <$> sels = py_sorted selected ->
  selection_correct policy plans count (MkSelection STRATIFIED_LAYER_HEAD_SELECTION_ABI_V3 count sels).
Proof.
  intros Hn [Hcount Hd Hfrom (lf & Hlf & Hzf & Hif) (lg & Hlg & Hzg & Hig)] Hw Hi.
  assert (forall l, l ⊆+ selected -> NoDup l /\ forall i, i ∈ l -> i ∈ sel_layer_index <$> sels) as Hsub.
  { intros l Hl. split.
    - apply submseteq_Permutation in Hl as [k Hk]. rewrite Hk in Hd. by apply NoDup_app in Hd as [? _].
    - intros i Hil. rewrite Hi, py_sorted_perm. by eapply elem_of_submseteq. }
  split; cbn [layers sequence_token_count].
  - done.
  - apply (f_equal length) in Hi. rewrite length_fmap, (Permutation_length (py_sorted_perm selected)) in Hi.
    unfold zlen in *. lia.
  - rewrite Hi. by apply py_sorted_lt.
  - done.
  - rewrite <- Hzf. destruct (Hsub lf Hlf). by eapply (covered policy plans count sels true).
  - rewrite <- Hzg. destruct (Hsub lg Hlg). by eapply (covered policy plans count sels false).
Qed.

(** The refusals that come before the sampler is used. *)
Section refusals.
Context `{Digest} (transcript : bytes) (profile : ExecutionSecurityProfileV3)
  (envelope : Payload.ProofV3CommitmentEnvelope) (Ht : bytes32 transcript).
Let spec := relation_spec profile.
Let count := Payload.context_token_count envelope + Payload.decode_token_count envelope.
Local Abbreviation derived := (derive_hard_audit_selection_v3 (PBytes transcript) profile envelope).

Lemma transcript_accepted message : bytes_32 (PBytes transcript) message = Ok transcript.
Proof.
  unfold bytes_32, bytes32 in *. change GOLDILOCKS_MERKLE_REFERENCE_DIGEST_BYTES with 32%nat in Ht.
  by rewrite Ht, Nat.eqb_refl.
Qed.

Lemma other_abi_refused :
  selection_abi_id (audit_policy spec) <> STRATIFIED_LAYER_HEAD_SELECTION_ABI_V3 ->
  derived = raise ProofV3Error "signed hard-audit selection ABI is not supported".
Proof.
  intros Hno. unfold derive_hard_audit_selection_v3. rewrite transcript_accepted. cbn [mbind res_bind].
  fold spec. by rewrite bool_decide_eq_false_2.
Qed.

Lemma count_refused :
  selection_abi_id (audit_policy spec) = STRATIFIED_LAYER_HEAD_SELECTION_ABI_V3 -> ~ 0 < count < 2 ^ 32 ->
  derived = raise ProofV3Error "hard-audit sequence token count is invalid".
Proof.
  intros Habi Hno. unfold derive_hard_audit_selection_v3. rewrite transcript_accepted. cbn [mbind res_bind].
  fold spec count. rewrite bool_decide_eq_true_2 by done. cbn [negb]. change (Z.shiftl 1 32) with (2 ^ 32).
  destruct (Z.ltb_spec 0 count), (Z.ltb_spec count (2 ^ 32)); try done. lia.
Qed.

Lemma digest_failure e :
  selection_abi_id (audit_policy spec) = STRATIFIED_LAYER_HEAD_SELECTION_ABI_V3 -> 0 < count < 2 ^ 32 ->
  signed_audits (audit_policy spec) (layer_audits spec) -> profile_digest profile = Err e -> derived = Err e.
Proof.
  intros Habi Hcount Hsigned Hd. destruct (signed_audits_feasible _ _ Hsigned) as [Hfe _].
  unfold derive_hard_audit_selection_v3. rewrite transcript_accepted. cbn [mbind res_bind].
  fold spec count. rewrite bool_decide_eq_true_2 by done. cbn [negb]. change (Z.shiftl 1 32) with (2 ^ 32).
  rewrite (proj2 (Z.ltb_lt 0 count)), (proj2 (Z.ltb_lt count _)) by lia. cbn [negb andb].
  fold (full_plans (layer_audits spec)) (gdn_plans (layer_audits spec)).
  rewrite (proj2 (Z.ltb_ge (zlen (layer_audits spec)) _)), (proj2 (Z.ltb_ge (zlen (full_plans _)) _)),
    (proj2 (Z.ltb_ge (zlen (gdn_plans _)) _)) by (destruct Hfe; lia).
  by rewrite Hd.
Qed.
End refusals.

(** The layers, rows and heads of a hard audit: for a profile whose plans,
    policy and coverage pass the checks of the spec, and any transcript, the
    derivation returns a selection of exactly the signed number of layers, in
    increasing order and without repetition, with at least the signed number of
    full-attention layers and of GDN layers; each selected layer is a layer of
    the graph with its own kind, its rows are a window of the signed length (or
    the whole sequence) inside the sequence, and a full-attention layer has
    exactly the signed number of distinct heads among its query heads.  The
    only other outcome is the error that the sampler's counter overflowed. *)
Theorem selection_of_signed_audits `{Digest} transcript profile envelope digest :
  let policy := audit_policy (relation_spec profile) in
  let plans := layer_audits (relation_spec profile) in
  let count := Payload.context_token_count envelope + Payload.decode_token_count envelope in
  signed_audits policy plans ->
  selection_abi_id policy = STRATIFIED_LAYER_HEAD_SELECTION_ABI_V3 ->
  profile_digest profile = Ok digest -> bytes32 transcript -> 0 < count < 2 ^ 32 ->
  match derive_hard_audit_selection_v3 (PBytes transcript) profile envelope with
  | Ok sel => selection_correct policy plans count sel
  | Err e => e = overflow
  end.
Proof.
  intros policy plans count Hsigned Habi Hdigest Ht Hcount.
  destruct (signed_audits_feasible policy plans Hsigned) as [Hfe Hsb].
  destruct (signed_policy_bounds policy (sa_policy _ _ Hsigned)) as (_ & _ & Hlayers & _).
  unfold derive_hard_audit_selection_v3, bytes_32. fold policy. fold plans. fold count. unfold bytes32 in Ht.
  change GOLDILOCKS_MERKLE_REFERENCE_DIGEST_BYTES with 32%nat in Ht. rewrite Ht, Nat.eqb_refl. cbn [mbind res_bind].
  rewrite bool_decide_eq_true_2 by done. cbn [negb]. change (Z.shiftl 1 32) with (2 ^ 32).
  rewrite (proj2 (Z.ltb_lt 0 count)), (proj2 (Z.ltb_lt count _)) by lia. cbn [negb andb].
  fold (full_plans plans) (gdn_plans plans).
  rewrite (proj2 (Z.ltb_ge (zlen plans) _)), (proj2 (Z.ltb_ge (zlen (full_plans plans)) _)),
    (proj2 (Z.ltb_ge (zlen (gdn_plans plans)) _)) by (destruct Hfe; lia).
  rewrite Hdigest. cbn [mbind res_bind]. unfold _SelectionSamplerV3_new, bytes_32, selection_seed.
  rewrite sha256_length. cbn [Nat.eqb mbind res_bind].
  set (s0 := MkSampler _ 0).
  pose proof (select_layers_spec policy plans s0 ltac:(done) Hfe) as Hsel.
  destruct (select_layers policy plans s0) as [[selected s1]|e]; cbn [mbind res_bind]; [|done].
  destruct Hsel as [Hsel Hs1]. pose proof Hsel as [Hn Hd Hfrom _ _].
  rewrite size_list_to_set by done. change (Z.of_nat (length selected)) with (zlen selected).
  rewrite Hn, Z.eqb_refl. cbn [negb orb].
  pose proof (select_windows_spec policy plans count (py_sorted selected) s1) as Hw.
  destruct (select_windows policy _ _ _ _ _) as [sels|e]; cbn [mbind res_bind].
  - destruct Hw as [Hi Hw]; [destruct Hs1 as [_ Hs1]; cbn in Hs1; lia|done|by destruct Hfe|done| |].
    { intros i. rewrite py_sorted_perm. apply Hfrom. }
    pose proof (layers_chosen policy plans count selected sels (fe_distinct _ _ Hfe) Hsel Hw Hi) as Hc.
    rewrite Habi, selection_new_ok; [done|done| |by destruct Hc|].
    + pose proof (sc_number _ _ _ _ Hc) as Hnum. cbn [layers] in Hnum. lia.
    + apply (Forall_impl _ _ _ Hw). intros sel (p & _ & _ & _ & _ & Hle & _). exact Hle.
  - apply Hw; [destruct Hs1 as [_ Hs1]; cbn in Hs1; lia|done|by destruct Hfe|done|].
    intros i. rewrite py_sorted_perm. apply Hfrom.
Qed.

(** C26 The sampler is uniform and always returns: a draw below [bound] is the
    first word of the seed's stream, from the current counter on, that is below
    the ceiling, reduced modulo the bound; every residue is the reduction of
    equally many such words; and the only other outcome of the loop is the
    error that the counter overflowed. *)
Theorem sampler_uniform `{Digest} s bound :
  0 <= _counter s -> 0 < bound <= 2 ^ 256 ->
  match below s bound with
  | Ok (x, s') => 0 <= x < bound /\ exists c, _counter s <= c /\ s' = MkSampler (_seed s) (c + 1)
      /\ (forall j, _counter s <= j < c -> ceiling_of bound <= word_at (_seed s) j)
      /\ 0 <= word_at (_seed s) c < ceiling_of bound /\ x = word_at (_seed s) c mod bound
  | Err e => e = overflow
  end
  /\ forall r, 0 <= r < bound -> forall w,
       (0 <= w < ceiling_of bound /\ w mod bound = r) <-> exists k, 0 <= k < 2 ^ 256 / bound /\ w = r + k * bound.
Proof.
  intros Hc Hb. split.
  - pose proof (below_spec s bound Hc ltac:(lia)) as Hs. destruct (below s bound) as [[x s']|e]; [|done].
    split; [by destruct (drawn_range bound s s' x ltac:(lia) Hs)|].
    destruct Hs as (c & ? & ? & Hr & ? & ?). exists c. split_and!; [done|done|exact Hr| |done|done].
    apply word_le_bound.
  - intros r Hr w. unfold ceiling_of. change (Z.shiftl 1 256) with (2 ^ 256).
    assert (2 ^ 256 - 2 ^ 256 mod bound = 2 ^ 256 / bound * bound) as ->.
    { pose proof (Z.div_mod (2 ^ 256) bound ltac:(lia)). lia. }
    split.
    + intros [Hw Hm]. exists (w / bound). split.
      * split; [apply Z.div_pos; lia|]. apply Z.div_lt_upper_bound; lia.
      * pose proof (Z.div_mod w bound ltac:(lia)). lia.
    + intros (k & Hk & ->). split; [nia|]. rewrite Z.mod_add by lia. by apply Z.mod_small.
Qed.

(** ** Witnesses *)

#[local] Existing Instance checksum_digest.

Lemma sample_plan_signed l f : sample_plan_args l f = Ok (sample_plan l f) -> signed_plan (sample_plan l f).
Proof.
  intros E. exists (PInt l), (PStr (at_layer "transition" l)), (PStr (at_layer "bridge" l)), [sample_operation l],
    (PInt (if f then 4 else 0)), (PInt (if f then 2 else 0)), (PInt (if f then 8 else 0)),
    (if f then PStr (t_lit "gqa.v1") else PNone). exact E.
Qed.

Lemma sample_audits_signed : signed_audits sample_policy sample_plans.
Proof.
  split.
  - exists (PStr GLOBAL_EXECUTION_COVERAGE_MODE_V3), (PStr POSTCOMMIT_GLOBAL_NONCE_ABI_V3),
      (PStr POSTCOMMIT_AUDIT_TIER_ABI_V3), (PStr STRATIFIED_LAYER_HEAD_SELECTION_ABI_V3),
      (PInt 1000), (PInt 10000), (PInt 1), (PInt 4), (PInt 2), (PInt 1), (PInt 2), (PInt 8).
    exact sample_policy_ok.
  - repeat constructor; apply sample_plan_signed; vm_compute; reflexivity.
  - vm_compute. reflexivity.
  - vm_compute. reflexivity.
Qed.

(** The sample selection is one: the layers and the number of heads of each. *)
Example sample_selection :
  match derive_hard_audit_selection_v3 (PBytes (replicate 32 x16)) sample_profile sample_envelope with
  | Ok sel => (fun l => (sel_layer_index l, zlen (attention_head_indices l))) <$> layers sel
              = [(0, 2); (1, 0); (2, 2); (4, 0)]
  | Err _ => False
  end.
Proof. vm_compute. reflexivity. Qed.

Lemma sampler_uniform_witness :
  match below (MkSampler (replicate 32 x01) 0) 10 with
  | Ok (x, s') => 0 <= x < 10 /\ exists c, 0 <= c /\ s' = MkSampler (replicate 32 x01) (c + 1)
      /\ (forall j, 0 <= j < c -> ceiling_of 10 <= word_at (replicate 32 x01) j)
      /\ 0 <= word_at (replicate 32 x01) c < ceiling_of 10 /\ x = word_at (replicate 32 x01) c mod 10
  | Err e => e = overflow
  end
  /\ forall r, 0 <= r < 10 -> forall w,
       (0 <= w < ceiling_of 10 /\ w mod 10 = r) <-> exists k, 0 <= k < 2 ^ 256 / 10 /\ w = r + k * 10.
Proof.
  pose proof (sampler_uniform (H := checksum_digest) (MkSampler (replicate 32 x01) 0) 10) as Hx.
  refine (Hx _ _); [cbn; lia|lia].
Defined.
