(* ===== verification/SpecGraphTheory.v ===== *)
(** * Theorems on the graph of a relation spec

    What [SpecGraph._validate_graph] establishes when it accepts: the nodes are
    in the order of their dependencies and determine every tensor from the
    request, no declaration is unused, each registered layer has its transition,
    bridge, cache family and audit plan, and the audits it signs can always be
    selected. *)

From Stdlib Require Import ZArith Lia.
From Stdlib Require Import Strings.Byte.
From coqutil Require Import Word.LittleEndianList.
From stdpp Require Import base gmap list strings sorting relations.
From S2P Require Import Prelude Merkle MerkleTheory Sha256 Wire Text Relation Graph Policy Spec SpecGraph GraphLemmas Profile Payload Challenge SelectionTheory SampleProfile SampleGraph.

Import Relation Policy Graph Spec SpecGraph.
Local Open Scope Z_scope.

#[local] Arguments t_lit s : simpl never.

(** ** Items as their constructors accept them *)

Definition remake_node (n : ExecutionRelationNodeV3) : res ExecutionRelationNodeV3 :=
  ExecutionRelationNodeV3_new (PStr (node_id n)) (PStr (relation_id n)) (PStr (transition_adapter_id n))
    (PTuple (PStr <$> input_tensor_ids n)) (PTuple (PStr <$> output_tensor_ids n)) (PStr (node_tolerance_id n))
    (PTuple (PStr <$> static_binding_ids n)) (operation_reference n) (PInt (node_layer_index n)).

Definition made_node (n : ExecutionRelationNodeV3) : Prop := remake_node n = Ok n.

Record node_made (n : ExecutionRelationNodeV3) : Prop := {
  nm_inputs : input_tensor_ids n <> [];
  nm_outputs : output_tensor_ids n <> [];
  nm_distinct : NoDup (output_tensor_ids n);
  nm_adapters : is_Some (dict_get _RELATION_ADAPTERS (relation_id n));
  nm_operation : is_Some (operation_reference n) <-> relation_id n = t_lit "linear";
  nm_layer : forall o, operation_reference n = Some o -> op_layer_index o = node_layer_index n;
  nm_names : Forall (fun s => identifier_match s = true)
    ([node_id n; relation_id n; transition_adapter_id n; node_tolerance_id n]
     ++ input_tensor_ids n ++ output_tensor_ids n ++ static_binding_ids n);
}.

Lemma identifier_made s name a : _identifier (PStr s) name = Ok a -> a = s /\ identifier_match s = true.
Proof.
  unfold _identifier. intros (e & _ & H)%bind_ok. destruct (_ <? _); [discriminate|]. cbn [orb] in H.
  destruct (identifier_match s); [|discriminate]. by apply (inj Ok) in H.
Qed.

Lemma identifiers_made l name k :
  imapR _identifier name (PStr <$> l) = Ok k -> k = l /\ Forall (fun s => identifier_match s = true) l.
Proof.
  unfold imapR. generalize 0%nat. revert k. induction l as [|s l IH]; intros k i; cbn [fmap list_fmap imapR_from].
  - intros H. by apply (inj Ok) in H as <-.
  - intros (t & [-> Ht]%identifier_made & (ts & [-> Hl]%IH & H)%bind_ok)%bind_ok. apply (inj Ok) in H as <-. by split; [|constructor].
Qed.

Lemma tuple_ok l name maximum k : _tuple (PTuple l) name maximum = Ok k -> k = l.
Proof. unfold _tuple. destruct (_ <? _); [discriminate|]. by intros [= ->]. Qed.

Lemma made_node_facts n : made_node n -> node_made n.
Proof.
  unfold made_node, remake_node, ExecutionRelationNodeV3_new.
  destruct n as [id relation adapter inputs outputs tolerance bindings operation layer].
  cbn [node_id relation_id transition_adapter_id input_tensor_ids output_tensor_ids node_tolerance_id static_binding_ids
       operation_reference node_layer_index].
  intros Hn. checks.
  destruct (dict_get _RELATION_ADAPTERS a0) as [ads|] eqn:Ea in Hn; [|discriminate]. checks.
  apply tuple_ok in E6 as ->, E7 as ->. unfold identifiers in E13. apply bind_ok in E13 as (items & ->%tuple_ok & E13).
  injection Hn as -> -> -> -> -> -> ->.
  repeat match goal with H : _ || _ = false |- _ => apply orb_false_iff in H; destruct H end.
  split; cbn.
  - by intros ->.
  - by intros ->.
  - by apply duplicate_free_ok, negb_false_iff.
  - by exists ads.
  - split; [intros [o ->]|intros ->]; destruct (node_linear _) eqn:El in E15; try discriminate E15.
    + by apply bool_decide_eq_true in El.
    + destruct operation; [done|discriminate].
    + by apply bool_decide_eq_false in El.
  - intros o ->. destruct (node_linear _); [|discriminate]. apply reject_ok, negb_false_iff, Z.eqb_eq in E15. congruence.
  - apply identifier_made in E as [_ ?], E0 as [_ ?], E1 as [_ ?], E12 as [_ ?].
    apply identifiers_made in E9 as [_ ?], E10 as [_ ?], E13 as [_ ?]. repeat (apply Forall_cons; split; [done|]).
    rewrite !Forall_app. done.
Qed.

(** ** The walk over the nodes *)

Lemma snoc_split {A} (pre p q : list A) x y :
  pre ++ [x] = p ++ y :: q -> (pre = p /\ x = y /\ q = []) \/ exists q', q = q' ++ [x] /\ pre = p ++ y :: q'.
Proof.
  destruct q as [|z q _] using rev_ind.
  - intros [-> E]%app_inj_tail. by left.
  - rewrite app_comm_cons, app_assoc. intros [-> ->]%app_inj_tail. right. by exists q.
Qed.

Lemma enumerate_snd {A} (l : list A) : (enumerate l).*2 = l.
Proof.
  unfold enumerate. apply list_eq. intros i. rewrite list_lookup_fmap, list_lookup_imap. by destruct (l !! i).
Qed.

Section walk.
Context (self : ExecutionRelationSpecV3).

Definition walk_after (pre : list ExecutionRelationNodeV3) : walk := fold_left (advance self) pre (walk_start self).

Lemma walk_after_snoc pre n : walk_after (pre ++ [n]) = advance self (walk_after pre) n.
Proof. unfold walk_after. by rewrite fold_left_app. Qed.

(** The checks of one node, after the nodes before it. *)
Record node_ok (pre : list ExecutionRelationNodeV3) (i : nat) (n : ExecutionRelationNodeV3) : Prop := {
  no_names : check_node_names self (walk_after pre) i n = Ok tt;
  no_operation : match operation_reference n with
                 | Some operation => check_linear self n operation
                 | None => check_static self n
                 end = Ok tt;
  no_transition : transition_relation (relation_id n) = true -> check_transition self (walk_after pre) n = Ok tt;
  no_bridge : bridge_relation (relation_id n) = true -> check_bridge self (walk_after pre) n = Ok tt;
}.

Lemma walk_node_ok pre item w :
  walk_node self (walk_after pre) item = Ok w -> w = walk_after (pre ++ [item.2]) /\ node_ok pre item.1 item.2.
Proof.
  destruct item as [i n]. unfold walk_node. intros H. checks. apply (inj Ok) in H as <-.
  rewrite walk_after_snoc. split; [done|]. split; [done| | |].
  - done.
  - intros Ht. cbn [snd] in Ht. by rewrite Ht in E1.
  - intros Hb. cbn [snd] in Hb. by rewrite Hb in E2.
Qed.

Lemma walk_ok l w :
  fold_res (walk_node self) (walk_start self) l = Ok w ->
  w = walk_after l.*2 /\ forall p item q, l = p ++ item :: q -> node_ok p.*2 item.1 item.2.
Proof.
  apply (fold_res_ind _ (fun pre w => w = walk_after pre.*2
           /\ forall p item q, pre = p ++ item :: q -> node_ok p.*2 item.1 item.2)).
  - split; [done|]. by intros [|??] ??.
  - intros pre x s1 s2 [-> Hpre] [-> Hx]%walk_node_ok. split; [by rewrite fmap_app|].
    intros p item q [(-> & -> & _)|(q' & _ & ->)]%snoc_split; [done|by eapply Hpre].
Qed.

Lemma walk_checked w :
  fold_res (walk_node self) (walk_start self) (enumerate (nodes self)) = Ok w ->
  w = walk_after (nodes self) /\ forall pre n post, nodes self = pre ++ n :: post -> exists i, node_ok pre i n.
Proof.
  intros [-> Hn]%walk_ok. rewrite enumerate_snd. split; [done|]. intros pre n post E.
  rewrite <- (enumerate_snd (nodes self)) in E. apply fmap_app_inv in E as (p & k & -> & E & Ek).
  symmetry in E. apply fmap_cons_inv in E as ([i m] & q & -> & -> & ->). exists i. by apply (Hn p (i, m) q).
Qed.

(** What the walk has collected. *)
Lemma available_after pre t :
  t ∈ available (walk_after pre) <-> t = request_tensor_id self \/ exists n, n ∈ pre /\ t ∈ output_tensor_ids n.
Proof.
  induction pre as [|n pre IH] using rev_ind.
  - cbn. rewrite list_elem_of_singleton. split; [by left|]. by intros [?|(? & []%not_elem_of_nil & _)].
  - rewrite walk_after_snoc. cbn [available advance]. rewrite elem_of_app, IH. setoid_rewrite elem_of_app.
    setoid_rewrite list_elem_of_singleton. naive_solver.
Qed.

Lemma operations_after pre o :
  o ∈ used_operations (walk_after pre) <-> exists n, n ∈ pre /\ operation_reference n = Some o.
Proof.
  induction pre as [|n pre IH] using rev_ind.
  - cbn. split; [by intros []%not_elem_of_nil|]. by intros (? & []%not_elem_of_nil & _).
  - rewrite walk_after_snoc. cbn [used_operations advance]. rewrite elem_of_app, IH. setoid_rewrite elem_of_app.
    setoid_rewrite list_elem_of_singleton. unfold some_list. destruct (operation_reference n) eqn:E.
    + rewrite list_elem_of_singleton. naive_solver.
    + rewrite elem_of_nil. naive_solver.
Qed.

Definition transition_nodes (l : list ExecutionRelationNodeV3) : list ExecutionRelationNodeV3 :=
  filter (fun n => transition_relation (relation_id n) = true) l.
Definition bridge_nodes (l : list ExecutionRelationNodeV3) : list ExecutionRelationNodeV3 :=
  filter (fun n => bridge_relation (relation_id n) = true) l.

Lemma layers_after pre :
  transition_nodes_by_layer (walk_after pre) = relation_id <$> dict_of node_layer_index (transition_nodes pre)
  /\ transition_node_ids_by_layer (walk_after pre) = node_id <$> dict_of node_layer_index (transition_nodes pre)
  /\ bridge_node_ids_by_layer (walk_after pre) = node_id <$> dict_of node_layer_index (bridge_nodes pre).
Proof.
  induction pre as [|n pre (IH1 & IH2 & IH3)] using rev_ind; [by cbn; rewrite !fmap_empty|].
  rewrite walk_after_snoc. unfold transition_nodes, bridge_nodes in *. cbn. rewrite !filter_app.
  rewrite IH1, IH2, IH3. repeat split.
  - destruct (transition_relation (relation_id n)) eqn:E.
    + rewrite filter_cons_True, filter_nil, dict_of_snoc, fmap_insert by done. done.
    + rewrite filter_cons_False, filter_nil, app_nil_r by congruence. done.
  - destruct (transition_relation (relation_id n)) eqn:E.
    + rewrite filter_cons_True, filter_nil, dict_of_snoc, fmap_insert by done. done.
    + rewrite filter_cons_False, filter_nil, app_nil_r by congruence. done.
  - destruct (bridge_relation (relation_id n)) eqn:E.
    + rewrite filter_cons_True, filter_nil, dict_of_snoc, fmap_insert by done. done.
    + rewrite filter_cons_False, filter_nil, app_nil_r by congruence. done.
Qed.
End walk.

(** What the constructor has checked. *)
Record graph_ok (self : ExecutionRelationSpecV3) : Prop := {
  go_items : check_items self = Ok tt;
  go_ends : check_ends self = Ok tt;
  go_tables : check_tables self = Ok tt;
  go_shapes : check_shapes self = Ok tt;
  go_cache : check_cache_tensors self = Ok tt;
  go_nodes : forall pre n post, nodes self = pre ++ n :: post -> exists i, node_ok self pre i n;
  go_sampler : check_sampler self = Ok tt;
  go_coverage : check_coverage self (walk_after self (nodes self)) = Ok tt;
  go_audits : check_audits self (walk_after self (nodes self)) = Ok tt;
  go_connected : check_connected self = Ok tt;
}.

Lemma post_init_ok self : post_init self = Ok tt -> graph_ok self.
Proof.
  unfold post_init, _validate_graph. intros H. apply bind_ok in H as ([] & Hitems & H).
  apply bind_ok in H as ([] & ? & ([] & ? & ([] & ? & ([] & ? & (w & Hw & ([] & ? & ([] & ? & ([] & ? & ?)
    %bind_ok)%bind_ok)%bind_ok)%bind_ok)%bind_ok)%bind_ok)%bind_ok).
  by apply walk_checked in Hw as [-> Hn].
Qed.

Section valid.
Context (self : ExecutionRelationSpecV3) (Hvalid : graph_ok self) (Hmade : Forall made_node (nodes self)).

Let node_facts n : n ∈ nodes self -> node_made n.
Proof. intros Hn. rewrite Forall_forall in Hmade. by apply made_node_facts, Hmade. Qed.

(** The request, or a tensor that an earlier node computes. *)
Definition before (pre : list ExecutionRelationNodeV3) (t : text) : Prop :=
  t = request_tensor_id self \/ exists n, n ∈ pre /\ t ∈ output_tensor_ids n.

Record node_ordered (pre : list ExecutionRelationNodeV3) (n : ExecutionRelationNodeV3) : Prop := {
  nd_inputs : forall t, t ∈ input_tensor_ids n -> before pre t;
  nd_fresh : forall t, t ∈ output_tensor_ids n -> ~ before pre t;
  nd_declared : input_tensor_ids n ++ output_tensor_ids n ⊆ tensor_names self;
}.

Lemma nodes_ordered pre n post : nodes self = pre ++ n :: post -> node_ordered pre n.
Proof using Hvalid.
  intros E. destruct (go_nodes _ Hvalid _ _ _ E) as [i [Hn _ _ _]]. unfold check_node_names in Hn. checks.
  apply orb_false_iff in E0 as [E0 E0']. rewrite negb_false_iff in E0, E0', E1. apply subset_ok in E0, E0', E1.
  apply orb_false_iff in E2 as [_ E2]. apply negb_false_iff in E2. rewrite disjoint_lists_ok in E2. split.
  - intros t Ht%E1. by apply available_after in Ht.
  - intros t Ht Hb. apply (E2 t Ht). by apply available_after.
  - intros t [Ht|Ht]%elem_of_app; auto.
Qed.

(** Every declared tensor is the request or has a producer. *)
Lemma tensors_produced t : t ∈ tensor_names self <-> before (nodes self) t.
Proof using Hvalid.
  pose proof (go_coverage _ Hvalid) as H. unfold check_coverage in H. checks.
  rewrite negb_false_iff, same_set_ok in E1. by rewrite <- E1, available_after.
Qed.

(** ** The graph determines the execution *)

Section dataflow.
Context {V : Type} (apply : ExecutionRelationNodeV3 -> list V -> list V).

(** An assignment of values to tensors in which every node relates its inputs to
    its outputs. *)
Definition consistent (v : text -> V) : Prop :=
  forall n, n ∈ nodes self -> v <$> output_tensor_ids n = apply n (v <$> input_tensor_ids n).

Fixpoint assign (names : list text) (values : list V) (v : text -> V) : text -> V :=
  match names, values with
  | name :: names, a :: values => fun t => if bool_decide (t = name) then a else assign names values v t
  | _, _ => v
  end.

Definition run_on (l : list ExecutionRelationNodeV3) (x : V) : text -> V :=
  fold_left (fun v n => assign (output_tensor_ids n) (apply n (v <$> input_tensor_ids n)) v) l (fun _ => x).

(** The nodes one after the other, from the value of the request. *)
Definition run (x : V) : text -> V := run_on (nodes self) x.

Lemma assign_other names values v t : t ∉ names -> assign names values v t = v t.
Proof.
  revert values. induction names as [|name names IH]; intros [|a values] Ht; cbn; try done.
  apply not_elem_of_cons in Ht as [Hne Ht]. rewrite bool_decide_eq_false_2 by done. by apply IH.
Qed.

Lemma assign_names names values v :
  NoDup names -> length values = length names -> assign names values v <$> names = values.
Proof.
  revert values. induction names as [|name names IH]; intros [|a values] Hn Hl; cbn in *; try done.
  apply NoDup_cons in Hn as [Hname Hn]. rewrite bool_decide_eq_true_2 by done. f_equal.
  etrans; [|apply (IH values); [done|lia]]. apply list_fmap_ext. intros i t Ht.
  rewrite bool_decide_eq_false_2; [done|]. intros ->. apply Hname. by eapply list_elem_of_lookup_2.
Qed.

Hypothesis apply_length : forall n vs, length (apply n vs) = length (output_tensor_ids n).

Lemma run_on_snoc l n x : run_on (l ++ [n]) x = assign (output_tensor_ids n) (apply n (run_on l x <$> input_tensor_ids n)) (run_on l x).
Proof. unfold run_on. by rewrite fold_left_app. Qed.

Lemma before_snoc pre n t : before pre t -> before (pre ++ [n]) t.
Proof. intros [->|(m & Hm & Ht)]; [by left|]. right. exists m. rewrite elem_of_app. eauto. Qed.

Lemma inputs_before pre post n t : nodes self = pre ++ post -> n ∈ pre -> t ∈ input_tensor_ids n -> before pre t.
Proof using Hvalid.
  intros E (p & q & ->)%list_elem_of_split Ht. rewrite <- app_assoc in E. pose proof (nodes_ordered _ _ _ E) as [Hin _ _].
  destruct (Hin t Ht) as [->|(m & Hm & Hmt)]; [by left|]. right. exists m. rewrite elem_of_app. eauto.
Qed.

(** A tensor keeps the value it has when its producer has run. *)
Lemma run_on_stable pre n post x t :
  nodes self = pre ++ n :: post -> before pre t -> run_on (pre ++ [n]) x t = run_on pre x t.
Proof using Hvalid.
  intros E Ht. rewrite run_on_snoc. apply assign_other. intros Hout.
  by apply (nd_fresh _ _ (nodes_ordered _ _ _ E) t).
Qed.

Lemma run_on_spec pre post x :
  nodes self = pre ++ post ->
  run_on pre x (request_tensor_id self) = x
  /\ forall n, n ∈ pre -> run_on pre x <$> output_tensor_ids n = apply n (run_on pre x <$> input_tensor_ids n).
Proof using Hvalid Hmade apply_length.
  revert post. induction pre as [|n pre IH] using rev_ind; intros post E.
  { split; [done|]. by intros n []%not_elem_of_nil. }
  rewrite <- app_assoc in E. cbn in E. destruct (IH _ E) as [Hx Hpre]. split.
  { rewrite (run_on_stable pre n post) by (done || by left). done. }
  intros m [Hm|Hm%list_elem_of_singleton]%elem_of_app; [|subst m].
  - assert (run_on (pre ++ [n]) x <$> output_tensor_ids m = run_on pre x <$> output_tensor_ids m) as ->.
    { apply list_fmap_ext. intros i t Ht%list_elem_of_lookup_2. eapply run_on_stable; [done|]. right. eauto. }
    assert (run_on (pre ++ [n]) x <$> input_tensor_ids m = run_on pre x <$> input_tensor_ids m) as ->; [|by apply Hpre].
    apply list_fmap_ext. intros i t Ht%list_elem_of_lookup_2. eapply run_on_stable; [done|]. by eapply inputs_before.
  - assert (run_on (pre ++ [n]) x <$> input_tensor_ids n = run_on pre x <$> input_tensor_ids n) as ->.
    { apply list_fmap_ext. intros i t Ht%list_elem_of_lookup_2. eapply run_on_stable; [done|].
      by apply (nd_inputs _ _ (nodes_ordered _ _ _ E)). }
    rewrite run_on_snoc. apply assign_names; [|apply apply_length].
    apply (nm_distinct n), node_facts. rewrite E, elem_of_app. right. left.
Qed.

Lemma consistent_unique v v' pre post :
  nodes self = pre ++ post -> consistent v -> consistent v' -> v (request_tensor_id self) = v' (request_tensor_id self) ->
  forall t, before pre t -> v t = v' t.
Proof using Hvalid.
  intros E Hv Hv' Hr. revert post E. induction pre as [|n pre IH] using rev_ind; intros post E t.
  { by intros [->|(? & []%not_elem_of_nil & _)]. }
  rewrite <- app_assoc in E. cbn in E. specialize (IH _ E). intros [->|(m & [Hm|Hm%list_elem_of_singleton]%elem_of_app & Ht)]; [done| |subst m].
  { apply IH. right. eauto. }
  assert (n ∈ nodes self) as Hn by (rewrite E, elem_of_app; right; left).
  assert (v <$> input_tensor_ids n = v' <$> input_tensor_ids n) as Hin.
  { apply list_fmap_ext. intros i u Hu%list_elem_of_lookup_2. by apply IH, (nd_inputs _ _ (nodes_ordered _ _ _ E)). }
  assert (v <$> output_tensor_ids n = v' <$> output_tensor_ids n) as Hout by (rewrite Hv, Hv', Hin; done).
  apply list_elem_of_lookup in Ht as [i Hi]. apply (f_equal (lookup i)) in Hout.
  rewrite !list_lookup_fmap, Hi in Hout. by injection Hout.
Qed.
End dataflow.

(** ** Every tensor is on the way from the request to the final token *)

Definition feeds (t u : text) : Prop := exists n, n ∈ nodes self /\ t ∈ input_tensor_ids n /\ u ∈ output_tensor_ids n.

Lemma reached_from_request pre post t :
  nodes self = pre ++ post -> before pre t -> rtc feeds (request_tensor_id self) t.
Proof using Hvalid Hmade.
  revert post t. induction pre as [|n pre IH] using rev_ind; intros post t E.
  { by intros [->|(? & []%not_elem_of_nil & _)]. }
  rewrite <- app_assoc in E. cbn in E. specialize (IH _ t E) as IHt.
  intros [->|(m & [Hm|Hm%list_elem_of_singleton]%elem_of_app & Ht)]; [done| |subst m].
  { apply IHt. right. eauto. }
  assert (n ∈ nodes self) as Hn by (rewrite E, elem_of_app; right; left).
  destruct (input_tensor_ids n) as [|u us] eqn:Eu; [by destruct (nm_inputs n (node_facts n Hn))|].
  eapply rtc_r with u.
  - apply (IH _ u E), (nd_inputs _ _ (nodes_ordered _ _ _ E)). rewrite Eu. left.
  - exists n. split_and!; [done| |done]. rewrite Eu. left.
Qed.

Lemma reaches_final t : t ∈ tensor_names self -> rtc feeds t (final_token_tensor_id self).
Proof using Hvalid Hmade.
  intros Ht. pose proof (go_connected _ Hvalid) as H. unfold check_connected in H. apply bind_ok in H as (needed & Hf & H).
  apply reject_ok, negb_false_iff in H. rewrite same_set_ok in H.
  assert (t ∈ needed) as Hn.
  { apply H. rewrite elem_of_app, list_elem_of_singleton, list_elem_of_bind. apply tensors_produced in Ht as [->|(n & Hn & Ht)].
    - by left.
    - right. exists n. rewrite elem_of_app. auto. }
  assert (rev (nodes self) ⊆ nodes self -> forall u, u ∈ needed -> rtc feeds u (final_token_tensor_id self)) as Hall.
  { clear H Hn. revert Hf. apply (fold_res_ind _ (fun pre s => pre ⊆ nodes self -> forall u, u ∈ s -> rtc feeds u (final_token_tensor_id self))).
    - intros _ u ->%list_elem_of_singleton. done.
    - intros pre n s1 s2 Hpre Hn Hsub u. unfold needed_before in Hn. checks. apply (inj Ok) in Hn as <-.
      apply negb_false_iff, subset_ok in E. intros [Hu|Hu]%elem_of_app; [apply Hpre; [set_solver|done]|].
      assert (n ∈ nodes self) as Hin by set_solver.
      destruct (output_tensor_ids n) as [|o os] eqn:Eo; [by destruct (nm_outputs n (node_facts n Hin))|].
      eapply rtc_l with o; [exists n; split_and!; [done|done|rewrite Eo; left]|].
      apply Hpre; [set_solver|]. apply E. left. }
  apply Hall; [|done]. intros n. by rewrite !list_elem_of_In, <- in_rev.
Qed.

(** A tensor has one producer. *)
Lemma producer_unique pre n post m t :
  nodes self = pre ++ n :: post -> m ∈ nodes self -> t ∈ output_tensor_ids n -> t ∈ output_tensor_ids m -> m = n.
Proof using Hvalid.
  intros E Hm Hn Ht. rewrite E in Hm. apply elem_of_app in Hm as [Hm|[->|Hm]%elem_of_cons]; [|done|].
  - destruct (nd_fresh _ _ (nodes_ordered _ _ _ E) t Hn). right. eauto.
  - apply list_elem_of_split in Hm as (q & r & ->). rewrite app_comm_cons, app_assoc in E.
    destruct (nd_fresh _ _ (nodes_ordered _ _ _ E) t Ht). right. exists n. split; [|done].
    rewrite elem_of_app. right. left.
Qed.

Lemma feeds_before pre post t u : nodes self = pre ++ post -> before pre t -> feeds u t -> before pre u.
Proof using Hvalid.
  intros E Ht (n & Hn & Hu & Hout). apply list_elem_of_split in Hn as (p & q & En).
  destruct Ht as [->|(m & Hm & Hmt)].
  - destruct (nd_fresh _ _ (nodes_ordered _ _ _ En) (request_tensor_id self) Hout). by left.
  - eapply inputs_before; [done| |done]. rewrite <- (producer_unique p n q m t); [done|done| |done|done].
    rewrite E, elem_of_app. by left.
Qed.

Lemma ancestors_before pre post t u : nodes self = pre ++ post -> before pre t -> tc feeds u t -> before pre u.
Proof using Hvalid.
  intros E Ht Hut. induction Hut as [u t Hut|u w t Huw _ IH]; [by eapply feeds_before|].
  eapply feeds_before; [done| |done]. by apply IH.
Qed.

Lemma tc_last {A} (R : relation A) x y : tc R x y -> exists w, rtc R x w /\ R w y.
Proof.
  induction 1 as [x y Hxy|x z y Hxz _ (w & Hw & Hy)]; [by exists x|]. exists w. split; [by eapply rtc_l|done].
Qed.

Lemma feeds_acyclic t : ~ tc feeds t t.
Proof using Hvalid.
  intros Ht. pose proof (tc_last _ _ _ Ht) as (w & Hw & n & Hn & Hin & Hout).
  apply list_elem_of_split in Hn as (p & q & En). pose proof (nodes_ordered _ _ _ En) as [Hinputs Hfresh _].
  apply (Hfresh t Hout). specialize (Hinputs w Hin). apply rtc_tc in Hw as [->|Hw]; [done|].
  by eapply ancestors_before.
Qed.

(** ** Layers *)

Lemma one_per_layer (kind : ExecutionRelationNodeV3 -> bool) (seen : walk -> gmap Z text) :
  (forall pre l, is_Some (seen (walk_after self pre) !! l) <-> l ∈ node_layer_index <$> filter (fun n => kind n = true) pre) ->
  (forall pre i n, node_ok self pre i n -> kind n = true -> seen (walk_after self pre) !! node_layer_index n = None) ->
  NoDup (node_layer_index <$> filter (fun n => kind n = true) (nodes self)).
Proof using Hvalid.
  intros Hseen Hnew. cut (forall pre post, nodes self = pre ++ post -> NoDup (node_layer_index <$> filter (fun n => kind n = true) pre)).
  { intros H. apply (H _ []). by rewrite app_nil_r. }
  induction pre as [|n pre IH] using rev_ind; intros post E; [constructor|]. rewrite <- app_assoc in E. cbn in E.
  rewrite filter_app, fmap_app. apply NoDup_app. split_and!; [by eapply IH| |].
  - intros l Hl Hn. apply list_elem_of_fmap in Hn as (m & -> & [Hk ->%list_elem_of_singleton]%list_elem_of_filter).
    destruct (go_nodes _ Hvalid _ _ _ E) as [i Hn]. apply (Hnew _ _ _) in Hn; [|done].
    apply Hseen in Hl. rewrite Hn in Hl. by destruct Hl.
  - destruct (kind n) eqn:Ek; [rewrite filter_cons_True by done|rewrite filter_cons_False by congruence]; cbn.
    + apply NoDup_singleton.
    + constructor.
Qed.

Lemma one_transition : NoDup (node_layer_index <$> transition_nodes (nodes self)).
Proof using Hvalid.
  apply (one_per_layer (fun n => transition_relation (relation_id n)) transition_nodes_by_layer).
  - intros pre l. destruct (layers_after self pre) as (-> & _ & _). rewrite lookup_fmap, fmap_is_Some. apply dict_of_is_some.
  - intros pre i n [_ _ Ht _] Hk. specialize (Ht Hk). unfold check_transition in Ht.
    destruct (families self !! _); [|discriminate]. checks. apply bool_decide_eq_false in Ht.
    by apply eq_None_not_Some.
Qed.

Lemma one_bridge : NoDup (node_layer_index <$> bridge_nodes (nodes self)).
Proof using Hvalid.
  apply (one_per_layer (fun n => bridge_relation (relation_id n)) bridge_node_ids_by_layer).
  - intros pre l. destruct (layers_after self pre) as (_ & _ & ->). rewrite lookup_fmap, fmap_is_Some. apply dict_of_is_some.
  - intros pre i n [_ _ _ Hb] Hk. specialize (Hb Hk). unfold check_bridge in Hb.
    destruct (families self !! _); [|discriminate]. checks. apply bool_decide_eq_false in Hb.
    by apply eq_None_not_Some.
Qed.

Lemma one_plan : NoDup (layer_index <$> layer_audits self).
Proof using Hvalid. pose proof (go_items _ Hvalid) as H. unfold check_items in H. checks. by eapply strictly_sorted_ok. Qed.

(** The plans, transitions, bridges and families are those of the registered
    layers. *)
Lemma layers_registered l :
  (l ∈ layer_index <$> layer_audits self <-> l ∈ required_layers self)
  /\ (l ∈ node_layer_index <$> transition_nodes (nodes self) <-> l ∈ required_layers self)
  /\ (l ∈ node_layer_index <$> bridge_nodes (nodes self) <-> l ∈ required_layers self)
  /\ (l ∈ cache_layer_index <$> layer_caches (cache self) <-> l ∈ required_layers self).
Proof using Hvalid.
  pose proof (go_coverage _ Hvalid) as H. pose proof (go_audits _ Hvalid) as Ha. unfold check_coverage in H.
  unfold check_audits in Ha. destruct (layers_after self (nodes self)) as (Et & Ei & Eb). checks.
  rewrite negb_false_iff, same_set_ok in H, E, E5, E6. rewrite Et in E6. rewrite Eb in H.
  specialize (H l). specialize (E l). specialize (E5 l). specialize (E6 l). unfold audit_by_layer, families in *.
  rewrite elem_of_keys, lookup_fmap, fmap_is_Some, dict_of_is_some in H.
  rewrite elem_of_keys, dict_of_is_some in E. rewrite elem_of_keys, dict_of_is_some in E5.
  rewrite elem_of_keys, lookup_fmap, fmap_is_Some, dict_of_is_some in E6. done.
Qed.

(** The plan of a layer agrees with the graph. *)
Lemma plan_checked plan :
  plan ∈ layer_audits self ->
  exists transition bridge family,
    transition ∈ transition_nodes (nodes self) /\ node_layer_index transition = layer_index plan
    /\ bridge ∈ bridge_nodes (nodes self) /\ node_layer_index bridge = layer_index plan
    /\ families self !! layer_index plan = Some family
    /\ transition_node_id plan = node_id transition /\ bridge_node_id plan = node_id bridge
    /\ validate_for_transition_kind plan (PStr (relation_id transition)) = Ok tt
    /\ (forall o, o ∈ required_operation_references plan <-> o ∈ registered_operations self /\ op_layer_index o = layer_index plan).
Proof using Hvalid.
  intros Hp. pose proof (go_audits _ Hvalid) as Ha. unfold check_audits in Ha. checks. clear Ha.
  assert (layer_index plan ∈ required_layers self) as Hr 
    by (apply (proj1 (layers_registered _)), list_elem_of_fmap_2, Hp).
  destruct (fold_res_each _ _ _ _ (layer_index plan) E0) as ([full gdn] & s2 & Hl); [by apply elem_of_py_sorted_set|].
  unfold check_layer in Hl. destruct (layers_after self (nodes self)) as (Et & Ei & Eb). rewrite Et, Ei, Eb in Hl. checks.
  apply index_ok in E1. unfold audit_by_layer in E1. rewrite dict_of_lookup in E1 by (apply one_plan || done).
  injection E1 as <-. apply index_ok in E2, E4, E6. rewrite !lookup_fmap in E2, E4, E6.
  apply fmap_Some in E2 as (tn & Etn & ->), E4 as (tn' & Etn' & ->), E6 as (bn & Ebn & ->).
  rewrite Etn in Etn'. injection Etn' as <-. apply dict_of_some in Etn as [Htn Htl], Ebn as [Hbn Hbl].
  assert (is_Some (families self !! layer_index plan)) as [family Hf].
  { apply dict_of_is_some. by destruct (layers_registered (layer_index plan)) as (_ & _ & _ & ->). }
  exists tn, bn, family. apply negb_false_iff in E5, E7, E8. apply bool_decide_eq_true in E5, E7.
  rewrite same_set_ok in E8. split_and!; try done.
  intros o. rewrite E8, list_elem_of_filter. naive_solver.
Qed.

(** The kind of a plan is the kind of the transition it names. *)
Lemma plan_kind plan r :
  transition_relation r = true -> validate_for_transition_kind plan (PStr r) = Ok tt ->
  is_full_attention plan = bool_decide (r = FULL_ATTENTION_RELATION).
Proof.
  unfold transition_relation, validate_for_transition_kind, member. intros Hr H. apply bool_decide_eq_true in Hr.
  rewrite bool_decide_eq_true_2 in H by exact Hr. cbn [mbind res_bind] in H.
  change (t_lit <$> ["full_attention"; "gdn"]) with [t_lit "full_attention"; t_lit "gdn"] in Hr.
  change FULL_ATTENTION_RELATION with (t_lit "full_attention").
  apply elem_of_cons in Hr as [Hr|Hr%list_elem_of_singleton]; subst r.
  - rewrite bool_decide_eq_true_2 in H |- * by done. cbn [andb] in H. by destruct (is_full_attention plan).
  - rewrite bool_decide_eq_false_2 in H |- * by (by vm_compute). rewrite bool_decide_eq_true_2 in H by done. cbn [andb] in H.
    by destruct (is_full_attention plan).
Qed.

(** The loop over the layers splits the plans of these layers by their kind. *)
Lemma layers_loop l s :
  fold_res (check_layer self (walk_after self (nodes self))) ([], []) l = Ok s ->
  exists ps, ps ⊆ layer_audits self /\ layer_index <$> ps = l
    /\ s = (filter (fun p => is_full_attention p = true) ps, filter (fun p => is_full_attention p = false) ps).
Proof using Hvalid.
  clear node_facts Hmade. apply (fold_res_ind _ (fun pre s => exists ps, ps ⊆ layer_audits self /\ layer_index <$> ps = pre
    /\ s = (filter (fun p => is_full_attention p = true) ps, filter (fun p => is_full_attention p = false) ps))).
  { exists []. split_and!; [|done|done]. set_solver. }
  intros pre l1 s1 s2 (ps & Hps & <- & ->) H. unfold check_layer in H. checks.
  apply index_ok in E, E0. apply dict_of_some in E as [Hplan <-].
  destruct (layers_after self (nodes self)) as (Et & _ & _). rewrite Et, lookup_fmap in E0.
  apply fmap_Some in E0 as (n & Hn & ->). apply dict_of_some in Hn as [[Hn _]%list_elem_of_filter _].
  pose proof (plan_kind _ _ Hn E1) as Hk. apply (inj Ok) in H as <-.
  exists (ps ++ [a]). split_and!; [set_solver|by rewrite fmap_app|]. rewrite !filter_app, <- Hk.
  destruct (is_full_attention a) eqn:Ea.
  - by rewrite filter_cons_True, filter_cons_False, !filter_nil, app_nil_r by congruence.
  - by rewrite filter_cons_False, filter_cons_True, !filter_nil, app_nil_r by congruence.
Qed.

Lemma coverage_checked : validate_audit_coverage (audit_policy self) (layer_audits self) = Ok tt.
Proof using Hvalid.
  pose proof (go_audits _ Hvalid) as H. unfold check_audits in H. checks. destruct a0 as [full gdn].
  apply layers_loop in E0 as (ps & Hps & Hl & [= -> ->]).
  pose proof (go_items _ Hvalid) as Hi. unfold check_items in Hi. checks. clear Hi.
  match goal with H : _strictly_sorted Z.ltb _ _ = Ok tt |- _ => rename H into Hsorted end.
  assert (ps = layer_audits self) as ->.
  { rewrite (py_sorted_set_unique _ _ _ Hsorted) in Hl by (intros x; by apply layers_registered).
    apply list_eq. intros i. apply (f_equal (lookup i)) in Hl. rewrite !list_lookup_fmap in Hl.
    destruct (ps !! i) as [p|] eqn:Ep, (layer_audits self !! i) as [q|] eqn:Eq; try done. injection Hl as Hl. f_equal.
    apply list_elem_of_lookup_2, Hps in Ep. apply list_elem_of_lookup_2 in Eq.
    pose proof (dict_of_lookup _ _ _ one_plan Ep) as H1. rewrite Hl, (dict_of_lookup _ _ _ one_plan Eq) in H1. congruence. }
  unfold validate_audit_coverage. unfold audit_by_layer in H. rewrite dict_of_size in H by apply one_plan. done.
Qed.

Lemma elem_of_required_layers l : l ∈ required_layers self <-> 0 <= l /\ exists o, o ∈ registered_operations self /\ op_layer_index o = l.
Proof.
  unfold required_layers. rewrite elem_of_remove_dups, list_elem_of_filter, list_elem_of_fmap. naive_solver.
Qed.

Lemma transition_checked n :
  n ∈ transition_nodes (nodes self) ->
  exists family, families self !! node_layer_index n = Some family
    /\ cache_kind family = expected_cache_kind (relation_id n) /\ tensor_ids family ⊆ output_tensor_ids n.
Proof using Hvalid.
  intros [Hk (p & q & En)%list_elem_of_split]%list_elem_of_filter. destruct (go_nodes _ Hvalid _ _ _ En) as [i [_ _ Ht _]].
  specialize (Ht Hk). unfold check_transition in Ht. destruct (families self !! _) as [family|]; [|discriminate]. checks.
  apply negb_false_iff, bool_decide_eq_true in E. apply negb_false_iff, subset_ok in E0. by exists family.
Qed.

Lemma bridge_checked n :
  n ∈ bridge_nodes (nodes self) ->
  exists family, families self !! node_layer_index n = Some family /\ tensor_ids family ⊆ input_tensor_ids n.
Proof using Hvalid.
  intros [Hk (p & q & En)%list_elem_of_split]%list_elem_of_filter. destruct (go_nodes _ Hvalid _ _ _ En) as [i [_ _ _ Hb]].
  specialize (Hb Hk). unfold check_bridge in Hb. destruct (families self !! _) as [family|]; [|discriminate]. checks.
  apply negb_false_iff, subset_ok in E. by exists family.
Qed.

Lemma operation_used o : o ∈ registered_operations self <-> exists n, n ∈ nodes self /\ operation_reference n = Some o.
Proof using Hvalid.
  pose proof (go_coverage _ Hvalid) as H. unfold check_coverage in H. checks.
  rewrite negb_false_iff, same_set_ok in E. by rewrite <- E, operations_after.
Qed.

(** The layer of a registered operation, as the graph, the cache and the audits
    describe it. *)
Record layer_complete (layer : Z) (plan : LayerAuditPlanV3) (transition bridge : ExecutionRelationNodeV3)
    (family : LayerCacheRelationV3) : Prop := {
  lc_plan : filter (fun p => layer_index p = layer) (layer_audits self) = [plan];
  lc_transition : filter (fun n => node_layer_index n = layer) (transition_nodes (nodes self)) = [transition];
  lc_bridge : filter (fun n => node_layer_index n = layer) (bridge_nodes (nodes self)) = [bridge];
  lc_family : filter (fun f => cache_layer_index f = layer) (layer_caches (cache self)) = [family];
  lc_nodes : transition_node_id plan = node_id transition /\ bridge_node_id plan = node_id bridge;
  lc_kind : is_full_attention plan = bool_decide (relation_id transition = FULL_ATTENTION_RELATION)
    /\ cache_kind family = expected_cache_kind (relation_id transition);
  lc_cache : tensor_ids family ⊆ output_tensor_ids transition /\ tensor_ids family ⊆ input_tensor_ids bridge;
  lc_operations : forall o, o ∈ required_operation_references plan
    <-> op_layer_index o = layer /\ exists n, n ∈ nodes self /\ node_layer_index n = layer /\ operation_reference n = Some o;
}.

Lemma layer_is_complete layer :
  NoDup (cache_layer_index <$> layer_caches (cache self)) -> layer ∈ required_layers self ->
  exists plan transition bridge family, layer_complete layer plan transition bridge family.
Proof using Hvalid Hmade.
  intros Hcache Hl. pose proof (proj2 (proj1 (layers_registered layer)) Hl) as (plan & -> & Hp)%list_elem_of_fmap.
  destruct (plan_checked plan Hp) as (tn & bn & family & Htn & Htl & Hbn & Hbl & Hf & Ht & Hb & Hk & Ho).
  destruct (transition_checked tn Htn) as (f & Hf1 & Hkind & Hout). rewrite Htl, Hf in Hf1. injection Hf1 as <-.
  destruct (bridge_checked bn Hbn) as (f & Hf1 & Hin). rewrite Hbl, Hf in Hf1. injection Hf1 as <-.
  apply dict_of_some in Hf as [Hf Hfl]. exists plan, tn, bn, family. split; try done.
  - by apply filter_key; [apply one_plan|].
  - rewrite <- Htl. by apply filter_key; [apply one_transition|].
  - rewrite <- Hbl. by apply filter_key; [apply one_bridge|].
  - rewrite <- Hfl. by apply filter_key.
  - split; [|done]. apply plan_kind; [|done]. by apply list_elem_of_filter in Htn as [? _].
  - intros o. rewrite Ho, operation_used. split.
    + intros [(n & Hn & Eo) <-]. split; [done|]. exists n. split_and!; [done| |done].
      symmetry. by apply (nm_layer n (node_facts n Hn)).
    + intros [<- (n & Hn & _ & Eo)]. split; [|done]. by exists n.
Qed.
End valid.

(** The declarations of the cache, as the constructor accepts them. *)
Definition remake_cache (c : CacheRelationSpecV3) : res CacheRelationSpecV3 :=
  CacheRelationSpecV3_new (PStr (logical_address_abi_id c)) (PStr (cache_semantics_id c)) (PStr (retention_lease_abi_id c))
    (PInt (page_token_count c)) (PInt (max_cache_tokens c)) (layer_caches c) (PBool false)
    (PBool (allows_prefix_cache_sharing c)) (PBool false) (PInt (prefix_cache_k_cell_delta_max c))
    (PInt (prefix_cache_k_row_sq_delta_max c)) (PInt (prefix_cache_v_cell_delta_max c)) (PInt (prefix_cache_v_row_sq_delta_max c)).
Definition made_cache (c : CacheRelationSpecV3) : Prop := remake_cache c = Ok c.

Lemma made_cache_layers c : made_cache c -> NoDup (cache_layer_index <$> layer_caches c).
Proof.
  unfold made_cache, remake_cache, CacheRelationSpecV3_new. destruct c. cbn [layer_caches allows_prefix_cache_sharing].
  intros H. checks. by eapply strictly_sorted_ok.
Qed.

(** ** The properties *)

Import Profile Challenge.

(** C17 A graph that passes validation is a program: for any meaning of the
    nodes, running them in their order from the value of the request tensor
    gives every node's outputs from its inputs, and any assignment of values to
    tensors in which the nodes relate their inputs to their outputs agrees with
    that run on every declared tensor, the final token among them. *)
Theorem graph_determines_execution {V} (apply : ExecutionRelationNodeV3 -> list V -> list V) self x :
  post_init self = Ok tt -> Forall made_node (nodes self) ->
  (forall n vs, length (apply n vs) = length (output_tensor_ids n)) ->
  consistent self apply (run self apply x) /\ run self apply x (request_tensor_id self) = x
  /\ forall v, consistent self apply v -> v (request_tensor_id self) = x ->
       forall t, t ∈ tensor_names self -> v t = run self apply x t.
Proof.
  intros Hvalid%post_init_ok Hmade Hlen.
  destruct (run_on_spec self Hvalid Hmade apply Hlen (nodes self) [] x ltac:(by rewrite app_nil_r)) as [Hx Hrun].
  split_and!; [done|done|]. intros v Hv Hr t Ht%tensors_produced; [|done].
  eapply consistent_unique; [done| |done|exact Hrun| |done]; [by rewrite app_nil_r|]. by rewrite Hr.
Qed.

(** C18 No declaration of a valid graph is idle: every tensor is computed from
    the request and contributes to the final token, no tensor depends on itself,
    every node's outputs are computed by that node only, and every registered
    operation is one of the nodes. *)
Theorem graph_connected self :
  post_init self = Ok tt -> Forall made_node (nodes self) ->
  (forall t, t ∈ tensor_names self ->
     rtc (feeds self) (request_tensor_id self) t /\ rtc (feeds self) t (final_token_tensor_id self) /\ ~ tc (feeds self) t t)
  /\ (forall n m t, n ∈ nodes self -> m ∈ nodes self -> t ∈ output_tensor_ids n -> t ∈ output_tensor_ids m -> n = m)
  /\ (forall o, o ∈ registered_operations self <-> exists n, n ∈ nodes self /\ operation_reference n = Some o).
Proof.
  intros Hvalid%post_init_ok Hmade. split_and!.
  - intros t Ht. split_and!.
    + apply (reached_from_request self Hvalid Hmade (nodes self) []); [by rewrite app_nil_r|]. by apply tensors_produced.
    + by apply reaches_final.
    + by apply feeds_acyclic.
  - intros n m t (p & q & En)%list_elem_of_split Hm Hn Ht. symmetry. by eapply producer_unique.
  - intros o. by apply operation_used.
Qed.

(** C19 Every layer with a registered operation is signed completely: it has
    exactly one audit plan, one transition, one bridge and one cache family; the
    plan names these nodes and has the kind of the transition; the transition
    computes the cache tables of the layer and the bridge reads them; the
    operations of the plan are exactly those of the layer's nodes.  And no plan,
    transition, bridge or family belongs to another layer. *)
Theorem registered_layers_complete self :
  post_init self = Ok tt -> Forall made_node (nodes self) -> made_cache (cache self) ->
  (forall o, o ∈ registered_operations self -> 0 <= op_layer_index o ->
     exists plan transition bridge family, layer_complete self (op_layer_index o) plan transition bridge family)
  /\ (forall l, l ∈ (layer_index <$> layer_audits self) ++ (node_layer_index <$> transition_nodes (nodes self))
               ++ (node_layer_index <$> bridge_nodes (nodes self)) ++ (cache_layer_index <$> layer_caches (cache self)) ->
     0 <= l /\ exists o, o ∈ registered_operations self /\ op_layer_index o = l).
Proof.
  intros Hvalid%post_init_ok Hmade Hc%made_cache_layers. split.
  - intros o Ho Hl. apply layer_is_complete; [done|done|done|]. apply elem_of_required_layers. eauto.
  - intros l Hl. apply elem_of_required_layers. destruct (layers_registered self Hvalid l) as (H1 & H2 & H3 & H4).
    rewrite !elem_of_app, H1, H2, H3, H4 in Hl. tauto.
Qed.

(** C20 The layers, rows and heads of a hard audit: for a profile whose spec
    comes out of its constructor, and any transcript, the derivation returns a
    selection of exactly the signed number of layers, in increasing order and
    without repetition, with at least the signed number of full-attention layers
    and of GDN layers; each selected layer is a complete layer of the graph with
    its own kind, its rows are a window of the signed length (or the whole
    sequence) inside the sequence, and a full-attention layer has exactly the
    signed number of distinct heads among its query heads.  It raises exactly
    in these cases: the policy is signed for another selection ABI, the token
    count of the envelope is zero or overflows, the profile has no digest, or
    the sampler's counter overflows. *)
Theorem hard_audit_selection_correct `{Digest} transcript profile envelope :
  let spec := relation_spec profile in
  let stratified := selection_abi_id (audit_policy spec) = STRATIFIED_LAYER_HEAD_SELECTION_ABI_V3 in
  let count := Payload.context_token_count envelope + Payload.decode_token_count envelope in
  post_init spec = Ok tt -> Forall made_node (nodes spec) -> made_cache (cache spec) ->
  Forall signed_plan (layer_audits spec) -> signed_policy (audit_policy spec) -> bytes32 transcript ->
  match derive_hard_audit_selection_v3 (PBytes transcript) profile envelope with
  | Ok sel => stratified /\ 0 < count < 2 ^ 32 /\ is_ok (profile_digest profile) = true
      /\ selection_correct (audit_policy spec) (layer_audits spec) count sel
      /\ forall l, l ∈ layers sel -> exists plan transition bridge family,
           layer_complete spec (sel_layer_index l) plan transition bridge family
  | Err e => ~ stratified /\ e = Exc ProofV3Error "signed hard-audit selection ABI is not supported"
      \/ stratified /\ ~ 0 < count < 2 ^ 32 /\ e = Exc ProofV3Error "hard-audit sequence token count is invalid"
      \/ stratified /\ 0 < count < 2 ^ 32 /\ (profile_digest profile = Err e \/ e = overflow)
  end.
Proof.
  intros spec stratified count Hvalid%post_init_ok Hmade Hc%made_cache_layers Hplans Hpolicy Ht.
  assert (signed_audits (audit_policy spec) (layer_audits spec)) as Hsigned.
  { split; [done|done| |by apply coverage_checked]. pose proof (go_items _ Hvalid) as H1. unfold check_items in H1. checks. done. }
  destruct (decide stratified) as [Habi|Hno]; [|rewrite other_abi_refused by done; left; by split].
  destruct (decide (0 < count < 2 ^ 32)) as [Hcount|Hno]; [|rewrite count_refused by done; right; left; by split_and!].
  destruct (profile_digest profile) as [digest|e] eqn:Hdigest; 
    [|erewrite digest_failure by done; right; right; split_and!; [done|apply Hcount|apply Hcount|by left]].
  pose proof (selection_of_signed_audits transcript profile envelope digest Hsigned Habi Hdigest Ht Hcount) as Hs.
  destruct (derive_hard_audit_selection_v3 _ _ _) as [sel|e]; [|rewrite Hs; right; right; split_and!; [done|apply Hcount|apply Hcount|by right]].
  split_and!; [done|apply Hcount|apply Hcount|done|done|]. intros l Hl.
  apply layer_is_complete; [done|done|done|]. apply (proj1 (layers_registered spec Hvalid _)).
  pose proof (sc_windows _ _ _ _ Hs) as Hw. rewrite Forall_forall in Hw. destruct (Hw l Hl) as (p & Hp & Hi & _).
  rewrite Hi. by apply list_elem_of_fmap_2.
Qed.

(** ** Witnesses *)

Lemma graph_spec_valid : post_init graph_spec = Ok tt.
Proof. vm_compute. reflexivity. Qed.

Lemma graph_nodes_made : Forall made_node (nodes graph_spec).
Proof. repeat (apply Forall_cons; split; [vm_compute; reflexivity|]). constructor. Qed.

Lemma graph_cache_made : made_cache (cache graph_spec).
Proof. vm_compute. reflexivity. Qed.

(** Every output of a node is the number of the nodes it depends on. *)
Definition count_inputs (n : ExecutionRelationNodeV3) (vs : list nat) : list nat :=
  replicate (length (output_tensor_ids n)) (S (list_sum vs)).

Lemma graph_determines_execution_witness :
  consistent graph_spec count_inputs (run graph_spec count_inputs 0%nat)
  /\ run graph_spec count_inputs 0%nat (t_lit "prompt") = 0%nat
  /\ forall v, consistent graph_spec count_inputs v -> v (t_lit "prompt") = 0%nat ->
       forall t, t ∈ tensor_names graph_spec -> v t = run graph_spec count_inputs 0%nat t.
Proof.
  apply (graph_determines_execution count_inputs graph_spec 0%nat graph_spec_valid graph_nodes_made).
  intros n vs. apply length_replicate.
Defined.

Example run_sample : run graph_spec count_inputs 0%nat (at_layer "hidden" 1) = 10%nat.
Proof. vm_compute. reflexivity. Qed.

Lemma graph_connected_witness :
  (forall t, t ∈ tensor_names graph_spec ->
     rtc (feeds graph_spec) (t_lit "prompt") t /\ rtc (feeds graph_spec) t (t_lit "output") /\ ~ tc (feeds graph_spec) t t)
  /\ (forall n m t, n ∈ nodes graph_spec -> m ∈ nodes graph_spec -> t ∈ output_tensor_ids n -> t ∈ output_tensor_ids m -> n = m)
  /\ (forall o, o ∈ registered_operations graph_spec <-> exists n, n ∈ nodes graph_spec /\ operation_reference n = Some o).
Proof. exact (graph_connected graph_spec graph_spec_valid graph_nodes_made). Defined.

Lemma registered_layers_complete_witness :
  (exists plan transition bridge family, layer_complete graph_spec 3 plan transition bridge family)
  /\ (forall l, l ∈ layer_index <$> layer_audits graph_spec -> 0 <= l).
Proof.
  destruct (registered_layers_complete graph_spec graph_spec_valid graph_nodes_made graph_cache_made) as [H1 H2]. split.
  - apply (H1 (sample_operation 3)); [|vm_compute; discriminate]. change (registered_operations graph_spec) with sample_operations.
    repeat (left || right).
  - intros l Hl. apply H2. rewrite elem_of_app. by left.
Defined.

#[local] Existing Instance checksum_digest.

Lemma hard_audit_selection_correct_witness :
  match derive_hard_audit_selection_v3 (PBytes (replicate 32 x16)) graph_profile sample_envelope with
  | Ok sel => selection_abi_id sample_policy = STRATIFIED_LAYER_HEAD_SELECTION_ABI_V3 /\ 0 < 60 < 2 ^ 32
      /\ is_ok (profile_digest graph_profile) = true /\ selection_correct sample_policy sample_plans 60 sel
      /\ forall l, l ∈ layers sel -> exists plan transition bridge family,
           layer_complete graph_spec (sel_layer_index l) plan transition bridge family
  | Err e => selection_abi_id sample_policy <> STRATIFIED_LAYER_HEAD_SELECTION_ABI_V3
        /\ e = Exc ProofV3Error "signed hard-audit selection ABI is not supported"
      \/ selection_abi_id sample_policy = STRATIFIED_LAYER_HEAD_SELECTION_ABI_V3 /\ ~ 0 < 60 < 2 ^ 32
        /\ e = Exc ProofV3Error "hard-audit sequence token count is invalid"
      \/ selection_abi_id sample_policy = STRATIFIED_LAYER_HEAD_SELECTION_ABI_V3 /\ 0 < 60 < 2 ^ 32
        /\ (profile_digest graph_profile = Err e \/ e = overflow)
  end.
Proof.
  pose proof (hard_audit_selection_correct (H := checksum_digest) (replicate 32 x16) graph_profile sample_envelope
    graph_spec_valid graph_nodes_made graph_cache_made
    (sa_plans _ _ sample_audits_signed) (sa_policy _ _ sample_audits_signed)) as Hx.
  refine (Hx _). vm_compute. reflexivity.
Defined.
