(* ===== verification/SpecErrors.v ===== *)
(** * Errors of the spec's constructor

    On items that their own constructors accepted, every lookup of
    [_validate_graph] is in range: the constructor returns or raises
    [ProofV3Error]. *)

From Stdlib Require Import ZArith Lia.
From Stdlib Require Import Strings.Byte.
From coqutil Require Import Word.LittleEndianList.
From stdpp Require Import base gmap list strings sorting.
From S2P Require Import Prelude Merkle MerkleTheory Sha256 Wire Text Relation Graph Policy Spec SpecGraph GraphLemmas SpecGraphTheory SampleProfile SampleGraph.

Import Relation Policy Graph Spec SpecGraph.
Local Open Scope Z_scope.

#[local] Arguments t_lit s : simpl never.

(** [r] raises nothing else than [ProofV3Error]. *)
Definition proof_error {A} (r : res A) : Prop := match r with Ok _ => True | Err e => exc_kind e = ProofV3Error end.

Create HintDb proof_error discriminated.

Lemma pe_ok {A} (a : A) : proof_error (Ok a).
Proof. done. Qed.
Lemma pe_raise {A} m : proof_error (raise (A := A) ProofV3Error m).
Proof. done. Qed.
Lemma pe_reject b m : proof_error (reject b m).
Proof. by destruct b. Qed.

Lemma pe_bind {A B} (m : res A) (f : A -> res B) :
  proof_error m -> (forall a, m = Ok a -> proof_error (f a)) -> proof_error (m ≫= f).
Proof. destruct m; cbn; auto. Qed.

Lemma pe_each {A} (f : A -> res unit) l : (forall x, x ∈ l -> proof_error (f x)) -> proof_error (each f l).
Proof.
  induction l as [|x l IH]; [done|]. intros Hf. cbn [each]. apply pe_bind; [apply Hf; left|].
  intros _ _. apply IH. intros y Hy. apply Hf. by right.
Qed.

Lemma pe_any_of {A} (f : A -> res bool) l : (forall x, x ∈ l -> proof_error (f x)) -> proof_error (any_of f l).
Proof.
  induction l as [|x l IH]; [done|]. intros Hf. cbn [any_of]. apply pe_bind; [apply Hf; left|].
  intros [] _; [done|]. apply IH. intros y Hy. apply Hf. by right.
Qed.

(** A loop, with what is known of its state after a prefix. *)
Lemma pe_fold {S A} (f : S -> A -> res S) (P : list A -> S -> Prop) s l :
  P [] s -> (forall pre x post s1, l = pre ++ x :: post -> P pre s1 ->
               proof_error (f s1 x) /\ forall s2, f s1 x = Ok s2 -> P (pre ++ [x]) s2) ->
  proof_error (fold_res f s l).
Proof.
  intros Hs Hstep. cut (forall pre post s, l = pre ++ post -> P pre s -> proof_error (fold_res f s post)).
  { intros H. by apply (H [] l s). }
  intros pre post. revert pre. induction post as [|x post IH]; intros pre s1 E HP; [done|]. cbn [fold_res].
  destruct (Hstep pre x post s1 E HP) as [He Hn]. apply pe_bind; [done|]. intros s2 Hs2.
  apply (IH (pre ++ [x])); [by rewrite <- app_assoc|]. by apply Hn.
Qed.

Lemma pe_index {K A} `{Countable K} (d : gmap K A) k : is_Some (d !! k) -> proof_error (index d k).
Proof. intros [a Ha]. unfold index. by rewrite Ha. Qed.

#[export] Hint Resolve pe_ok pe_raise pe_reject pe_each pe_any_of pe_index : proof_error.

(** ** Validators *)

Lemma pe_identifier v name : proof_error (_identifier v name).
Proof.
  unfold _identifier. destruct v; try done. unfold ascii. destruct (forallb _ _); cbn; [|done]. by destruct (_ || _).
Qed.

Lemma pe_fixed32 v name nonzero : proof_error (_fixed32 v name nonzero).
Proof. unfold _fixed32, fixed32. destruct v; try done. destruct (negb _); [done|]. by destruct (_ && _). Qed.

Lemma pe_u32 v name positive : proof_error (_u32 v name positive).
Proof. unfold _u32, u32. destruct v; try done. by destruct (int_in _ _ _). Qed.

Lemma pe_sorted {K} `{EqDecision K} (ltb : K -> K -> bool) l name : proof_error (_strictly_sorted ltb l name).
Proof. unfold _strictly_sorted. destruct (negb _); [done|]. by destruct (negb _). Qed.

Lemma pe_bounded {A} (l : list A) name maximum : proof_error (bounded l name maximum).
Proof. apply pe_reject. Qed.

Lemma pe_dimension d id : declared d id = true -> proof_error (get_dimension d id).
Proof. unfold declared, get_dimension. by destruct (d !! id). Qed.

Lemma pe_validate_dimensions s d : proof_error (validate_dimensions s d).
Proof.
  unfold validate_dimensions. cbn [existsb]. destruct (declared d (context_dimension_id s)) eqn:E1; [|done].
  destruct (declared d (decode_dimension_id s)) eqn:E2; [|done]. destruct (declared d (sequence_dimension_id s)) eqn:E3; [|done].
  cbn [negb orb]. repeat (apply pe_bind; [by apply pe_dimension|intros ? _]). by repeat case_match.
Qed.

Lemma pe_transition_kind p kind : proof_error (validate_for_transition_kind p (PStr kind)).
Proof.
  unfold validate_for_transition_kind, member. cbn [mbind res_bind]. destruct (bool_decide _); [|done].
  destruct (_ && _); [done|]. by destruct (_ && _).
Qed.

Lemma pe_coverage policy n full gdn : proof_error (audit_coverage policy n full gdn).
Proof. unfold audit_coverage. by repeat case_match. Qed.

#[export] Hint Resolve pe_identifier pe_fixed32 pe_u32 pe_sorted pe_bounded pe_validate_dimensions pe_transition_kind
  pe_coverage : proof_error.

(** Goal by goal along the code: what each step needs is left. *)
Ltac pe := repeat first [progress eauto with proof_error | apply pe_bind; [|intros ? ?]].

(** ** The checks of the graph *)

Definition remake_tensor (t : TensorDescriptorV3) : res TensorDescriptorV3 :=
  TensorDescriptorV3_new (PStr (tensor_id t))
    (PTuple ((fun d => match d with ConcreteDimension n => PInt n | SymbolicDimension s => PStr s end) <$> shape t))
    (PStr (encoding_id t)) (PStr (layout_id t)) (PStr (scale_rule_id t)) (PStr (commitment_role t)).
Definition made_tensor (t : TensorDescriptorV3) : Prop := remake_tensor t = Ok t.

Lemma made_tensor_shape t : made_tensor t -> shape t <> [].
Proof.
  unfold made_tensor, remake_tensor, TensorDescriptorV3_new. destruct t as [id dims ????]. cbn [shape tensor_id encoding_id layout_id scale_rule_id commitment_role].
  intros H. checks. apply tuple_ok in E0 as ->. by intros ->.
Qed.

Lemma static_kinds r : is_Some (dict_get _RELATION_ADAPTERS r) -> r <> t_lit "linear" -> is_Some (dict_get _NODE_BINDING_KINDS r).
Proof.
  intros [ads Ha] Hl. cbn in Ha |- *. repeat case_bool_decide; subst; try done; eauto.
Qed.

Section graph.
Context (self : ExecutionRelationSpecV3) (Hnodes : Forall made_node (nodes self)) (Htensors : Forall made_tensor (tensors self)).

Lemma pe_tensor id : id ∈ tensor_names self -> proof_error (index (tensors_by_id self) id).
Proof. intros Hid. by apply pe_index, dict_of_is_some. Qed.
Hint Resolve pe_tensor : proof_error.

Lemma pe_ends : proof_error (check_ends self).
Proof.
  unfold check_ends. apply pe_bind; [auto with proof_error|]. intros [] [E1 E2]%reject_ok%orb_false_iff.
  rewrite negb_false_iff in E1, E2. apply bool_decide_eq_true in E1, E2. pe.
Qed.

Lemma pe_tables : proof_error (check_tables self).
Proof. unfold check_tables. pe. apply pe_each. intros [id digest] _. auto with proof_error. Qed.

Lemma pe_shapes : check_ends self = Ok tt -> proof_error (check_shapes self).
Proof.
  unfold check_ends. intros H. checks. apply orb_false_iff in E as [E E']. rewrite negb_false_iff in E, E'.
  apply bool_decide_eq_true in E, E'. unfold check_shapes. pe.
  apply pe_each. intros id Hid. apply pe_bind; [|auto with proof_error]. apply pe_tensor.
    unfold final_hidden_tensors, logit_tensors, tensor_names in *.
    apply elem_of_app in Hid as [(t & -> & [_ Ht]%list_elem_of_filter)%list_elem_of_fmap|(t & -> & [_ Ht]%list_elem_of_filter)%list_elem_of_fmap];
      by apply list_elem_of_fmap_2.
Qed.

Lemma pe_cache_tensors : proof_error (check_cache_tensors self).
Proof.
  apply pe_each. intros id _. apply pe_bind; [auto with proof_error|]. intros [] E%reject_ok%negb_false_iff%bool_decide_eq_true. pe.
Qed.

(** *** The nodes *)

Lemma pe_node_names w i n : proof_error (check_node_names self w i n).
Proof. unfold check_node_names. pe. Qed.
Hint Resolve pe_node_names : proof_error.

Lemma shapes_declared t d :
  check_shapes self = Ok tt -> t ∈ tensors self -> SymbolicDimension d ∈ shape t -> declared (dimensions_by_id self) d = true.
Proof.
  unfold check_shapes. intros H Ht Hd. checks.
  match goal with H : each _ (tensors self) = Ok _ |- _ => rename H into Hs end.
  rewrite each_ok in Hs. specialize (Hs t Ht). rewrite each_ok in Hs. apply Hs, reject_ok, negb_false_iff in Hd. done.
Qed.

Lemma pe_tail_width id : check_shapes self = Ok tt -> id ∈ tensor_names self -> proof_error (exact_tail_width self id).
Proof using Htensors.
  intros Hs Hid. unfold exact_tail_width. apply pe_bind; [by apply pe_tensor|]. intros t [Ht _]%index_ok%dict_of_some.
  destruct (last (shape t)) as [[n|d]|] eqn:El; [done| |].
  - apply pe_bind; [|done]. apply pe_index. assert (declared (dimensions_by_id self) d = true) as Hd.
    { eapply shapes_declared; [done|done|]. apply last_Some_elem_of in El. done. }
    unfold declared in Hd. destruct (dimensions_by_id self !! d); [by eexists|done].
  - apply last_None in El. rewrite Forall_forall in Htensors. by apply Htensors, made_tensor_shape in Ht.
Qed.

Lemma pe_linear n o :
  check_shapes self = Ok tt -> input_tensor_ids n ⊆ tensor_names self -> output_tensor_ids n ⊆ tensor_names self ->
  proof_error (check_linear self n o).
Proof using Htensors.
  intros Hs Hin Hout. unfold check_linear. apply pe_bind; [auto with proof_error|]. intros _ _.
  destruct (input_tensor_ids n) as [|x [|??]], (output_tensor_ids n) as [|y [|??]]; try done.
  assert (x ∈ tensor_names self) by (apply Hin; left). assert (y ∈ tensor_names self) by (apply Hout; left).
  repeat (apply pe_bind; [auto using pe_tail_width with proof_error|intros ? _]). destruct (_ <=? _); pe.
Qed.

Lemma pe_static n : made_node n -> operation_reference n = None -> static_binding_ids n ⊆ binding_names self ->
  proof_error (check_static self n).
Proof.
  intros Hn%made_node_facts Ho Hb. unfold check_static. apply pe_bind.
  - destruct (static_kinds (relation_id n) (nm_adapters n Hn)) as [kinds ->]; [|done].
    intros E%(nm_operation n Hn). rewrite Ho in E. by destruct E.
  - intros kinds _. apply pe_each. intros id Hid%Hb. pe. by apply pe_index, dict_of_is_some.
Qed.

Lemma pe_states ids : ids ⊆ tensor_names self -> proof_error (any_of (sequence_state self) ids).
Proof. intros Hids. apply pe_any_of. intros id Hid%Hids. unfold sequence_state. pe. Qed.

Lemma pe_node w item :
  check_shapes self = Ok tt -> item.2 ∈ nodes self -> proof_error (walk_node self w item).
Proof using Hnodes Htensors.
  intros Hs Hn. destruct item as [i n]. cbn in Hn. unfold walk_node. apply pe_bind; [auto with proof_error|]. intros [] Hnames.
  unfold check_node_names in Hnames. checks. apply orb_false_iff in E as [Ein Eout].
  rewrite negb_false_iff in Ein, Eout, Hnames. apply subset_ok in Ein, Eout, Hnames.
  assert (made_node n) as Hm by (rewrite Forall_forall in Hnodes; auto).
  apply pe_bind; [destruct (operation_reference n) eqn:Eo; [by apply pe_linear|by apply pe_static]|]. intros _ _.
  apply pe_bind; [|intros _ _; apply pe_bind; [|done]].
  - destruct (transition_relation _); [|done]. unfold check_transition. destruct (families self !! _); [|done]. pe.
    + by apply pe_states.
    + case_match; [by apply pe_states|done].
  - destruct (bridge_relation _); [|done]. unfold check_bridge. destruct (families self !! _); [|done]. pe.
Qed.

Lemma pe_walk : check_shapes self = Ok tt -> proof_error (fold_res (walk_node self) (walk_start self) (enumerate (nodes self))).
Proof using Hnodes Htensors.
  intros Hs. apply (pe_fold _ (fun _ _ => True)); [done|]. intros pre item post w E _. split; [|done].
  apply pe_node; [done|]. rewrite <- (enumerate_snd (nodes self)). apply list_elem_of_fmap_2. rewrite E, elem_of_app.
  right. left.
Qed.

(** *** After the nodes *)

Section after.
Hypothesis nodes_checked : forall pre n post, nodes self = pre ++ n :: post -> exists i, node_ok self pre i n.

Lemma pe_sampler : nodes self <> [] -> proof_error (check_sampler self).
Proof using nodes_checked.
  intros Hn. unfold check_sampler. destruct (last (nodes self)) eqn:El; [|by apply last_None in El]. pe.
  destruct (filter _ _) as [|head [|??]] eqn:Ef; try done.
  assert (head ∈ filter (fun n => lm_head n = true) (nodes self)) as [Hl Hh]%list_elem_of_filter by (rewrite Ef; left).
  apply list_elem_of_split in Hh as (p & q & Eq). destruct (nodes_checked _ _ _ Eq) as [_ [_ Ho _ _]].
  unfold lm_head in Hl. destruct (operation_reference head); [|done]. unfold check_linear in Ho.
  apply bind_ok in Ho as (_ & _ & Ho).
  destruct (input_tensor_ids head) as [|x [|??]], (output_tensor_ids head) as [|y [|??]]; try discriminate Ho. pe.
Qed.

Lemma pe_check_coverage w : proof_error (check_coverage self w).
Proof. unfold check_coverage. pe. Qed.

Lemma pe_audits :
  check_coverage self (walk_after self (nodes self)) = Ok tt -> proof_error (check_audits self (walk_after self (nodes self))).
Proof.
  intros Hc. unfold check_coverage in Hc. checks. destruct (layers_after self (nodes self)) as (Et & Ei & Eb).
  match goal with H : negb (same_set (keys (transition_nodes_by_layer _)) _) = _ |- _ => rename H into Ht end.
  rewrite negb_false_iff, same_set_ok in Hc, Ht. rewrite Et in Ht. rewrite Eb in Hc.
  unfold check_audits. apply pe_bind; [auto with proof_error|]. intros [] Ha%reject_ok%negb_false_iff.
  rewrite same_set_ok in Ha. apply pe_bind; [|intros [??] _; auto with proof_error].
  apply (pe_fold _ (fun _ _ => True)); [done|]. intros pre l post [full gdn] El _. split; [|done].
  assert (l ∈ required_layers self) as Hl.
  { apply elem_of_py_sorted_set. rewrite El, elem_of_app. right. left. }
  specialize (Hc l). specialize (Ht l). specialize (Ha l). unfold check_layer. rewrite Et, Ei, Eb.
  rewrite elem_of_keys, lookup_fmap, fmap_is_Some in Hc. rewrite elem_of_keys, lookup_fmap, fmap_is_Some in Ht.
  rewrite elem_of_keys in Ha. pe; apply pe_index; rewrite ?lookup_fmap, ?fmap_is_Some; tauto.
Qed.

Lemma pe_connected : proof_error (check_connected self).
Proof.
  unfold check_connected. apply pe_bind; [|auto with proof_error].
  apply (pe_fold _ (fun _ _ => True)); [done|]. intros. split; [|done]. unfold needed_before. pe.
Qed.
End after.

Lemma pe_items : proof_error (check_items self).
Proof. unfold check_items. pe. Qed.

Lemma pe_post_init : proof_error (post_init self).
Proof using Hnodes Htensors.
  unfold post_init, _validate_graph. apply pe_bind; [apply pe_items|]. intros [] Hi.
  assert (nodes self <> []) as Hn.
  { unfold check_items in Hi. checks. intros En. match goal with H : is_nil (nodes self) = false |- _ => by rewrite En in H end. }
  apply pe_bind; [apply pe_ends|]. intros [] He. apply pe_bind; [apply pe_tables|]. intros [] _.
  apply pe_bind; [by apply pe_shapes|]. intros [] Hs. apply pe_bind; [apply pe_cache_tensors|]. intros [] _.
  apply pe_bind; [by apply pe_walk|]. intros w [-> Hw]%walk_checked.
  apply pe_bind; [by apply pe_sampler|]. intros [] _. apply pe_bind; [apply pe_check_coverage|]. intros [] Hc.
  apply pe_bind; [by apply pe_audits|]. intros [] _. apply pe_connected.
Qed.
End graph.

(** C22 Building a spec from nodes and tensors that their own constructors
    accepted either returns a spec that holds exactly the given items and whose
    graph has passed every check, or raises [ProofV3Error]: no lookup of the
    validation is out of range, whatever the arguments are. *)
Theorem relation_spec_outcome relation_abi capture constraint tokenizer sampler_abi sampler quantization
    accumulator_abi accumulator prefill decode request final domain dims tens operations bindings tables tols ns audits
    kv policy version :
  Forall made_node ns -> Forall made_tensor tens ->
  match ExecutionRelationSpecV3_new relation_abi capture constraint tokenizer sampler_abi sampler quantization
          accumulator_abi accumulator prefill decode request final domain dims tens operations bindings tables tols ns
          audits kv policy version with
  | Ok s => post_init s = Ok tt /\ nodes s = ns /\ tensors s = tens /\ registered_operations s = operations
      /\ static_bindings s = bindings /\ static_table_bindings s = tables /\ layer_audits s = audits
      /\ cache s = kv /\ audit_policy s = policy /\ sequence_domain s = domain /\ dimensions s = dims
  | Err e => exc_kind e = ProofV3Error
  end.
Proof.
  intros Hns Htens.
  match goal with |- match ?m with _ => _ end => set (built := m) end.
  assert (proof_error built) as He.
  { unfold built, ExecutionRelationSpecV3_new. do 15 (apply pe_bind; [auto with proof_error|intros ? _]).
    apply pe_bind; [by apply pe_post_init|]. intros; exact I. }
  destruct built as [s|e] eqn:E; [|exact He]. unfold built, ExecutionRelationSpecV3_new in E. checks.
  apply (inj Ok) in E. subst s. repeat match goal with u : unit |- _ => destruct u end. split_and!; done.
Qed.

Lemma relation_spec_outcome_witness :
  match SpecGraph.ExecutionRelationSpecV3_new (PStr GLOBAL_EXECUTION_RELATION_ABI_V3) (PBytes (sample_tag 9 0))
    (PBytes (replicate 32 x03)) (PBytes (sample_tag 9 1)) (PStr (t_lit "canonical.sampler.v1")) (PBytes (sample_tag 9 2))
    (PBytes (sample_tag 9 3)) (PStr RECURSIVE_CHUNK_ACCUMULATOR_ABI_V3) (PBytes (replicate 32 x04)) (PInt 16) (PInt 8)
    (PStr (t_lit "prompt")) (PStr (t_lit "output")) sample_domain sample_dimensions sample_tensors sample_operations
    sample_bindings sample_tables sample_tolerances (tl sample_nodes) sample_plans sample_cache sample_policy (PInt 6) with
  | Ok s => False
  | Err e => exc_kind e = ProofV3Error /\ exc_msg e = "relation node 0 consumes a tensor before its producer"%string
  end.
Proof.
  pose proof (relation_spec_outcome (PStr GLOBAL_EXECUTION_RELATION_ABI_V3) (PBytes (sample_tag 9 0))
    (PBytes (replicate 32 x03)) (PBytes (sample_tag 9 1)) (PStr (t_lit "canonical.sampler.v1")) (PBytes (sample_tag 9 2))
    (PBytes (sample_tag 9 3)) (PStr RECURSIVE_CHUNK_ACCUMULATOR_ABI_V3) (PBytes (replicate 32 x04)) (PInt 16) (PInt 8)
    (PStr (t_lit "prompt")) (PStr (t_lit "output")) sample_domain sample_dimensions sample_tensors sample_operations
    sample_bindings sample_tables sample_tolerances (tl sample_nodes) sample_plans sample_cache sample_policy (PInt 6)) as Hx.
  assert (Forall made_node (tl sample_nodes)) as Hn by (repeat (apply Forall_cons; split; [vm_compute; reflexivity|]); constructor).
  assert (Forall made_tensor sample_tensors) as Ht by (repeat (apply Forall_cons; split; [vm_compute; reflexivity|]); constructor).
  specialize (Hx Hn Ht). revert Hx. vm_compute. intros Hx. split; [exact Hx|reflexivity].
Defined.
