(* ===== verification/TierAuditTheory.v ===== *)
(** * Decisions, chunks and coefficients: properties

    The chunks partition the tokens of the request, the tier decision is a
    canonical frame that no output can influence, and coordinates have distinct
    encodings. *)

From Stdlib Require Import ZArith Lia.
From Stdlib Require Import Strings.Byte.
From coqutil Require Import Word.LittleEndianList Byte.
From stdpp Require Import base gmap sets list strings sorting.
From S2P Require Import Prelude Sha256 Merkle MerkleTheory Validate Wire Text Relation Policy Spec Profile Payload Challenge TierAudit SampleProfile.

Import Relation Policy Spec Profile Challenge TierAudit.
Local Open Scope Z_scope.

(** ** Chunks *)

Lemma chunk_new_ok ph i start count :
  ph = PREFILL \/ ph = DECODE -> 0 <= i < 2 ^ 32 -> 0 <= start < 2 ^ 32 -> 1 <= count < 2 ^ 32 ->
  start + count <= 2 ^ 32 -> ExpectedExecutionChunkV3_new ph i start count = Ok (MkChunk ph i start count).
Proof.
  intros Hph Hi Hs Hc Hsum. unfold ExpectedExecutionChunkV3_new, _u32.
  rewrite bool_decide_eq_false_2 by (destruct Hph as [-> | ->]; intros E; vm_compute in E; discriminate E).
  rewrite (u32_int i) by done. cbn [mbind res_bind].
  rewrite (u32_int start) by done. cbn [mbind res_bind].
  rewrite (u32_int count) by done. cbn [mbind res_bind].
  change (Z.shiftl 1 32) with (2 ^ 32). by rewrite (proj2 (Z.ltb_ge _ _)) by lia.
Qed.

(** The [k]-th chunk of a phase whose first chunk has index [i]. *)
Definition chunk_at (ph : text) (start count size i k : Z) : ExpectedExecutionChunkV3 :=
  MkChunk ph (i + k) (start + k * size) (Z.min size (count - k * size)).

Definition chunk_tokens (c : ExpectedExecutionChunkV3) : list Z := seqZ (logical_token_start c) (token_count c).

Lemma seqZ_cons_nat a n : seqZ a (Z.of_nat (S n)) = a :: seqZ (a + 1) (Z.of_nat n).
Proof. rewrite seqZ_cons by lia. f_equal. f_equal; lia. Qed.

Lemma phase_chunks_ok ph start count size i n a :
  ph = PREFILL \/ ph = DECODE -> 0 <= start -> 1 <= size < 2 ^ 32 -> start + count < 2 ^ 32 -> 0 <= a -> 0 <= i ->
  i + count < 2 ^ 32 -> (a + Z.of_nat n - 1) * size < count ->
  phase_chunks ph start count size (i + a) ((fun k => k * size) <$> seqZ a (Z.of_nat n))
  = Ok (chunk_at ph start count size i <$> seqZ a (Z.of_nat n)).
Proof.
  intros Hph Hs Hz Hsum Ha Hi Hidx. revert a Ha. induction n as [|n IH]; intros a Ha Hn; [done|].
  rewrite seqZ_cons_nat, !fmap_cons. cbn [phase_chunks].
  assert (a * size <= (a + Z.of_nat n) * size) by (apply Z.mul_le_mono_nonneg_r; lia).
  assert (a * 1 <= a * size) by (apply Z.mul_le_mono_nonneg_l; lia).
  rewrite chunk_new_ok by (done || lia). cbn [mbind res_bind].
  replace (i + a + 1) with (i + (a + 1)) by lia. rewrite IH by lia. done.
Qed.

(** The chunks of a phase list its tokens in order. *)
Lemma phase_tokens ph start count size i n a :
  1 <= size -> 0 <= a -> a * size <= count -> (a + Z.of_nat n - 1) * size < count ->
  concat (chunk_tokens <$> (chunk_at ph start count size i <$> seqZ a (Z.of_nat n)))
  = seqZ (start + a * size) (Z.min (Z.of_nat n * size) (count - a * size)).
Proof.
  intros Hz. revert a. induction n as [|n IH]; intros a Ha Hac Hn; [by rewrite Z.mul_0_l, Z.min_l by lia|].
  rewrite seqZ_cons_nat, !fmap_cons. cbn [concat].
  destruct (decide (n = 0%nat)) as [->|Hne].
  { cbn. rewrite app_nil_r. unfold chunk_tokens, chunk_at. cbn. f_equal; lia. }
  assert ((a + 1) * size <= (a + Z.of_nat n) * size) by (apply Z.mul_le_mono_nonneg_r; lia).
  rewrite IH by lia. unfold chunk_tokens, chunk_at. cbn [logical_token_start token_count].
  rewrite Z.min_l by lia. replace (start + (a + 1) * size) with (start + a * size + size) by lia.
  rewrite <- seqZ_app by lia. f_equal. lia.
Qed.

(** The number of chunks of a phase. *)
Definition chunk_number (count size : Z) : Z := (count + size - 1) / size.

Lemma chunk_number_spec count size :
  0 <= count -> 1 <= size ->
  0 <= chunk_number count size <= count /\ (chunk_number count size - 1) * size < count
  /\ count <= chunk_number count size * size.
Proof.
  intros Hc Hs. unfold chunk_number.
  pose proof (Z.div_mod (count + size - 1) size ltac:(lia)) as E.
  pose proof (Z.mod_pos_bound (count + size - 1) size ltac:(lia)) as Hm.
  set (q := (count + size - 1) / size) in *. assert (0 <= q) by (apply Z.div_pos; lia).
  split_and!; nia.
Qed.

Lemma py_range_ok count size :
  1 <= size -> py_range count size = Ok ((fun k => k * size) <$> seqZ 0 (chunk_number count size)).
Proof. intros Hs. unfold py_range. by rewrite (proj2 (Z.eqb_neq _ _)), (proj2 (Z.ltb_lt _ _)) by lia. Qed.

Lemma phase_ok ph start count size i :
  ph = PREFILL \/ ph = DECODE -> 0 <= start -> 0 <= count -> 1 <= size < 2 ^ 32 -> start + count < 2 ^ 32 -> 0 <= i ->
  i + count < 2 ^ 32 ->
  let chunks := chunk_at ph start count size i <$> seqZ 0 (chunk_number count size) in
  (offsets ← py_range count size; phase_chunks ph start count size i offsets) = Ok chunks
  /\ concat (chunk_tokens <$> chunks) = seqZ start count
  /\ chunk_index <$> chunks = seqZ i (zlen chunks) /\ zlen chunks <= count
  /\ Forall (fun c => phase c = ph /\ 1 <= token_count c <= size) chunks.
Proof.
  intros Hph Hs Hc Hz Hsum Hi Hidx chunks.
  destruct (chunk_number_spec count size) as (Hn & Hlt & Hle); [lia|lia|].
  assert (exists n, chunk_number count size = Z.of_nat n) as [n En] by (exists (Z.to_nat (chunk_number count size)); lia).
  assert (zlen chunks = chunk_number count size) as Hlen.
  { unfold zlen, chunks. rewrite length_fmap, length_seqZ. lia. }
  split_and!.
  - rewrite py_range_ok by lia. cbn [mbind res_bind]. unfold chunks. rewrite En.
    rewrite <- (phase_chunks_ok ph start count size i n 0) by (done || lia). by rewrite Z.add_0_r.
  - unfold chunks. rewrite En, phase_tokens by lia. f_equal; lia.
  - rewrite Hlen. unfold chunks. rewrite <- list_fmap_compose.
    transitivity (Z.add i <$> seqZ 0 (chunk_number count size)); [done|by rewrite fmap_add_seqZ, Z.add_0_r].
  - lia.
  - apply Forall_fmap, Forall_seqZ. intros k Hk. cbn. split; [done|].
    assert (k * size <= (chunk_number count size - 1) * size) by (apply Z.mul_le_mono_nonneg_r; lia). lia.
Qed.

Lemma bind_counts_ok d dims c e n :
  bind_counts d dims (PInt c) (PInt e) = Ok n -> 1 <= c /\ 0 <= e /\ n = c + e /\ n < 2 ^ 32.
Proof.
  unfold bind_counts. intros (_ & _ & (c' & [[= <-] Hc]%u32_spec & (e' & [[= <-] He]%u32_spec
    & (x & _ & (y & _ & (z & _ & H)%bind_ok)%bind_ok)%bind_ok)%bind_ok)%bind_ok)%bind_ok.
  destruct (negb _) in H; [discriminate|]. destruct (negb _) in H; [discriminate|].
  change (Z.shiftl 1 32) with (2 ^ 32) in H. destruct (Z.leb_spec (2 ^ 32) (c + e)); [discriminate|].
  destruct (negb _) in H; [discriminate|]. apply (inj Ok) in H as <-. lia.
Qed.

(** C27 The chunks that a proof must cover partition the request: for an
    envelope bound to a capable profile, with counts in the signed domain, the
    derivation succeeds; its chunks are numbered from zero without gaps and,
    read in order, list every token position of prompt and output exactly once;
    each is nonempty and at most as long as the signed chunk size of its phase,
    and prefill chunks lie in the prompt, decode chunks after it. *)
Theorem expected_chunks_partition `{Digest} profile envelope digest n :
  let relation := relation_spec profile in
  let context := Payload.context_token_count envelope in
  let decode := Payload.decode_token_count envelope in
  require_hard_execution_capability profile = Ok tt -> profile_digest profile = Ok digest ->
  Payload.execution_profile_digest envelope = digest ->
  Payload.static_manifest_digest envelope = static_manifest_digest profile ->
  validate_execution_counts relation (PInt context) (PInt decode) = Ok n ->
  1 <= prefill_chunk_tokens relation < 2 ^ 32 -> 1 <= decode_chunk_tokens relation < 2 ^ 32 ->
  exists prefill decoded,
    expected_execution_chunks_v3 profile envelope = Ok (prefill ++ decoded)
    /\ chunk_index <$> prefill ++ decoded = seqZ 0 (zlen (prefill ++ decoded))
    /\ concat (chunk_tokens <$> prefill ++ decoded) = seqZ 0 (context + decode)
    /\ concat (chunk_tokens <$> prefill) = seqZ 0 context
    /\ Forall (fun c => phase c = PREFILL /\ 1 <= token_count c <= prefill_chunk_tokens relation) prefill
    /\ Forall (fun c => phase c = DECODE /\ 1 <= token_count c <= decode_chunk_tokens relation) decoded.
Proof.
  intros relation context decode Hcap Hd He Hm Hn Hp Hq.
  destruct (bind_counts_ok _ _ _ _ _ Hn) as (Hc & Hdec & En & Hlt).
  destruct (phase_ok PREFILL 0 context (prefill_chunk_tokens relation) 0) as (E1 & T1 & I1 & L1 & F1);
    [by left|lia..|].
  set (prefill := _ <$> _) in E1, T1, I1, L1, F1.
  destruct (phase_ok DECODE context decode (decode_chunk_tokens relation) (zlen prefill)) as (E2 & T2 & I2 & L2 & F2);
    [by right|pose proof (zlen_nonneg prefill); lia..|].
  set (decoded := _ <$> _) in E2, T2, I2, L2, F2. exists prefill, decoded. split_and!; [|..|done|done|done].
  - unfold expected_execution_chunks_v3. rewrite Hcap. cbn [mbind res_bind]. rewrite Hd. cbn [mbind res_bind].
    rewrite !bool_decide_eq_true_2 by done. cbn [negb]. fold relation context decode. rewrite Hn.
    cbn [mbind res_bind reraise_as].
    apply bind_ok in E1 as (o1 & -> & E1). cbn [mbind res_bind]. rewrite E1. cbn [mbind res_bind].
    apply bind_ok in E2 as (o2 & -> & E2). cbn [mbind res_bind]. by rewrite E2.
  - assert (zlen (prefill ++ decoded) = zlen prefill + zlen decoded) as -> by (unfold zlen; rewrite length_app; lia).
    rewrite fmap_app, I1, I2. by rewrite <- (seqZ_app 0 (zlen prefill)) by apply zlen_nonneg.
  - rewrite fmap_app, concat_app, T1, T2. by rewrite <- (seqZ_app 0 context) by lia.
Qed.

(** ** The decision frame *)

Record valid_decision (d : PostCommitAuditDecisionV3) : Prop := {
  vd_abi : d_tier_selection_abi_id d = POSTCOMMIT_AUDIT_TIER_ABI_V3;
  vd_kind : d_request_kind d = ORGANIC \/ d_request_kind d = CANARY;
  vd_rate : 0 <= d_effective_hard_bps d <= 10000;
  vd_draw : 0 <= d_draw_basis_point d < 10000;
  vd_hard : d_hard_audit_selected d = (d_draw_basis_point d <? d_effective_hard_bps d);
  vd_canary : d_request_kind d = CANARY -> d_effective_hard_bps d = 10000;
  vd_transcript : bytes32 (d_transcript_digest d);
  vd_envelope : bytes32 (d_commitment_envelope_digest d);
}.

Lemma request_kind_known kind :
  code_of _REQUEST_KIND_CODES kind <> None <-> kind = ORGANIC \/ kind = CANARY.
Proof.
  unfold _REQUEST_KIND_CODES, code_of. split.
  - intros H. destruct (decide (ORGANIC = kind)); [by left|]. destruct (decide (CANARY = kind)); [by right|].
    by rewrite !bool_decide_eq_false_2 in H.
  - intros [-> | ->] E; vm_compute in E; discriminate E.
Qed.

Lemma decision_new_ok abi kind rate draw hard t e d :
  PostCommitAuditDecisionV3_new abi kind rate draw hard t e = Ok d <->
  valid_decision d /\ d = MkDecision abi kind rate draw hard t e.
Proof.
  unfold PostCommitAuditDecisionV3_new. split.
  - case_bool_decide as Habi; cbn [negb]; [|discriminate].
    case_bool_decide as Hkind; [discriminate|]. apply request_kind_known in Hkind.
    intros (r & [[= <-] Hr]%u32_spec & (w & [[= <-] Hw]%u32_spec & H)%bind_ok)%bind_ok.
    destruct (Z.ltb_spec 10000 rate); [discriminate|]. destruct (Z.leb_spec 10000 draw); [discriminate|].
    destruct (Bool.eqb hard (draw <? rate)) eqn:Eh; cbn [negb] in H; [|discriminate].
    destruct (bool_decide (kind = CANARY) && _) eqn:Ec in H; [discriminate|].
    destruct (Nat.eqb_spec (length t) 32); cbn [negb] in H; [|discriminate].
    destruct (Nat.eqb_spec (length e) 32); cbn [negb] in H; [|discriminate].
    apply (inj Ok) in H as <-. split; [|done]. apply Bool.eqb_prop in Eh. split; cbn; [done|done|lia|lia|done| |done|done].
    intros ->. rewrite bool_decide_eq_true_2 in Ec by done. cbn [andb] in Ec.
    destruct (Z.eqb_spec rate 10000); [done|]. discriminate.
  - intros [[Habi Hkind Hr Hd Hh Hc Ht He] ->]. cbn in Habi, Hkind, Hr, Hd, Hh, Hc, Ht, He.
    rewrite bool_decide_eq_true_2 by done. cbn [negb].
    rewrite bool_decide_eq_false_2 by (by apply request_kind_known). unfold _u32.
    rewrite (u32_int rate) by lia. cbn [mbind res_bind]. rewrite (u32_int draw) by lia. cbn [mbind res_bind].
    rewrite (proj2 (Z.ltb_ge _ _)), (proj2 (Z.leb_gt _ _)) by lia. rewrite Hh, Bool.eqb_reflx. cbn [negb].
    assert (bool_decide (kind = CANARY) && (negb (rate =? 10000) || negb (draw <? rate)) = false) as ->.
    { case_bool_decide as Hk; [|done]. rewrite Hc by done. cbn. by rewrite (proj2 (Z.ltb_lt _ _)) by lia. }
    unfold bytes32 in Ht, He. change GOLDILOCKS_MERKLE_REFERENCE_DIGEST_BYTES with 32%nat in *.
    by rewrite Ht, He.
Qed.

Definition kind_code (kind : text) : Z := if bool_decide (kind = CANARY) then 2 else 1.

Definition tier_abi_bytes : bytes := b_lit "postcommit.audit_tier.v1".

Definition decision_bytes (d : PostCommitAuditDecisionV3) : bytes :=
  le_split 1 24 ++ tier_abi_bytes ++ le_split 1 (kind_code (d_request_kind d)) ++ pack_H (d_effective_hard_bps d)
  ++ pack_H (d_draw_basis_point d) ++ le_split 1 (if d_hard_audit_selected d then 1 else 0)
  ++ d_transcript_digest d ++ d_commitment_envelope_digest d.

Lemma tier_abi_encoded name : _identifier (PStr POSTCOMMIT_AUDIT_TIER_ABI_V3) name = Ok tier_abi_bytes.
Proof. vm_compute. reflexivity. Qed.

Lemma kind_code_of kind :
  kind = ORGANIC \/ kind = CANARY ->
  code_of _REQUEST_KIND_CODES kind = Some (kind_code kind) /\ name_of _REQUEST_KIND_CODES (kind_code kind) = Some kind.
Proof. intros [-> | ->]; split; vm_compute; reflexivity. Qed.

Lemma decision_bytes_ok d : valid_decision d -> decision_canonical_bytes d = Ok (decision_bytes d).
Proof.
  intros [Habi Hkind _ _ _ _ _ _]. unfold decision_canonical_bytes. rewrite Habi, tier_abi_encoded.
  cbn [mbind res_bind]. by rewrite (proj1 (kind_code_of _ Hkind)).
Qed.

Lemma length_tier_abi : length tier_abi_bytes = 24%nat.
Proof. done. Qed.
#[local] Hint Rewrite length_tier_abi : vrt_len.

Lemma decision_slices d (b := decision_bytes d) :
  valid_decision d ->
  length b = 95%nat /\ slice b 1 24 = tier_abi_bytes /\ slice b 25 1 = le_split 1 (kind_code (d_request_kind d))
  /\ slice b (25 + 1) 2 = pack_H (d_effective_hard_bps d) /\ slice b (25 + 3) 2 = pack_H (d_draw_basis_point d)
  /\ slice b (25 + 5) 1 = le_split 1 (if d_hard_audit_selected d then 1 else 0)
  /\ slice b (25 + 6) 32 = d_transcript_digest d /\ slice b (25 + 6 + 32) 32 = d_commitment_envelope_digest d.
Proof.
  intros [_ _ _ _ _ _ Ht He]. unfold bytes32 in *. change GOLDILOCKS_MERKLE_REFERENCE_DIGEST_BYTES with 32%nat in *.
  subst b. unfold decision_bytes. split_and!; try find_slice.
  autorewrite with vrt_len. rewrite Ht, He. done.
Qed.

Lemma parse_decision d : valid_decision d -> decision_from_canonical_bytes (PBytes (decision_bytes d)) = Ok d.
Proof.
  intros Hv. destruct (decision_slices d Hv) as (Hl & E1 & E2 & E3 & E4 & E5 & E6 & E7).
  pose proof (decision_bytes_ok d Hv) as Hb. remember (decision_bytes d) as b eqn:Eb.
  assert (exists b', b = x18 :: b') as [b' Eb'] by (rewrite Eb; by eexists).
  unfold decision_from_canonical_bytes. rewrite Eb'. rewrite <- Eb'. unfold zlen. rewrite Hl.
  change (byte.unsigned x18) with 24. change (Z.to_nat 24) with 24%nat.
  change (negb _ || negb _) with false at 1. change (negb (_ && _)) with false. cbv iota. rewrite E1.
  assert (decode_ascii tier_abi_bytes = Some POSTCOMMIT_AUDIT_TIER_ABI_V3) as -> by (vm_compute; reflexivity).
  change (1 + 24)%nat with 25%nat. cbv zeta. rewrite E2, E3, E4, E5, E6, E7.
  pose proof Hv as [Habi Hkind Hr Hd Hh Hc Ht He]. unfold pack_H.
  rewrite !le_combine_split.
  rewrite (Z.mod_small (kind_code _)) by (unfold kind_code; case_bool_decide; cbn; lia).
  rewrite (proj2 (kind_code_of _ Hkind)).
  rewrite (Z.mod_small (d_effective_hard_bps d)), (Z.mod_small (d_draw_basis_point d)) by (cbn; lia).
  rewrite (Z.mod_small (if d_hard_audit_selected d then 1 else 0)) by (case_match; cbn; lia).
  assert (negb (((if d_hard_audit_selected d then 1 else 0) =? 0) || ((if d_hard_audit_selected d then 1 else 0) =? 1)) = false)
    as -> by (by case_match).
  assert (negb ((if d_hard_audit_selected d then 1 else 0) =? 0) = d_hard_audit_selected d) as -> by (by case_match).
  rewrite (proj2 (decision_new_ok _ _ _ _ _ _ _ d)).
  - cbn [mbind res_bind]. rewrite Hb. cbn [mbind res_bind]. by rewrite bool_decide_eq_true_2.
  - split; [done|]. rewrite <- Habi. by destruct d.
Qed.

(** The decision frame is canonical: the parser returns [d] on a value
    exactly when [d] is a consistent decision (supported ABI and kind, draw and
    rate in range, the result that the draw gives, canaries at the full rate)
    and the value is the frame of [d]. *)
Theorem decision_roundtrip v d :
  decision_from_canonical_bytes v = Ok d <-> valid_decision d /\ v = PBytes (decision_bytes d).
Proof.
  split; [|intros [? ->]; by apply parse_decision].
  unfold decision_from_canonical_bytes. intros H. destruct v as [| | |b| | | |]; try discriminate H.
  destruct b as [|first b]; [discriminate|]. remember (first :: b) as bs eqn:Ebs. clear Ebs.
  destruct (negb (_ && _)) in H; [discriminate|]. cbv zeta in H. destruct (_ || _) in H; [discriminate|].
  destruct (decode_ascii _) in H; [|discriminate]. destruct (name_of _ _) in H; [|discriminate].
  destruct (negb _) in H; [discriminate|]. apply bind_ok in H as (d' & [Hv _]%decision_new_ok & H).
  rewrite decision_bytes_ok in H by done. cbn [mbind res_bind] in H.
  case_bool_decide as E; cbn [negb] in H; [|discriminate]. apply (inj Ok) in H as ->. by rewrite E.
Qed.

(** ** The decision *)

Lemma validate_runtime_ok p r :
  validate_runtime p r = Ok tt ->
  rt_tier_selection_abi_id r = tier_selection_abi_id p
  /\ minimum_organic_hard_bps p <= effective_organic_hard_bps r
  /\ minimum_canary_hard_bps p <= effective_canary_hard_bps r
  /\ effective_probation_failures r <= probation_failures p
  /\ (request_kind r = CANARY -> effective_canary_hard_bps r = 10000).
Proof.
  unfold validate_runtime. intros H. destruct (negb _) in H; [discriminate|].
  case_bool_decide as Ht; cbn [negb] in H; [|discriminate].
  destruct (negb _) in H; [discriminate|].
  destruct (Z.ltb_spec (effective_organic_hard_bps r) (minimum_organic_hard_bps p)); [discriminate|].
  destruct (Z.ltb_spec (effective_canary_hard_bps r) (minimum_canary_hard_bps p)); [discriminate|].
  destruct (Z.ltb_spec (probation_failures p) (effective_probation_failures r)); [discriminate|].
  destruct (_ && _) eqn:E in H; [discriminate|]. split_and!; [done|lia..|]. intros Hk.
  rewrite bool_decide_eq_true_2 in E by done. destruct (Z.eqb_spec (effective_canary_hard_bps r) 10000); [done|discriminate].
Qed.

Lemma attempts_ok draw accept failure c :
  attempts draw accept failure = Ok c ->
  exists j, 0 <= j < Z.of_nat _MAX_REJECTION_ATTEMPTS /\ c = draw j /\ accept (draw j) = true
    /\ forall k, 0 <= k < j -> accept (draw k) = false.
Proof.
  unfold attempts. destruct (rejection_loop _ _ _ _) eqn:E; [|discriminate]. intros [= <-].
  apply rejection_loop_first in E as (j & ? & ? & ? & ?). exists j. split; [lia|done].
Qed.

(** The words that a nonce and a pre-execution context give, in the order in
    which they are tried. *)
Definition tier_word `{Digest} (nonce profile context : bytes) (kind : text) (rate j : Z) : Z :=
  word_be (_TIER_DRAW_DOMAIN ++ le_split 1 (zlen tier_abi_bytes) ++ tier_abi_bytes
           ++ sha256 (_TIER_SEED_DOMAIN ++ nonce ++ profile ++ context)
           ++ le_split 1 (kind_code kind) ++ pack_H rate ++ pack_I j).

(** [x] is the draw of the nonce: the first of these words below the ceiling of
    an unbiased draw, reduced to basis points. *)
Definition nonce_draws `{Digest} (nonce profile context : bytes) (kind : text) (rate x : Z) : Prop :=
  exists j, 0 <= j < Z.of_nat _MAX_REJECTION_ATTEMPTS
    /\ tier_word nonce profile context kind rate j < ceiling_of 10000
    /\ (forall i, 0 <= i < j -> ceiling_of 10000 <= tier_word nonce profile context kind rate i)
    /\ x = tier_word nonce profile context kind rate j mod 10000.

Lemma tier_draw_ok `{Digest} nonce profile envelope runtime rate x :
  rt_tier_selection_abi_id runtime = POSTCOMMIT_AUDIT_TIER_ABI_V3 ->
  request_kind runtime = ORGANIC \/ request_kind runtime = CANARY ->
  _audit_tier_draw_basis_point_v3 nonce profile envelope runtime (PInt rate) = Ok x ->
  exists n digest, nonce = PBytes n /\ length n = 32%nat /\ profile_digest profile = Ok digest
    /\ nonce_draws n digest (Payload.precommit_context_digest envelope) (request_kind runtime) rate x.
Proof.
  intros Habi Hkind. unfold _audit_tier_draw_basis_point_v3, _audit_tier_draw_from_precommit_context_v3.
  intros (n & Hn & (c & Hc & (r & Hr & Hdraw)%bind_ok)%bind_ok)%bind_ok.
  destruct nonce as [| | |b| | | |]; try discriminate Hn. unfold _nonce in Hn.
  destruct (Nat.eqb_spec (length b) 32); cbn [negb] in Hn; [|discriminate]. apply (inj Ok) in Hn as ->.
  unfold bytes_32 in Hc. destruct (Nat.eqb _ _) in Hc; [|discriminate]. apply (inj Ok) in Hc as <-.
  assert (r = rate) as -> by (unfold _u32, u32, int_in in Hr; cbn in Hr; repeat (case_match; try discriminate); congruence).
  destruct (10000 <? rate); [discriminate|]. rewrite Habi, tier_abi_encoded in Hdraw. cbn [mbind res_bind] in Hdraw.
  rewrite (proj1 (kind_code_of _ Hkind)) in Hdraw.
  apply bind_ok in Hdraw as (dg & Hdg & (w & (j & Hj & -> & Hw%Z.ltb_lt & Hfirst)%attempts_ok & Hdraw)%bind_ok).
  apply (inj Ok) in Hdraw as <-. exists n, dg. split_and!; [done|done|done|]. exists j. split_and!; [lia|lia|exact Hw| |done].
  intros i Hi. by apply Z.ltb_ge, Hfirst.
Qed.

(** The rate of the kind of the request in the signed policy. *)
Definition signed_minimum (p : HardAuditPolicyV3) (r : RuntimeHardAuditPolicyV3) : Z :=
  if bool_decide (request_kind r = CANARY) then minimum_canary_hard_bps p else minimum_organic_hard_bps p.

(** C16 The audit tier is the one the nonce draws, at a rate that is not weaker
    than the signed one, and the miner's output has no part in it: a decision
    records the envelope and the runtime policy, its draw is the first word below
    the ceiling among the hashes of the nonce, the profile and the pre-execution
    context, in basis points, it selects the hard proof exactly
    when the draw is below the rate, always selects it for a canary, and any
    other envelope with the same pre-execution context, whatever roots and
    counts it carries, has the same draw and the same result. *)
Theorem audit_decision_correct `{Digest} nonce profile envelope runtime d :
  derive_postcommit_audit_decision_v3 nonce profile envelope runtime = Ok d ->
  let policy := audit_policy (relation_spec profile) in
  valid_decision d
  /\ d_request_kind d = request_kind runtime /\ d_effective_hard_bps d = effective_bps runtime
  /\ signed_minimum policy runtime <= d_effective_hard_bps d
  /\ (d_hard_audit_selected d = true <-> d_draw_basis_point d < d_effective_hard_bps d)
  /\ (request_kind runtime = CANARY -> d_hard_audit_selected d = true)
  /\ d_commitment_envelope_digest d = Payload.envelope_digest envelope
  /\ (exists n digest, nonce = PBytes n /\ length n = 32%nat /\ profile_digest profile = Ok digest
       /\ nonce_draws n digest (Payload.precommit_context_digest envelope) (request_kind runtime)
            (d_effective_hard_bps d) (d_draw_basis_point d))
  /\ forall envelope' d',
       Payload.precommit_context_digest envelope' = Payload.precommit_context_digest envelope ->
       derive_postcommit_audit_decision_v3 nonce profile envelope' runtime = Ok d' ->
       d_draw_basis_point d' = d_draw_basis_point d /\ d_hard_audit_selected d' = d_hard_audit_selected d.
Proof.
  intros Hd policy. pose proof Hd as Hd0. unfold derive_postcommit_audit_decision_v3 in Hd.
  apply bind_ok in Hd as ([] & Hr & (t & Ht & (draw & Hdraw & Hnew)%bind_ok)%bind_ok).
  apply validate_runtime_ok in Hr as (_ & Ho & Hc & _ & Hcan).
  apply decision_new_ok in Hnew as [Hv ->]. cbn.
  assert (signed_minimum policy runtime <= effective_bps runtime) as Hmin.
  { unfold signed_minimum, effective_bps. by case_bool_decide. }
  split_and!; [done|done|done|done|by rewrite Z.ltb_lt| |done| |].
  - intros Hk. pose proof (vd_canary _ Hv Hk) as Hrate. pose proof (vd_draw _ Hv) as Hrange. cbn in Hrate, Hrange.
    apply Z.ltb_lt. lia.
  - apply tier_draw_ok in Hdraw; [done|apply Hv|apply Hv].
  - intros envelope' d' He (_ & _ & (t' & _ & (draw' & Hdraw' & Hnew')%bind_ok)%bind_ok)%bind_ok.
    apply decision_new_ok in Hnew' as [_ ->]. cbn.
    unfold _audit_tier_draw_basis_point_v3 in Hdraw, Hdraw'. rewrite He, Hdraw in Hdraw'.
    by apply (inj Ok) in Hdraw' as <-.
Qed.

(** ** Coordinates *)

Record valid_coordinate (c : GlobalRelationCoordinateV3) : Prop := {
  vc_node : identifier_match (node_id c) = true;
  vc_phase : c_phase c = PREFILL \/ c_phase c = DECODE;
  vc_index : 0 <= c_chunk_index c < 2 ^ 32;
  vc_start : 0 <= c_logical_token_start c < 2 ^ 32;
  vc_count : 1 <= c_token_count c < 2 ^ 32;
  vc_relation : 0 <= relation_index c < 2 ^ 64;
}.

Lemma member_ok v l s : member v l = Ok (Some s) -> v = PStr s /\ s ∈ l.
Proof.
  unfold member. destruct v; try (destruct (hashable _); discriminate).
  case_bool_decide; [|discriminate]. by intros [= ->].
Qed.

Lemma coordinate_new_ok n p i s k r c :
  GlobalRelationCoordinateV3_new n p i s k r = Ok c -> valid_coordinate c.
Proof.
  unfold GlobalRelationCoordinateV3_new. destruct n as [| | | |node| | |]; try discriminate.
  intros (b & Hb & (ph & Hph & H)%bind_ok)%bind_ok. unfold _identifier in Hb.
  destruct (identifier_match node) eqn:En; [|discriminate].
  destruct ph as [ph|]; [|discriminate]. apply member_ok in Hph as [_ Hph].
  apply bind_ok in H as (st & [_ Hst]%u32_spec & (ct & [_ Hct]%u32_spec & H)%bind_ok).
  destruct (_ <? _) in H; [discriminate|].
  apply bind_ok in H as (ix & [_ Hix]%u32_spec & (rx & [_ Hrx]%u64_spec & H)%bind_ok).
  apply (inj Ok) in H as <-. split; cbn; try done.
  cbn in Hph. rewrite !elem_of_cons in Hph. destruct Hph as [?|[?|Hn]]; [auto..|]. by apply not_elem_of_nil in Hn.
Qed.

Lemma identifier_length s b : identifier_match s = true -> ascii s = Ok b -> 1 <= zlen b <= 128.
Proof.
  unfold identifier_match, ascii. destruct s as [|x s]; [discriminate|]. intros Hm.
  apply andb_true_iff in Hm as [_ Hm%Z.leb_le]. destruct (forallb _ _); [|discriminate]. intros E. apply (inj Ok) in E as <-.
  unfold zlen in *. rewrite length_fmap. cbn [length]. lia.
Qed.

(** Each relation coordinate has its own encoding: coordinates that come out
    of the constructor and have equal encodings are equal, so that distinct
    relations never share the string their coefficient is hashed from. *)
Theorem coordinate_encoding_injective n p i s k r c n' p' i' s' k' r' c' b :
  GlobalRelationCoordinateV3_new n p i s k r = Ok c -> GlobalRelationCoordinateV3_new n' p' i' s' k' r' = Ok c' ->
  coordinate_canonical_bytes c = Ok b -> coordinate_canonical_bytes c' = Ok b -> c = c'.
Proof.
  intros [Hn Hp Hi Hs Hk Hr]%coordinate_new_ok [Hn' Hp' Hi' Hs' Hk' Hr']%coordinate_new_ok.
  unfold coordinate_canonical_bytes, _identifier. rewrite Hn, Hn'.
  intros (a & Ha & Hb)%bind_ok (a' & Ha' & Hb')%bind_ok.
  pose proof (identifier_length _ _ Hn Ha) as Hl. pose proof (identifier_length _ _ Hn' Ha') as Hl'.
  assert (forall ph, ph = PREFILL \/ ph = DECODE -> exists z, code_of _PHASE_CODES ph = Some z /\ 1 <= z <= 2
    /\ name_of _PHASE_CODES z = Some ph) as Hcode by (intros ph [-> | ->]; [exists 1|exists 2]; split_and!; vm_compute; congruence).
  destruct (Hcode _ Hp) as (z & Ez & Hz & Nz), (Hcode _ Hp') as (z' & Ez' & Hz' & Nz').
  rewrite Ez in Hb. rewrite Ez' in Hb'. apply (inj Ok) in Hb, Hb'. rewrite <- Hb' in Hb. clear Hb'.
  apply app_inj_1 in Hb as [El Hb]; [|by rewrite !le_split_length].
  apply le_split_inj in El; [|cbn; lia..]. apply app_inj_1 in Hb as [-> Hb]; [|unfold zlen in El; lia].
  apply app_inj_1 in Hb as [Eph Hb]; [|by rewrite !le_split_length]. apply le_split_inj in Eph as <-; [|cbn; lia..].
  apply app_inj_1 in Hb as [Ei Hb]; [|by rewrite !pack_I_length]. apply pack_I_inj in Ei; [|done..].
  apply app_inj_1 in Hb as [Es Hb]; [|by rewrite !pack_I_length]. apply pack_I_inj in Es; [|done..].
  apply app_inj_1 in Hb as [Ek Hb]; [|by rewrite !pack_I_length]. apply pack_I_inj in Ek; [|lia..].
  apply pack_Q_inj in Hb; [|done..]. assert (node_id c = node_id c') as En by (by eapply ascii_inj).
  rewrite Nz in Nz'. destruct c, c'. cbn in *. congruence.
Qed.

(** ** Witnesses *)

#[local] Existing Instance checksum_digest.

Lemma expected_chunks_partition_witness :
  exists prefill decoded,
    expected_execution_chunks_v3 sample_profile sample_envelope = Ok (prefill ++ decoded)
    /\ chunk_index <$> prefill ++ decoded = seqZ 0 (zlen (prefill ++ decoded))
    /\ concat (chunk_tokens <$> prefill ++ decoded) = seqZ 0 (40 + 20)
    /\ concat (chunk_tokens <$> prefill) = seqZ 0 40
    /\ Forall (fun c => phase c = PREFILL /\ 1 <= token_count c <= 16) prefill
    /\ Forall (fun c => phase c = DECODE /\ 1 <= token_count c <= 8) decoded.
Proof.
  pose proof (expected_chunks_partition (H := checksum_digest) sample_profile sample_envelope sample_digest 60) as Hx.
  refine (Hx _ _ _ _ _ _ _); [vm_compute; reflexivity..|cbn; lia|cbn; lia].
Defined.

Definition sample_decision (kind : text) : PostCommitAuditDecisionV3 :=
  ok_or (MkDecision [] [] 0 0 false [] [])
    (derive_postcommit_audit_decision_v3 (PBytes sample_nonce) sample_profile sample_envelope (sample_runtime kind)).

Lemma audit_decision_correct_witness :
  let d := sample_decision ORGANIC in
  valid_decision d
  /\ d_request_kind d = ORGANIC /\ d_effective_hard_bps d = 5000 /\ 1000 <= d_effective_hard_bps d
  /\ (d_hard_audit_selected d = true <-> d_draw_basis_point d < d_effective_hard_bps d)
  /\ (ORGANIC = CANARY -> d_hard_audit_selected d = true)
  /\ d_commitment_envelope_digest d = Payload.envelope_digest sample_envelope
  /\ (exists n digest, PBytes sample_nonce = PBytes n /\ length n = 32%nat /\ profile_digest sample_profile = Ok digest
       /\ nonce_draws n digest (Payload.precommit_context_digest sample_envelope) ORGANIC
            (d_effective_hard_bps d) (d_draw_basis_point d))
  /\ forall envelope' d',
       Payload.precommit_context_digest envelope' = Payload.precommit_context_digest sample_envelope ->
       derive_postcommit_audit_decision_v3 (PBytes sample_nonce) sample_profile envelope' (sample_runtime ORGANIC) = Ok d' ->
       d_draw_basis_point d' = d_draw_basis_point d /\ d_hard_audit_selected d' = d_hard_audit_selected d.
Proof.
  pose proof (audit_decision_correct (H := checksum_digest) (PBytes sample_nonce) sample_profile sample_envelope
    (sample_runtime ORGANIC) (sample_decision ORGANIC)) as Hx.
  refine (Hx _). vm_compute. reflexivity.
Defined.

(** A shorter output does not change the draw. *)
Example draw_ignores_output :
  d_draw_basis_point <$> derive_postcommit_audit_decision_v3 (PBytes sample_nonce) sample_profile
    (sample_envelope_with (replicate 32 x77) 3) (sample_runtime ORGANIC)
  = Ok (d_draw_basis_point (sample_decision ORGANIC)).
Proof. vm_compute. reflexivity. Qed.

Definition sample_coordinate : GlobalRelationCoordinateV3 := MkCoordinate (t_lit "embedding") PREFILL 1 16 16 7.

Lemma coordinate_encoding_injective_witness : sample_coordinate = sample_coordinate.
Proof.
  pose proof (coordinate_encoding_injective (PStr (t_lit "embedding")) (PStr PREFILL) (PInt 1) (PInt 16) (PInt 16) (PInt 7)
    sample_coordinate (PStr (t_lit "embedding")) (PStr PREFILL) (PInt 1) (PInt 16) (PInt 16) (PInt 7) sample_coordinate
    (ok_or [] (coordinate_canonical_bytes sample_coordinate))) as Hx.
  refine (Hx _ _ _ _); vm_compute; reflexivity.
Defined.
