(* ===== verification/SpecJsonTheory.v ===== *)
(** * The JSON of a spec determines the spec

    Each [to_dict] is a printer that is injective on the items that constructors
    accept ([Printed]), and what it prints has no character to escape; so equal
    canonical bytes have equal specs, and equal profile digests have equal
    profiles or give a second preimage. *)

From Stdlib Require Import ZArith Lia.
From Stdlib Require Import Strings.Byte.
From coqutil Require Import Byte Word.LittleEndianList.
From stdpp Require Import base gmap list strings sorting.
From S2P Require Import Prelude Merkle MerkleTheory Sha256 Validate Wire Text Relation Graph Json Policy Spec SpecGraph GraphLemmas Profile SelectionTheory SpecGraphTheory SpecErrors TierAuditTheory SampleProfile SampleGraph.

Import Relation Policy Graph Spec SpecGraph.
Local Open Scope Z_scope.

#[local] Arguments t_lit s : simpl never.

(** ** Printers *)

Class Printed {A} (ok : A -> Prop) (f : A -> json) : Prop := {
  printed_plain : forall a, ok a -> plain (f a);
  printed_inj : forall a b, ok a -> ok b -> f a = f b -> a = b;
}.

Definition ident (s : text) : Prop := identifier_match s = true.
Definition any {A} (_ : A) : Prop := True.
Definition option_ok {A} (ok : A -> Prop) (x : option A) : Prop := match x with Some a => ok a | None => True end.

#[export] Instance printed_int : Printed any JInt.
Proof. split; [intros; constructor|by intros a b _ _ [= ->]]. Qed.

#[export] Instance printed_str : Printed ident JStr.
Proof. split; [intros a Ha; constructor; by apply safe_identifier|by intros a b _ _ [= ->]]. Qed.

Lemma hex_digit_safe n : 0 <= n < 16 -> safe (hex_digit n) = true.
Proof. intros Hn. unfold hex_digit, safe. destruct (Z.ltb_spec n 10); lia. Qed.

Lemma hex_digit_inj n m : 0 <= n < 16 -> 0 <= m < 16 -> hex_digit n = hex_digit m -> n = m.
Proof. unfold hex_digit. destruct (Z.ltb_spec n 10), (Z.ltb_spec m 10); lia. Qed.

Lemma nibbles (x : Byte.byte) : 0 <= byte.unsigned x / 16 < 16 /\ 0 <= byte.unsigned x mod 16 < 16.
Proof.
  pose proof (byte.unsigned_range x) as Hx. split; [|apply Z.mod_pos_bound; lia].
  split; [apply Z.div_pos; lia|]. apply Z.div_lt_upper_bound; lia.
Qed.

Lemma hex_safe b : safe_text (hex b).
Proof.
  unfold safe_text, hex. induction b as [|x b IH]; [constructor|]. cbn. destruct (nibbles x).
  repeat (apply Forall_cons; split; [by apply hex_digit_safe|]). done.
Qed.

Lemma hex_inj b c : hex b = hex c -> b = c.
Proof.
  unfold hex. revert c. induction b as [|x b IH]; intros [|y c]; cbn; try done. intros [= E1 E2 E3].
  destruct (nibbles x), (nibbles y). apply hex_digit_inj in E1, E2; try done. f_equal; [|by apply IH].
  rewrite <- (byte.of_Z_unsigned x), <- (byte.of_Z_unsigned y), (Z.div_mod (byte.unsigned x) 16), (Z.div_mod (byte.unsigned y) 16) by done.
  by rewrite E1, E2.
Qed.

#[export] Instance printed_bytes : Printed any j_bytes.
Proof.
  split; [intros; constructor; apply hex_safe|]. unfold j_bytes. intros a b _ _ [= ?]. by apply hex_inj.
Qed.

#[export] Instance printed_bool : Printed any JBool.
Proof. split; [intros; constructor|by intros a b _ _ [= ->]]. Qed.

(** An optional value is printed as [null] when it is absent. *)
Class NotNull {A} (f : A -> json) : Prop := not_null : forall a, f a <> JNull.
#[export] Instance not_null_int : NotNull JInt. Proof. done. Qed.
#[export] Instance not_null_str : NotNull JStr. Proof. done. Qed.
#[export] Instance not_null_bytes : NotNull j_bytes. Proof. done. Qed.
#[export] Instance not_null_operation : NotNull RegisteredOperationReferenceV3_to_dict. Proof. done. Qed.

#[export] Instance printed_option {A} (ok : A -> Prop) f `{Printed A ok f, !NotNull f} : Printed (option_ok ok) (j_option f).
Proof.
  split.
  - intros [a|] Ha; [by apply (printed_plain (f := f))|constructor].
  - intros [a|] [b|] Ha Hb E; cbn in E; [f_equal; by apply (printed_inj (f := f))| | |done].
    + by apply not_null in E.
    + symmetry in E. by apply not_null in E.
Qed.

#[export] Instance printed_list {A} (ok : A -> Prop) f `{Printed A ok f} : Printed (Forall ok) (j_list f).
Proof.
  split.
  - intros l Hl. constructor. apply Forall_fmap. eapply Forall_impl; [exact Hl|]. intros a Ha. by apply (printed_plain (f := f)).
  - unfold j_list. intros l k Hl Hk [= E]. revert k Hk E. induction Hl as [|a l Ha Hl IH]; intros [|b k] Hk E; cbn in E; try done.
    apply Forall_cons in Hk as [Hb Hk]. injection E as E1 E2. f_equal; [by apply (printed_inj (f := f))|by apply IH].
Qed.

#[export] Instance printed_texts : Printed (Forall ident) j_texts := printed_list ident JStr.

(** ** Records *)

(** The names that are printed as keys. *)
Lemma safe_key s : forallb safe (t_lit s) = true -> safe_text (t_lit s).
Proof. intros H. apply Forall_forall. intros c Hc%list_elem_of_In. rewrite forallb_forall in H. by apply H. Qed.

Lemma obj_eq l k : JObj l = JObj k -> l = k.
Proof. by intros [= ->]. Qed.

Lemma field_eq (k : text) (a b : json) l m : (k, a) :: l = (k, b) :: m -> a = b /\ l = m.
Proof. by intros [= -> ->]. Qed.

Lemma option_any {A} (x : option A) : option_ok any x.
Proof. by destruct x. Qed.

Lemma any_ok {A} (x : A) : any x.
Proof. exact I. Qed.

Create HintDb printed discriminated.
#[export] Hint Resolve option_any any_ok : printed.

(** An object whose fields are printed and in order. *)
Ltac plain_object :=
  constructor;
    [repeat (apply Forall_cons; split; [split; [apply safe_key; vm_compute; reflexivity|cbn [snd]; apply printed_plain; auto with printed]|]);
     constructor
    | vm_compute; reflexivity].

(** Two objects with the same keys have equal values. *)
Ltac object_eq E :=
  apply obj_eq in E; repeat (apply field_eq in E; let H := fresh "Ef" in destruct E as [H E]); clear E;
  repeat match goal with
  | H : @eq json (?f _) (?f _) |- _ => apply (printed_inj (f := f)) in H; [|solve [auto with printed]..]
  end.

Definition dimension_ok (d : DeclaredDimensionV3) : Prop := ident (dimension_id d).

#[export] Instance printed_dimension : Printed dimension_ok DeclaredDimensionV3_to_dict.
Proof.
  unfold dimension_ok, DeclaredDimensionV3_to_dict. split.
  - intros a Ha. plain_object.
  - intros a b Ha Hb E. object_eq E. destruct a, b. cbn in *. congruence.
Qed.

Definition operation_ok (o : RegisteredOperationReferenceV3) : Prop := ident (operation_id o).

#[export] Instance printed_operation : Printed operation_ok RegisteredOperationReferenceV3_to_dict.
Proof.
  unfold operation_ok, RegisteredOperationReferenceV3_to_dict. split.
  - intros a Ha. plain_object.
  - intros a b Ha Hb E. object_eq E. destruct a, b. cbn in *. congruence.
Qed.

Ltac printed_record := 
  split; [intros a Ha; repeat match type of Ha with _ /\ _ => let H := fresh "Ha" in destruct Ha as [H Ha] end; plain_object
         |intros a b Ha Hb E;
          repeat match type of Ha with _ /\ _ => let H := fresh "Ha" in destruct Ha as [H Ha] end;
          repeat match type of Hb with _ /\ _ => let H := fresh "Hb" in destruct Hb as [H Hb] end;
          object_eq E].

Definition domain_ok (s : SequenceDomainV3) : Prop :=
  ident (context_dimension_id s) /\ ident (decode_dimension_id s) /\ ident (sequence_dimension_id s) /\ ident (Relation.relation_id s).

#[export] Instance printed_domain : Printed domain_ok SequenceDomainV3_to_dict.
Proof. unfold domain_ok, SequenceDomainV3_to_dict. printed_record. destruct a, b. cbn in *. congruence. Qed.

Definition shape_ok (d : ShapeDimensionV3) : Prop := match d with ConcreteDimension _ => True | SymbolicDimension s => ident s end.

#[export] Instance printed_shape : Printed shape_ok j_dimension.
Proof.
  split.
  - intros [n|s] H; [constructor|by apply (printed_plain (f := JStr))].
  - intros [] [] _ _ E; cbn in E; congruence.
Qed.

Definition tensor_ok (t : TensorDescriptorV3) : Prop :=
  ident (tensor_id t) /\ Forall shape_ok (shape t) /\ ident (encoding_id t) /\ ident (layout_id t) /\ ident (scale_rule_id t)
  /\ ident (commitment_role t).

#[export] Instance printed_tensor : Printed tensor_ok TensorDescriptorV3_to_dict.
Proof. unfold tensor_ok, TensorDescriptorV3_to_dict. printed_record. destruct a, b. cbn in *. congruence. Qed.

Definition binding_ok (b : StaticParameterBindingV3) : Prop := ident (binding_id b) /\ ident (binding_kind b).

#[export] Instance printed_binding : Printed binding_ok StaticParameterBindingV3_to_dict.
Proof. unfold binding_ok, StaticParameterBindingV3_to_dict. printed_record. destruct a, b. cbn in *. congruence. Qed.

Definition table_ok (t : StaticTableBindingV3) : Prop :=
  ident (tb_binding_id t) /\ option_ok ident (fst <$> subject_parameter (tb_subject t)) /\ ident (tb_table_id t)
  /\ ident (element_encoding_id t) /\ ident (scale_encoding_id t).

Lemma subject_ident s : ident (subject_kind s).
Proof. by destruct s. Qed.
#[local] Hint Resolve subject_ident : printed.

#[export] Instance printed_table : Printed table_ok StaticTableBindingV3_to_dict.
Proof.
  unfold table_ok, StaticTableBindingV3_to_dict. printed_record. destruct a as [? []], b as [? []]; cbn in *; congruence.
Qed.

Definition tolerance_ok (t : RelationToleranceV3) : Prop := ident (tolerance_id t) /\ ident (comparator_id t).

#[export] Instance printed_tolerance : Printed tolerance_ok RelationToleranceV3_to_dict.
Proof. unfold tolerance_ok, RelationToleranceV3_to_dict. printed_record. destruct a, b. cbn in *. congruence. Qed.

Definition node_text_ok (n : ExecutionRelationNodeV3) : Prop :=
  ident (node_id n) /\ ident (relation_id n) /\ ident (transition_adapter_id n) /\ ident (node_tolerance_id n)
  /\ Forall ident (input_tensor_ids n) /\ Forall ident (output_tensor_ids n) /\ Forall ident (static_binding_ids n)
  /\ option_ok operation_ok (operation_reference n).

#[export] Instance printed_node : Printed node_text_ok ExecutionRelationNodeV3_to_dict.
Proof. unfold node_text_ok, ExecutionRelationNodeV3_to_dict. printed_record. destruct a, b. cbn in *. congruence. Qed.

Definition family_ok (f : LayerCacheRelationV3) : Prop :=
  ident (cache_kind f) /\ ident (family_semantics_id f) /\ option_ok ident (key_tensor_id f)
  /\ option_ok ident (value_tensor_id f) /\ Forall ident (state_tensor_ids f).

#[export] Instance printed_family : Printed family_ok LayerCacheRelationV3_to_dict.
Proof. unfold family_ok, LayerCacheRelationV3_to_dict. printed_record. destruct a, b. cbn in *. congruence. Qed.

Definition plan_ok (p : LayerAuditPlanV3) : Prop :=
  ident (transition_node_id p) /\ ident (bridge_node_id p) /\ Forall operation_ok (required_operation_references p)
  /\ option_ok ident (attention_semantics_id p).

#[export] Instance printed_plan : Printed plan_ok LayerAuditPlanV3_to_dict.
Proof. unfold plan_ok, LayerAuditPlanV3_to_dict. printed_record. destruct a, b. cbn in *. congruence. Qed.

Definition policy_ok (p : HardAuditPolicyV3) : Prop :=
  ident (coverage_mode p) /\ ident (nonce_selection_abi_id p) /\ ident (tier_selection_abi_id p) /\ ident (selection_abi_id p).

#[export] Instance printed_policy : Printed policy_ok HardAuditPolicyV3_to_dict.
Proof. unfold policy_ok, HardAuditPolicyV3_to_dict. printed_record. destruct a, b. cbn in *. congruence. Qed.

(** Without sharing, the corridors of a cache are zero and are not printed. *)
Definition cache_ok (c : CacheRelationSpecV3) : Prop :=
  ident (logical_address_abi_id c) /\ ident (cache_semantics_id c) /\ ident (retention_lease_abi_id c)
  /\ Forall family_ok (layer_caches c)
  /\ (allows_prefix_cache_sharing c = false ->
      prefix_cache_k_cell_delta_max c = 0 /\ prefix_cache_k_row_sq_delta_max c = 0
      /\ prefix_cache_v_cell_delta_max c = 0 /\ prefix_cache_v_row_sq_delta_max c = 0).

#[export] Instance printed_cache : Printed cache_ok CacheRelationSpecV3_to_dict.
Proof.
  unfold cache_ok, CacheRelationSpecV3_to_dict. split.
  - intros a (Ha & Hs & Hl & Hf & _). destruct (allows_prefix_cache_sharing a); cbn [app]; plain_object.
  - intros a b (Ha & Ha1 & Ha2 & Ha3 & Ha4) (Hb & Hb1 & Hb2 & Hb3 & Hb4) E.
    destruct (allows_prefix_cache_sharing a) eqn:Ea, (allows_prefix_cache_sharing b) eqn:Eb; cbn [app] in E; try discriminate E.
    + object_eq E. destruct a, b. cbn in *. congruence.
    + object_eq E. destruct (Ha4 eq_refl) as (?&?&?&?), (Hb4 eq_refl) as (?&?&?&?). destruct a, b. cbn in *. congruence.
Qed.

(** ** The spec *)

Definition spec_ok (s : ExecutionRelationSpecV3) : Prop :=
  ident (relation_abi_id s) /\ ident (sampler_abi_id s) /\ ident (recursive_accumulator_abi_id s)
  /\ ident (request_tensor_id s) /\ ident (final_token_tensor_id s) /\ domain_ok (sequence_domain s)
  /\ Forall dimension_ok (dimensions s) /\ Forall tensor_ok (tensors s) /\ Forall operation_ok (registered_operations s)
  /\ Forall binding_ok (static_bindings s) /\ Forall table_ok (static_table_bindings s)
  /\ Forall tolerance_ok (tolerances s) /\ Forall node_text_ok (nodes s) /\ Forall plan_ok (layer_audits s)
  /\ cache_ok (cache s) /\ policy_ok (audit_policy s).

#[export] Instance printed_spec : Printed spec_ok ExecutionRelationSpecV3_to_dict.
Proof.
  unfold spec_ok, ExecutionRelationSpecV3_to_dict. printed_record.
  match goal with |- ?a = ?b => destruct a, b end. repeat match goal with H : context [ident] |- _ => clear H | H : context [@Forall] |- _ => clear H end.
  cbn in *. subst. reflexivity.
Qed.

Lemma canonical_json_inj s s' b :
  spec_ok s -> spec_ok s' -> canonical_json_bytes s = Ok b -> canonical_json_bytes s' = Ok b -> s = s'.
Proof.
  unfold canonical_json_bytes. intros Hs Hs' (e & He & H)%bind_ok (e' & He' & H')%bind_ok.
  destruct (_ <? _) in H; [discriminate|]. destruct (_ <? _) in H'; [discriminate|].
  apply (inj Ok) in H as ->, H' as ->. pose proof (ascii_inj _ _ _ He He') as E.
  apply dumps_injective in E; [by apply printed_inj in E|by apply printed_plain|by apply printed_plain].
Qed.

(** ** What constructors accept is printed *)

Lemma identifier_ident v name s : _identifier v name = Ok s -> ident s.
Proof. destruct v; try discriminate. by intros [-> ?]%identifier_made. Qed.

Lemma identifiers_ident items name l : imapR _identifier name items = Ok l -> Forall ident l.
Proof.
  unfold imapR. generalize 0%nat. revert l. induction items as [|v items IH]; intros l i; cbn [imapR_from].
  - intros H. apply (inj Ok) in H as <-. constructor.
  - intros (s & Hs%identifier_ident & (k & Hk%IH & H)%bind_ok)%bind_ok. apply (inj Ok) in H as <-. by constructor.
Qed.

Lemma one_of_ident v strings m s : forallb identifier_match strings = true -> one_of v strings m = Ok s -> ident s.
Proof.
  unfold one_of, member. intros Hl (x & Hx & H)%bind_ok. destruct x as [t|]; [|discriminate]. apply (inj Ok) in H as ->.
  destruct v; try (cbn in Hx; repeat case_match; discriminate). apply (inj Ok) in Hx. case_bool_decide as Hs; [|discriminate].
  injection Hx as ->. rewrite forallb_forall in Hl. by apply Hl, list_elem_of_In.
Qed.

Lemma expect_text_ident v s m t : identifier_match s = true -> expect_text v s m = Ok t -> ident t.
Proof. unfold expect_text. destruct v; try discriminate. case_bool_decide; [|discriminate]. intros Hs Ht. apply (inj Ok) in Ht. by subst. Qed.

Ltac idents :=
  repeat match goal with
  | H : _identifier _ _ = Ok _ |- _ => apply identifier_ident in H
  | H : imapR _identifier _ _ = Ok _ |- _ => apply identifiers_ident in H
  | H : identifiers _ _ = Ok _ |- _ => unfold identifiers in H; apply bind_ok in H; destruct H as (? & _ & H)
  | H : one_of _ _ _ = Ok _ |- _ => apply one_of_ident in H; [|by vm_compute]
  | H : expect_text _ _ _ = Ok _ |- _ => apply expect_text_ident in H; [|by repeat case_match]
  end.

(** What the constructor of a class returns. *)
Ltac constructed H := checks; try (apply (inj Ok) in H as <-); idents; repeat (split; [done|]); try done.

Lemma dimension_new_ok id lo hi d : DeclaredDimensionV3_new id lo hi = Ok d -> dimension_ok d.
Proof. unfold DeclaredDimensionV3_new. intros H. checks. destruct (_ <? _); [discriminate|]. constructed H. Qed.

Lemma domain_new_ok c d s r x : SequenceDomainV3_new c d s r = Ok x -> domain_ok x.
Proof.
  unfold SequenceDomainV3_new. intros H. checks. destruct (negb _); [discriminate|]. destruct r; try discriminate.
  destruct (negb (bool_decide _)) eqn:Er in H; [discriminate|]. apply negb_false_iff, bool_decide_eq_true in Er as ->. constructed H.
Qed.

Lemma shape_new_ok v name d : shape_dimension v name = Ok d -> shape_ok d.
Proof. unfold shape_dimension. destruct v; try discriminate; intros H; constructed H. Qed.

Lemma shapes_new_ok items name l : imapR shape_dimension name items = Ok l -> Forall shape_ok l.
Proof.
  unfold imapR. generalize 0%nat. revert l. induction items as [|v items IH]; intros l i; cbn [imapR_from].
  - intros H. apply (inj Ok) in H as <-. constructor.
  - intros (s & Hs%shape_new_ok & (k & Hk%IH & H)%bind_ok)%bind_ok. apply (inj Ok) in H as <-. by constructor.
Qed.

Lemma tensor_new_ok a b c d e f t : TensorDescriptorV3_new a b c d e f = Ok t -> tensor_ok t.
Proof.
  unfold TensorDescriptorV3_new. intros H. checks.
  match goal with H : imapR shape_dimension _ _ = Ok _ |- _ => apply shapes_new_ok in H end. constructed H.
Qed.

Lemma operation_new_ok a b c d e f g o : RegisteredOperationReferenceV3_new a b c d e f g = Ok o -> operation_ok o.
Proof. unfold RegisteredOperationReferenceV3_new. intros H. constructed H. Qed.

Lemma binding_new_ok a b c d x : StaticParameterBindingV3_new a b c d = Ok x -> binding_ok x.
Proof.
  unfold StaticParameterBindingV3_new. intros H. checks. destruct (bool_decide _).
  - destruct (_ <? _); [discriminate|]. constructed H.
  - destruct (negb _); [discriminate|]. constructed H.
Qed.

Lemma table_new_ok a b c d e f g h i j k l m t : StaticTableBindingV3_new a b c d e f g h i j k l m = Ok t -> table_ok t.
Proof.
  unfold StaticTableBindingV3_new. intros H. checks. apply (inj Ok) in H as <-.
  match goal with H : (if _ then _ else _) = Ok ?s |- _ =>
    assert (option_ok ident (fst <$> subject_parameter s)) by (destruct (bool_decide _) in H; constructed H) end.
  idents. repeat (split; [done|]). done.
Qed.

Lemma tolerance_new_ok a b c d t : RelationToleranceV3_new a b c d = Ok t -> tolerance_ok t.
Proof. unfold RelationToleranceV3_new. intros H. constructed H. Qed.

Lemma family_new_ok a b c d e f x : LayerCacheRelationV3_new a b c d e f = Ok x -> family_ok x.
Proof.
  unfold LayerCacheRelationV3_new. intros H. checks. destruct a3 as [key value]. checks. apply (inj Ok) in H as <-.
  assert (option_ok ident key /\ option_ok ident value) as [? ?].
  { match goal with H : family_tensors _ _ _ _ = Ok _ |- _ => unfold family_tensors in H; destruct (bool_decide _) in H; checks; apply (inj Ok) in H; injection H as <- <- end; by idents. }
  idents. repeat (split; [done|]). done.
Qed.

Lemma cache_new_ok a b c d e families f g h i j k l x :
  Forall family_ok families -> CacheRelationSpecV3_new a b c d e families f g h i j k l = Ok x -> cache_ok x.
Proof.
  unfold CacheRelationSpecV3_new. intros Hf H. destruct g; try discriminate. checks. apply (inj Ok) in H as <-. idents.
  repeat (split; [done|]). cbn. intros ->.
  match goal with H : reject (negb _) _ = Ok _ |- _ => apply reject_ok, negb_false_iff in H; rename H into Hz end. lia.
Qed.

Lemma plan_new_ok p : signed_plan p -> Forall operation_ok (required_operation_references p) -> plan_ok p.
Proof.
  intros (a & b & c & operations & e & f & g & h & H). unfold LayerAuditPlanV3_new in H. checks.
  destruct (bool_decide _) in H; [discriminate|]. destruct (_ <? _) in H; [discriminate|].
  destruct (bool_decide _) in H; [discriminate|]. checks. destruct (existsb _ _) in H; [discriminate|]. checks.
  destruct (_ && _) in H.
  - destruct h; try discriminate. constructed H.
  - destruct (_ || _) in H; [discriminate|]. destruct (negb _) in H; [discriminate|].
    destruct h; try discriminate; constructed H.
Qed.

Lemma policy_new_ok p : signed_policy p -> policy_ok p.
Proof.
  intros (a & b & c & d & e & f & g & h & i & j & k & l & H). unfold HardAuditPolicyV3_new in H. checks.
  destruct a0 as [mode|] eqn:Em; [|discriminate]. checks. destruct (negb _) in H; [discriminate|]. checks.
  destruct (10000 <? _) in H; [discriminate|]. destruct (10000 <? _) in H; [discriminate|].
  destruct (_ <? _) in H; [discriminate|]. destruct (_ <? _) in H; [discriminate|].
  destruct (_ && _) in H; [discriminate|].
  assert (ident mode) as Hmode; [|constructed H].
  apply (one_of_ident a [GLOBAL_EXECUTION_COVERAGE_MODE_V3; ECONOMIC_SHELL_COVERAGE_MODE_V3] ""); [by vm_compute|].
  unfold one_of. by match goal with H : member _ _ = Ok _ |- _ => rewrite H end.
Qed.

(** Items, as their constructors accept them. *)
Definition made_dimension (d : DeclaredDimensionV3) : Prop :=
  DeclaredDimensionV3_new (PStr (dimension_id d)) (PInt (minimum d)) (PInt (maximum d)) = Ok d.
Definition made_domain (s : SequenceDomainV3) : Prop :=
  SequenceDomainV3_new (PStr (context_dimension_id s)) (PStr (decode_dimension_id s)) (PStr (sequence_dimension_id s))
    (PStr (Relation.relation_id s)) = Ok s.
Definition made_operation (o : RegisteredOperationReferenceV3) : Prop :=
  RegisteredOperationReferenceV3_new (PInt (op_layer_index o)) (PStr (operation_id o))
    (match expert_id o with Some e => PInt e | None => PNone end) (PInt (op_rows o)) (PInt (op_cols o))
    (PBytes (weight_commitment o)) (PBytes (descriptor_digest o)) = Ok o.
Definition made_binding (b : StaticParameterBindingV3) : Prop :=
  StaticParameterBindingV3_new (PStr (binding_id b)) (PStr (binding_kind b)) (PBytes (binding_digest b))
    (PInt (binding_layer_index b)) = Ok b.
Definition made_table (t : StaticTableBindingV3) : Prop :=
  StaticTableBindingV3_new (PStr (tb_binding_id t)) (PStr (subject_kind (tb_subject t)))
    (match tb_subject t with OperationSubject d => PBytes d | _ => PNone end)
    (match tb_subject t with ParameterSubject id _ => PStr id | _ => PNone end)
    (match tb_subject t with ParameterSubject _ d => PBytes d | _ => PNone end)
    (PStr (tb_table_id t)) (PBytes (static_table_descriptor_digest t)) (PInt (logical_leaf_start t))
    (PInt (logical_leaf_count t)) (PInt (page_start t)) (PInt (page_count t)) (PStr (element_encoding_id t))
    (PStr (scale_encoding_id t)) = Ok t.
Definition made_tolerance (t : RelationToleranceV3) : Prop :=
  RelationToleranceV3_new (PStr (tolerance_id t)) (PStr (comparator_id t)) (PInt (absolute_q32 t)) (PInt (relative_bps t)) = Ok t.
Definition made_family (f : LayerCacheRelationV3) : Prop :=
  LayerCacheRelationV3_new (PInt (cache_layer_index f)) (PStr (cache_kind f)) (PStr (family_semantics_id f))
    (match key_tensor_id f with Some t => PStr t | None => PNone end)
    (match value_tensor_id f with Some t => PStr t | None => PNone end) (PTuple (PStr <$> state_tensor_ids f)) = Ok f.

(** The items of a spec come out of their constructors. *)
Record made_items (s : ExecutionRelationSpecV3) : Prop := {
  mi_domain : made_domain (sequence_domain s);
  mi_dimensions : Forall made_dimension (dimensions s);
  mi_tensors : Forall made_tensor (tensors s);
  mi_operations : Forall made_operation (registered_operations s);
  mi_bindings : Forall made_binding (static_bindings s);
  mi_tables : Forall made_table (static_table_bindings s);
  mi_tolerances : Forall made_tolerance (tolerances s);
  mi_nodes : Forall (fun n => made_node n /\ option_ok made_operation (operation_reference n)) (nodes s);
  mi_plans : Forall (fun p => signed_plan p /\ Forall made_operation (required_operation_references p)) (layer_audits s);
  mi_families : Forall made_family (layer_caches (cache s));
  mi_cache : made_cache (cache s);
  mi_policy : signed_policy (audit_policy s);
}.

Lemma made_items_ok s :
  made_items s ->
  ident (relation_abi_id s) -> ident (sampler_abi_id s) -> ident (recursive_accumulator_abi_id s) ->
  ident (request_tensor_id s) -> ident (final_token_tensor_id s) -> spec_ok s.
Proof.
  intros [] ?????.
  assert (forall l, Forall made_operation l -> Forall operation_ok l) as Hops.
  { intros l Hl. eapply Forall_impl; [exact Hl|]. intros o. apply operation_new_ok. }
  unfold spec_ok. repeat (split; [done|]). split_and!.
  - by eapply domain_new_ok.
  - eapply Forall_impl; [eassumption|]. intros d. apply dimension_new_ok.
  - eapply Forall_impl; [eassumption|]. intros t. apply tensor_new_ok.
  - by apply Hops.
  - eapply Forall_impl; [eassumption|]. intros b. apply binding_new_ok.
  - eapply Forall_impl; [eassumption|]. intros t. apply table_new_ok.
  - eapply Forall_impl; [eassumption|]. intros t. apply tolerance_new_ok.
  - eapply Forall_impl; [eassumption|]. intros n [Hn%made_node_facts Ho]. pose proof (nm_names n Hn) as Hnames.
    rewrite !Forall_app in Hnames. destruct Hnames as (Hn1 & ? & ? & ?). rewrite !Forall_cons in Hn1.
    destruct Hn1 as (? & ? & ? & ? & _). repeat (split; [done|]). destruct (operation_reference n); [by eapply operation_new_ok|done].
  - eapply Forall_impl; [eassumption|]. intros p [Hp Hl]. apply plan_new_ok; [done|by apply Hops].
  - eapply cache_new_ok; [|match goal with H : made_cache _ |- _ => exact H end]. eapply Forall_impl; [eassumption|]. intros f. apply family_new_ok.
  - by apply policy_new_ok.
Qed.

(** ** The profile *)

Import Profile.

Definition remake_spec (s : ExecutionRelationSpecV3) : res ExecutionRelationSpecV3 :=
  ExecutionRelationSpecV3_new (PStr (relation_abi_id s)) (PBytes (capture_abi_digest s)) (PBytes (constraint_system_digest s))
    (PBytes (tokenizer_binding_digest s)) (PStr (sampler_abi_id s)) (PBytes (sampler_abi_digest s))
    (PBytes (quantization_binding_digest s)) (PStr (recursive_accumulator_abi_id s)) (PBytes (recursive_accumulator_digest s))
    (PInt (prefill_chunk_tokens s)) (PInt (decode_chunk_tokens s)) (PStr (request_tensor_id s)) (PStr (final_token_tensor_id s))
    (sequence_domain s) (dimensions s) (tensors s) (registered_operations s) (static_bindings s) (static_table_bindings s)
    (tolerances s) (nodes s) (layer_audits s) (cache s) (audit_policy s) (PInt RELATION_SPEC_FORMAT_VERSION).

Definition remake_profile (p : ExecutionSecurityProfileV3) : res ExecutionSecurityProfileV3 :=
  ExecutionSecurityProfileV3_new (PBytes (static_manifest_digest p)) (PBytes (static_artifact_digest p)) (PStr (adapter_id p))
    (PStr (adapter_version p)) (PStr (proof_system_id p)) (PBytes (verifier_key_digest p)) (PStr (quantization_semantics_id p))
    (PInt (max_verified_context_tokens p)) (PInt (max_verified_decode_tokens p)) (relation_spec p) (PInt (profile_version p)).

(** A profile, its spec and the items of its spec come out of their
    constructors. *)
Record made_profile (p : ExecutionSecurityProfileV3) : Prop := {
  mp_profile : remake_profile p = Ok p;
  mp_spec : remake_spec (relation_spec p) = Ok (relation_spec p);
  mp_items : made_items (relation_spec p);
}.

Lemma made_profile_spec p : made_profile p -> spec_ok (relation_spec p).
Proof.
  intros [_ Hs Hi]. revert Hs. unfold remake_spec, ExecutionRelationSpecV3_new. intros Hs.
  apply bind_ok in Hs as (? & [_ ?]%identifier_made & Hs). do 3 apply bind_ok in Hs as (? & _ & Hs).
  apply bind_ok in Hs as (? & [_ ?]%identifier_made & Hs). do 2 apply bind_ok in Hs as (? & _ & Hs).
  apply bind_ok in Hs as (? & [_ ?]%identifier_made & Hs). do 3 apply bind_ok in Hs as (? & _ & Hs).
  apply bind_ok in Hs as (? & [_ ?]%identifier_made & Hs). apply bind_ok in Hs as (? & [_ ?]%identifier_made & Hs).
  by apply made_items_ok.
Qed.

(** The fields of fixed width. *)
Record profile_widths (p : ExecutionSecurityProfileV3) : Prop := {
  pw_manifest : length (static_manifest_digest p) = 32%nat;
  pw_artifact : length (static_artifact_digest p) = 32%nat;
  pw_key : length (verifier_key_digest p) = 32%nat;
  pw_context : 0 <= max_verified_context_tokens p < 2 ^ 32;
  pw_decode : 0 <= max_verified_decode_tokens p < 2 ^ 32;
  pw_version : profile_version p = PROFILE_FORMAT_VERSION;
}.

Lemma fixed_made b name nonzero c : _fixed (PBytes b) name nonzero = Ok c -> length b = 32%nat.
Proof. intros H%fixed32_spec. destruct H as ([= ->] & Hb & _). exact Hb. Qed.

Lemma made_profile_widths p : made_profile p -> profile_widths p.
Proof.
  intros [H _ _]. revert H. unfold remake_profile, ExecutionSecurityProfileV3_new. intros H. checks.
  destruct (_ <=? _) in H; [discriminate|]. checks. destruct (negb (_ =? _)) eqn:Ev in H; [discriminate|]. checks.
  repeat match goal with H : _fixed _ _ _ = Ok _ |- _ => apply fixed_made in H end.
  repeat match goal with H : _u32 _ _ _ = Ok _ |- _ => apply u32_spec in H; destruct H as [[= ?] ?] end.
  apply negb_false_iff, Z.eqb_eq in Ev. split; first [done|lia|congruence].
Qed.

(** A name with its length in front is a prefix code. *)
Lemma encode_identifier_inj s name s' name' b b' r r' :
  _encode_identifier s name = Ok b -> _encode_identifier s' name' = Ok b' -> b ++ r = b' ++ r' -> s = s' /\ r = r'.
Proof.
  unfold _encode_identifier. intros (t & [-> Ht]%identifier_made & (a & Ha & H)%bind_ok)%bind_ok.
  intros (t' & [-> Ht']%identifier_made & (a' & Ha' & H')%bind_ok)%bind_ok. apply (inj Ok) in H as <-, H' as <-.
  pose proof (identifier_length _ _ Ht Ha) as Hl. pose proof (identifier_length _ _ Ht' Ha') as Hl'.
  rewrite <- !app_assoc. intros E. apply app_inj_1 in E as [El E]; [|by rewrite !le_split_length].
  apply le_split_inj in El; [|cbn; lia..]. apply app_inj_1 in E as [-> ->]; [|unfold zlen in El; lia].
  split; [by eapply ascii_inj|done].
Qed.

Lemma profile_bytes_inj p q e :
  made_profile p -> made_profile q -> profile_canonical_bytes p = Ok e -> profile_canonical_bytes q = Ok e -> q = p.
Proof.
  intros Hp Hq. destruct (made_profile_widths p Hp) as [???? Hd Hv], (made_profile_widths q Hq) as [???? Hd' Hv'].
  unfold profile_canonical_bytes.
  intros (b & Hb & (a1 & H1 & (a2 & H2 & (a3 & H3 & (a4 & H4 & H)%bind_ok)%bind_ok)%bind_ok)%bind_ok)%bind_ok.
  intros (b' & Hb' & (a1' & H1' & (a2' & H2' & (a3' & H3' & (a4' & H4' & H')%bind_ok)%bind_ok)%bind_ok)%bind_ok)%bind_ok.
  apply (inj Ok) in H, H'. rewrite <- H' in H. clear H'.
  apply app_inv_head in H. apply app_inv_head in H. apply app_inj_1 in H as [_ H]; [|by rewrite !pack_H_length].
  apply app_inj_1 in H as [Ec H]; [|by rewrite !pack_I_length]. apply app_inj_1 in H as [Ed H]; [|by rewrite !pack_I_length].
  apply app_inj_1 in H as [Em H]; [|congruence]. apply app_inj_1 in H as [Ea H]; [|congruence].
  apply app_inj_1 in H as [Ek H]; [|congruence].
  eapply encode_identifier_inj in H as [E1 H]; [|exact H1|exact H1'].
  eapply encode_identifier_inj in H as [E2 H]; [|exact H2|exact H2'].
  eapply encode_identifier_inj in H as [E3 H]; [|exact H3|exact H3'].
  eapply encode_identifier_inj in H as [E4 H]; [|exact H4|exact H4'].
  apply app_inj_1 in H as [_ <-]; [|by rewrite !pack_I_length].
  assert (relation_spec p = relation_spec q) as Es.
  { eapply canonical_json_inj; [by apply made_profile_spec|by apply made_profile_spec|done|done]. }
  apply pack_I_inj in Ec, Ed; [|done..]. destruct p, q. cbn in *. congruence.
Qed.

(** C21 The digest that requests, envelopes and nonces are bound to names one
    signed statement: two profiles with the same digest are equal, in every
    field of the profile, of its relation spec and of the items of the spec, or
    some other string hashes like the canonical bytes of the first. *)
Theorem profile_digest_binds `{Digest} p q d :
  made_profile p -> made_profile q -> profile_digest p = Ok d -> profile_digest q = Ok d ->
  q = p \/ exists e, profile_canonical_bytes p = Ok e /\ second_preimage [_PROFILE_DIGEST_DOMAIN ++ e].
Proof.
  unfold profile_digest. intros Hp Hq (e & He & H1)%bind_ok (e' & He' & H2)%bind_ok.
  apply (inj Ok) in H1, H2. rewrite <- H1 in H2.
  destruct (sha256_inj_or [_PROFILE_DIGEST_DOMAIN ++ e] _ _ ltac:(by apply list_elem_of_singleton) H2) as [E|]; [left|right; eauto].
  apply app_inv_head in E as ->. by eapply profile_bytes_inj.
Qed.

(** ** Witness *)

#[local] Existing Instance checksum_digest.

Ltac each_made := repeat (apply Forall_cons; split; [vm_compute; reflexivity|]); constructor.

Lemma graph_items_made : made_items graph_spec.
Proof.
  split.
  - vm_compute. reflexivity.
  - each_made.
  - each_made.
  - each_made.
  - each_made.
  - each_made.
  - each_made.
  - repeat (apply Forall_cons; split; [split; vm_compute; first [reflexivity|exact I]|]). constructor.
  - repeat (apply Forall_cons; split; [split; [apply sample_plan_signed; vm_compute; reflexivity|each_made]|]). constructor.
  - each_made.
  - vm_compute. reflexivity.
  - apply sample_audits_signed.
Qed.

Lemma graph_profile_made : made_profile graph_profile.
Proof. split; [vm_compute; reflexivity|vm_compute; reflexivity|exact graph_items_made]. Qed.

(** A profile for another tokenizer.  The sample digest reads the first kilobyte
    only, and the tokenizer comes later. *)
Definition other_spec : ExecutionRelationSpecV3 :=
  MkSpec GLOBAL_EXECUTION_RELATION_ABI_V3 (sample_tag 9 0) (replicate 32 x03) (sample_tag 9 5) (t_lit "canonical.sampler.v1")
    (sample_tag 9 2) (sample_tag 9 3) RECURSIVE_CHUNK_ACCUMULATOR_ABI_V3 (replicate 32 x04) 16 8 (t_lit "prompt")
    (t_lit "output") sample_domain sample_dimensions sample_tensors sample_operations sample_bindings sample_tables
    sample_tolerances sample_nodes sample_plans sample_cache sample_policy.
Definition other_profile : ExecutionSecurityProfileV3 :=
  MkProfile (replicate 32 x05) (replicate 32 x06) (t_lit "adapter") (t_lit "1.0")
    GLOBAL_FOLDED_EXECUTION_PROOF_SYSTEM_V3 (replicate 32 x07) (t_lit "int8") 64 32 other_spec 8.

Lemma other_profile_made : made_profile other_profile.
Proof.
  split; [vm_compute; reflexivity|vm_compute; reflexivity|]. destruct graph_items_made. split; assumption.
Qed.

Lemma profile_digest_binds_witness :
  other_profile = graph_profile
  \/ exists e, profile_canonical_bytes graph_profile = Ok e /\ second_preimage [_PROFILE_DIGEST_DOMAIN ++ e].
Proof.
  refine (profile_digest_binds (H := checksum_digest) graph_profile other_profile (ok_or [] (profile_digest graph_profile))
            graph_profile_made other_profile_made _ _);
    vm_compute; reflexivity.
Defined.
