(* ===== verification/Verifier.v ===== *)
(** * Envelope admission and proof verification ([verallm/proof_v3/verifier.py])

    The checks that tie a sealed envelope to the validator's own request and
    output, and the dispatch of a proof to the native adapter.  The adapter is
    not part of the repository: it is the class [FoldedExecutionAdapterV3].
    The capability check of the economic profiles is the one of
    [economic_registry.py]. *)

From Stdlib Require Import ZArith Lia.
From Stdlib Require Import Strings.Byte.
From coqutil Require Import Word.LittleEndianList.
From stdpp Require Import base gmap list strings.
From S2P Require Import Prelude Sha256 Merkle MerkleTheory Validate Wire Text Relation Policy Spec Profile Payload Request Challenge TierAudit.

Import Relation Policy Spec Profile Challenge TierAudit.
Local Open Scope Z_scope.

#[export] Instance byte_countable : Countable byte := inj_countable Byte.to_N Byte.of_N Byte.of_to_N.

(** The artifacts that a verifier was registered with, and a native verifier:
    their methods may raise any exception. *)
Record QualifiedExecutionArtifactsV3 := MkArtifacts {
  artifacts_validate_profile : ExecutionSecurityProfileV3 -> res unit;
}.

Record FoldedExecutionAdapterV3 := MkFoldedAdapter {
  native_validate_profile : ExecutionSecurityProfileV3 -> QualifiedExecutionArtifactsV3 -> res unit;
  native_verify : ExecutionSecurityProfileV3 -> Payload.ProofV3CommitmentEnvelope ->
    Payload.FoldedExecutionProofV3 -> FoldedExecutionChallengeV3 -> res unit;
}.

Record QualifiedExecutionAdapterV3 := MkAdapter {
  qa_artifacts : QualifiedExecutionArtifactsV3;
  qa_adapter : FoldedExecutionAdapterV3;
}.

Definition adapter_validate_profile (self : QualifiedExecutionAdapterV3) (profile : ExecutionSecurityProfileV3) : res unit :=
  _ ← artifacts_validate_profile (qa_artifacts self) profile;
  native_validate_profile (qa_adapter self) profile (qa_artifacts self).

Definition adapter_verify (self : QualifiedExecutionAdapterV3) : ExecutionSecurityProfileV3 ->
    Payload.ProofV3CommitmentEnvelope -> Payload.FoldedExecutionProofV3 -> FoldedExecutionChallengeV3 -> res unit :=
  native_verify (qa_adapter self).

Module Verifier.

Record EnvelopeBindingV3 := MkBinding {
  b_profile_digest : bytes;
  b_precommit_context : Request.PreExecutionRequestContextV3;
  b_request_binding : Request.ExecutionRequestBindingV3;
}.

#[export] Instance precontext_eq_dec : EqDecision Request.PreExecutionRequestContextV3.
Proof. solve_decision. Defined.
#[export] Instance output_eq_dec : EqDecision Request.ExecutionOutputBindingV3.
Proof. solve_decision. Defined.
#[export] Instance request_eq_dec : EqDecision Request.ExecutionRequestBindingV3.
Proof. solve_decision. Defined.
#[export] Instance binding_eq_dec : EqDecision EnvelopeBindingV3.
Proof. solve_decision. Defined.
#[export] Instance decision_eq_dec : EqDecision PostCommitAuditDecisionV3.
Proof. solve_decision. Defined.

Definition adapter_key_v3 `{Digest} (profile : ExecutionSecurityProfileV3) : res bytes := profile_digest profile.

(** [if b: raise ProofV3VerificationError(m)] *)
Definition refuse (b : bool) (m : string) : res unit := if b then raise ProofV3VerificationError m else Ok tt.
Arguments refuse b m%_string_scope.

Definition differ (a b : bytes) : bool := negb (bool_decide (a = b)).

(** [try: r  except Exception: raise ProofV3VerificationError(m)], and the same
    with [except ProofV3VerificationError: raise] before it. *)
Definition malformed {A} (m : string) (r : res A) : res A := reraise_as [] all_exceptions ProofV3VerificationError m r.
Definition malformed_unless_verification {A} (m : string) (r : res A) : res A :=
  reraise_as [ProofV3VerificationError] all_exceptions ProofV3VerificationError m r.
Arguments malformed {A} m%_string_scope r.
Arguments malformed_unless_verification {A} m%_string_scope r.

(** ** Economic capability ([economic_registry.py]) *)

Definition ECONOMIC_RECOMPUTE_PROOF_SYSTEM_V3 : text := t_lit "economic_recompute_v3".
Definition ECONOMIC_SELECTION_ABIS : list text :=
  [t_lit "economic.recompute.selection.v2.bounded_pool";
   t_lit "economic.recompute.selection.v7.streaming_stratified_transition_lanes";
   t_lit "economic.recompute.selection.v9.compact_projection_terminal_escalation";
   t_lit "economic.recompute.selection.v10.compact_projection_terminal"].

Definition require_economic_recompute_capability_v3 (profile : ExecutionSecurityProfileV3) : res unit :=
  _ ← refuse (negb (bool_decide (proof_system_id profile = ECONOMIC_RECOMPUTE_PROOF_SYSTEM_V3)))
        "execution profile is not an economic recompute profile";
  let policy := audit_policy (relation_spec profile) in
  _ ← refuse (negb (bool_decide (coverage_mode policy = ECONOMIC_SHELL_COVERAGE_MODE_V3)))
        "economic profile has an unexpected coverage mode";
  refuse (negb (bool_decide (selection_abi_id policy ∈ ECONOMIC_SELECTION_ABIS)))
    "economic profile is not signed for the economic selection ABI".

(** ** Admission of an envelope *)

(** The tests of the fields of the envelope, in their order. *)
Definition check_envelope_fields `{Digest} (envelope : Payload.ProofV3CommitmentEnvelope)
    (precommit_context : Request.PreExecutionRequestContextV3) (output_binding : Request.ExecutionOutputBindingV3)
    (request_binding : Request.ExecutionRequestBindingV3) : res unit :=
  context_digest ← Request.precontext_digest precommit_context;
  _ ← refuse (differ (Payload.precommit_context_digest envelope) context_digest)
        "commitment envelope has an unexpected validator precommit context";
  _ ← refuse (differ (Payload.prompt_token_root envelope) (Request.prompt_token_root precommit_context))
        "commitment envelope has an unexpected prompt root";
  _ ← refuse (differ (Payload.sampler_config_digest envelope) (Request.sampler_config_digest precommit_context))
        "commitment envelope has an unexpected sampler configuration";
  _ ← refuse (differ (Payload.cache_lease_digest envelope) (Request.cache_lease_digest precommit_context))
        "commitment envelope has an unexpected validator cache lease";
  _ ← refuse (differ (Payload.output_token_root envelope) (Request.output_token_root output_binding))
        "commitment envelope has an unexpected token root";
  _ ← refuse (differ (Payload.output_stream_digest envelope) (Request.output_stream_digest output_binding))
        "commitment envelope has an unexpected stream";
  _ ← refuse (differ (Payload.request_digest envelope) (Request.rb_request_digest request_binding))
        "commitment envelope has an unexpected validator request";
  _ ← refuse (negb (Payload.context_token_count envelope =? Request.context_token_count precommit_context))
        "commitment envelope has an unexpected validator context length";
  refuse (negb (Payload.decode_token_count envelope =? Request.decode_token_count output_binding))
    "commitment envelope has an unexpected validator decode length".

Definition validate_execution_envelope_against_precommit_v3 `{Digest} (profile : ExecutionSecurityProfileV3)
    (envelope : Payload.ProofV3CommitmentEnvelope) (static_digest expected_profile_digest : bytes)
    (precommit_context : Request.PreExecutionRequestContextV3) (output_binding : Request.ExecutionOutputBindingV3)
    (capability_requirement : option (ExecutionSecurityProfileV3 -> res unit)) (allow_unverified_context : bool)
    : res EnvelopeBindingV3 :=
  _ ← refuse (negb (length static_digest =? 32)%nat) "expected_static_manifest_digest must be exactly 32 bytes";
  _ ← refuse (negb (length expected_profile_digest =? 32)%nat)
        "expected_execution_profile_digest must be exactly 32 bytes";
  _ ← match capability_requirement with
      | None => require_hard_execution_capability profile
      | Some requirement => requirement profile
      end;
  let context_is_qualified := Request.context_token_count precommit_context <=? max_verified_context_tokens profile in
  _ ← refuse (negb context_is_qualified && negb allow_unverified_context) "context length exceeds signed profile limit";
  _ ← refuse (max_verified_decode_tokens profile <? Request.decode_token_count output_binding)
        "decode length exceeds signed profile limit";
  _ ← (if context_is_qualified then
         _ ← malformed "request/output token counts do not satisfy the signed sequence domain"
               (validate_execution_counts (relation_spec profile) (PInt (Request.context_token_count precommit_context))
                  (PInt (Request.decode_token_count output_binding)));
         Ok tt
       else Ok tt);
  digest ← profile_digest profile;
  _ ← refuse (differ digest expected_profile_digest) "execution profile was not selected by the validator catalog";
  _ ← refuse (differ (static_manifest_digest profile) static_digest)
        "execution profile has an unexpected static manifest";
  _ ← refuse (differ (Request.static_manifest_digest precommit_context) static_digest)
        "precommit context has an unexpected static manifest";
  _ ← refuse (differ (Request.execution_profile_digest precommit_context) digest)
        "precommit context has an unexpected profile";
  _ ← refuse (differ (Payload.static_manifest_digest envelope) static_digest)
        "commitment envelope has an unexpected static manifest";
  _ ← refuse (differ (Payload.execution_profile_digest envelope) digest)
        "commitment envelope has an unexpected profile";
  request_binding ← Request.bind_output precommit_context output_binding;
  _ ← check_envelope_fields envelope precommit_context output_binding request_binding;
  Ok (MkBinding digest precommit_context request_binding).

Definition validate_execution_envelope_binding_v3 `{Digest, Unicode} (profile : ExecutionSecurityProfileV3)
    (envelope : Payload.ProofV3CommitmentEnvelope) (validator_nonce : pyval)
    (static_digest expected_profile_digest : bytes)
    (validator_request_context : Request.ValidatorExecutionRequestContextV3)
    (observed_output : Request.ObservedExecutionOutputV3)
    (capability_requirement : option (ExecutionSecurityProfileV3 -> res unit)) : res EnvelopeBindingV3 :=
  '(context_count, decode_count) ←
    malformed "validator request/output context is malformed"
      (context_count ← Request.prompt_token_count validator_request_context;
       decode_count ← Request.output_token_count observed_output;
       Ok (context_count, decode_count));
  _ ← refuse (max_verified_context_tokens profile <? context_count) "context length exceeds signed profile limit";
  _ ← refuse (max_verified_decode_tokens profile <? decode_count) "decode length exceeds signed profile limit";
  '(precommit_context, output_binding, expected_nonce_commitment) ←
    malformed "validator request/output context is malformed"
      (digest ← profile_digest profile;
       precommit_context ← Request.derive_precommit_context validator_request_context (PBytes static_digest) (PBytes digest);
       output_binding ← Request.derive_output_binding observed_output;
       nonce_context ← Request.nonce_context_digest precommit_context;
       commitment ← Request.commit_validator_nonce_v3 validator_nonce (PBytes nonce_context);
       Ok (precommit_context, output_binding, commitment));
  _ ← refuse (differ (Request.validator_nonce_commitment precommit_context) expected_nonce_commitment)
        "validator nonce does not match the pre-request commitment";
  validate_execution_envelope_against_precommit_v3 profile envelope static_digest expected_profile_digest
    precommit_context output_binding capability_requirement false.

(** ** Verification of a proof *)

Definition _verify_folded_execution_proof_against_binding_v3 `{Digest, PallasField}
    (profile : ExecutionSecurityProfileV3) (envelope : Payload.ProofV3CommitmentEnvelope)
    (proof : Payload.FoldedExecutionProofV3) (validator_nonce : pyval) (static_digest expected_profile_digest : bytes)
    (binding : EnvelopeBindingV3) (runtime_policy : RuntimeHardAuditPolicyV3)
    (audit_decision : option PostCommitAuditDecisionV3) (adapters : gmap bytes QualifiedExecutionAdapterV3)
    (registration_prequalified : bool) : res FoldedExecutionChallengeV3 :=
  _ ← malformed_unless_verification "runtime hard-audit policy is malformed"
        (validate_runtime (audit_policy (relation_spec profile)) runtime_policy);
  validated_binding ← validate_execution_envelope_against_precommit_v3 profile envelope static_digest
    expected_profile_digest (b_precommit_context binding) (Request.rb_output (b_request_binding binding)) None false;
  _ ← refuse (negb (bool_decide (validated_binding = binding))) "execution envelope binding is inconsistent";
  expected_audit_decision ← malformed_unless_verification "postcommit hard-audit decision is malformed"
    (derive_postcommit_audit_decision_v3 validator_nonce profile envelope runtime_policy);
  _ ← match audit_decision with
      | None => Ok tt
      | Some d => refuse (negb (bool_decide (d = expected_audit_decision)))
                    "postcommit hard-audit decision is not bound to the validator transcript"
      end;
  _ ← refuse (negb (d_hard_audit_selected expected_audit_decision))
        "postcommit audit decision did not select a hard proof";
  let digest := b_profile_digest validated_binding in
  _ ← refuse (differ (Payload.fx_commitment_envelope_digest proof) (Payload.envelope_digest envelope))
        "proof is bound to a different commitment envelope";
  _ ← refuse (differ (Payload.fx_execution_profile_digest proof) digest)
        "proof is bound to a different execution profile";
  challenge ← derive_folded_execution_challenge_v3 validator_nonce profile envelope;
  key ← adapter_key_v3 profile;
  match adapters !! key with
  | None => raise ProofV3UnavailableError "no qualified proof-v3 adapter is registered for this execution profile"
  | Some registration =>
      _ ← (if registration_prequalified then Ok tt
           else malformed_unless_verification "proof-v3 adapter rejected the signed relation profile"
                  (adapter_validate_profile registration profile));
      _ ← malformed_unless_verification "proof-v3 adapter rejected the folded execution proof"
            (adapter_verify registration profile envelope proof challenge);
      Ok challenge
  end.

Definition verify_folded_execution_proof_v3 `{Digest, PallasField, Unicode} (profile : ExecutionSecurityProfileV3)
    (envelope : Payload.ProofV3CommitmentEnvelope) (proof : Payload.FoldedExecutionProofV3)
    (validator_nonce : pyval) (static_digest expected_profile_digest : bytes)
    (validator_request_context : Request.ValidatorExecutionRequestContextV3)
    (observed_output : Request.ObservedExecutionOutputV3) (runtime_policy : RuntimeHardAuditPolicyV3)
    (adapters : gmap bytes QualifiedExecutionAdapterV3) : res FoldedExecutionChallengeV3 :=
  binding ← validate_execution_envelope_binding_v3 profile envelope validator_nonce static_digest
    expected_profile_digest validator_request_context observed_output None;
  _verify_folded_execution_proof_against_binding_v3 profile envelope proof validator_nonce static_digest
    expected_profile_digest binding runtime_policy None adapters false.
End Verifier.
