(* ===== verification/SampleExchange.v ===== *)
(** * A sample exchange

    An honest run under the sample profile: the nonce, the committed context,
    the observed output, the envelope and a proof frame bound to it. *)

From Stdlib Require Import ZArith Lia.
From Stdlib Require Import Strings.Byte.
From coqutil Require Import Word.LittleEndianList.
From stdpp Require Import base gmap list strings.
From S2P Require Import Prelude Sha256 Merkle MerkleTheory Validate Wire Text Relation Policy Spec Profile Payload Request RequestTheory Challenge SampleProfile.

Import Relation Policy Spec Profile.
Local Open Scope Z_scope.

(** Text that is in normal form already, and the order of the Pallas scalars. *)
Definition sample_unicode : Unicode := fun s => s.
Definition sample_pallas : PallasField := 0x40000000000000000000000000000000224698fc0994a8dd8c46eb2100000001.

Section exchange.
Context `{Digest}.
#[local] Existing Instance sample_unicode.

Definition sample_prompt : pyval := PTuple [PInt 5; PInt 6; PInt 7].
Definition sample_observed : Request.ObservedExecutionOutputV3 :=
  Request.MkObserved (PTuple [PInt 9; PInt 10]) (PBytes (b_lit "hello")) (PStr (t_lit "stop")).

Definition sample_context_with (commitment : bytes) : Request.ValidatorExecutionRequestContextV3 :=
  Request.MkValidatorContext (replicate 32 x01) (replicate 32 x02) (replicate 32 x03) commitment sample_prompt
    (replicate 32 x05) (replicate 32 x06).

Definition sample_static : bytes := static_manifest_digest sample_profile.

Definition sample_commitment : bytes :=
  ok_or [] (n ← Request.validator_nonce_context_digest (sample_context_with zero32) (PBytes sample_static) (PBytes sample_digest);
            Request.commit_validator_nonce_v3 (PBytes sample_nonce) (PBytes n)).
Definition sample_context : Request.ValidatorExecutionRequestContextV3 := sample_context_with sample_commitment.

Definition no_precontext : Request.PreExecutionRequestContextV3 :=
  Request.MkPreContext [] [] [] [] [] [] [] 0 [] [].
Definition sample_precontext : Request.PreExecutionRequestContextV3 :=
  ok_or no_precontext (Request.derive_precommit_context sample_context (PBytes sample_static) (PBytes sample_digest)).
Definition sample_output : Request.ExecutionOutputBindingV3 :=
  ok_or (Request.MkOutputBinding [] [] 0) (Request.derive_output_binding sample_observed).
Definition sample_binding : Request.ExecutionRequestBindingV3 :=
  ok_or (Request.MkRequestBinding no_precontext sample_output []) (Request.bind_output sample_precontext sample_output).

Definition sealed_envelope : Payload.ProofV3CommitmentEnvelope :=
  Payload.MkEnvelope sample_static sample_digest (ok_or [] (Request.precontext_digest sample_precontext))
    (Request.prompt_token_root sample_precontext) (Request.sampler_config_digest sample_precontext)
    (Request.cache_lease_digest sample_precontext) (Request.rb_request_digest sample_binding)
    (Request.output_token_root sample_output) (Request.output_stream_digest sample_output)
    (replicate 32 x12) (replicate 32 x13) (replicate 32 x14) 3 2 1.

Definition sealed_proof : Payload.FoldedExecutionProofV3 :=
  Payload.MkFoldedProof (Payload.envelope_digest sealed_envelope) sample_digest (b_lit "l") (b_lit "t") (b_lit "f").
End exchange.

#[local] Existing Instance checksum_digest.
#[local] Existing Instance sample_unicode.

Lemma sample_context_valid : valid_validator_context sample_context.
Proof. split; [repeat constructor; vm_compute; reflexivity|by vm_compute]. Qed.

Example sample_exchange_ok :
  (c ← Request.derive_precommit_context sample_context (PBytes sample_static) (PBytes sample_digest);
   o ← Request.derive_output_binding sample_observed;
   b ← Request.bind_output c o;
   Ok (c, o, b)) = Ok (sample_precontext, sample_output, sample_binding).
Proof. vm_compute. reflexivity. Qed.
