(* ===== verification/VerifierTheory.v ===== *)
(** * What an accepted proof establishes

    An envelope is admitted only when every field is the validator's own, and a
    proof is accepted only for an admitted envelope, under the committed nonce,
    with a hard decision, by the adapter registered for the exact profile. *)

From Stdlib Require Import ZArith Lia.
From Stdlib Require Import Strings.Byte.
From coqutil Require Import Word.LittleEndianList.
From stdpp Require Import base gmap list strings.
From S2P Require Import Prelude Sha256 Merkle MerkleTheory Validate Wire Text Relation Policy Spec Profile Payload Request RequestTheory Challenge TierAudit TierAuditTheory Verifier SampleProfile SampleExchange.

Import Relation Policy Spec Profile Challenge TierAudit Verifier.
Local Open Scope Z_scope.

Lemma refuse_ok b m u : refuse b m = Ok u <-> b = false.
Proof. unfold refuse, raise. destruct b, u; naive_solver. Qed.

Lemma differ_false a b : differ a b = false <-> a = b.
Proof. unfold differ. rewrite negb_false_iff, bool_decide_eq_true. done. Qed.

(** Split off the next check of a chain of [refuse]s. *)
Ltac pass H E :=
  let u := fresh "u" in
  apply bind_ok in H as (u & E & H); apply refuse_ok in E; clear u;
  try (apply differ_false in E).

(** Every field of the envelope is the one of the validator's statement. *)
Record envelope_bound `{Digest} (envelope : Payload.ProofV3CommitmentEnvelope) (static profile : bytes)
    (c : Request.PreExecutionRequestContextV3) (o : Request.ExecutionOutputBindingV3) (request : bytes) : Prop := {
  eb_static : Payload.static_manifest_digest envelope = static;
  eb_profile : Payload.execution_profile_digest envelope = profile;
  eb_context_static : Request.static_manifest_digest c = static;
  eb_context_profile : Request.execution_profile_digest c = profile;
  eb_precommit : Request.precontext_digest c = Ok (Payload.precommit_context_digest envelope);
  eb_prompt : Payload.prompt_token_root envelope = Request.prompt_token_root c;
  eb_sampler : Payload.sampler_config_digest envelope = Request.sampler_config_digest c;
  eb_lease : Payload.cache_lease_digest envelope = Request.cache_lease_digest c;
  eb_output : Payload.output_token_root envelope = Request.output_token_root o;
  eb_stream : Payload.output_stream_digest envelope = Request.output_stream_digest o;
  eb_request : Payload.request_digest envelope = request;
  eb_context_count : Payload.context_token_count envelope = Request.context_token_count c;
  eb_decode_count : Payload.decode_token_count envelope = Request.decode_token_count o;
}.

Lemma check_fields_ok `{Digest} envelope c o rb :
  check_envelope_fields envelope c o rb = Ok tt ->
  Request.static_manifest_digest c = Payload.static_manifest_digest envelope ->
  Request.execution_profile_digest c = Payload.execution_profile_digest envelope ->
  envelope_bound envelope (Payload.static_manifest_digest envelope) (Payload.execution_profile_digest envelope) c o
    (Request.rb_request_digest rb).
Proof.
  unfold check_envelope_fields. intros (d & Hd & Hx)%bind_ok Hs Hp.
  pass Hx E1. pass Hx E2. pass Hx E3. pass Hx E4. pass Hx E5. pass Hx E6. pass Hx E7. pass Hx E8.
  apply refuse_ok, negb_false_iff, Z.eqb_eq in Hx. apply negb_false_iff, Z.eqb_eq in E8.
  split; try done. congruence.
Qed.

(** What admission establishes. *)
Lemma admission_ok `{Digest} profile envelope static pd c o req allow b :
  validate_execution_envelope_against_precommit_v3 profile envelope static pd c o req allow = Ok b ->
  profile_digest profile = Ok pd /\ static_manifest_digest profile = static
  /\ b_profile_digest b = pd /\ b_precommit_context b = c
  /\ Request.bind_output c o = Ok (b_request_binding b)
  /\ envelope_bound envelope static pd c o (Request.rb_request_digest (b_request_binding b))
  /\ Request.decode_token_count o <= max_verified_decode_tokens profile
  /\ (allow = false -> Request.context_token_count c <= max_verified_context_tokens profile)
  /\ (Request.context_token_count c <= max_verified_context_tokens profile ->
      exists n, validate_execution_counts (relation_spec profile) (PInt (Request.context_token_count c))
                  (PInt (Request.decode_token_count o)) = Ok n)
  /\ match req with None => require_hard_execution_capability profile = Ok tt | Some r => r profile = Ok tt end.
Proof.
  unfold validate_execution_envelope_against_precommit_v3. intros Hv. pass Hv E1. pass Hv E2.
  apply bind_ok in Hv as ([] & Hcap & Hv). pass Hv E3. pass Hv E4.
  apply bind_ok in Hv as ([] & Hcounts & (d & Hd & Hv)%bind_ok).
  pass Hv E5. pass Hv E6. pass Hv E7. pass Hv E8. pass Hv E9. pass Hv E10.
  apply bind_ok in Hv as (rb & Hrb & ([] & Hf & Hb)%bind_ok). apply (inj Ok) in Hb as <-. cbn.
  subst d. pose proof (check_fields_ok envelope c o rb Hf) as Heb. rewrite E9, E10 in Heb.
  split_and!; [done|done|done|done|done|by apply Heb|lia| | |by destruct req].
  - intros ->. rewrite andb_true_r in E3. apply negb_false_iff, Z.leb_le in E3. done.
  - intros Hle. rewrite (proj2 (Z.leb_le _ _) Hle) in Hcounts.
    apply bind_ok in Hcounts as (n & Hn & _). unfold malformed in Hn. apply reraise_as_ok in Hn. by exists n.
Qed.

Lemma proof_ok `{Digest, PallasField} profile envelope proof nonce static pd b runtime decision adapters pre ch :
  _verify_folded_execution_proof_against_binding_v3 profile envelope proof nonce static pd b runtime decision adapters pre
  = Ok ch ->
  exists d reg,
    derive_postcommit_audit_decision_v3 nonce profile envelope runtime = Ok d /\ d_hard_audit_selected d = true
    /\ (forall d', decision = Some d' -> d' = d)
    /\ Payload.fx_commitment_envelope_digest proof = Payload.envelope_digest envelope
    /\ Payload.fx_execution_profile_digest proof = pd
    /\ derive_folded_execution_challenge_v3 nonce profile envelope = Ok ch
    /\ adapters !! pd = Some reg /\ adapter_verify reg profile envelope proof ch = Ok tt
    /\ (pre = false -> adapter_validate_profile reg profile = Ok tt).
Proof.
  unfold _verify_folded_execution_proof_against_binding_v3.
  intros ([] & _ & (vb & Hvb & Hx)%bind_ok)%bind_ok. pass Hx E1. apply negb_false_iff, bool_decide_eq_true in E1 as ->.
  apply admission_ok in Hvb as (Hpd & _ & Hb & _).
  apply bind_ok in Hx as (d & Hd & ([] & Hdec & Hx)%bind_ok). apply reraise_as_ok in Hd.
  pass Hx E2. pass Hx E3. pass Hx E4. apply bind_ok in Hx as (c & Hc & (key & Hkey & Hx)%bind_ok).
  unfold adapter_key_v3 in Hkey. rewrite Hpd in Hkey. apply (inj Ok) in Hkey as <-.
  destruct (adapters !! pd) as [reg|] eqn:Hreg; [|discriminate].
  apply bind_ok in Hx as ([] & Hpre & ([] & Hver & Hx)%bind_ok). apply (inj Ok) in Hx as <-. apply reraise_as_ok in Hver.
  apply negb_false_iff in E2. exists d, reg. split_and!; try done; [|congruence|].
  - intros d' ->. apply refuse_ok, negb_false_iff, bool_decide_eq_true in Hdec. done.
  - intros ->. by apply reraise_as_ok in Hpre.
Qed.

(** C4 An accepted proof is about the validator's own exchange: the envelope
    carries, field by field, the statement that the validator derives from its
    request context and the output it observed, within the limits of the signed
    profile; the nonce opens the commitment of the context; the nonce selects
    the hard tier for this envelope; the proof is bound to the envelope and the
    profile; and the adapter registered for this exact profile accepted it on
    the challenge derived from the nonce and the envelope. *)
Theorem folded_verification_sound `{Digest, PallasField, Unicode} profile envelope proof nonce static pd vc o runtime
    adapters ch :
  valid_validator_context vc ->
  verify_folded_execution_proof_v3 profile envelope proof nonce static pd vc o runtime adapters = Ok ch ->
  exists c ob rb d reg,
    Request.derive_precommit_context vc (PBytes static) (PBytes pd) = Ok c
    /\ Request.derive_output_binding o = Ok ob /\ Request.bind_output c ob = Ok rb
    /\ envelope_bound envelope static pd c ob (Request.rb_request_digest rb)
    /\ profile_digest profile = Ok pd /\ static_manifest_digest profile = static
    /\ Request.context_token_count c <= max_verified_context_tokens profile
    /\ Request.decode_token_count ob <= max_verified_decode_tokens profile
    /\ (exists n, Request.nonce_context_digest c = Ok n
          /\ Request.commit_validator_nonce_v3 nonce (PBytes n) = Ok (Request.vc_validator_nonce_commitment vc))
    /\ derive_postcommit_audit_decision_v3 nonce profile envelope runtime = Ok d /\ d_hard_audit_selected d = true
    /\ Payload.fx_commitment_envelope_digest proof = Payload.envelope_digest envelope
    /\ Payload.fx_execution_profile_digest proof = pd
    /\ derive_folded_execution_challenge_v3 nonce profile envelope = Ok ch
    /\ adapters !! pd = Some reg /\ adapter_verify reg profile envelope proof ch = Ok tt.
Proof.
  intros Hvc (b & Hb & Hp)%bind_ok. unfold validate_execution_envelope_binding_v3 in Hb.
  apply bind_ok in Hb as ([n1 n2] & _ & Hb). pass Hb E1. pass Hb E2.
  apply bind_ok in Hb as ([[c ob] k] & Hm & Hb). apply reraise_as_ok in Hm.
  apply bind_ok in Hm as (pd' & Hpd' & (c' & Hc & (ob' & Hob & (nc & Hnc & (k' & Hk & Hm)%bind_ok)%bind_ok)%bind_ok)%bind_ok).
  apply (inj Ok) in Hm. injection Hm as -> -> ->. pass Hb E3.
  pose proof (admission_ok _ _ _ _ _ _ _ _ _ Hb) as (Hpd & Hs & _ & _ & Hrb & Heb & Hd & Hctx & _).
  rewrite Hpd in Hpd'. apply (inj Ok) in Hpd' as <-.
  apply proof_ok in Hp as (d & reg & Hdec & Hhard & _ & Hpe & Hpp & Hch & Hreg & Hver & _).
  exists c, ob, (b_request_binding b), d, reg. split_and!; try done; [by apply Hctx|].
  exists nc. split; [done|]. rewrite Hk. f_equal. rewrite <- E3.
  apply derive_precommit_ok in Hc as (? & ? & ? & _ & _ & _ & _ & _ & _ & ->); [done|done].
Qed.

(** ** Witness *)

#[local] Existing Instance checksum_digest.
#[local] Existing Instance sample_pallas.
#[local] Existing Instance sample_unicode.

(** An adapter that accepts everything, registered for the sample profile. *)
Definition sample_adapter : QualifiedExecutionAdapterV3 := 
  MkAdapter (MkArtifacts (fun _ => Ok tt)) (MkFoldedAdapter (fun _ _ => Ok tt) (fun _ _ _ _ => Ok tt)).
Definition sample_adapters : gmap bytes QualifiedExecutionAdapterV3 := {[ sample_digest := sample_adapter ]}.

Definition sample_verification (runtime : RuntimeHardAuditPolicyV3) : res FoldedExecutionChallengeV3 :=
  verify_folded_execution_proof_v3 sample_profile sealed_envelope sealed_proof (PBytes sample_nonce) sample_static
    sample_digest sample_context sample_observed runtime sample_adapters.

Definition no_challenge : FoldedExecutionChallengeV3 := MkChallenge [] [] 0 0 0 0 0 (MkSelection [] 0 []).
Definition sample_challenge : FoldedExecutionChallengeV3 := ok_or no_challenge (sample_verification (sample_runtime CANARY)).

Lemma folded_verification_sound_witness :
  exists c ob rb d reg,
    Request.derive_precommit_context sample_context (PBytes sample_static) (PBytes sample_digest) = Ok c
    /\ Request.derive_output_binding sample_observed = Ok ob /\ Request.bind_output c ob = Ok rb
    /\ envelope_bound sealed_envelope sample_static sample_digest c ob (Request.rb_request_digest rb)
    /\ profile_digest sample_profile = Ok sample_digest /\ static_manifest_digest sample_profile = sample_static
    /\ Request.context_token_count c <= max_verified_context_tokens sample_profile
    /\ Request.decode_token_count ob <= max_verified_decode_tokens sample_profile
    /\ (exists n, Request.nonce_context_digest c = Ok n
          /\ Request.commit_validator_nonce_v3 (PBytes sample_nonce) (PBytes n) = Ok (Request.vc_validator_nonce_commitment sample_context))
    /\ derive_postcommit_audit_decision_v3 (PBytes sample_nonce) sample_profile sealed_envelope (sample_runtime CANARY) = Ok d
    /\ d_hard_audit_selected d = true
    /\ Payload.fx_commitment_envelope_digest sealed_proof = Payload.envelope_digest sealed_envelope
    /\ Payload.fx_execution_profile_digest sealed_proof = sample_digest
    /\ derive_folded_execution_challenge_v3 (PBytes sample_nonce) sample_profile sealed_envelope = Ok sample_challenge
    /\ sample_adapters !! sample_digest = Some reg
    /\ adapter_verify reg sample_profile sealed_envelope sealed_proof sample_challenge = Ok tt.
Proof.
  pose proof (folded_verification_sound (H := checksum_digest) (H0 := sample_pallas) (H1 := sample_unicode)
    sample_profile sealed_envelope sealed_proof (PBytes sample_nonce) sample_static sample_digest sample_context
    sample_observed (sample_runtime CANARY) sample_adapters sample_challenge sample_context_valid) as Hx.
  refine (Hx _). vm_compute. reflexivity.
Defined.
