(* ===== verification/Reveal.v ===== *)
(** * Nonce reveals and deadlines ([verallm/proof_v3/session.py])

    The validators and budgets of the session module, the frame that discloses
    the nonce, and the ticket of [accumulator.py] that a reveal opens. *)

From Stdlib Require Import ZArith Lia.
From Stdlib Require Import Strings.Byte.
From coqutil Require Import Word.LittleEndianList.
From stdpp Require Import base gmap list strings.
From S2P Require Import Prelude Sha256 Merkle MerkleTheory Validate Wire Text Relation Policy Spec Profile Payload Request Challenge TierAudit Verifier.

Import Relation Policy Spec Profile Challenge TierAudit Verifier.
Local Open Scope Z_scope.

Module Reveal.
Definition DEFAULT_PROOF_ARRIVAL_BUDGET_NS_V3 : Z := 1000000000.
Definition DEFAULT_HARD_PROOF_ARRIVAL_BUDGET_NS_V3 : Z := 300000000000.
Definition MAX_HARD_PROOF_ARRIVAL_BUDGET_NS_V3 : Z := 480000000000.
Definition HARD_PROOF_EXTENDED_DECODE_START_TOKENS_V3 : Z := 4096.
Definition HARD_PROOF_EXTENDED_DECODE_LIMIT_TOKENS_V3 : Z := 8192.
Definition MAX_NONCE_REVEAL_HOLD_BUDGET_NS_V3 : Z := 930000000000.
Definition NONCE_REVEAL_FORMAT_VERSION_V3 : Z := 1.
Definition MAX_NONCE_REVEAL_BYTES_V3 : Z := 512.
Definition _NONCE_REVEAL_MAGIC_V3 : bytes := b_lit "V3NR".

Definition _fixed32 (value : pyval) (name : string) (nonzero : bool) : res bytes :=
  fixed32 ProofV3VerificationError value name nonzero.

Definition _monotonic_ns (value : pyval) (name : string) : res Z :=
  match value with
  | PInt z => if z <? 0 then raise ProofV3VerificationError (name +:+ " must be a monotonic nanosecond value") else Ok z
  | _ => raise ProofV3VerificationError (name +:+ " must be a monotonic nanosecond value")
  end.

(** [isinstance(value, int) and not bool and 0 < value <= maximum] *)
Definition budget (maximum : Z) (value : pyval) (message : string) : res Z :=
  match value with
  | PInt z => if negb ((0 <? z) && (z <=? maximum)) then raise ProofV3VerificationError message else Ok z
  | _ => raise ProofV3VerificationError message
  end.

Definition _arrival_budget_ns (value : pyval) : res Z :=
  budget DEFAULT_PROOF_ARRIVAL_BUDGET_NS_V3 value
    "proof_arrival_budget_ns must be between one nanosecond and one second".

Definition _hard_arrival_budget_ns (value : pyval) : res Z :=
  budget MAX_HARD_PROOF_ARRIVAL_BUDGET_NS_V3 value
    "hard_proof_arrival_budget_ns must be between one nanosecond and eight minutes".

Definition hard_proof_arrival_budget_for_decode_v3 (decode_tokens : pyval) : res Z :=
  match decode_tokens with
  | PInt n =>
      if n <=? 0 then raise ProofV3VerificationError "hard-proof decode token count must be a positive integer"
      else if HARD_PROOF_EXTENDED_DECODE_LIMIT_TOKENS_V3 <? n then
        raise ProofV3VerificationError "hard-proof decode token count exceeds the qualified deadline geometry"
      else if n <=? HARD_PROOF_EXTENDED_DECODE_START_TOKENS_V3 then Ok DEFAULT_HARD_PROOF_ARRIVAL_BUDGET_NS_V3
      else
        let token_span := HARD_PROOF_EXTENDED_DECODE_LIMIT_TOKENS_V3 - HARD_PROOF_EXTENDED_DECODE_START_TOKENS_V3 in
        let extension_span := MAX_HARD_PROOF_ARRIVAL_BUDGET_NS_V3 - DEFAULT_HARD_PROOF_ARRIVAL_BUDGET_NS_V3 in
        let extension_tokens := n - HARD_PROOF_EXTENDED_DECODE_START_TOKENS_V3 in
        let extension_ns := (extension_tokens * extension_span + token_span - 1) / token_span in
        Ok (DEFAULT_HARD_PROOF_ARRIVAL_BUDGET_NS_V3 + extension_ns)
  | _ => raise ProofV3VerificationError "hard-proof decode token count must be a positive integer"
  end.

Definition _nonce_reveal_hold_budget_ns (value : pyval) : res (option Z) :=
  match value with
  | PNone => Ok None
  | v =>
      z ← budget MAX_NONCE_REVEAL_HOLD_BUDGET_NS_V3 v
            "nonce_reveal_hold_budget_ns must be between one nanosecond and 930 seconds";
      Ok (Some z)
  end.

(** ** The reveal *)

Record NonceRevealV3 := MkReveal {
  nr_proof_challenge_id : bytes;
  nr_precommit_context_digest : bytes;
  nr_execution_profile_digest : bytes;
  nr_cache_lease_digest : bytes;
  nr_commitment_envelope_digest : bytes;
  nr_validator_nonce : bytes;
  nr_audit_decision : PostCommitAuditDecisionV3;
}.

Definition NonceRevealV3_new (challenge context profile lease envelope nonce : pyval)
    (decision : PostCommitAuditDecisionV3) : res NonceRevealV3 :=
  challenge ← _fixed32 challenge "proof_challenge_id" false;
  context ← _fixed32 context "precommit_context_digest" false;
  profile ← _fixed32 profile "execution_profile_digest" false;
  lease ← _fixed32 lease "cache_lease_digest" true;
  envelope ← _fixed32 envelope "commitment_envelope_digest" false;
  nonce ← _fixed32 nonce "validator_nonce" true;
  _ ← refuse (differ (d_commitment_envelope_digest decision) envelope)
        "nonce reveal audit decision has an unexpected envelope";
  Ok (MkReveal challenge context profile lease envelope nonce decision).

(** [PostCommitOpeningTicketV3] of [accumulator.py] *)
Record PostCommitOpeningTicketV3 := MkTicket {
  ot_proof_challenge_id : bytes;
  ot_precommit_context_digest : bytes;
  ot_execution_profile_digest : bytes;
  ot_cache_lease_digest : bytes;
  ot_commitment_envelope_digest : bytes;
  ot_validator_nonce : bytes;
}.

Definition PostCommitOpeningTicketV3_new (challenge context profile lease envelope nonce : pyval)
    : res PostCommitOpeningTicketV3 :=
  challenge ← fixed32 ProofV3Error challenge "proof_challenge_id" false;
  context ← fixed32 ProofV3Error context "precommit_context_digest" false;
  profile ← fixed32 ProofV3Error profile "execution_profile_digest" false;
  lease ← fixed32 ProofV3Error lease "cache_lease_digest" false;
  envelope ← fixed32 ProofV3Error envelope "commitment_envelope_digest" false;
  nonce ← fixed32 ProofV3Error nonce "validator_nonce" false;
  if bool_decide (lease = zero32) then raise ProofV3Error "cache_lease_digest must not be the zero digest"
  else if bool_decide (nonce = zero32) then raise ProofV3Error "validator_nonce must not be the zero digest"
  else Ok (MkTicket challenge context profile lease envelope nonce).

Definition _POSTCOMMIT_OPENING_TICKET_DOMAIN : bytes := b_lit "VERATHOS/PROOF_V3/POSTCOMMIT_OPENING_TICKET/SHA256".

Definition ticket_digest `{Digest} (t : PostCommitOpeningTicketV3) : bytes :=
  sha256 (_POSTCOMMIT_OPENING_TICKET_DOMAIN ++ ot_proof_challenge_id t ++ ot_precommit_context_digest t
          ++ ot_execution_profile_digest t ++ ot_cache_lease_digest t ++ ot_commitment_envelope_digest t
          ++ ot_validator_nonce t).

Definition opening_ticket (r : NonceRevealV3) : res PostCommitOpeningTicketV3 :=
  _ ← refuse (negb (d_hard_audit_selected (nr_audit_decision r)))
        "a light postcommit decision does not permit a hard opening ticket";
  PostCommitOpeningTicketV3_new (PBytes (nr_proof_challenge_id r)) (PBytes (nr_precommit_context_digest r))
    (PBytes (nr_execution_profile_digest r)) (PBytes (nr_cache_lease_digest r))
    (PBytes (nr_commitment_envelope_digest r)) (PBytes (nr_validator_nonce r)).

Definition reveal_canonical_bytes (r : NonceRevealV3) : res bytes :=
  decision ← decision_canonical_bytes (nr_audit_decision r);
  _ ← refuse (0xFFFF <? zlen decision) "nonce reveal decision exceeds its wire limit";
  Ok (_NONCE_REVEAL_MAGIC_V3 ++ pack_H NONCE_REVEAL_FORMAT_VERSION_V3 ++ nr_proof_challenge_id r
      ++ nr_precommit_context_digest r ++ nr_execution_profile_digest r ++ nr_cache_lease_digest r
      ++ nr_commitment_envelope_digest r ++ nr_validator_nonce r ++ pack_H (zlen decision) ++ decision).

Definition reveal_from_canonical_bytes (encoded : pyval) : res NonceRevealV3 :=
  match encoded with
  | PBytes b =>
      let fixed_size := 4 + 2 + 6 * 32 + 2 in
      if (zlen b <? fixed_size + 1) || (MAX_NONCE_REVEAL_BYTES_V3 <? zlen b) then
        raise ProofV3VerificationError "nonce reveal byte length is invalid"
      else if differ (slice b 0 4) _NONCE_REVEAL_MAGIC_V3 then
        raise ProofV3VerificationError "nonce reveal header is unsupported"
      else if negb (le_combine (slice b 4 2) =? NONCE_REVEAL_FORMAT_VERSION_V3) then
        raise ProofV3VerificationError "nonce reveal version is unsupported"
      else
        let field n := PBytes (slice b (6 + 32 * n)%nat 32) in
        let decision_length := le_combine (slice b 198 2) in
        if (decision_length =? 0) || negb (200 + decision_length =? zlen b) then
          raise ProofV3VerificationError "nonce reveal decision framing is invalid"
        else
          decision ← malformed_unless_verification "nonce reveal decision is malformed"
                       (decision_from_canonical_bytes (PBytes (drop 200 b)));
          result ← NonceRevealV3_new (field 0%nat) (field 1%nat) (field 2%nat) (field 3%nat) (field 4%nat) (field 5%nat)
                     decision;
          canonical ← reveal_canonical_bytes result;
          _ ← refuse (differ canonical b) "nonce reveal is not canonical";
          Ok result
  | _ => raise ProofV3VerificationError "nonce reveal byte length is invalid"
  end.
End Reveal.
