(* ===== verification/Session.v ===== *)
(** * The challenge session ([verallm/proof_v3/session.py])

    The lifecycle of one nonce.  A method is a function from the session to a
    result and the session it leaves, since a method that raises also changes
    the session.  Each method holds the lock of the session for its whole body,
    except [verify_proof_bytes_once], which releases it while the proof is
    checked: it is two methods here, [verify_begin] and [verify_finish], and any
    other method may run between them.

    The message of a late arrival is printed without its state and delay.  The
    verifier of the economic proof system is the class [EconomicVerifier]. *)

From Stdlib Require Import ZArith Lia.
From Stdlib Require Import Strings.Byte.
From coqutil Require Import Word.LittleEndianList.
From stdpp Require Import base gmap list strings.
From S2P Require Import Prelude Method Sha256 Merkle MerkleTheory Validate Wire Text Relation Policy Spec Profile Payload Request Challenge TierAudit Verifier Reveal.

Import Relation Policy Spec Profile Challenge TierAudit Verifier Reveal.
Local Open Scope Z_scope.

Module Session.

Inductive ChallengeSessionStateV3 :=
| AWAITING_PRECOMMIT
| PRECOMMIT_ACCEPTED
| HARD_SELECTED
| NONCE_REVEALED
| LIGHT_REVEALED
| VERIFYING
| VERIFIED
| FAILED
| EXPIRED
| ABORTED.

#[export] Instance state_eq_dec : EqDecision ChallengeSessionStateV3.
Proof. solve_decision. Defined.

Definition _TERMINAL_STATES : list ChallengeSessionStateV3 := [LIGHT_REVEALED; VERIFIED; FAILED; EXPIRED; ABORTED].
Definition terminal (st : ChallengeSessionStateV3) : bool := bool_decide (st ∈ _TERMINAL_STATES).

(** ** Qualified profiles *)

(** The adapter of a profile, by the proof system it serves. *)
Inductive registration :=
| FoldedRegistration (a : QualifiedExecutionAdapterV3)
| EconomicRegistration (validate_profile : ExecutionSecurityProfileV3 -> res unit).

Record QualifiedExecutionProfileV3 := MkQualified {
  q_profile : ExecutionSecurityProfileV3;
  expected_static_manifest_digest : bytes;
  expected_execution_profile_digest : bytes;
  q_registration : registration;
  verified_signers : list text;
}.

Definition validate_registration (r : registration) (profile : ExecutionSecurityProfileV3) : res unit :=
  match r with
  | FoldedRegistration a => adapter_validate_profile a profile
  | EconomicRegistration v => v profile
  end.

Definition _validate_qualification `{Digest} (q : QualifiedExecutionProfileV3) (validate : bool) : res unit :=
  static_digest ← _fixed32 (PBytes (expected_static_manifest_digest q)) "expected_static_manifest_digest" false;
  expected ← _fixed32 (PBytes (expected_execution_profile_digest q)) "expected_execution_profile_digest" false;
  _ ← refuse (differ (static_manifest_digest (q_profile q)) static_digest)
        "qualified profile has an unexpected static manifest";
  digest ← profile_digest (q_profile q);
  _ ← refuse (differ digest expected) "qualified profile has an unexpected execution profile digest";
  _ ← (if bool_decide (proof_system_id (q_profile q) = GLOBAL_FOLDED_EXECUTION_PROOF_SYSTEM_V3) then
         match q_registration q with
         | FoldedRegistration _ => require_hard_execution_capability (q_profile q)
         | _ => raise ProofV3VerificationError "qualified profile has an unqualified folded adapter registration"
         end
       else if bool_decide (proof_system_id (q_profile q) = ECONOMIC_RECOMPUTE_PROOF_SYSTEM_V3) then
         match q_registration q with
         | EconomicRegistration _ => Ok tt
         | _ => raise ProofV3VerificationError "qualified profile has an unqualified economic adapter registration"
         end
       else raise ProofV3VerificationError "qualified profile selects an unsupported proof system");
  let signers := verified_signers q in
  _ ← refuse ((zlen signers =? 0) || negb (sorted text_ltb signers && duplicate_free signers))
        "qualified profile signer set is not canonical";
  if validate then validate_registration (q_registration q) (q_profile q) else Ok tt.

Definition require_qualification_provenance `{Digest} (q : QualifiedExecutionProfileV3) : res unit :=
  _validate_qualification q false.

(** ** The session *)

(** The slots that are set at issuance and never change. *)
Record config := MkConfig {
  s_profile : ExecutionSecurityProfileV3;
  s_static_digest : bytes;
  s_profile_digest : bytes;
  s_context : Request.PreExecutionRequestContextV3;
  s_runtime_policy : RuntimeHardAuditPolicyV3;
  s_precommit_budget : Z;
  s_hard_budget : Z;
  s_hold_budget : option Z;
  s_registration : registration;
}.

Record ProofV3ChallengeSession := MkSession {
  s_config : config;
  s_state : ChallengeSessionStateV3;
  s_nonce : option bytes;
  s_binding : option EnvelopeBindingV3;
  s_decision : option PostCommitAuditDecisionV3;
  s_envelope : option Payload.ProofV3CommitmentEnvelope;
  s_deadline : option Z;
  s_received : option Z;
  s_revealed : option Z;
  s_selected : option Z;
  s_chain : option bytes;
}.

Definition ProofV3ChallengeSession_new `{Digest} (q : QualifiedExecutionProfileV3)
    (context : Request.PreExecutionRequestContextV3) (validator_nonce : pyval) (runtime : RuntimeHardAuditPolicyV3)
    (precommit_budget hard_budget hold_budget : pyval) : res ProofV3ChallengeSession :=
  _ ← require_qualification_provenance q;
  let profile := q_profile q in
  let static_digest := expected_static_manifest_digest q in
  let expected := expected_execution_profile_digest q in
  nonce ← _fixed32 validator_nonce "validator_nonce" true;
  precommit_budget ← _arrival_budget_ns precommit_budget;
  hard_budget ← _hard_arrival_budget_ns hard_budget;
  hold_budget ← _nonce_reveal_hold_budget_ns hold_budget;
  _ ← validate_runtime (audit_policy (relation_spec profile)) runtime;
  _ ← refuse (differ (static_manifest_digest profile) static_digest)
        "execution profile has an unexpected static manifest";
  digest ← profile_digest profile;
  _ ← refuse (differ digest expected) "execution profile was not selected by the validator catalog";
  _ ← refuse (differ (Request.static_manifest_digest context) static_digest)
        "precommit context has an unexpected static manifest";
  _ ← refuse (differ (Request.execution_profile_digest context) expected)
        "precommit context has an unexpected profile";
  nonce_context ← Request.nonce_context_digest context;
  commitment ← Request.commit_validator_nonce_v3 (PBytes nonce) (PBytes nonce_context);
  _ ← refuse (differ (Request.validator_nonce_commitment context) commitment)
        "validator nonce does not match the pre-request commitment";
  Ok (MkSession (MkConfig profile static_digest expected context runtime precommit_budget hard_budget hold_budget
                   (q_registration q))
        AWAITING_PRECOMMIT (Some nonce) None None None None None None None None).

(** ** Issuance *)

Definition _MAX_PAIRED_TIER_NONCE_ATTEMPTS_V3 : nat := 4096.

(** The loop over nonces; [nonce_source i] is what the [i]-th call of the
    entropy source returns.  [build] is the body up to the test of the tier. *)
Fixpoint issue_loop {A} (fuel : nat) (attempt : nat) (nonce : bytes) (nonce_source : nat -> pyval)
    (build : bytes -> res (A * bool)) : res (bytes * A) :=
  match fuel with
  | O => raise ProofV3VerificationError "unable to issue a validator nonce for the paired audit tier"
  | S fuel =>
      nonce ← (if (attempt =? 0)%nat then Ok nonce else _fixed32 (nonce_source attempt) "validator_nonce" true);
      '(built, suits) ← build nonce;
      if (suits : bool) then Ok (nonce, built) else issue_loop fuel (S attempt) nonce nonce_source build
  end.

Definition issue_contexts `{Digest} (q : QualifiedExecutionProfileV3) (challenge validator miner prompt sampler : pyval)
    (runtime : RuntimeHardAuditPolicyV3) (expected_hard_audit : option bool) (lease nonce_context : bytes) (rate : Z)
    (nonce : bytes)
    : res (Request.ValidatorExecutionRequestContextV3 * Request.PreExecutionRequestContextV3 * bool) :=
  commitment ← Request.commit_validator_nonce_v3 (PBytes nonce) (PBytes nonce_context);
  public_context ← Request.ValidatorExecutionRequestContextV3_new challenge validator miner (PBytes commitment) prompt
                     (PBytes lease) sampler;
  precommit_context ← Request.derive_precommit_context public_context
                        (PBytes (expected_static_manifest_digest q)) (PBytes (expected_execution_profile_digest q));
  match expected_hard_audit with
  | None => Ok (public_context, precommit_context, true)
  | Some expected =>
      d ← Request.precontext_digest precommit_context;
      draw ← _audit_tier_draw_from_precommit_context_v3 (PBytes nonce) (q_profile q) (PBytes d) runtime (PInt rate);
      Ok (public_context, precommit_context, Bool.eqb (draw <? rate) expected)
  end.

Definition _issue_with_entropy `{Digest} (q : QualifiedExecutionProfileV3)
    (challenge validator miner prompt sampler : pyval) (runtime : RuntimeHardAuditPolicyV3)
    (precommit_budget hard_budget hold_budget : pyval) (expected_hard_audit : option bool)
    (nonce_source : nat -> pyval) (cache_lease_source : pyval)
    : res (ProofV3ChallengeSession * Request.ValidatorExecutionRequestContextV3) :=
  _ ← require_qualification_provenance q;
  nonce ← _fixed32 (nonce_source 0%nat) "validator_nonce" true;
  lease ← _fixed32 cache_lease_source "cache_lease_digest" true;
  _ ← refuse (match expected_hard_audit, hold_budget with Some _, PNone => true | _, _ => false end)
        "paired tier conditioning requires a nonce-reveal hold budget";
  nonce_context ← Request.derive_pre_nonce_context_digest_v3 challenge validator miner
                    (PBytes (expected_static_manifest_digest q)) (PBytes (expected_execution_profile_digest q))
                    prompt (PBytes lease) sampler;
  _ ← validate_runtime (audit_policy (relation_spec (q_profile q))) runtime;
  let rate := effective_bps runtime in
  _ ← refuse (bool_decide (expected_hard_audit = Some true) && (rate =? 0))
        "paired hard tier cannot use a zero-rate runtime policy";
  _ ← refuse (bool_decide (expected_hard_audit = Some false) && (rate =? 10000))
        "paired light tier cannot use an always-hard runtime policy";
  '(nonce, (public_context, precommit_context)) ←
    issue_loop _MAX_PAIRED_TIER_NONCE_ATTEMPTS_V3 0 nonce nonce_source
      (issue_contexts q challenge validator miner prompt sampler runtime expected_hard_audit lease nonce_context rate);
  session ← ProofV3ChallengeSession_new q precommit_context (PBytes nonce) runtime precommit_budget hard_budget hold_budget;
  Ok (session, public_context).

(** ** The methods *)

Notation method := (Method.method ProofV3ChallengeSession).

(** [raise ProofV3VerificationError(m)] *)
Definition fail {A} (m : string) : method A := do (raise ProofV3VerificationError m).
Arguments fail {A} m%_string_scope.

Definition failed_with (st : ChallengeSessionStateV3) (s : ProofV3ChallengeSession) : ProofV3ChallengeSession :=
  MkSession (s_config s) st None None None None (s_deadline s) None None None None.
Definition _fail_locked (st : ChallengeSessionStateV3) : method unit := modify (failed_with st).

Definition with_deadline (d : Z) (s : ProofV3ChallengeSession) : ProofV3ChallengeSession :=
  MkSession (s_config s) (s_state s) (s_nonce s) (s_binding s) (s_decision s) (s_envelope s) (Some d) (s_received s)
    (s_revealed s) (s_selected s) (s_chain s).
Definition with_state (st : ChallengeSessionStateV3) (s : ProofV3ChallengeSession) : ProofV3ChallengeSession :=
  MkSession (s_config s) st (s_nonce s) (s_binding s) (s_decision s) (s_envelope s) (s_deadline s) (s_received s)
    (s_revealed s) (s_selected s) (s_chain s).

(** [except ProofV3VerificationError: if not expired: fail; raise] *)
Definition unless_expired_fail {A} (e : exc) : method A :=
  st ← get s_state;
  _ ← (if bool_decide (st <> EXPIRED) then _fail_locked FAILED else mret tt);
  throw e.

Definition on_verification_error {A} (e : exc) : method A :=
  if issubclass (exc_kind e) ProofV3VerificationError then unless_expired_fail e else throw e.

Definition _require_arrival_before_deadline_locked (received : pyval) : method Z :=
  received ← do (_monotonic_ns received "received_monotonic_ns");
  deadline ← get s_deadline;
  if match deadline with None => true | Some d => d <? received end then
    _ ← _fail_locked EXPIRED;
    fail "proof-v3 response arrived after its deadline"
  else mret received.

(** ** Accepting the envelope *)

Definition accept_body `{Digest, Unicode} (encoded_envelope : pyval) (observed_output : Request.ObservedExecutionOutputV3)
    (last_visible received : pyval) : method (Payload.ProofV3CommitmentEnvelope * EnvelopeBindingV3 * Z) :=
  last_visible ← do (_monotonic_ns last_visible "last_visible_token_monotonic_ns");
  cfg ← get s_config;
  let deadline := last_visible + s_precommit_budget cfg in
  if Z.shiftl 1 63 <=? deadline then fail "proof-v3 arrival deadline overflows"
  else
    _ ← modify (with_deadline deadline);
    received ← _require_arrival_before_deadline_locked received;
    if received <? last_visible then fail "proof-v3 precommit envelope arrived before the last visible token"
    else
      envelope ← do (Payload.commitment_envelope_from_bytes encoded_envelope);
      let capability_requirement :=
        if bool_decide (proof_system_id (s_profile cfg) = ECONOMIC_RECOMPUTE_PROOF_SYSTEM_V3)
        then Some require_economic_recompute_capability_v3 else None in
      let unverified_context :=
        max_verified_context_tokens (s_profile cfg) <? Request.context_token_count (s_context cfg) in
      _ ← do (refuse (unverified_context && negb (effective_bps (s_runtime_policy cfg) =? 0))
                "context above the signed hard-proof ceiling requires a light-only runtime policy");
      output_binding ← do (Request.derive_output_binding observed_output);
      binding ← do (validate_execution_envelope_against_precommit_v3 (s_profile cfg) envelope (s_static_digest cfg)
                      (s_profile_digest cfg) (s_context cfg) output_binding capability_requirement unverified_context);
      mret (envelope, binding, received).

Definition accept_precommit_bytes `{Digest, Unicode} (encoded_envelope : pyval)
    (observed_output : Request.ObservedExecutionOutputV3) (last_visible received : pyval) : method unit :=
  st ← get s_state;
  if bool_decide (st <> AWAITING_PRECOMMIT) then fail "proof-v3 session does not accept another precommit envelope"
  else
    '(envelope, binding, received) ←
      try_catch (accept_body encoded_envelope observed_output last_visible received)
        (fun e => if issubclass (exc_kind e) ProofV3VerificationError then unless_expired_fail e
                  else _ ← _fail_locked FAILED; fail "proof-v3 precommit envelope is malformed or mismatched");
    modify (fun s => MkSession (s_config s) PRECOMMIT_ACCEPTED (s_nonce s) (Some binding) (s_decision s) (Some envelope)
                       (s_deadline s) (Some received) (s_revealed s) (s_selected s) (s_chain s)).

(** ** Selecting the tier *)

Definition select_time (selected : pyval) : method Z :=
  selected ← do (_monotonic_ns selected "selected_monotonic_ns");
  received ← get s_received;
  if match received with None => true | Some r => selected <? r end then
    fail "proof-v3 audit tier was selected before its accepted precommit envelope"
  else mret selected.

Definition _select_audit_tier_locked `{Digest} (selected_monotonic_ns : pyval) : method PostCommitAuditDecisionV3 :=
  st ← get s_state;
  if bool_decide (st <> PRECOMMIT_ACCEPTED) then fail "proof-v3 session has no accepted precommit to select"
  else
    selected ← try_catch (select_time selected_monotonic_ns) on_verification_error;
    envelope ← get s_envelope; envelope ← assert_some envelope;
    nonce ← get s_nonce; nonce ← assert_some nonce;
    cfg ← get s_config;
    decision ← try_catch (do (derive_postcommit_audit_decision_v3 (PBytes nonce) (s_profile cfg) envelope
                                (s_runtime_policy cfg)))
                 (fun _ => _ ← _fail_locked FAILED; fail "proof-v3 postcommit audit decision is malformed");
    if negb (d_hard_audit_selected decision) then
      _ ← _fail_locked LIGHT_REVEALED;
      mret decision
    else
      _ ← modify (fun s => MkSession (s_config s) (s_state s) (s_nonce s) (s_binding s) (Some decision) (s_envelope s)
                             (s_deadline s) (s_received s) (s_revealed s) (Some selected) (s_chain s));
      _ ← match s_hold_budget cfg with
          | Some hold =>
              received ← get s_received; received ← assert_some received;
              let hold_deadline := received + hold in
              if Z.shiftl 1 63 <=? hold_deadline then
                _ ← _fail_locked FAILED;
                fail "proof-v3 nonce-reveal hold deadline overflows"
              else
                _ ← modify (with_deadline hold_deadline);
                _ ← _require_arrival_before_deadline_locked (PInt selected);
                mret tt
          | None =>
              let reveal_deadline := selected + DEFAULT_PROOF_ARRIVAL_BUDGET_NS_V3 in
              if Z.shiftl 1 63 <=? reveal_deadline then
                _ ← _fail_locked FAILED;
                fail "proof-v3 local nonce-reveal deadline overflows"
              else modify (with_deadline reveal_deadline)
          end;
      _ ← modify (with_state HARD_SELECTED);
      mret decision.

Definition select_audit_tier_once `{Digest} (selected_monotonic_ns : pyval) : method PostCommitAuditDecisionV3 :=
  _select_audit_tier_locked selected_monotonic_ns.

(** ** Revealing the nonce *)

Definition reveal_time (revealed : pyval) : method Z :=
  revealed ← _require_arrival_before_deadline_locked revealed;
  received ← get s_received;
  selected ← get s_selected;
  if match received with None => true | Some r => revealed <? r end
     || match selected with None => true | Some t => revealed <? t end then
    fail "proof-v3 nonce was revealed before its accepted precommit envelope"
  else mret revealed.

(** The tests of the state, which select the tier if that was not done. *)
Definition reveal_guard `{Digest} (revealed_monotonic_ns : pyval) : method unit :=
  st ← get s_state;
  decided ← get s_decision;
  if bool_decide (st = PRECOMMIT_ACCEPTED) then
    decision ← _select_audit_tier_locked revealed_monotonic_ns;
    if negb (d_hard_audit_selected decision) then fail "proof-v3 light decision does not reveal validator nonce"
    else mret tt
  else if bool_decide (st <> HARD_SELECTED) || bool_decide (decided = None) then
    fail "proof-v3 session has no hard decision to reveal"
  else mret tt.

Definition reveal_of `{Digest} (cfg : config) (envelope : Payload.ProofV3CommitmentEnvelope) (nonce : bytes)
    (decision : PostCommitAuditDecisionV3) : res NonceRevealV3 :=
  context_digest ← Request.precontext_digest (s_context cfg);
  NonceRevealV3_new (PBytes (Request.proof_challenge_id (s_context cfg))) (PBytes context_digest)
    (PBytes (s_profile_digest cfg)) (PBytes (Request.cache_lease_digest (s_context cfg)))
    (PBytes (Payload.envelope_digest envelope)) (PBytes nonce) decision.

(** The rest of the method. *)
Definition reveal_selected `{Digest} (revealed_monotonic_ns : pyval) : method NonceRevealV3 :=
  revealed ← try_catch (reveal_time revealed_monotonic_ns) on_verification_error;
  envelope ← get s_envelope; envelope ← assert_some envelope;
  nonce ← get s_nonce; nonce ← assert_some nonce;
  decision ← get s_decision; decision ← assert_some decision;
  cfg ← get s_config;
  reveal ← try_catch
    (do (reveal_of cfg envelope nonce decision))
    (fun _ => _ ← _fail_locked FAILED; fail "proof-v3 postcommit nonce reveal is malformed");
  let proof_deadline := revealed + s_hard_budget cfg in
  if Z.shiftl 1 63 <=? proof_deadline then
    _ ← _fail_locked FAILED;
    fail "proof-v3 hard proof deadline overflows"
  else
    _ ← modify (fun s => MkSession (s_config s) NONCE_REVEALED (s_nonce s) (s_binding s) (s_decision s) (s_envelope s)
                           (Some proof_deadline) (s_received s) (Some revealed) (s_selected s) (s_chain s));
    mret reveal.

Definition reveal_nonce_once `{Digest} (revealed_monotonic_ns : pyval) : method NonceRevealV3 :=
  _ ← reveal_guard revealed_monotonic_ns;
  reveal_selected revealed_monotonic_ns.

(** ** Verifying the proof *)

(** What [verify_proof_bytes_once] holds while the lock is released. *)
Record verification_job := MkJob {
  j_envelope : Payload.ProofV3CommitmentEnvelope;
  j_binding : EnvelopeBindingV3;
  j_nonce : bytes;
  j_decision : PostCommitAuditDecisionV3;
}.

Definition proof_time (received : pyval) : method Z :=
  received ← _require_arrival_before_deadline_locked received;
  revealed ← get s_revealed;
  if match revealed with None => true | Some r => received <? r end then
    fail "proof-v3 proof arrived before its nonce reveal"
  else mret received.

Definition verify_begin (received_monotonic_ns : pyval) : method verification_job :=
  st ← get s_state;
  if bool_decide (st <> NONCE_REVEALED) then
    if bool_decide (st = LIGHT_REVEALED) then fail "proof-v3 light decision does not accept a hard proof"
    else fail "proof-v3 session does not accept another proof"
  else
    _ ← try_catch (proof_time received_monotonic_ns) on_verification_error;
    envelope ← get s_envelope; envelope ← assert_some envelope;
    binding ← get s_binding; binding ← assert_some binding;
    nonce ← get s_nonce; nonce ← assert_some nonce;
    decision ← get s_decision; decision ← assert_some decision;
    _ ← modify (with_state VERIFYING);
    mret (MkJob envelope binding nonce decision).

(** The result of the economic verifier carries the digest of the capture
    chain. *)
Inductive verification_result :=
| FoldedResult (challenge : FoldedExecutionChallengeV3)
| EconomicResult (capture_chain_digest : bytes).

Class EconomicVerifier := verify_economic :
  config -> verification_job -> pyval -> option Request.ValidatorExecutionRequestContextV3 ->
  option Request.ObservedExecutionOutputV3 -> res bytes.

(** The folded registration of the session, keyed by the profile digest; a folded
    profile has no other, see [_validate_qualification]. *)
Definition session_adapters (cfg : config) : gmap bytes QualifiedExecutionAdapterV3 :=
  match s_registration cfg with
  | FoldedRegistration a => {[ s_profile_digest cfg := a ]}
  | EconomicRegistration _ => ∅
  end.

Definition run_verification `{Digest, PallasField, EconomicVerifier} (cfg : config) (job : verification_job)
    (encoded_proof : pyval) (validator_request_context : option Request.ValidatorExecutionRequestContextV3)
    (observed_output : option Request.ObservedExecutionOutputV3) : res verification_result :=
  if bool_decide (proof_system_id (s_profile cfg) = ECONOMIC_RECOMPUTE_PROOF_SYSTEM_V3) then
    match validator_request_context, observed_output with
    | Some _, Some _ =>
        chain ← verify_economic cfg job encoded_proof validator_request_context observed_output;
        Ok (EconomicResult chain)
    | _, _ =>
        raise ProofV3VerificationError
          "economic proof verification requires validator-owned request and output context"
    end
  else
    proof ← Payload.folded_execution_proof_from_bytes encoded_proof;
    challenge ← _verify_folded_execution_proof_against_binding_v3 (s_profile cfg) (j_envelope job) proof
                  (PBytes (j_nonce job)) (s_static_digest cfg) (s_profile_digest cfg) (j_binding job)
                  (s_runtime_policy cfg) (Some (j_decision job)) (session_adapters cfg) true;
    Ok (FoldedResult challenge).

Definition capture_chain (r : verification_result) : option bytes :=
  match r with FoldedResult _ => None | EconomicResult chain => Some chain end.

Definition verify_finish (outcome : res verification_result) : method verification_result :=
  match outcome with
  | Err e =>
      st ← get s_state;
      _ ← (if bool_decide (st = VERIFYING) then _fail_locked FAILED else mret tt);
      throw e
  | Ok result =>
      st ← get s_state;
      if bool_decide (st <> VERIFYING) then fail "proof-v3 session terminated while verification was running"
      else
        _ ← modify (fun s => MkSession (s_config s) VERIFIED None None None None (s_deadline s) None None None
                               (capture_chain result));
        mret result
  end.

(** The method without interference. *)
Definition verify_proof_bytes_once `{Digest, PallasField, EconomicVerifier} (encoded_proof received_monotonic_ns : pyval)
    (validator_request_context : option Request.ValidatorExecutionRequestContextV3)
    (observed_output : option Request.ObservedExecutionOutputV3) : method verification_result :=
  job ← verify_begin received_monotonic_ns;
  cfg ← get s_config;
  verify_finish (run_verification cfg job encoded_proof validator_request_context observed_output).

(** ** Ending the session *)

Definition expire (now_monotonic_ns : pyval) : method unit :=
  st ← get s_state;
  if terminal st then mret tt
  else
    now ← do (_monotonic_ns now_monotonic_ns "now_monotonic_ns");
    deadline ← get s_deadline;
    if match deadline with None => true | Some d => now <=? d end then mret tt else _fail_locked EXPIRED.

Definition fail_closed : method unit :=
  st ← get s_state;
  if terminal st then mret tt else _fail_locked FAILED.

Definition abort : method unit :=
  st ← get s_state;
  if terminal st then mret tt else _fail_locked ABORTED.
End Session.
