(* ===== verification/SessionMethods.v ===== *)
(** * The methods of a session, one by one

    What each method of [Session] returns and what it leaves in the session, on
    every branch: the lemmas behind [SessionTheory]. *)

From Stdlib Require Import ZArith Lia.
From Stdlib Require Import Strings.Byte.
From coqutil Require Import Word.LittleEndianList.
From stdpp Require Import base gmap sets list strings.
From S2P Require Import Prelude Method Sha256 Merkle MerkleTheory Validate Wire Text Relation Policy Spec Profile Payload Request Challenge TierAudit Verifier Reveal Session.

Import Relation Policy Spec Profile Challenge TierAudit Verifier Reveal Session.
Local Open Scope Z_scope.

(** ** Running methods *)

Ltac fields :=
  cbn [s_config s_state s_nonce s_binding s_decision s_envelope s_deadline s_received s_revealed s_selected s_chain
       with_deadline with_state failed_with exc_kind] in *.

(** Reduce the monad: what remains are the results that the method tests. *)
Ltac run_method :=
  unfold fail, assert_some, _fail_locked in *;
  unfold mbind, method_bind, try_catch, get, do, modify, throw, mret, method_ret, raise in *;
  fields.

(** The session keeps nothing but its configuration and its last deadline. *)
Record cleared (s : ProofV3ChallengeSession) : Prop := {
  cl_nonce : s_nonce s = None;
  cl_binding : s_binding s = None;
  cl_decision : s_decision s = None;
  cl_envelope : s_envelope s = None;
  cl_received : s_received s = None;
  cl_revealed : s_revealed s = None;
  cl_selected : s_selected s = None;
}.

(** [s'] is [s] ended without a result. *)
Definition ended (s s' : ProofV3ChallengeSession) (states : list ChallengeSessionStateV3) : Prop :=
  s_config s' = s_config s /\ cleared s' /\ s_chain s' = None /\ s_state s' ∈ states.

Lemma ended_failed_with s s0 st states :
  s_config s = s_config s0 -> st ∈ states -> ended s0 (failed_with st s) states.
Proof. intros ? ?. by split_and!. Qed.

Ltac ends := apply ended_failed_with; [done|set_solver].
Ltac rejected := split; [done|ends].

Lemma subclass_verification k : issubclass k ProofV3VerificationError = true -> k = ProofV3VerificationError.
Proof. by destruct k. Qed.

Lemma monotonic_ok v name z : _monotonic_ns v name = Ok z <-> v = PInt z /\ 0 <= z.
Proof.
  unfold _monotonic_ns, raise. destruct v; try (split; [discriminate|by intros [? _]]).
  destruct (Z.ltb_spec z0 0); split; try done; [intros [[= ->] ?]; lia|by intros [= ->]|by intros [[= ->] _]].
Qed.

Lemma monotonic_err v name e : _monotonic_ns v name = Err e -> exc_kind e = ProofV3VerificationError.
Proof. unfold _monotonic_ns, raise. intros. repeat case_match; by simplify_eq. Qed.

(** The arrival check either passes or expires the session. *)
Lemma arrival_spec v s :
  match _require_arrival_before_deadline_locked v s with
  | (Ok r, s') => s' = s /\ v = PInt r /\ 0 <= r /\ exists d, s_deadline s = Some d /\ r <= d
  | (Err e, s') => exc_kind e = ProofV3VerificationError /\ (s' = s \/ s' = failed_with EXPIRED s)
  end.
Proof.
  unfold _require_arrival_before_deadline_locked. run_method.
  destruct (_monotonic_ns v _) as [r|e] eqn:E; [|split; [by eapply monotonic_err|by left]].
  apply monotonic_ok in E as [-> Hr]. destruct (s_deadline s) as [d|]; [|split; [done|by right]].
  destruct (Z.ltb_spec d r); [split; [done|by right]|]. split_and!; try done. by exists d.
Qed.

Lemma arrival_int t s :
  0 <= t ->
  match _require_arrival_before_deadline_locked (PInt t) s with
  | (Ok r, s') => s' = s /\ r = t /\ exists d, s_deadline s = Some d /\ t <= d
  | (Err err, s') => exc_kind err = ProofV3VerificationError /\ s' = failed_with EXPIRED s
  end.
Proof.
  intros Ht. unfold _require_arrival_before_deadline_locked. run_method. unfold _monotonic_ns.
  destruct (Z.ltb_spec t 0); [lia|]. destruct (s_deadline s) as [d|]; [|done].
  destruct (Z.ltb_spec d t); [done|]. split_and!; try done. by exists d.
Qed.

Lemma unless_expired_eq {A} e f :
  @unless_expired_fail A e f = (Err e, if bool_decide (s_state f <> EXPIRED) then failed_with FAILED f else f).
Proof. unfold unless_expired_fail. run_method. by destruct (bool_decide _). Qed.

(** What the handlers leave behind after the arrival check failed. *)
Lemma after_failure s (f : ProofV3ChallengeSession) s0 :
  s_config s = s_config s0 -> (f = s \/ f = failed_with EXPIRED s) ->
  s_state s <> EXPIRED ->
  ended s0 (if bool_decide (s_state f <> EXPIRED) then failed_with FAILED f else f) [FAILED; EXPIRED].
Proof.
  intros Hc [-> | ->] Hne.
  - rewrite bool_decide_eq_true_2 by done. apply ended_failed_with; [done|set_solver].
  - rewrite bool_decide_eq_false_2 by (cbn; auto). apply ended_failed_with; [done|set_solver].
Qed.

(** ** Accepting *)

(** The envelope was admitted for this configuration. *)
Definition admitted `{Digest, Unicode} (cfg : config) (e : Payload.ProofV3CommitmentEnvelope) (b : EnvelopeBindingV3) : Prop :=
  exists observed ob req allow, Request.derive_output_binding observed = Ok ob
    /\ validate_execution_envelope_against_precommit_v3 (s_profile cfg) e (s_static_digest cfg) (s_profile_digest cfg)
         (s_context cfg) ob req allow = Ok b.

Lemma accept_body_spec `{Digest, Unicode} enc obs last recv s :
  match accept_body enc obs last recv s with
  | (Ok (e, b, r), s') =>
      exists l, last = PInt l /\ recv = PInt r /\ 0 <= l <= r /\ r <= l + s_precommit_budget (s_config s)
        /\ Payload.commitment_envelope_from_bytes enc = Ok e /\ admitted (s_config s) e b
        /\ s' = with_deadline (l + s_precommit_budget (s_config s)) s
  | (Err _, s') => exists s1, s_config s1 = s_config s /\ s_state s1 = s_state s /\ (s' = s1 \/ s' = failed_with EXPIRED s1)
  end.
Proof.
  unfold accept_body. run_method.
  destruct (_monotonic_ns last _) as [l|e] eqn:El; [|by exists s; auto]. apply monotonic_ok in El as [-> Hl].
  destruct (Z.shiftl 1 63 <=? _); [by exists s; auto|].
  set (s1 := with_deadline (l + s_precommit_budget (s_config s)) s).
  change (MkSession _ _ _ _ _ _ (Some (l + _)) _ _ _ _) with s1.
  pose proof (arrival_spec recv s1) as Ha.
  destruct (_require_arrival_before_deadline_locked recv s1) as [[r|e] s2]; [|exists s1; by destruct Ha as [_ ?]].
  destruct Ha as (-> & -> & Hr & d & [= <-] & Hd).
  destruct (Z.ltb_spec r l); [by exists s1; auto|].
  destruct (Payload.commitment_envelope_from_bytes enc) as [e|] eqn:Ee; [|by exists s1; auto].
  destruct (refuse _ _) as [[]|]; [|by exists s1; auto].
  destruct (Request.derive_output_binding obs) as [ob|] eqn:Eob; [|by exists s1; auto].
  destruct (validate_execution_envelope_against_precommit_v3 _ _ _ _ _ _ _ _) as [b|] eqn:Eb; [|by exists s1; auto].
  exists l. split_and!; [done|done|done|done|done|done| |done]. unfold admitted. by repeat eexists.
Qed.

Lemma accept_spec `{Digest, Unicode} enc obs last recv s :
  match accept_precommit_bytes enc obs last recv s with
  | (Ok _, s') =>
      s_state s = AWAITING_PRECOMMIT /\ exists l r e b, last = PInt l /\ recv = PInt r /\ 0 <= l <= r
        /\ r <= l + s_precommit_budget (s_config s)
        /\ Payload.commitment_envelope_from_bytes enc = Ok e /\ admitted (s_config s) e b
        /\ s' = MkSession (s_config s) PRECOMMIT_ACCEPTED (s_nonce s) (Some b) (s_decision s) (Some e)
                  (Some (l + s_precommit_budget (s_config s))) (Some r) (s_revealed s) (s_selected s) (s_chain s)
  | (Err err, s') => exc_kind err = ProofV3VerificationError /\
      if bool_decide (s_state s = AWAITING_PRECOMMIT) then ended s s' [FAILED; EXPIRED] else s' = s
  end.
Proof.
  unfold accept_precommit_bytes. pose proof (accept_body_spec enc obs last recv s) as Hb.
  remember (accept_body enc obs last recv) as body. run_method.
  case_bool_decide as Hst; [by rewrite bool_decide_eq_false_2|].
  destruct (body s) as [[[[e b] r]|e] s'].
  - destruct Hb as (l & -> & -> & Hl & Hr & He & Ha & ->). split; [done|]. by exists l, r, e, b.
  - rewrite bool_decide_eq_true_2 by done. destruct Hb as (s1 & Hc & Hs1 & Hs').
    destruct (issubclass _ _) eqn:Ek; [apply subclass_verification in Ek; rewrite unless_expired_eq|].
    + split; [done|]. assert (s_state s1 <> EXPIRED) as Hne by (rewrite Hs1, Hst; done).
      pose proof (after_failure s1 s' s Hc Hs' Hne) as Hend. exact Hend.
    + split; [done|]. apply ended_failed_with; [by destruct Hs' as [-> | ->]|set_solver].
Qed.

(** ** Selecting *)

Lemma on_error_eq {A} e f :
  exc_kind e = ProofV3VerificationError ->
  @on_verification_error A e f = (Err e, if bool_decide (s_state f <> EXPIRED) then failed_with FAILED f else f).
Proof. intros He. unfold on_verification_error. rewrite He. apply unless_expired_eq. Qed.

Lemma select_time_spec v s :
  match select_time v s with
  | (Ok t, s') => s' = s /\ v = PInt t /\ 0 <= t /\ exists r, s_received s = Some r /\ r <= t
  | (Err e, s') => s' = s /\ exc_kind e = ProofV3VerificationError
  end.
Proof.
  unfold select_time. run_method. destruct (_monotonic_ns v _) as [t|e] eqn:E; [|split; [done|by eapply monotonic_err]].
  apply monotonic_ok in E as [-> ?]. destruct (s_received s) as [r|]; [|done].
  destruct (Z.ltb_spec t r); [done|]. split_and!; [done|done|done|by exists r].
Qed.

(** The deadline for the disclosure of the nonce after a hard decision. *)
Definition reveal_deadline (cfg : config) (received selected : Z) : Z :=
  match s_hold_budget cfg with Some hold => received + hold | None => selected + DEFAULT_PROOF_ARRIVAL_BUDGET_NS_V3 end.

Definition derives `{Digest} (cfg : config) (nonce : bytes) (e : Payload.ProofV3CommitmentEnvelope)
    (d : PostCommitAuditDecisionV3) : Prop :=
  derive_postcommit_audit_decision_v3 (PBytes nonce) (s_profile cfg) e (s_runtime_policy cfg) = Ok d.

Lemma select_spec `{Digest} v s n e :
  s_state s = PRECOMMIT_ACCEPTED -> s_nonce s = Some n -> s_envelope s = Some e ->
  match _select_audit_tier_locked v s with
  | (Ok d, s') => derives (s_config s) n e d /\ exists t r, v = PInt t /\ s_received s = Some r /\ r <= t
      /\ if d_hard_audit_selected d then
           (forall hold, s_hold_budget (s_config s) = Some hold -> t <= r + hold)
           /\ s' = MkSession (s_config s) HARD_SELECTED (s_nonce s) (s_binding s) (Some d) (s_envelope s)
                     (Some (reveal_deadline (s_config s) r t)) (s_received s) (s_revealed s) (Some t) (s_chain s)
         else s' = failed_with LIGHT_REVEALED s
  | (Err err, s') => exc_kind err = ProofV3VerificationError /\ ended s s' [FAILED; EXPIRED]
  end.
Proof.
  intros Hst Hn He. unfold _select_audit_tier_locked. pose proof (select_time_spec v s) as Ht.
  remember (select_time v) as time. run_method. rewrite Hst, bool_decide_eq_false_2 by (intros []; done).
  destruct (time s) as [[t|err] s1].
  2:{ destruct Ht as [-> Hk]. rewrite on_error_eq by done. cbv beta iota. split; [done|].
      apply (after_failure s s s); [done|by left|by rewrite Hst]. }
  destruct Ht as (-> & -> & H0 & r & Hr & Hle). rewrite Hn, He. cbv beta iota.
  destruct (derive_postcommit_audit_decision_v3 _ _ _ _) as [d|err] eqn:Ed; [|rejected].
  destruct (d_hard_audit_selected d) eqn:Eh; cbn [negb].
  2:{ split; [done|]. exists t, r. by rewrite Eh. }
  destruct (s_hold_budget (s_config s)) as [hold|] eqn:Ehold.
  - fields. rewrite Hr. destruct (Z.shiftl 1 63 <=? r + hold); [rejected|].
    match goal with |- context [_require_arrival_before_deadline_locked _ ?s1] =>
      pose proof (arrival_int t s1 H0) as Ha; destruct (_require_arrival_before_deadline_locked _ s1) as [[t'|err] s2] end.
    2:{ destruct Ha as [? ->]. rejected. }
    destruct Ha as (-> & -> & d' & [= <-] & Hd). split; [done|]. exists t, r. rewrite Eh. unfold reveal_deadline.
    rewrite Ehold. split_and!; try done; [by intros ? [= <-]|]. fields. by rewrite Hn, He.
  - destruct (Z.shiftl 1 63 <=? _); [rejected|].
    split; [done|]. exists t, r. rewrite Eh. unfold reveal_deadline. rewrite Ehold. fields.
    by rewrite Hn, He.
Qed.

(** ** Revealing *)

(** What a reveal discloses. *)
Definition discloses `{Digest} (cfg : config) (n : bytes) (e : Payload.ProofV3CommitmentEnvelope)
    (d : PostCommitAuditDecisionV3) (rv : NonceRevealV3) : Prop :=
  exists cd, Request.precontext_digest (s_context cfg) = Ok cd
    /\ rv = MkReveal (Request.proof_challenge_id (s_context cfg)) cd (s_profile_digest cfg)
              (Request.cache_lease_digest (s_context cfg)) (Payload.envelope_digest e) n d.

Lemma session_fixed_ok v name nonzero b : _fixed32 v name nonzero = Ok b -> v = PBytes b.
Proof. unfold _fixed32, fixed32, raise. intros. repeat case_match; by simplify_eq. Qed.

Lemma reveal_new_ok a b c l e n d rv :
  NonceRevealV3_new (PBytes a) (PBytes b) (PBytes c) (PBytes l) (PBytes e) (PBytes n) d = Ok rv ->
  rv = MkReveal a b c l e n d.
Proof.
  intros (? & [= ->]%session_fixed_ok & (? & [= ->]%session_fixed_ok & (? & [= ->]%session_fixed_ok & (? & [= ->]%session_fixed_ok &
    (? & [= ->]%session_fixed_ok & (? & [= ->]%session_fixed_ok & (? & _ & Hr)%bind_ok)%bind_ok)%bind_ok)%bind_ok)%bind_ok)%bind_ok)%bind_ok.
  by apply (inj Ok) in Hr.
Qed.

Lemma reveal_time_spec v s :
  match reveal_time v s with
  | (Ok x, s') => s' = s /\ v = PInt x /\ exists r t dl, s_received s = Some r /\ s_selected s = Some t
      /\ s_deadline s = Some dl /\ r <= x /\ t <= x /\ x <= dl
  | (Err e, s') => exc_kind e = ProofV3VerificationError /\ (s' = s \/ s' = failed_with EXPIRED s)
  end.
Proof.
  unfold reveal_time. pose proof (arrival_spec v s) as Ha. run_method.
  destruct (_require_arrival_before_deadline_locked v s) as [[x|e] s']; [|done].
  destruct Ha as (-> & -> & _ & dl & Hdl & Hx).
  destruct (s_received s) as [r|]; [|by split; [|left]]. destruct (s_selected s) as [t|]; [|rewrite orb_true_r; by split; [|left]].
  destruct (Z.ltb_spec x r); [by split; [|left]|]. destruct (Z.ltb_spec x t); [by split; [|left]|]. split_and!; try done.
  by exists r, t, dl.
Qed.

Lemma reveal_selected_spec `{Digest} v s n e d :
  s_state s = HARD_SELECTED -> s_nonce s = Some n -> s_envelope s = Some e -> s_decision s = Some d ->
  match reveal_selected v s with
  | (Ok rv, s') => discloses (s_config s) n e d rv /\ exists r t dl x, v = PInt x /\ s_received s = Some r
      /\ s_selected s = Some t /\ s_deadline s = Some dl /\ r <= x /\ t <= x /\ x <= dl
      /\ s' = MkSession (s_config s) NONCE_REVEALED (s_nonce s) (s_binding s) (s_decision s) (s_envelope s)
                (Some (x + s_hard_budget (s_config s))) (s_received s) (Some x) (s_selected s) (s_chain s)
  | (Err err, s') => exc_kind err = ProofV3VerificationError /\ ended s s' [FAILED; EXPIRED]
  end.
Proof.
  intros Hst Hn He Hd. unfold reveal_selected. pose proof (reveal_time_spec v s) as Ht.
  remember (reveal_time v) as time. run_method. destruct (time s) as [[x|err] s1].
  2:{ destruct Ht as [Hk Hs1]. rewrite on_error_eq by done. cbv beta iota. split; [done|].
      apply (after_failure s s1 s); [done|done|by rewrite Hst]. }
  destruct Ht as (-> & -> & r & t & dl & Hr & Htt & Hdl & Hb). rewrite Hn, He, Hd.
  destruct (reveal_of _ _ _ _) as [rv|err] eqn:E; [|rejected].
  destruct (Z.shiftl 1 63 <=? _); [rejected|].
  apply bind_ok in E as (cd & Hcd & ->%reveal_new_ok). destruct Hb as (? & ? & ?). split; [by exists cd|]. exists r, t, dl, x.
  rewrite Hn, He, Hd. by split_and!.
Qed.

(** ** Verifying *)

Lemma proof_time_spec v s :
  match proof_time v s with
  | (Ok y, s') => s' = s /\ v = PInt y /\ exists x dl, s_revealed s = Some x /\ s_deadline s = Some dl /\ x <= y <= dl
  | (Err e, s') => exc_kind e = ProofV3VerificationError /\ (s' = s \/ s' = failed_with EXPIRED s)
  end.
Proof.
  unfold proof_time. pose proof (arrival_spec v s) as Ha. run_method.
  destruct (_require_arrival_before_deadline_locked v s) as [[y|e] s']; [|done].
  destruct Ha as (-> & -> & _ & dl & Hdl & Hy). destruct (s_revealed s) as [x|]; [|by split; [|left]].
  destruct (Z.ltb_spec y x); [by split; [|left]|]. split_and!; try done. by exists x, dl.
Qed.

Lemma verify_begin_spec v s n e b d :
  s_state s = NONCE_REVEALED -> s_nonce s = Some n -> s_envelope s = Some e -> s_binding s = Some b ->
  s_decision s = Some d ->
  match verify_begin v s with
  | (Ok job, s') => job = MkJob e b n d /\ s' = with_state VERIFYING s
      /\ exists y x dl, v = PInt y /\ s_revealed s = Some x /\ s_deadline s = Some dl /\ x <= y <= dl
  | (Err err, s') => exc_kind err = ProofV3VerificationError /\ ended s s' [FAILED; EXPIRED]
  end.
Proof.
  intros Hst Hn He Hb Hd. unfold verify_begin. pose proof (proof_time_spec v s) as Ht.
  remember (proof_time v) as time. run_method. rewrite Hst, bool_decide_eq_false_2 by (intros []; done).
  destruct (time s) as [[y|err] s1].
  2:{ destruct Ht as [Hk Hs1]. rewrite on_error_eq by done. cbv beta iota. split; [done|].
      apply (after_failure s s1 s); [done|done|by rewrite Hst]. }
  destruct Ht as (-> & -> & x & dl & Hx & Hdl & Hy). rewrite Hn, He, Hb, Hd. split_and!; [done|done|].
  by exists y, x, dl.
Qed.

Lemma verify_begin_closed v s :
  s_state s <> NONCE_REVEALED ->
  exists err, verify_begin v s = (Err err, s) /\ exc_kind err = ProofV3VerificationError.
Proof.
  intros Hst. unfold verify_begin. run_method. rewrite bool_decide_eq_true_2 by done.
  destruct (bool_decide _); by eexists.
Qed.

Lemma verify_finish_spec outcome s :
  verify_finish outcome s =
    match outcome with
    | Err e => (Err e, if bool_decide (s_state s = VERIFYING) then failed_with FAILED s else s)
    | Ok r =>
        if bool_decide (s_state s = VERIFYING) then
          (Ok r, MkSession (s_config s) VERIFIED None None None None (s_deadline s) None None None (capture_chain r))
        else (raise ProofV3VerificationError "proof-v3 session terminated while verification was running", s)
    end.
Proof.
  unfold verify_finish. destruct outcome; run_method; [|by destruct (bool_decide _)].
  destruct (decide (s_state s = VERIFYING)).
  - rewrite bool_decide_eq_false_2, bool_decide_eq_true_2; auto.
  - by rewrite bool_decide_eq_true_2, bool_decide_eq_false_2.
Qed.

(** ** Revealing, in any state *)

Lemma reveal_closed `{Digest} v s :
  s_state s <> PRECOMMIT_ACCEPTED -> s_state s <> HARD_SELECTED ->
  exists err, reveal_nonce_once v s = (Err err, s) /\ exc_kind err = ProofV3VerificationError.
Proof.
  intros H1 H2. unfold reveal_nonce_once, reveal_guard. run_method.
  rewrite bool_decide_eq_false_2 by done. rewrite bool_decide_eq_true_2 by done. by eexists.
Qed.

Lemma reveal_hard_selected `{Digest} v s d :
  s_state s = HARD_SELECTED -> s_decision s = Some d -> reveal_nonce_once v s = reveal_selected v s.
Proof.
  intros Hst Hd. unfold reveal_nonce_once, reveal_guard. remember (reveal_selected v) as rest. run_method.
  by rewrite Hst, Hd.
Qed.

Lemma reveal_selects `{Digest} v s :
  s_state s = PRECOMMIT_ACCEPTED ->
  reveal_nonce_once v s =
    match _select_audit_tier_locked v s with
    | (Ok d, s') =>
        if d_hard_audit_selected d then reveal_selected v s'
        else (raise ProofV3VerificationError "proof-v3 light decision does not reveal validator nonce", s')
    | (Err e, s') => (Err e, s')
    end.
Proof.
  intros Hst. unfold reveal_nonce_once, reveal_guard. remember (reveal_selected v) as rest.
  remember (_select_audit_tier_locked v) as select. run_method. rewrite Hst, bool_decide_eq_true_2 by done.
  destruct (select s) as [[d|e] s']; [|done]. by destruct (d_hard_audit_selected d).
Qed.

Lemma select_closed `{Digest} v s :
  s_state s <> PRECOMMIT_ACCEPTED ->
  exists err, select_audit_tier_once v s = (Err err, s) /\ exc_kind err = ProofV3VerificationError.
Proof.
  intros Hst. unfold select_audit_tier_once, _select_audit_tier_locked. run_method.
  rewrite bool_decide_eq_true_2 by done. by eexists.
Qed.

(** ** Ending *)

Lemma expire_spec v s :
  expire v s =
    if terminal (s_state s) then (Ok tt, s)
    else match _monotonic_ns v "now_monotonic_ns" with
         | Ok now => match s_deadline s with
                     | Some d => (Ok tt, if d <? now then failed_with EXPIRED s else s)
                     | None => (Ok tt, s)
                     end
         | Err e => (Err e, s)
         end.
Proof.
  unfold expire. run_method. destruct (terminal _); [done|]. destruct (_monotonic_ns _ _); [|done].
  destruct (s_deadline s) as [d|]; [|done]. by destruct (Z.leb_spec a d), (Z.ltb_spec d a); try lia.
Qed.

Lemma fail_closed_spec s : fail_closed s = (Ok tt, if terminal (s_state s) then s else failed_with FAILED s).
Proof. unfold fail_closed. run_method. by destruct (terminal _). Qed.

Lemma abort_spec s : abort s = (Ok tt, if terminal (s_state s) then s else failed_with ABORTED s).
Proof. unfold abort. run_method. by destruct (terminal _). Qed.

(** A second envelope is refused but does not end the session. *)
Lemma duplicate_envelope_keeps_session `{Digest, Unicode} enc obs last recv s :
  s_state s = PRECOMMIT_ACCEPTED ->
  exists err, accept_precommit_bytes enc obs last recv s = (Err err, s) /\ exc_kind err = ProofV3VerificationError.
Proof.
  intros Hst. unfold accept_precommit_bytes. run_method. rewrite Hst, bool_decide_eq_true_2 by done. by eexists.
Qed.
