(* ===== verification/SessionTheory.v ===== *)
(** * The lifecycle of a session

    A world is a session with the calls that are inside
    [verify_proof_bytes_once] and what callers got out of it: the disclosed
    nonces and the results.  Callers act in any order and any number of times;
    the two halves of a verification may have any actions between them.  The
    invariant [lifecycle] holds in every world that a new session reaches. *)

From Stdlib Require Import ZArith Lia.
From Stdlib Require Import Strings.Byte.
From coqutil Require Import Word.LittleEndianList.
From stdpp Require Import base gmap sets list strings.
From S2P Require Import Prelude Method Sha256 Merkle MerkleTheory Validate Wire Text Relation Policy Spec Profile Payload Request Challenge TierAudit Verifier SampleProfile SampleExchange VerifierTheory Reveal Session SessionMethods.

Import Relation Policy Spec Profile Challenge TierAudit Verifier Reveal Session.
Local Open Scope Z_scope.

(** ** Worlds *)

(** A call of [verify_proof_bytes_once] that released the lock. *)
Record call := MkCall {
  k_job : verification_job;
  k_received : pyval;
  k_proof : pyval;
  k_context : option Request.ValidatorExecutionRequestContextV3;
  k_output : option Request.ObservedExecutionOutputV3;
}.

Record world := MkWorld {
  w_session : ProofV3ChallengeSession;
  w_calls : list call;
  w_revealed : list NonceRevealV3;
  w_results : list (call * verification_result);
}.

Inductive action :=
| Accept (encoded_envelope : pyval) (observed : Request.ObservedExecutionOutputV3) (last_visible received : pyval)
| Select (selected : pyval)
| Reveal (revealed : pyval)
| VerifyBegin (received proof : pyval) (context : option Request.ValidatorExecutionRequestContextV3)
    (output : option Request.ObservedExecutionOutputV3)
| VerifyFinish (k : nat)
| Expire (now : pyval)
| FailClosed
| Abort.

Definition outcome {A} (w : world) (o : res A * ProofV3ChallengeSession) (got : A -> world -> world)
    : world * option exc :=
  let w' := MkWorld o.2 (w_calls w) (w_revealed w) (w_results w) in
  match o.1 with Ok a => (got a w', None) | Err e => (w', Some e) end.

Definition ignore {A} (_ : A) (w : world) : world := w.
Definition note_reveal (rv : NonceRevealV3) (w : world) : world :=
  MkWorld (w_session w) (w_calls w) (rv :: w_revealed w) (w_results w).
Definition note_call (c : verification_job -> call) (job : verification_job) (w : world) : world :=
  MkWorld (w_session w) (c job :: w_calls w) (w_revealed w) (w_results w).
Definition note_result (c : call) (r : verification_result) (w : world) : world :=
  MkWorld (w_session w) (w_calls w) (w_revealed w) ((c, r) :: w_results w).

Definition check `{Digest, PallasField, EconomicVerifier} (cfg : config) (c : call) : res verification_result :=
  run_verification cfg (k_job c) (k_proof c) (k_context c) (k_output c).

Definition step `{Digest, PallasField, EconomicVerifier, Unicode} (a : action) (w : world) : world * option exc :=
  let s := w_session w in
  match a with
  | Accept enc obs last recv => outcome w (accept_precommit_bytes enc obs last recv s) ignore
  | Select v => outcome w (select_audit_tier_once v s) ignore
  | Reveal v => outcome w (reveal_nonce_once v s) note_reveal
  | VerifyBegin v proof ctx out => outcome w (verify_begin v s) (note_call (fun job => MkCall job v proof ctx out))
  | VerifyFinish k =>
      match w_calls w !! k with
      | None => (w, None)
      | Some c => outcome (MkWorld s (delete k (w_calls w)) (w_revealed w) (w_results w))
                    (verify_finish (check (s_config s) c) s) (note_result c)
      end
  | Expire v => outcome w (expire v s) ignore
  | FailClosed => outcome w (fail_closed s) ignore
  | Abort => outcome w (abort s) ignore
  end.

Definition run `{Digest, PallasField, EconomicVerifier, Unicode} (acts : list action) (w : world) : world :=
  foldl (fun w a => (step a w).1) w acts.

Definition opened (s : ProofV3ChallengeSession) : world := MkWorld s [] [] [].

(** ** The invariant *)

(** An ended session is in no other state. *)
Ltac not_ended :=
  match goal with Hin : s_state _ ∈ _, Hst : s_state _ = _ |- _ =>
    exfalso; cbn in Hst; rewrite Hst in Hin; repeat (apply elem_of_cons in Hin as [Hin|Hin]; [discriminate|]);
    by apply not_elem_of_nil in Hin end.

Section lifecycle.
Context `{Digest, PallasField, EconomicVerifier, Unicode} (cfg : config) (n : bytes).

(** What the session has established when it holds an accepted envelope, a hard
    decision, and after it has disclosed the nonce: [l] is the time of the last
    visible token, [r], [t] and [x] those of the envelope, the decision and the
    disclosure. *)
Record accepted (e : Payload.ProofV3CommitmentEnvelope) (b : EnvelopeBindingV3) (l r : Z) : Prop := {
  ac_admitted : admitted cfg e b;
  ac_last : 0 <= l <= r;
  ac_deadline : r <= l + s_precommit_budget cfg;
}.

Record decided e b l r (d : PostCommitAuditDecisionV3) (t : Z) : Prop := {
  de_accepted : accepted e b l r;
  de_derives : derives cfg n e d;
  de_hard : d_hard_audit_selected d = true;
  de_after : r <= t;
  de_held : forall hold, s_hold_budget cfg = Some hold -> t <= r + hold;
}.

Record disclosed e b l r d t (x : Z) (rv : NonceRevealV3) : Prop := {
  di_decided : decided e b l r d t;
  di_reveal : discloses cfg n e d rv;
  di_time : t <= x <= reveal_deadline cfg r t;
}.

(** The call was started on the disclosed exchange, in time. *)
Definition timely (e : Payload.ProofV3CommitmentEnvelope) (b : EnvelopeBindingV3) (d : PostCommitAuditDecisionV3)
    (x : Z) (c : call) : Prop :=
  k_job c = MkJob e b n d /\ exists y, k_received c = PInt y /\ x <= y <= x + s_hard_budget cfg.

Inductive lifecycle : world -> Prop :=
| in_awaiting :
    lifecycle (opened (MkSession cfg AWAITING_PRECOMMIT (Some n) None None None None None None None None))
| in_accepted e b l r :
    accepted e b l r ->
    lifecycle (opened (MkSession cfg PRECOMMIT_ACCEPTED (Some n) (Some b) None (Some e)
                         (Some (l + s_precommit_budget cfg)) (Some r) None None None))
| in_selected e b l r d t :
    decided e b l r d t ->
    lifecycle (opened (MkSession cfg HARD_SELECTED (Some n) (Some b) (Some d) (Some e)
                         (Some (reveal_deadline cfg r t)) (Some r) None (Some t) None))
| in_revealed e b l r d t x rv :
    disclosed e b l r d t x rv ->
    lifecycle (MkWorld (MkSession cfg NONCE_REVEALED (Some n) (Some b) (Some d) (Some e)
                          (Some (x + s_hard_budget cfg)) (Some r) (Some x) (Some t) None) [] [rv] [])
| in_verifying e b l r d t x rv c :
    disclosed e b l r d t x rv -> timely e b d x c ->
    lifecycle (MkWorld (MkSession cfg VERIFYING (Some n) (Some b) (Some d) (Some e)
                          (Some (x + s_hard_budget cfg)) (Some r) (Some x) (Some t) None) [c] [rv] [])
| in_verified e b l r d t x rv c result dl :
    disclosed e b l r d t x rv -> timely e b d x c -> check cfg c = Ok result ->
    lifecycle (MkWorld (MkSession cfg VERIFIED None None None None dl None None None (capture_chain result))
                 [] [rv] [(c, result)])
| in_ended s calls revealed :
    s_config s = cfg -> cleared s -> s_chain s = None -> s_state s ∈ [LIGHT_REVEALED; FAILED; EXPIRED; ABORTED] ->
    (calls = [] /\ revealed = []
     \/ exists e b l r d t x rv, disclosed e b l r d t x rv /\ s_state s <> LIGHT_REVEALED /\ revealed = [rv]
          /\ (calls = [] \/ exists c, calls = [c])) ->
    lifecycle (MkWorld s calls revealed []).

(** ** The invariant is preserved *)

Definition endings : list ChallengeSessionStateV3 := [FAILED; EXPIRED; ABORTED].

Lemma lifecycle_config w : lifecycle w -> s_config (w_session w) = cfg.
Proof. by destruct 1. Qed.

(** A session that holds a nonce, or ended, may end. *)
Lemma lifecycle_end w s' states k :
  lifecycle w -> w_results w = [] -> ended (w_session w) s' states -> states ⊆ endings ->
  lifecycle (MkWorld s' (delete k (w_calls w)) (w_revealed w) [])
  /\ lifecycle (MkWorld s' (w_calls w) (w_revealed w) []).
Proof.
  intros Hw Hr (Hc & Hcl & Hch & Hst) Hsub. assert (Hcfg := lifecycle_config w Hw).
  assert (forall calls, (calls = [] /\ w_revealed w = []
     \/ exists e b l r d t x rv, disclosed e b l r d t x rv /\ w_revealed w = [rv] /\ (calls = [] \/ exists c, calls = [c])) ->
     lifecycle (MkWorld s' calls (w_revealed w) [])) as Hend.
  { intros calls Hcalls. apply Hsub in Hst.
    apply in_ended; [congruence|done|done|unfold endings in Hst; set_solver|].
    destruct Hcalls as [?|(?&?&?&?&?&?&?&?&?&?&?)]; [by left|right]. do 8 eexists. split; [eassumption|]. split; [|done].
    intros Hl. rewrite Hl in Hst. unfold endings in Hst. set_solver. }
  split; apply Hend; destruct Hw as [| | | |? ? ? ? ? ? ? ? c| |? ? ? ? ? ? ? [[-> ->]|(?&?&?&?&?&?&?&?&?&?&->&[->|[c ->]])]];
    cbn [w_calls w_revealed w_results opened] in *; try done; eauto 15; try (left; done);
    right; do 8 eexists; (split; [eassumption|]); eauto; destruct k; eauto.
Qed.

Definition sound (o : world * option exc) : Prop :=
  lifecycle o.1 /\ forall e, o.2 = Some e -> exc_kind e = ProofV3VerificationError.

Lemma outcome_err {A} w err s' (got : A -> world -> world) :
  outcome w (Err err, s') got = (MkWorld s' (w_calls w) (w_revealed w) (w_results w), Some err).
Proof. done. Qed.

Lemma sound_closed {A} w (o : res A * ProofV3ChallengeSession) got :
  lifecycle w -> (exists err, o = (Err err, w_session w) /\ exc_kind err = ProofV3VerificationError) ->
  sound (outcome w o got).
Proof. intros Hw (err & -> & Hk). rewrite outcome_err. destruct w. split; [done|]. by intros ? [= <-]. Qed.

Lemma sound_failed {A} w err s' (got : A -> world -> world) :
  lifecycle w -> w_results w = [] -> exc_kind err = ProofV3VerificationError ->
  ended (w_session w) s' [FAILED; EXPIRED] -> sound (outcome w (Err err, s') got).
Proof.
  intros Hw Hr Hk He. rewrite outcome_err, Hr. split; [|by intros ? [= <-]].
  apply (lifecycle_end w s' [FAILED; EXPIRED] 0); [done|done|done|set_solver].
Qed.

Lemma accept_sound enc obs last recv w : lifecycle w -> sound (step (Accept enc obs last recv) w).
Proof.
  intros Hw. cbn. pose proof (accept_spec enc obs last recv (w_session w)) as Ha.
  destruct (accept_precommit_bytes enc obs last recv (w_session w)) as [[[]|err] s'].
  - destruct Ha as (Hst & l & r & e & b & _ & _ & Hl & Hr & _ & Hadm & ->).
    destruct Hw; try done; [|not_ended].
    split; [|done]. by apply in_accepted.
  - destruct Ha as [Hk Hs]. case_bool_decide as Hst; [|apply sound_closed; subst; eauto].
    apply sound_failed; [done| |done|done]. by destruct Hw.
Qed.

Lemma select_sound v w : lifecycle w -> sound (step (Select v) w).
Proof.
  intros Hw. cbn. destruct (decide (s_state (w_session w) = PRECOMMIT_ACCEPTED)) as [Hst|Hst].
  2:{ apply sound_closed; [done|]. by apply select_closed. }
  destruct Hw as [|e b l r Hacc| | | | |]; try done; [|not_ended].
  match goal with |- context [opened ?s] =>
    pose proof (select_spec v s n e Hst eq_refl eq_refl) as Hs; unfold select_audit_tier_once;
    change (w_session (opened s)) with s; destruct (_select_audit_tier_locked v s) as [[d|err] s'] end.
  2:{ apply sound_failed; [by apply (in_accepted e b l r)|done|apply Hs|apply Hs]. }
  destruct Hs as (Hd & t & r' & -> & [= <-] & Hle & Hs'). split; [|done]. cbn.
  destruct (d_hard_audit_selected d) eqn:Hh.
  - destruct Hs' as [Hhold ->]. by apply (in_selected e b l r d t).
  - subst s'. apply in_ended; [done|done|done|cbn; set_solver|by left].
Qed.

Lemma reveal_selected_sound v e b l r d t :
  decided e b l r d t ->
  let s := MkSession cfg HARD_SELECTED (Some n) (Some b) (Some d) (Some e) (Some (reveal_deadline cfg r t)) (Some r) None
             (Some t) None in
  sound (outcome (opened s) (reveal_selected v s) note_reveal).
Proof.
  intros Hd s. pose proof (reveal_selected_spec v s n e d eq_refl eq_refl eq_refl eq_refl) as Hs.
  destruct (reveal_selected v s) as [[rv|err] s'].
  2:{ apply sound_failed; [by apply (in_selected e b l r d t)|done|apply Hs|apply Hs]. }
  destruct Hs as (Hrv & r' & t' & dl & x & -> & [= <-] & [= <-] & [= <-] & _ & Ht & Hx & ->).
  split; [|done]. by apply (in_revealed e b l r d t x rv).
Qed.

Lemma reveal_sound v w : lifecycle w -> sound (step (Reveal v) w).
Proof.
  intros Hw. cbn. destruct (decide (s_state (w_session w) = PRECOMMIT_ACCEPTED)) as [Hst|Hst];
    [|destruct (decide (s_state (w_session w) = HARD_SELECTED)) as [Hst'|Hst']].
  - rewrite (reveal_selects v) by done. destruct Hw as [|e b l r Hacc| | | | |]; try done; [|not_ended].
    match goal with |- context [opened ?s] => set (s0 := s) in *;
      pose proof (select_spec v s0 n e eq_refl eq_refl eq_refl) as Hs; change (w_session (opened s0)) with s0;
      destruct (_select_audit_tier_locked v s0) as [[d|err] s'] end.
    2:{ apply sound_failed; [by apply (in_accepted e b l r)|done|apply Hs|apply Hs]. }
    destruct Hs as (Hd & t & r' & -> & [= <-] & Hle & Hs'). destruct (d_hard_audit_selected d) eqn:Hh.
    + destruct Hs' as [Hhold ->]. by apply (reveal_selected_sound (PInt t) e b l r d t).
    + subst s'. split; [|by intros ? [= <-]]. apply in_ended; [done|done|done|cbn; set_solver|by left].
  - destruct Hw as [| |e b l r d t Hd| | | |]; try done; [|not_ended].
    cbn [w_session opened]. rewrite (reveal_hard_selected v _ d) by done. by apply (reveal_selected_sound v e b l r d t).
  - apply sound_closed; [done|]. by apply reveal_closed.
Qed.

Lemma verify_begin_sound v proof ctx out w : lifecycle w -> sound (step (VerifyBegin v proof ctx out) w).
Proof.
  intros Hw. cbn. destruct (decide (s_state (w_session w) = NONCE_REVEALED)) as [Hst|Hst].
  2:{ apply sound_closed; [done|]. by apply verify_begin_closed. }
  destruct Hw as [| | |e b l r d t x rv Hd| | |]; try done; [|not_ended].
  match goal with |- context [MkWorld ?s] => set (s0 := s) in *;
    pose proof (verify_begin_spec v s0 n e b d eq_refl eq_refl eq_refl eq_refl eq_refl) as Hs;
    cbn [w_session]; destruct (verify_begin v s0) as [[job|err] s'] end.
  2:{ apply sound_failed; [by apply (in_revealed e b l r d t x rv)|done|apply Hs|apply Hs]. }
  destruct Hs as (-> & -> & y & x' & dl & -> & [= <-] & [= <-] & Hy). split; [|done].
  apply (in_verifying e b l r d t x rv); [done|]. split; [done|]. by exists y.
Qed.

Lemma ending_sound w s' states :
  lifecycle w -> (terminal (s_state (w_session w)) = true -> s' = w_session w) ->
  (terminal (s_state (w_session w)) = false -> s' = w_session w \/ ended (w_session w) s' states) ->
  states ⊆ endings -> lifecycle (MkWorld s' (w_calls w) (w_revealed w) (w_results w)).
Proof.
  intros Hw Ht Hf Hs. assert (s' = w_session w -> lifecycle (MkWorld s' (w_calls w) (w_revealed w) (w_results w))) as Hsame.
  { intros ->. by destruct w. }
  destruct (terminal (s_state (w_session w))) eqn:E; [by apply Hsame, Ht|].
  destruct (Hf eq_refl) as [->|He]; [by apply Hsame|].
  assert (w_results w = []) as Hr by (by destruct Hw). rewrite Hr. by apply (lifecycle_end w s' states 0).
Qed.

Lemma expire_sound v w : lifecycle w -> sound (step (Expire v) w).
Proof.
  intros Hw. cbn. rewrite expire_spec. destruct (terminal _) eqn:Et; [split; [by destruct w|done]|].
  destruct (_monotonic_ns v _) as [now|err] eqn:Em.
  2:{ apply sound_closed; [done|]. exists err. split; [done|]. by eapply monotonic_err. }
  destruct (s_deadline (w_session w)) as [dl|]; [|split; [by destruct w|done]].
  split; [|done]. apply (ending_sound w _ [EXPIRED]); [done|by rewrite Et| |set_solver].
  intros _. destruct (dl <? now); [right; ends|by left].
Qed.

Lemma stop_sound w s' st :
  lifecycle w -> s' = (if terminal (s_state (w_session w)) then w_session w else failed_with st (w_session w)) ->
  st ∈ endings -> sound (outcome w (Ok tt, s') ignore).
Proof.
  intros Hw -> Hst. split; [|done]. apply (ending_sound w _ [st]); [done| | |set_solver].
  - by intros ->.
  - intros ->. right. ends.
Qed.

(** Only the verifier of the proof raises anything else. *)
Lemma verify_finish_sound k w :
  lifecycle w -> lifecycle (step (VerifyFinish k) w).1
    /\ forall e, (step (VerifyFinish k) w).2 = Some e -> exc_kind e = ProofV3VerificationError
         \/ exists c, w_calls w !! k = Some c /\ check cfg c = Err e.
Proof.
  intros Hw. cbn. destruct (w_calls w !! k) as [c|] eqn:Ec; [|done].
  rewrite verify_finish_spec, (lifecycle_config w Hw).
  assert (forall s' states, ended (w_session w) s' states -> states ⊆ endings -> w_results w = [] ->
    lifecycle (MkWorld s' (delete k (w_calls w)) (w_revealed w) (w_results w))) as Hend.
  { intros s' states He Hsub Hr. rewrite Hr. by eapply lifecycle_end. }
  destruct (decide (s_state (w_session w) = VERIFYING)) as [Hst|Hst].
  - rewrite !bool_decide_eq_true_2 by done.
    destruct Hw as [| | | |e b l r d t x rv c' Hd Hc| |]; try done; [|not_ended].
    cbn in Ec. apply list_lookup_singleton_Some in Ec as [-> ->].
    destruct (check cfg c) as [result|err] eqn:Echeck; cbn.
    + split; [|done]. by apply (in_verified e b l r d t x rv c).
    + split; [|intros ? [= <-]; right; by exists c]. apply (Hend _ [FAILED]); [ends|set_solver|done].
  - rewrite !bool_decide_eq_false_2 by done.
    assert (lifecycle (MkWorld (w_session w) (delete k (w_calls w)) (w_revealed w) (w_results w))) as Hkeep.
    { destruct Hw as [| | | | | |s calls revealed Hcfg Hcl Hch Hin Hcalls]; try done. apply in_ended; try done.
      destruct Hcalls as [[-> ->]|(?&?&?&?&?&?&?&?&?&?&->&[->|[c' ->]])]; [by left|right; by do 8 eexists; eauto..| ].
      right. do 8 eexists. split; [eassumption|]. split_and!; [done|done|]. destruct k; eauto. }
    destruct (check cfg c) as [result|err] eqn:Echeck; cbn; (split; [done|]); intros ? [= <-]; [by left|right; by exists c].
Qed.

(** ** Reachable worlds *)

Lemma step_lifecycle a w :
  lifecycle w -> lifecycle (step a w).1
    /\ forall e, (step a w).2 = Some e -> exc_kind e = ProofV3VerificationError
         \/ exists k c, a = VerifyFinish k /\ w_calls w !! k = Some c /\ check cfg c = Err e.
Proof.
  assert (forall o, sound o -> lifecycle o.1 /\ forall e, o.2 = Some e -> exc_kind e = ProofV3VerificationError
     \/ exists k c, a = VerifyFinish k /\ w_calls w !! k = Some c /\ check cfg c = Err e) as Hso.
  { intros o [Hl He]. split; [done|]. intros e Hoe. left. by apply He. }
  intros Hw. destruct a as [| | | |k| | |].
  - by apply Hso, accept_sound.
  - by apply Hso, select_sound.
  - by apply Hso, reveal_sound.
  - by apply Hso, verify_begin_sound.
  - destruct (verify_finish_sound k w Hw) as [Hl He]. split; [done|]. intros e Hoe.
    destruct (He e Hoe) as [?|(c & ? & ?)]; [by left|right; by exists k, c].
  - by apply Hso, expire_sound.
  - apply Hso. cbn. rewrite fail_closed_spec. apply (stop_sound w _ FAILED); [done|done|set_solver].
  - apply Hso. cbn. rewrite abort_spec. apply (stop_sound w _ ABORTED); [done|done|set_solver].
Qed.

Lemma run_lifecycle acts w : lifecycle w -> lifecycle (run acts w).
Proof.
  revert w. induction acts as [|a acts IH]; intros w Hw; [done|]. cbn. apply IH. by apply step_lifecycle.
Qed.
End lifecycle.

(** ** New sessions *)

Lemma budget_ok maximum v m z : budget maximum v m = Ok z -> v = PInt z /\ 1 <= z <= maximum.
Proof.
  unfold budget, raise. destruct v as [z'| | | | | | |]; try done. destruct (_ && _) eqn:E; cbn; [|done].
  intros [= ->]. apply andb_true_iff in E as [?%Z.ltb_lt ?%Z.leb_le]. split; [done|lia].
Qed.

Lemma hold_ok v h :
  _nonce_reveal_hold_budget_ns v = Ok h -> forall hold, h = Some hold -> 1 <= hold <= MAX_NONCE_REVEAL_HOLD_BUDGET_NS_V3.
Proof.
  unfold _nonce_reveal_hold_budget_ns. intros Hb hold ->.
  destruct v; try discriminate; apply bind_ok in Hb as (z0 & [_ ?]%budget_ok & [= ->]); done.
Qed.

Lemma new_ok `{Digest} q context nonce runtime pb hb hold s :
  ProofV3ChallengeSession_new q context nonce runtime pb hb hold = Ok s ->
  exists n, nonce = PBytes n /\ s = MkSession (s_config s) AWAITING_PRECOMMIT (Some n) None None None None None None None None
    /\ s_context (s_config s) = context /\ s_profile (s_config s) = q_profile q
    /\ s_runtime_policy (s_config s) = runtime
    /\ s_profile_digest (s_config s) = expected_execution_profile_digest q
    /\ profile_digest (q_profile q) = Ok (s_profile_digest (s_config s))
    /\ 1 <= s_precommit_budget (s_config s) <= DEFAULT_PROOF_ARRIVAL_BUDGET_NS_V3
    /\ 1 <= s_hard_budget (s_config s) <= MAX_HARD_PROOF_ARRIVAL_BUDGET_NS_V3
    /\ (forall h, s_hold_budget (s_config s) = Some h -> 1 <= h <= MAX_NONCE_REVEAL_HOLD_BUDGET_NS_V3)
    /\ exists nc, Request.nonce_context_digest context = Ok nc
         /\ Request.commit_validator_nonce_v3 (PBytes n) (PBytes nc) = Ok (Request.validator_nonce_commitment context).
Proof.
  intros (_ & _ & (n & ->%session_fixed_ok & (p & [_ Hp]%budget_ok & (h & [_ Hh]%budget_ok & (o & Ho & Hs)%bind_ok)%bind_ok)%bind_ok)%bind_ok)%bind_ok.
  apply bind_ok in Hs as (_ & _ & (_ & _ & (dg & Hdg & (_ & Hd%refuse_ok & Hs)%bind_ok)%bind_ok)%bind_ok).
  apply differ_false in Hd as ->.
  apply bind_ok in Hs as (_ & _ & (_ & _ & (nc & Hnc & (cm & Hcm & (_ & Hc%refuse_ok & [= <-])%bind_ok)%bind_ok)%bind_ok)%bind_ok).
  apply differ_false in Hc. exists n. cbn. pose proof (hold_ok _ _ Ho) as Hhold.
  split_and!; try done; try lia. exists nc. split; [done|by rewrite Hc].
Qed.

Lemma fresh_lifecycle `{Digest, PallasField, EconomicVerifier, Unicode} q context nonce runtime pb hb hold s acts :
  ProofV3ChallengeSession_new q context nonce runtime pb hb hold = Ok s ->
  exists n, nonce = PBytes n /\ s_nonce s = Some n /\ lifecycle (s_config s) n (run acts (opened s)).
Proof.
  intros (n & Hn & Hs & _)%new_ok. exists n. rewrite Hs. split_and!; [done|done|]. apply run_lifecycle, in_awaiting.
Qed.

Definition over (w : world) : bool := terminal (s_state (w_session w)).

Lemma terminal_spec st : terminal st = true <-> st ∈ _TERMINAL_STATES.
Proof. apply bool_decide_eq_true. Qed.

(** Nothing changes a session that ended, and nothing more is got out of it. *)
Lemma step_over `{Digest, PallasField, EconomicVerifier, Unicode} a w :
  over w = true ->
  w_session (step a w).1 = w_session w /\ w_revealed (step a w).1 = w_revealed w /\ w_results (step a w).1 = w_results w.
Proof.
  unfold over. intros Hw.
  assert (forall st, terminal st = false -> s_state (w_session w) <> st) as Hne by (intros st ? <-; congruence).
  destruct a as [enc obs last recv|v|v|v proof ctx out|k|v| |]; cbn [step].
  - pose proof (accept_spec enc obs last recv (w_session w)) as Ha.
    destruct (accept_precommit_bytes _ _ _ _ _) as [[[]|err] s'].
    + destruct Ha as [Ha _]. by apply Hne in Ha.
    + destruct Ha as [_ Ha]. rewrite bool_decide_eq_false_2 in Ha by (by apply Hne). by subst s'.
  - destruct (select_closed v (w_session w)) as (err & -> & _); [by apply Hne|done].
  - destruct (reveal_closed v (w_session w)) as (err & -> & _); [by apply Hne|by apply Hne|done].
  - destruct (verify_begin_closed v (w_session w)) as (err & -> & _); [by apply Hne|done].
  - destruct (w_calls w !! k) as [c|]; [|done]. rewrite verify_finish_spec.
    rewrite !bool_decide_eq_false_2 by (by apply Hne). by destruct (check _ _).
  - by rewrite expire_spec, Hw.
  - by rewrite fail_closed_spec, Hw.
  - by rewrite abort_spec, Hw.
Qed.

Lemma run_over `{Digest, PallasField, EconomicVerifier, Unicode} acts w :
  over w = true ->
  w_session (run acts w) = w_session w /\ w_revealed (run acts w) = w_revealed w /\ w_results (run acts w) = w_results w.
Proof.
  revert w. induction acts as [|a acts IH]; intros w Hw; [done|].
  change (run (a :: acts) w) with (run acts (step a w).1). destruct (step_over a w Hw) as (Hs & Hr & Hx).
  destruct (IH (step a w).1) as (-> & -> & ->); [unfold over in *; by rewrite Hs|done].
Qed.

(** ** An honest run *)

(** The frames of an exchange that every check passes, in time: [l] is the time
    of the last visible token, [r], [x] and [y] those of the envelope, the
    reveal and the proof. *)
Record honest_run `{Digest, PallasField, EconomicVerifier, Unicode} (cfg : config) (n : bytes) (enc : pyval)
    (o : Request.ObservedExecutionOutputV3) (proof : pyval) ctx out (l r x y : Z) e b d rv result : Prop := {
  hr_times : 0 <= l <= r /\ r <= x <= y;
  hr_precommit : r <= l + s_precommit_budget cfg;
  hr_hold : forall hold, s_hold_budget cfg = Some hold -> x <= r + hold;
  hr_proof : y <= x + s_hard_budget cfg;
  hr_clock : l + s_precommit_budget cfg < 2 ^ 63 /\ reveal_deadline cfg r x < 2 ^ 63 /\ x + s_hard_budget cfg < 2 ^ 63;
  hr_envelope : Payload.commitment_envelope_from_bytes enc = Ok e;
  hr_context : Request.context_token_count (s_context cfg) <= max_verified_context_tokens (s_profile cfg);
  hr_admitted : exists ob, Request.derive_output_binding o = Ok ob
    /\ validate_execution_envelope_against_precommit_v3 (s_profile cfg) e (s_static_digest cfg) (s_profile_digest cfg)
         (s_context cfg) ob
         (if bool_decide (proof_system_id (s_profile cfg) = ECONOMIC_RECOMPUTE_PROOF_SYSTEM_V3)
          then Some require_economic_recompute_capability_v3 else None) false = Ok b;
  hr_decision : derives cfg n e d;
  hr_hard : d_hard_audit_selected d = true;
  hr_reveal : reveal_of cfg e n d = Ok rv;
  hr_verified : run_verification cfg (MkJob e b n d) proof ctx out = Ok result;
}.

Lemma shiftl_gt v : v < 2 ^ 63 -> (Z.shiftl 1 63 <=? v) = false.
Proof. intros Hv. apply Z.leb_gt. by rewrite Z.shiftl_mul_pow2, Z.mul_1_l. Qed.

Lemma monotonic_int v name : 0 <= v -> _monotonic_ns (PInt v) name = Ok v.
Proof. intros Hv. by apply monotonic_ok. Qed.

Lemma arrival_in_time v s d :
  s_deadline s = Some d -> 0 <= v <= d -> _require_arrival_before_deadline_locked (PInt v) s = (Ok v, s).
Proof.
  intros Hd Hv. unfold _require_arrival_before_deadline_locked. run_method. rewrite monotonic_int by lia. rewrite Hd.
  by destruct (Z.ltb_spec d v); [lia|].
Qed.

Section honest.
Context `{Digest, PallasField, EconomicVerifier, Unicode}.
Context (cfg : config) (n : bytes) (enc : pyval) (o : Request.ObservedExecutionOutputV3) (proof : pyval)
  (ctx : option Request.ValidatorExecutionRequestContextV3) (out : option Request.ObservedExecutionOutputV3)
  (l r x y : Z) (e : Payload.ProofV3CommitmentEnvelope) (b : EnvelopeBindingV3) (d : PostCommitAuditDecisionV3)
  (rv : NonceRevealV3) (result : verification_result).
Hypothesis Hrun : honest_run cfg n enc o proof ctx out l r x y e b d rv result.

Lemma honest_accept :
  accept_precommit_bytes enc o (PInt l) (PInt r)
    (MkSession cfg AWAITING_PRECOMMIT (Some n) None None None None None None None None)
  = (Ok tt, MkSession cfg PRECOMMIT_ACCEPTED (Some n) (Some b) None (Some e) (Some (l + s_precommit_budget cfg)) (Some r)
              None None None).
Proof.
  destruct Hrun as [? ? ? ? [Hc _] He Hx (ob & Ho & Hb) _ _ _ _]. unfold accept_precommit_bytes, accept_body. run_method.
  rewrite bool_decide_eq_false_2, monotonic_int by (auto || lia). fields. rewrite shiftl_gt by done. fields.
  rewrite (arrival_in_time r _ (l + s_precommit_budget cfg)) by (try done; lia). fields.
  destruct (Z.ltb_spec r l); [lia|]. rewrite He.
  destruct (Z.ltb_spec (max_verified_context_tokens (s_profile cfg)) (Request.context_token_count (s_context cfg))); [lia|].
  cbn [andb]. rewrite Ho. unfold refuse. rewrite Hb. done.
Qed.

Lemma honest_select :
  _select_audit_tier_locked (PInt x)
    (MkSession cfg PRECOMMIT_ACCEPTED (Some n) (Some b) None (Some e) (Some (l + s_precommit_budget cfg)) (Some r) None None None)
  = (Ok d, MkSession cfg HARD_SELECTED (Some n) (Some b) (Some d) (Some e) (Some (reveal_deadline cfg r x)) (Some r)
             None (Some x) None).
Proof.
  destruct Hrun as [? ? Hhold ? (_ & Hc & _) _ _ _ Hd Hh _ _]. unfold _select_audit_tier_locked, select_time. run_method.
  rewrite bool_decide_eq_false_2, monotonic_int by (auto || lia). fields. destruct (Z.ltb_spec x r); [lia|]. unfold derives in Hd. fields. rewrite Hd, Hh. cbn [negb].
  unfold reveal_deadline in *. destruct (s_hold_budget cfg) as [hold|]; fields; rewrite shiftl_gt by done; fields; [|done].
  specialize (Hhold hold eq_refl). rewrite (arrival_in_time x _ (r + hold)) by (try done; lia). done.
Qed.

Lemma honest_reveal :
  reveal_nonce_once (PInt x)
    (MkSession cfg PRECOMMIT_ACCEPTED (Some n) (Some b) None (Some e) (Some (l + s_precommit_budget cfg)) (Some r) None None None)
  = (Ok rv, MkSession cfg NONCE_REVEALED (Some n) (Some b) (Some d) (Some e) (Some (x + s_hard_budget cfg)) (Some r)
              (Some x) (Some x) None).
Proof.
  rewrite reveal_selects, honest_select by done.
  destruct Hrun as [? ? Hhold ? (_ & _ & Hc) _ _ _ _ Hh Hrv _]. rewrite Hh. unfold reveal_selected, reveal_time. run_method.
  assert (x <= reveal_deadline cfg r x) as Hx.
  { unfold reveal_deadline. destruct (s_hold_budget cfg) as [hold|]; [by apply Hhold|].
    unfold DEFAULT_PROOF_ARRIVAL_BUDGET_NS_V3. lia. }
  rewrite (arrival_in_time x _ (reveal_deadline cfg r x)) by (try done; lia). fields.
  destruct (Z.ltb_spec x r); [lia|]. destruct (Z.ltb_spec x x); [lia|]. cbn [orb]. fields. rewrite Hrv, shiftl_gt by done. done.
Qed.

Lemma honest_begin :
  verify_begin (PInt y)
    (MkSession cfg NONCE_REVEALED (Some n) (Some b) (Some d) (Some e) (Some (x + s_hard_budget cfg)) (Some r) (Some x)
       (Some x) None)
  = (Ok (MkJob e b n d), MkSession cfg VERIFYING (Some n) (Some b) (Some d) (Some e) (Some (x + s_hard_budget cfg)) (Some r)
       (Some x) (Some x) None).
Proof.
  destruct Hrun as [? ? ? ? _ _ _ _ _ _ _ _]. unfold verify_begin, proof_time. run_method.
  rewrite bool_decide_eq_false_2 by auto. fields. rewrite (arrival_in_time y _ (x + s_hard_budget cfg)) by (try done; lia). fields.
  by destruct (Z.ltb_spec y x); [lia|].
Qed.

Definition honest_actions : list action :=
  [Accept enc o (PInt l) (PInt r); Reveal (PInt x); VerifyBegin (PInt y) proof ctx out; VerifyFinish 0].

Lemma honest_end :
  run honest_actions (opened (MkSession cfg AWAITING_PRECOMMIT (Some n) None None None None None None None None))
  = MkWorld (MkSession cfg VERIFIED None None None None (Some (x + s_hard_budget cfg)) None None None (capture_chain result))
      [] [rv] [(MkCall (MkJob e b n d) (PInt y) proof ctx out, result)].
Proof.
  unfold run, honest_actions. cbn [foldl step w_session opened]. rewrite honest_accept.
  cbn [outcome fst snd ignore w_session]. rewrite honest_reveal.
  cbn [outcome fst snd note_reveal w_session w_revealed w_calls w_results opened]. rewrite honest_begin.
  cbn [outcome fst snd note_call w_session w_revealed w_calls w_results lookup list_lookup delete list_delete].
  rewrite verify_finish_spec. unfold check. cbn [k_job k_proof k_context k_output s_config]. by rewrite (hr_verified _ _ _ _ _ _ _ _ _ _ _ _ _ _ _ _ Hrun).
Qed.
End honest.

(** ** Properties *)

Section properties.
Context `{Digest, PallasField, EconomicVerifier, Unicode}.
Variables (q : QualifiedExecutionProfileV3) (context : Request.PreExecutionRequestContextV3) (nonce : pyval)
  (runtime : RuntimeHardAuditPolicyV3) (precommit_budget hard_budget hold_budget : pyval) (s : ProofV3ChallengeSession).

(** C3 Whatever callers do, in any order and interleaving, a session is in a
    consistent state: its configuration never changes; at most one call is
    inside a verification, at most one nonce was disclosed and at most one
    result returned; the session holds its nonce exactly until it ends, and
    after that nothing of the exchange; it is verified exactly when a result
    was returned; a nonce was disclosed in every state after the disclosure and
    in none before it or after a light decision; and it has a deadline in every
    state that waits for a frame, the first one excepted. *)
Theorem session_invariant acts :
  ProofV3ChallengeSession_new q context nonce runtime precommit_budget hard_budget hold_budget = Ok s ->
  let w := run acts (opened s) in
  let st := s_state (w_session w) in
  s_config (w_session w) = s_config s
  /\ (length (w_calls w) <= 1 /\ length (w_revealed w) <= 1 /\ length (w_results w) <= 1)%nat
  /\ (over w = false -> s_nonce (w_session w) = s_nonce s)
  /\ (over w = true -> cleared (w_session w))
  /\ (st = VERIFIED <-> w_results w <> [])
  /\ (st = NONCE_REVEALED \/ st = VERIFYING \/ st = VERIFIED -> w_revealed w <> [])
  /\ (st = AWAITING_PRECOMMIT \/ st = PRECOMMIT_ACCEPTED \/ st = HARD_SELECTED \/ st = LIGHT_REVEALED -> w_revealed w = [])
  /\ (over w = false -> st <> AWAITING_PRECOMMIT -> is_Some (s_deadline (w_session w))).
Proof.
  intros (n & -> & Hn & Hw)%(fresh_lifecycle _ _ _ _ _ _ _ _ acts) w st. subst st. fold w in Hw. unfold over. rewrite Hn.
  split; [by apply (lifecycle_config _ n)|].
  destruct Hw as [| | | | | |s' calls revealed Hc Hcl Hch Hst Hcase]; cbn [w_session w_calls w_revealed w_results opened];
    fields; try (split_and!; try done; try (by eauto); try lia; naive_solver).
  assert (terminal (s_state s') = true) as Ht by (apply terminal_spec; unfold _TERMINAL_STATES; set_solver).
  rewrite Ht. destruct Hcase as [[-> ->]|(e & b & l & r & d & t & x & rv & _ & Hl & -> & [->|[c ->]])];
    split_and!; try done; cbn; try lia;
    repeat (match goal with |- _ <-> _ => split | |- _ -> _ => intros Hcase end; try done);
    repeat destruct Hcase as [Hcase|Hcase]; not_ended || done.
Qed.

(** C2 A nonce is disclosed only after the work is committed and only when the
    audit needs it: the one reveal a session ever returns carries the session's
    own nonce and names an envelope that was admitted, field by field, for the
    session's context and an output the validator observed, within the time
    budget of the precommitment; the tier decision derived from the nonce and
    that envelope selects the hard proof; and the disclosure falls between the
    selection and its deadline. *)
Theorem nonce_disclosure_safe acts rv :
  ProofV3ChallengeSession_new q context nonce runtime precommit_budget hard_budget hold_budget = Ok s ->
  rv ∈ w_revealed (run acts (opened s)) ->
  exists n e b l r d t x o ob, nonce = PBytes n
    /\ w_revealed (run acts (opened s)) = [rv]
    /\ rv = MkReveal (Request.proof_challenge_id context) (Payload.precommit_context_digest e) (s_profile_digest (s_config s))
              (Request.cache_lease_digest context) (Payload.envelope_digest e) n d
    /\ Request.derive_output_binding o = Ok ob
    /\ envelope_bound e (s_static_digest (s_config s)) (s_profile_digest (s_config s)) context ob
         (Request.rb_request_digest (b_request_binding b))
    /\ derive_postcommit_audit_decision_v3 nonce (q_profile q) e runtime = Ok d /\ d_hard_audit_selected d = true
    /\ 0 <= l <= r /\ r <= l + s_precommit_budget (s_config s) /\ r <= t <= x
    /\ x <= reveal_deadline (s_config s) r t.
Proof.
  intros Hnew Hin. pose proof (new_ok _ _ _ _ _ _ _ _ Hnew) as (n & -> & Hs & Hctx & Hprof & Hrt & _).
  destruct (fresh_lifecycle _ _ _ _ _ _ _ _ acts Hnew) as (n' & [= <-] & _ & Hw).
  assert (exists e b l r d t x, disclosed (s_config s) n e b l r d t x rv /\ w_revealed (run acts (opened s)) = [rv])
    as (e & b & l & r & d & t & x & Hd & Hone).
  { destruct Hw as [| | | | | |? ? ? _ _ _ _ [[_ ->]|(e & b & l & r & d & t & x & rv' & ? & _ & -> & _)]];
      cbn in Hin |- *; try (by apply not_elem_of_nil in Hin); apply list_elem_of_singleton in Hin as ->; by do 7 eexists. }
  destruct Hd as [[[(o & ob & req & allow & Ho & Hadm) Hl Hr] Hder Hhard Ht _] (cd & Hcd & ->) Hx].
  apply admission_ok in Hadm as (_ & _ & _ & _ & _ & Hb & _). rewrite Hctx in Hb, Hcd, Hone |- *.
  rewrite (eb_precommit _ _ _ _ _ _ Hb) in Hcd. apply (inj Ok) in Hcd as <-.
  exists n, e, b, l, r, d, t, x, o, ob. unfold derives in Hder. rewrite Hprof, Hrt in Hder.
  split_and!; try done; lia.
Qed.

(** C1 A verified session has checked its proof: the one result it returned is
    that of a verification of the disclosed exchange, its envelope, nonce and
    decision, started by a frame that arrived between the disclosure and the
    proof deadline; and for a folded profile the frame decodes to a proof bound
    to that envelope and profile which the registered adapter accepted on the
    challenge that the nonce and the envelope determine. *)
Theorem verified_session_checked acts :
  ProofV3ChallengeSession_new q context nonce runtime precommit_budget hard_budget hold_budget = Ok s ->
  let w := run acts (opened s) in
  let cfg := s_config s in
  s_state (w_session w) = VERIFIED ->
  exists n e b l r d t x y rv c result, nonce = PBytes n /\ disclosed cfg n e b l r d t x rv
    /\ w_revealed w = [rv] /\ w_results w = [(c, result)]
    /\ s_chain (w_session w) = capture_chain result
    /\ k_job c = MkJob e b n d /\ k_received c = PInt y /\ x <= y <= x + s_hard_budget cfg
    /\ run_verification cfg (k_job c) (k_proof c) (k_context c) (k_output c) = Ok result
    /\ (proof_system_id (q_profile q) <> ECONOMIC_RECOMPUTE_PROOF_SYSTEM_V3 ->
        exists proof ch reg, Payload.folded_execution_proof_from_bytes (k_proof c) = Ok proof
          /\ Payload.fx_commitment_envelope_digest proof = Payload.envelope_digest e
          /\ Payload.fx_execution_profile_digest proof = s_profile_digest cfg
          /\ derive_folded_execution_challenge_v3 nonce (q_profile q) e = Ok ch
          /\ s_registration cfg = FoldedRegistration reg
          /\ adapter_verify reg (q_profile q) e proof ch = Ok tt /\ result = FoldedResult ch).
Proof.
  intros Hnew w cfg Hst. pose proof (new_ok _ _ _ _ _ _ _ _ Hnew) as (n & -> & _ & _ & Hprof & _).
  destruct (fresh_lifecycle _ _ _ _ _ _ _ _ acts Hnew) as (n' & [= <-] & _ & Hw). fold w cfg in Hw.
  destruct Hw as [| | | | |e b l r d t x rv c result dl Hd [Hjob (y & Hy & Hb)] Hc|]; try done; [|not_ended].
  exists n, e, b, l, r, d, t, x, y, rv, c, result. cbn. unfold check in Hc. split_and!; try done; [lia|lia|].
  rewrite <- Hprof. unfold run_verification in Hc. fold cfg in Hprof. intros Hsys.
  rewrite bool_decide_eq_false_2 in Hc by done.
  apply bind_ok in Hc as (proof & Hproof & (ch & Hch & [= <-])%bind_ok).
  apply proof_ok in Hch as (d' & reg & _ & _ & _ & Hpe & Hpp & Hch & Hreg & Hver & _). rewrite Hjob in Hpe, Hch, Hver.
  cbn in Hpe, Hch, Hver. unfold session_adapters in Hreg. destruct (s_registration cfg) as [reg'|] eqn:Er; [|done].
  apply lookup_singleton_Some in Hreg as [_ ->]. by exists proof, ch, reg.
Qed.

(** The end is final: once a session has ended no method changes it, and no
    further nonce or result is got out of it, also by a verification that was
    running when it ended. *)
Theorem terminal_absorbing acts w :
  over w = true ->
  w_session (run acts w) = w_session w /\ w_revealed (run acts w) = w_revealed w /\ w_results (run acts w) = w_results w.
Proof. apply run_over. Qed.

(** Errors are the session's own: in every reachable world a method that
    raises raises [ProofV3VerificationError]; none of its assertions fails and
    no other error escapes, except that a verification passes on the error of
    the proof check it ran. *)
Theorem session_errors acts a e :
  ProofV3ChallengeSession_new q context nonce runtime precommit_budget hard_budget hold_budget = Ok s ->
  let w := run acts (opened s) in
  (step a w).2 = Some e ->
  exc_kind e = ProofV3VerificationError
  \/ exists k c, a = VerifyFinish k /\ w_calls w !! k = Some c
       /\ run_verification (s_config s) (k_job c) (k_proof c) (k_context c) (k_output c) = Err e.
Proof.
  intros (n & _ & _ & Hw)%(fresh_lifecycle _ _ _ _ _ _ _ _ acts) w He. exact (proj2 (step_lifecycle _ _ a w Hw) e He).
Qed.

(** C30 A session cannot be kept open: in every reachable world that waits for a
    frame or for a verification, a clock tick past the deadline ends the session
    and erases the nonce, and whatever happens next it is never verified. *)
Theorem session_expires acts now d rest :
  ProofV3ChallengeSession_new q context nonce runtime precommit_budget hard_budget hold_budget = Ok s ->
  let w := run acts (opened s) in
  over w = false -> s_deadline (w_session w) = Some d -> 0 <= now -> d < now ->
  let w' := run (Expire (PInt now) :: rest) w in
  s_state (w_session w') = EXPIRED /\ s_nonce (w_session w') = None /\ w_results w' = [].
Proof.
  intros (n & _ & _ & Hw)%(fresh_lifecycle _ _ _ _ _ _ _ _ acts) w Hover Hd Hnow Hlate w'. fold w in Hw.
  assert ((step (Expire (PInt now)) w).1 = MkWorld (failed_with EXPIRED (w_session w)) (w_calls w) (w_revealed w) (w_results w))
    as Hstep.
  { cbn. unfold over in Hover. rewrite expire_spec, Hover. unfold _monotonic_ns.
    destruct (Z.ltb_spec now 0); [lia|]. rewrite Hd. by destruct (Z.ltb_spec d now); [|lia]. }
  subst w'. cbn [run foldl]. change (foldl _ _ rest) with (run rest (step (Expire (PInt now)) w).1). rewrite Hstep.
  destruct (run_over rest (MkWorld (failed_with EXPIRED (w_session w)) (w_calls w) (w_revealed w) (w_results w)))
    as (-> & _ & ->); [done|]. split_and!; [done|done|]. unfold over in Hover. by destruct Hw.
Qed.

(** C31 An honest exchange is verified: from a new session, the frames of an
    exchange that passes every check, delivered in time, disclose the nonce
    once and end in the verified state with the result of the proof check. *)
Theorem honest_session_verifies n enc o proof ctx out l r x y e b d rv result :
  ProofV3ChallengeSession_new q context nonce runtime precommit_budget hard_budget hold_budget = Ok s ->
  nonce = PBytes n ->
  honest_run (s_config s) n enc o proof ctx out l r x y e b d rv result ->
  let w := run (honest_actions enc o proof ctx out l r x y) (opened s) in
  s_state (w_session w) = VERIFIED /\ w_revealed w = [rv] /\ (snd <$> w_results w) = [result] /\ w_calls w = [].
Proof.
  intros (n' & -> & Hs & _)%new_ok [= <-] Hrun w. subst w. rewrite Hs. by rewrite (honest_end _ _ _ _ _ _ _ _ _ _ _ _ _ _ _ _ Hrun).
Qed.
End properties.

(** ** Witnesses *)

#[local] Existing Instance checksum_digest.
#[local] Existing Instance sample_pallas.
#[local] Existing Instance sample_unicode.

(** No economic profile takes part. *)
Definition no_economic : EconomicVerifier := fun _ _ _ _ _ => raise ProofV3UnavailableError "economic verifier".
#[local] Existing Instance no_economic.

Definition sample_qualified : QualifiedExecutionProfileV3 :=
  MkQualified sample_profile sample_static sample_digest (FoldedRegistration sample_adapter) [t_lit "validator"].
Definition sample_config : config :=
  MkConfig sample_profile sample_static sample_digest sample_precontext (sample_runtime CANARY) 1000 5000 None
    (FoldedRegistration sample_adapter).
Definition sample_session : ProofV3ChallengeSession :=
  MkSession sample_config AWAITING_PRECOMMIT (Some sample_nonce) None None None None None None None None.

Lemma sample_session_new :
  ProofV3ChallengeSession_new sample_qualified sample_precontext (PBytes sample_nonce) (sample_runtime CANARY)
    (PInt 1000) (PInt 5000) PNone = Ok sample_session.
Proof. vm_compute. reflexivity. Qed.

Definition sample_frame : pyval := PBytes (Payload.envelope_bytes sealed_envelope).
Definition sample_proof_frame : pyval := PBytes (Payload.folded_bytes sealed_proof).
Definition sample_actions : list action :=
  honest_actions sample_frame sample_observed sample_proof_frame None None 100 200 300 400.

Notation sample_end := (run sample_actions (opened sample_session)).
Definition sample_reveal : NonceRevealV3 :=
  match w_revealed sample_end with
  | rv :: _ => rv
  | [] => MkReveal [] [] [] [] [] [] (MkDecision [] [] 0 0 false [] [])
  end.

Lemma session_invariant_witness :
  let w := run sample_actions (opened sample_session) in
  s_config (w_session w) = s_config sample_session /\ over w = true /\ cleared (w_session w).
Proof.
  pose proof (session_invariant (H := checksum_digest) (H0 := sample_pallas) (H1 := no_economic) (H2 := sample_unicode)
    sample_qualified sample_precontext (PBytes sample_nonce) (sample_runtime CANARY) (PInt 1000) (PInt 5000) PNone
    sample_session sample_actions sample_session_new) as (Hc & _ & _ & Hend & _).
  assert (over (run sample_actions (opened sample_session)) = true) as Hover by (vm_compute; reflexivity).
  split; [exact Hc|]. split; [exact Hover|exact (Hend Hover)].
Defined.

Lemma sample_disclosed : sample_reveal ∈ w_revealed sample_end.
Proof. assert (w_revealed sample_end = [sample_reveal]) as Hr by (vm_compute; reflexivity).
  rewrite Hr. apply list_elem_of_singleton. exact eq_refl. Qed.

Lemma nonce_disclosure_safe_witness :
  exists n e d, PBytes sample_nonce = PBytes n /\ w_revealed sample_end = [sample_reveal]
    /\ derive_postcommit_audit_decision_v3 (PBytes sample_nonce) sample_profile e (sample_runtime CANARY) = Ok d
    /\ d_hard_audit_selected d = true.
Proof.
  pose proof (nonce_disclosure_safe (H := checksum_digest) (H0 := sample_pallas) (H1 := no_economic) (H2 := sample_unicode)
    sample_qualified sample_precontext (PBytes sample_nonce) (sample_runtime CANARY) (PInt 1000) (PInt 5000) PNone
    sample_session sample_actions sample_reveal sample_session_new sample_disclosed)
    as (n & e & b & l & r & d & t & x & o & ob & Hn & Hone & _ & _ & _ & Hd & Hh & _).
  exists n, e, d. split; [exact Hn|]. split; [exact Hone|]. split; [exact Hd|exact Hh].
Defined.

Lemma verified_session_checked_witness :
  exists n e d c result, PBytes sample_nonce = PBytes n /\ w_results sample_end = [(c, result)]
    /\ j_envelope (k_job c) = e /\ j_decision (k_job c) = d /\ s_chain (w_session sample_end) = capture_chain result.
Proof.
  pose proof (verified_session_checked (H := checksum_digest) (H0 := sample_pallas) (H1 := no_economic)
    (H2 := sample_unicode) sample_qualified sample_precontext (PBytes sample_nonce) (sample_runtime CANARY) (PInt 1000)
    (PInt 5000) PNone sample_session sample_actions sample_session_new) as Hx.
  assert (s_state (w_session sample_end) = VERIFIED) as Hst by (vm_compute; reflexivity).
  destruct (Hx Hst) as (n & e & b & l & r & d & t & x & y & rv & c & result & Hn & _ & _ & Hr & Hch & Hj & _).
  exists n, e, d, c, result. split; [exact Hn|]. split; [exact Hr|]. rewrite Hj. split; [reflexivity|].
  split; [reflexivity|exact Hch].
Defined.

(** A second proof, and an abort, after the end. *)
Lemma terminal_absorbing_witness :
  let w := run (sample_actions ++ [Abort]) sample_end in w_session w = w_session sample_end.
Proof.
  pose proof (terminal_absorbing (H := checksum_digest) (H0 := sample_pallas) (H1 := no_economic) (H2 := sample_unicode)
    (sample_actions ++ [Abort]) sample_end) as Hx.
  assert (over sample_end = true) as Hover by (vm_compute; reflexivity).
  exact (proj1 (Hx Hover)).
Defined.

(** A reveal before any envelope was accepted. *)
Lemma session_errors_witness :
  exists e, (step (Reveal (PInt 5)) (opened sample_session)).2 = Some e /\ exc_kind e = ProofV3VerificationError.
Proof.
  eexists. split; [reflexivity|].
  pose proof (session_errors (H := checksum_digest) (H0 := sample_pallas) (H1 := no_economic) (H2 := sample_unicode)
    sample_qualified sample_precontext (PBytes sample_nonce) (sample_runtime CANARY) (PInt 1000) (PInt 5000) PNone
    sample_session [] (Reveal (PInt 5)) (Exc ProofV3VerificationError "proof-v3 session has no hard decision to reveal")
    sample_session_new) as Hx.
  destruct (Hx eq_refl) as [Hk|(k & c & Hk & _)]; [exact Hk|discriminate Hk].
Defined.

(** The proof does not arrive: the session expires and a late frame is refused. *)
Lemma session_expires_witness :
  let acts := firstn 2 sample_actions in
  let late := [VerifyBegin (PInt 5400) sample_proof_frame None None] in
  let w := run (Expire (PInt 5301) :: late) (run acts (opened sample_session)) in
  s_state (w_session w) = EXPIRED /\ s_nonce (w_session w) = None /\ w_results w = [].
Proof.
  pose proof (session_expires (H := checksum_digest) (H0 := sample_pallas) (H1 := no_economic) (H2 := sample_unicode)
    sample_qualified sample_precontext (PBytes sample_nonce) (sample_runtime CANARY) (PInt 1000) (PInt 5000) PNone
    sample_session (firstn 2 sample_actions) 5301 5300 [VerifyBegin (PInt 5400) sample_proof_frame None None]
    sample_session_new) as Hx.
  refine (Hx _ _ _ _); [vm_compute; reflexivity|vm_compute; reflexivity|lia|lia].
Defined.

Definition sample_accepted : EnvelopeBindingV3 :=
  ok_or (MkBinding [] sample_precontext sample_binding)
    (validate_execution_envelope_against_precommit_v3 sample_profile sealed_envelope sample_static sample_digest
       sample_precontext sample_output None false).

Lemma sample_honest :
  exists d result, honest_run sample_config sample_nonce sample_frame sample_observed sample_proof_frame None None
    100 200 300 400 sealed_envelope sample_accepted d sample_reveal result.
Proof.
  exists (nr_audit_decision sample_reveal), (FoldedResult sample_challenge).
  split.
  - lia.
  - vm_compute. discriminate.
  - discriminate.
  - vm_compute. discriminate.
  - split_and!; vm_compute; reflexivity.
  - vm_compute. reflexivity.
  - vm_compute. discriminate.
  - exists sample_output. split; vm_compute; reflexivity.
  - vm_compute. reflexivity.
  - vm_compute. reflexivity.
  - vm_compute. reflexivity.
  - vm_compute. reflexivity.
Qed.

Lemma honest_session_verifies_witness :
  exists result, let w := run sample_actions (opened sample_session) in
    s_state (w_session w) = VERIFIED /\ w_revealed w = [sample_reveal] /\ (snd <$> w_results w) = [result] /\ w_calls w = [].
Proof.
  destruct sample_honest as (d & result & Hrun). exists result.
  exact (honest_session_verifies (H := checksum_digest) (H0 := sample_pallas) (H1 := no_economic) (H2 := sample_unicode)
    sample_qualified sample_precontext (PBytes sample_nonce) (sample_runtime CANARY) (PInt 1000) (PInt 5000) PNone
    sample_session sample_nonce sample_frame sample_observed sample_proof_frame None None 100 200 300 400 sealed_envelope
    sample_accepted d sample_reveal result sample_session_new eq_refl Hrun).
Defined.
