(* ===== verification/Accumulator.v ===== *)
(** * The root-only trace accumulator ([verallm/proof_v3/accumulator.py])

    The ledger of one request on the side of the miner: it absorbs fixed-size
    receipts while the model runs, seals their roots before the nonce is known
    and refuses every change afterwards.  The fields of the object have the names
    of the source; a method is a function from the object to a result and the
    object it leaves, since a method that raises may already have changed a
    field.  [PostCommitOpeningTicketV3] is in [Reveal]. *)

From Stdlib Require Import ZArith Lia.
From Stdlib Require Import Strings.Byte.
From coqutil Require Import Word.LittleEndianList.
From stdpp Require Import base gmap list strings sorting.
From S2P Require Import Prelude Method Sha256 Merkle MerkleTheory Validate Wire Text Relation Graph Policy Spec Profile SpecGraph Payload Request Challenge TierAudit Verifier Reveal.

Import Verifier Relation Graph Spec SpecGraph Profile Reveal.
Local Open Scope Z_scope.

Module Accumulator.
Definition MAX_ROOT_ONLY_EXECUTION_RECORDS : Z := Z.shiftl 1 24.
Definition _ROOT_CONTEXT_DOMAIN : bytes := b_lit "VERATHOS/PROOF_V3/ROOT_ONLY/CONTEXT/SHA256".
Definition _PREFILL_INIT_DOMAIN : bytes := b_lit "VERATHOS/PROOF_V3/ROOT_ONLY/PREFILL_INIT/SHA256".
Definition _PREFILL_EVENT_DOMAIN : bytes := b_lit "VERATHOS/PROOF_V3/ROOT_ONLY/PREFILL_EVENT/SHA256".
Definition _PREFILL_SEAL_DOMAIN : bytes := b_lit "VERATHOS/PROOF_V3/ROOT_ONLY/PREFILL_SEAL/SHA256".
Definition _DECODE_INIT_DOMAIN : bytes := b_lit "VERATHOS/PROOF_V3/ROOT_ONLY/DECODE_INIT/SHA256".
Definition _DECODE_EVENT_DOMAIN : bytes := b_lit "VERATHOS/PROOF_V3/ROOT_ONLY/DECODE_EVENT/SHA256".
Definition _DECODE_SEAL_DOMAIN : bytes := b_lit "VERATHOS/PROOF_V3/ROOT_ONLY/DECODE_SEAL/SHA256".
Definition _EXECUTION_ROOT_DOMAIN : bytes := b_lit "VERATHOS/PROOF_V3/ROOT_ONLY/EXECUTION/SHA256".
Definition _CACHE_TABLE_ROOT_DOMAIN : bytes := b_lit "VERATHOS/PROOF_V3/ROOT_ONLY/CACHE_TABLES/SHA256".
Definition _CACHE_TABLE_INIT_DOMAIN : bytes := b_lit "VERATHOS/PROOF_V3/ROOT_ONLY/CACHE_TABLE_INIT/SHA256".
Definition _CACHE_TABLE_EVENT_DOMAIN : bytes := b_lit "VERATHOS/PROOF_V3/ROOT_ONLY/CACHE_TABLE_EVENT/SHA256".
Definition _CHUNK_RECORD_DOMAIN : bytes := b_lit "VERATHOS/PROOF_V3/ROOT_ONLY/CHUNK/SHA256".
Definition _CHUNK_CACHE_TABLE_ROOT_DOMAIN : bytes := b_lit "VERATHOS/PROOF_V3/ROOT_ONLY/CHUNK_CACHE_TABLES/SHA256".
Definition _STAGE_RECORD_DOMAIN : bytes := b_lit "VERATHOS/PROOF_V3/ROOT_ONLY/STAGE/SHA256".
Definition _CACHE_PAGE_RECORD_DOMAIN : bytes := b_lit "VERATHOS/PROOF_V3/ROOT_ONLY/CACHE_PAGE/SHA256".

(** ** Validators *)

(** With [nonzero], followed by the test that the digest is not the zero digest. *)
Definition _fixed32 (value : pyval) (name : string) (nonzero : bool) : res bytes :=
  fixed32 ProofV3Error value name nonzero.
Definition _u32 (value : pyval) (name : string) (positive : bool) : res Z := u32 value name positive.
Definition _u64 (value : pyval) (name : string) : res Z := u64 value name.

Definition _identifier (value : pyval) (name : string) : res bytes :=
  match value with
  | PStr s => _ ← reject (negb (identifier_match s)) (name +:+ " is not a canonical identifier"); ascii s
  | _ => raise ProofV3Error (name +:+ " is not a canonical identifier")
  end.

Definition _hash `{Digest} (domain : bytes) (parts : list bytes) : bytes := sha256 (domain ++ concat parts).

(** ** Names with codes

    The dictionaries [_CACHE_KIND_CODES], [_CACHE_ACCESS_CODES] and
    [_CHUNK_PHASE_CODES]. *)

Inductive CacheKind := KEY | VALUE | STATE.
Inductive CacheAccess := WRITE | READ | SNAPSHOT.
Inductive ChunkPhase := PREFILL_PHASE | DECODE_PHASE.

#[export] Instance kind_eq_dec : EqDecision CacheKind.
Proof. solve_decision. Defined.
#[export] Instance access_eq_dec : EqDecision CacheAccess.
Proof. solve_decision. Defined.
#[export] Instance phase_eq_dec : EqDecision ChunkPhase.
Proof. solve_decision. Defined.

Definition _CACHE_KIND_CODES (k : CacheKind) : Z := match k with KEY => 1 | VALUE => 2 | STATE => 3 end.
Definition _CACHE_ACCESS_CODES (a : CacheAccess) : Z := match a with WRITE => 1 | READ => 2 | SNAPSHOT => 3 end.
Definition _CHUNK_PHASE_CODES (p : ChunkPhase) : Z := match p with PREFILL_PHASE => 1 | DECODE_PHASE => 2 end.

(** The entry of a name in such a dictionary. *)
Definition named {A} (s : text) (names : list (string * A)) : option A :=
  snd <$> head (filter (fun '(n, _) => t_lit n = s) names).

Definition cache_kinds : list (string * CacheKind) := [("key", KEY); ("value", VALUE); ("state", STATE)]%string.
Definition cache_accesses : list (string * CacheAccess) :=
  [("write", WRITE); ("read", READ); ("snapshot", SNAPSHOT)]%string.
Definition chunk_phases : list (string * ChunkPhase) := [("prefill", PREFILL_PHASE); ("decode", DECODE_PHASE)]%string.

(** [isinstance(value, str) and value in codes] *)
Definition str_named {A} (value : pyval) (names : list (string * A)) (message : string) : res A :=
  match value with
  | PStr s => match named s names with Some a => Ok a | None => raise ProofV3Error message end
  | _ => raise ProofV3Error message
  end.

(** [value in codes] without the test of the type: a value with no hash is a
    [TypeError]. *)
Definition any_named {A} (value : pyval) (names : list (string * A)) (message : string) : res A :=
  if negb (hashable value) then raise TypeError "unhashable type" else str_named value names message.

(** ** Logical cache pages *)

Record LogicalKVPageAddressV3 := MkAddress {
  layer_index : Z;
  ad_cache_lease_digest : bytes;
  cache_table_id : text;
  ad_cache_kind : CacheKind;
  access_kind : CacheAccess;
  page_start : Z;
  ad_page_token_count : Z;
  sequence_length : Z;
  cache_version : Z;
  head_index : Z;
  channel_start : Z;
  channel_count : Z;
}.

Definition LogicalKVPageAddressV3_new (layer lease table kind access start tokens len version head channel channels : pyval)
    : res LogicalKVPageAddressV3 :=
  layer ← _u32 layer "layer_index" false;
  lease ← _fixed32 lease "cache_lease_digest" true;
  _ ← _identifier table "cache_table_id";
  kind ← str_named kind cache_kinds "cache_kind must be 'key', 'value', or 'state'";
  access ← str_named access cache_accesses "cache access_kind is not supported";
  start ← _u32 start "page_start" false;
  tokens ← _u32 tokens "page_token_count" true;
  len ← _u32 len "sequence_length" true;
  version ← _u64 version "cache_version";
  head ← _u32 head "head_index" false;
  channel ← _u32 channel "channel_start" false;
  channels ← _u32 channels "channel_count" true;
  _ ← reject (Z.shiftl 1 32 <? start + tokens) "logical cache page token range overflows";
  _ ← reject (len <? start + tokens) "logical cache page exceeds its sequence length";
  _ ← reject (Z.shiftl 1 32 <? channel + channels) "logical cache page channel range overflows";
  Ok (MkAddress layer lease (match table with PStr s => s | _ => [] end) kind access start tokens len version head
        channel channels).

Definition address_canonical_bytes (a : LogicalKVPageAddressV3) : res bytes :=
  table_id ← _identifier (PStr (cache_table_id a)) "cache_table_id";
  Ok (ad_cache_lease_digest a ++ le_split 1 (zlen table_id) ++ table_id
      ++ le_split 1 (_CACHE_KIND_CODES (ad_cache_kind a)) ++ le_split 1 (_CACHE_ACCESS_CODES (access_kind a))
      ++ pack_I (layer_index a) ++ pack_I (page_start a) ++ pack_I (ad_page_token_count a) ++ pack_I (sequence_length a)
      ++ pack_I (head_index a) ++ pack_I (channel_start a) ++ pack_I (channel_count a) ++ pack_Q (cache_version a)).

(** ** Chunks *)

Record ExecutionChunkCommitmentV3 := MkChunk {
  phase : ChunkPhase;
  chunk_index : Z;
  logical_token_start : Z;
  token_count : Z;
  ch_cache_lease_digest : bytes;
  entry_state_root : bytes;
  exit_state_root : bytes;
  linear_table_root : bytes;
  bridge_table_root : bytes;
  transition_table_root : bytes;
  ch_cache_table_root : bytes;
  sidecar_generation_digest : option bytes;
  scheduler_coverage_digest : option bytes;
}.

(** The pair of optional digests. *)
Definition sidecar_binding (generation coverage : pyval) : res (option bytes * option bytes) :=
  _ ← reject (xorb (is_none generation) (is_none coverage))
        "execution chunk must include both generation and scheduler coverage digests";
  if is_none generation then Ok (None, None)
  else
    g ← _fixed32 generation "execution chunk sidecar_generation_digest" false;
    c ← _fixed32 coverage "execution chunk scheduler_coverage_digest" false;
    _ ← reject (bool_decide (g = zero32)) "execution chunk sidecar_generation_digest must not be the zero digest";
    _ ← reject (bool_decide (c = zero32)) "execution chunk scheduler_coverage_digest must not be the zero digest";
    Ok (Some g, Some c).

Definition ExecutionChunkCommitmentV3_new (phase index start count lease entry exit linear bridge transition cache_table
    generation coverage : pyval) : res ExecutionChunkCommitmentV3 :=
  phase ← any_named phase chunk_phases "execution chunk phase is not supported";
  index ← _u32 index "execution chunk_index" false;
  start ← _u32 start "execution chunk logical_token_start" false;
  count ← _u32 count "execution chunk token_count" true;
  _ ← reject (Z.shiftl 1 32 <? start + count) "execution chunk logical token range overflows";
  lease ← _fixed32 lease "execution chunk cache_lease_digest" true;
  entry ← _fixed32 entry "execution chunk entry_state_root" true;
  exit ← _fixed32 exit "execution chunk exit_state_root" true;
  linear ← _fixed32 linear "execution chunk linear_table_root" true;
  bridge ← _fixed32 bridge "execution chunk bridge_table_root" true;
  transition ← _fixed32 transition "execution chunk transition_table_root" true;
  cache_table ← _fixed32 cache_table "execution chunk cache_table_root" true;
  '(g, c) ← sidecar_binding generation coverage;
  Ok (MkChunk phase index start count lease entry exit linear bridge transition cache_table g c).

Definition has_sidecar_scheduler_binding (c : ExecutionChunkCommitmentV3) : bool :=
  match sidecar_generation_digest c with Some _ => true | None => false end.

Definition sidecar_bytes (c : ExecutionChunkCommitmentV3) : res bytes :=
  match sidecar_generation_digest c with
  | None => Ok [x00]
  | Some generation =>
      match scheduler_coverage_digest c with
      | None => raise AssertionError ""
      | Some coverage => Ok ([x01] ++ generation ++ coverage)
      end
  end.

Definition chunk_canonical_bytes (c : ExecutionChunkCommitmentV3) : res bytes :=
  sidecar ← sidecar_bytes c;
  Ok (le_split 1 (_CHUNK_PHASE_CODES (phase c)) ++ pack_I (chunk_index c) ++ pack_I (logical_token_start c)
      ++ pack_I (token_count c) ++ ch_cache_lease_digest c ++ entry_state_root c ++ exit_state_root c
      ++ linear_table_root c ++ bridge_table_root c ++ transition_table_root c ++ ch_cache_table_root c ++ sidecar).

Definition chunk_digest `{Digest} (c : ExecutionChunkCommitmentV3) : res bytes :=
  encoded ← chunk_canonical_bytes c;
  Ok (_hash _CHUNK_RECORD_DOMAIN [encoded]).

(** ** The sealed commitment *)

Record ExecutionAccumulatorCommitmentV3 := MkCommitment {
  ac_static_manifest_digest : bytes;
  ac_execution_profile_digest : bytes;
  ac_precommit_context_digest : bytes;
  ac_prompt_token_root : bytes;
  ac_sampler_config_digest : bytes;
  ac_cache_lease_digest : bytes;
  ac_request_digest : bytes;
  ac_output_token_root : bytes;
  ac_output_stream_digest : bytes;
  ac_execution_root : bytes;
  ac_prefill_root : bytes;
  ac_cache_table_root : bytes;
  ac_context_token_count : Z;
  ac_decode_token_count : Z;
  ac_cache_epoch : Z;
}.

(** [ProofV3CommitmentEnvelope(static_manifest_digest=self.static_manifest_digest, ...)] *)
Definition envelope_of (c : ExecutionAccumulatorCommitmentV3) : res Payload.ProofV3CommitmentEnvelope :=
  Payload.ProofV3CommitmentEnvelope_new (PBytes (ac_static_manifest_digest c)) (PBytes (ac_execution_profile_digest c))
    (PBytes (ac_precommit_context_digest c)) (PBytes (ac_prompt_token_root c)) (PBytes (ac_sampler_config_digest c))
    (PBytes (ac_cache_lease_digest c)) (PBytes (ac_request_digest c)) (PBytes (ac_output_token_root c))
    (PBytes (ac_output_stream_digest c)) (PBytes (ac_execution_root c)) (PBytes (ac_prefill_root c))
    (PBytes (ac_cache_table_root c)) (PInt (ac_context_token_count c)) (PInt (ac_decode_token_count c))
    (PInt (ac_cache_epoch c)).

(** The constructor, on fields of the right types. *)
Definition ExecutionAccumulatorCommitmentV3_new (c : ExecutionAccumulatorCommitmentV3)
    : res ExecutionAccumulatorCommitmentV3 :=
  _ ← envelope_of c;
  Ok c.

Definition bind `{Digest} (c : ExecutionAccumulatorCommitmentV3) (profile : ExecutionSecurityProfileV3)
    : res Payload.ProofV3CommitmentEnvelope :=
  _ ← reject (differ (static_manifest_digest profile) (ac_static_manifest_digest c))
        "sealed accumulator has an unexpected static manifest";
  digest ← profile_digest profile;
  _ ← reject (differ digest (ac_execution_profile_digest c)) "sealed accumulator has an unexpected execution profile";
  envelope_of c.

(** ** The object *)

Inductive AccumulatorState := NEW | PREFILL | DECODE | SEALED | FROZEN | RELEASED.
Inductive CaptureMode := CHUNKS | RECORDS.

#[export] Instance accumulator_state_eq_dec : EqDecision AccumulatorState.
Proof. solve_decision. Defined.
#[export] Instance capture_mode_eq_dec : EqDecision CaptureMode.
Proof. solve_decision. Defined.

Definition state_name (st : AccumulatorState) : string :=
  match st with
  | NEW => "new" | PREFILL => "prefill" | DECODE => "decode" | SEALED => "sealed" | FROZEN => "frozen"
  | RELEASED => "released"
  end.

Definition phase_state (p : ChunkPhase) : AccumulatorState :=
  match p with PREFILL_PHASE => PREFILL | DECODE_PHASE => DECODE end.

Record RootOnlyExecutionTraceAccumulatorV3 := MkAccumulator {
  _state : AccumulatorState;
  _context : option bytes;
  _prefill_chain : option bytes;
  _decode_chain : option bytes;
  _prefill_root : option bytes;
  _sealed : option ExecutionAccumulatorCommitmentV3;
  _prefill_record_count : Z;
  _decode_record_count : Z;
  _cache_epoch : Z;
  _context_token_count : Z;
  _max_verified_context_tokens : Z;
  _max_verified_decode_tokens : Z;
  _precommit_context : option Request.PreExecutionRequestContextV3;
  _prefill_max_logical_token_exclusive : Z;
  _decode_max_logical_token_exclusive : Z;
  _cache_table_bindings : gmap text (Z * CacheKind);
  _cache_page_token_count : Z;
  _cache_max_tokens : Z;
  _cache_latest_versions : gmap (Z * text) Z;
  _cache_final_lengths : gmap (Z * text) Z;
  _cache_written_tables : gset (Z * text);
  _cache_table_chains : gmap (Z * text) bytes;
  _profile : option ExecutionSecurityProfileV3;
  _capture_mode : option CaptureMode;
  _next_chunk_index : Z;
  _next_chunk_token_start : Z;
  _initial_execution_state_anchor : option bytes;
  _last_chunk_exit_state_root : option bytes;
  _last_chunk_cache_table_root : option bytes;
  _chunk_sidecar_binding_mode : option bool;
  _chunk_sidecar_generation_digest : option bytes;
}.
Abbreviation accumulator := RootOnlyExecutionTraceAccumulatorV3.
Notation method := (Method.method RootOnlyExecutionTraceAccumulatorV3).

(** The fields that [__init__] and [release] set, in a given state. *)
Definition blank (st : AccumulatorState) : accumulator :=
  MkAccumulator st None None None None None 0 0 0 0 0 0 None 0 0 ∅ 0 0 ∅ ∅ ∅ ∅ None None 0 0 None None None None None.

Definition __init__ : accumulator := blank NEW.

(** [self.<field> = value], for each field: [fields s] is [s], written out. *)
Definition fields (s : accumulator) : accumulator :=
  MkAccumulator (_state s) (_context s) (_prefill_chain s) (_decode_chain s) (_prefill_root s) (_sealed s)
    (_prefill_record_count s) (_decode_record_count s) (_cache_epoch s) (_context_token_count s)
    (_max_verified_context_tokens s) (_max_verified_decode_tokens s) (_precommit_context s)
    (_prefill_max_logical_token_exclusive s) (_decode_max_logical_token_exclusive s) (_cache_table_bindings s)
    (_cache_page_token_count s) (_cache_max_tokens s) (_cache_latest_versions s) (_cache_final_lengths s)
    (_cache_written_tables s) (_cache_table_chains s) (_profile s) (_capture_mode s) (_next_chunk_index s)
    (_next_chunk_token_start s) (_initial_execution_state_anchor s) (_last_chunk_exit_state_root s)
    (_last_chunk_cache_table_root s) (_chunk_sidecar_binding_mode s) (_chunk_sidecar_generation_digest s).

Ltac set_field field :=
  let all := eval unfold fields in fields in
  match eval pattern field in all with
  | ?f _ => let body := eval cbv beta in (fun value => f (fun _ => value)) in exact body
  end.
#[local] Notation setter field := ltac:(set_field field) (only parsing).

Definition set_state := setter _state.
Definition set_context := setter _context.
Definition set_prefill_chain := setter _prefill_chain.
Definition set_decode_chain := setter _decode_chain.
Definition set_prefill_root := setter _prefill_root.
Definition set_sealed := setter _sealed.
Definition set_prefill_record_count := setter _prefill_record_count.
Definition set_decode_record_count := setter _decode_record_count.
Definition set_cache_epoch := setter _cache_epoch.
Definition set_context_token_count := setter _context_token_count.
Definition set_max_verified_context_tokens := setter _max_verified_context_tokens.
Definition set_max_verified_decode_tokens := setter _max_verified_decode_tokens.
Definition set_precommit_context := setter _precommit_context.
Definition set_prefill_max_logical_token_exclusive := setter _prefill_max_logical_token_exclusive.
Definition set_decode_max_logical_token_exclusive := setter _decode_max_logical_token_exclusive.
Definition set_cache_table_bindings := setter _cache_table_bindings.
Definition set_cache_page_token_count := setter _cache_page_token_count.
Definition set_cache_max_tokens := setter _cache_max_tokens.
Definition set_cache_latest_versions := setter _cache_latest_versions.
Definition set_cache_final_lengths := setter _cache_final_lengths.
Definition set_cache_written_tables := setter _cache_written_tables.
Definition set_cache_table_chains := setter _cache_table_chains.
Definition set_profile := setter _profile.
Definition set_capture_mode := setter _capture_mode.
Definition set_next_chunk_index := setter _next_chunk_index.
Definition set_next_chunk_token_start := setter _next_chunk_token_start.
Definition set_initial_execution_state_anchor := setter _initial_execution_state_anchor.
Definition set_last_chunk_exit_state_root := setter _last_chunk_exit_state_root.
Definition set_last_chunk_cache_table_root := setter _last_chunk_cache_table_root.
Definition set_chunk_sidecar_binding_mode := setter _chunk_sidecar_binding_mode.
Definition set_chunk_sidecar_generation_digest := setter _chunk_sidecar_generation_digest.

(** ** Its methods *)

Definition check (b : bool) (message : string) : method unit := do (reject b message).
Arguments check b message%_string_scope.

Definition set (f : accumulator -> accumulator) : method unit := modify f.

Definition _require_state (expected : list AccumulatorState) : method unit :=
  state ← get _state;
  check (negb (bool_decide (state ∈ expected)))
    ("root-only accumulator is in '" +:+ state_name state +:+ "' state, expected "
     +:+ String.concat ", " (state_name <$> expected)).

Definition _require_capture_mode (mode : CaptureMode) : method unit :=
  current ← get _capture_mode;
  match current with
  | None => set (set_capture_mode (Some mode))
  | Some current =>
      check (negb (bool_decide (current = mode)))
        "root-only accumulator cannot mix chunk receipts with per-record capture"
  end.

Section methods.
Context `{Digest}.

Definition _append (record_digest : bytes) : method unit :=
  _ ← do (_fixed32 (PBytes record_digest) "execution record digest" false);
  state ← get _state;
  match state with
  | PREFILL =>
      count ← get _prefill_record_count;
      _ ← check (MAX_ROOT_ONLY_EXECUTION_RECORDS <=? count) "prefill root-only record count is out of range";
      chain ← get _prefill_chain;
      chain ← assert_some chain;
      _ ← set (set_prefill_chain (Some (_hash _PREFILL_EVENT_DOMAIN [chain; record_digest])));
      set (set_prefill_record_count (count + 1))
  | DECODE =>
      count ← get _decode_record_count;
      _ ← check (MAX_ROOT_ONLY_EXECUTION_RECORDS <=? count) "decode root-only record count is out of range";
      chain ← get _decode_chain;
      chain ← assert_some chain;
      _ ← set (set_decode_chain (Some (_hash _DECODE_EVENT_DOMAIN [chain; record_digest])));
      set (set_decode_record_count (count + 1))
  | _ => throw (Exc ProofV3Error "execution records must be appended before sealing")
  end.

(** *** [begin] *)

Definition add_family (bindings : gmap text (Z * CacheKind)) (family : LayerCacheRelationV3)
    : res (gmap text (Z * CacheKind)) :=
  if bool_decide (cache_kind family = ATTENTION_KV) then
    match key_tensor_id family, value_tensor_id family with
    | Some key, Some value =>
        Ok (<[value := (cache_layer_index family, VALUE)]> (<[key := (cache_layer_index family, KEY)]> bindings))
    | _, _ => raise AssertionError ""
    end
  else Ok (foldl (fun m table_id => <[table_id := (cache_layer_index family, STATE)]> m) bindings (state_tensor_ids family)).

Definition initial_chain (context : bytes) (binding : text * (Z * CacheKind)) : res (Z * text * bytes) :=
  let '(table_id, (layer_index, _)) := binding in
  encoded ← _identifier (PStr table_id) "cache_table_id";
  Ok ((layer_index, table_id), _hash _CACHE_TABLE_INIT_DOMAIN [context; pack_I layer_index; encoded]).

Definition begin (profile : ExecutionSecurityProfileV3) (precommit_context : Request.PreExecutionRequestContextV3)
    (cache_epoch : pyval) : method unit :=
  _ ← _require_state [NEW];
  _ ← do (require_hard_execution_capability profile);
  _ ← check (negb (bool_decide (recursive_accumulator_abi_id (relation_spec profile) = RECURSIVE_CHUNK_ACCUMULATOR_ABI_V3)))
        "root-only accumulator has an unsupported chunk ABI";
  epoch ← do (_u64 cache_epoch "cache_epoch");
  digest ← do (profile_digest profile);
  _ ← check (differ (Request.static_manifest_digest precommit_context) (static_manifest_digest profile))
        "precommit context has an unexpected static manifest";
  _ ← check (differ (Request.execution_profile_digest precommit_context) digest)
        "precommit context has an unexpected execution profile";
  _ ← check (max_verified_context_tokens profile <? Request.context_token_count precommit_context)
        "context length exceeds signed profile limit";
  precommit_digest ← do (Request.precontext_digest precommit_context);
  let context := _hash _ROOT_CONTEXT_DOMAIN [digest; precommit_digest; pack_Q epoch] in
  _ ← set (set_context (Some context));
  _ ← set (set_prefill_chain (Some (_hash _PREFILL_INIT_DOMAIN [context])));
  _ ← set (set_cache_epoch epoch);
  _ ← set (set_max_verified_context_tokens (max_verified_context_tokens profile));
  _ ← set (set_max_verified_decode_tokens (max_verified_decode_tokens profile));
  _ ← set (set_precommit_context (Some precommit_context));
  anchor ← do (Request.initial_execution_state_anchor precommit_context);
  _ ← set (set_initial_execution_state_anchor (Some anchor));
  _ ← set (set_profile (Some profile));
  let cache := cache (relation_spec profile) in
  bindings ← do (fold_res add_family ∅ (layer_caches cache));
  _ ← check (bool_decide (bindings = ∅)) "signed cache relation has no logical tables";
  _ ← set (set_cache_table_bindings bindings);
  _ ← set (set_cache_page_token_count (page_token_count cache));
  _ ← set (set_cache_max_tokens (max_cache_tokens cache));
  _ ← set (set_cache_latest_versions ∅);
  _ ← set (set_cache_final_lengths ∅);
  _ ← set (set_cache_written_tables ∅);
  chains ← do (mapR (initial_chain context) (map_to_list bindings));
  _ ← set (set_cache_table_chains (list_to_map chains));
  set (set_state PREFILL).

(** *** [accumulate_stage] *)

Definition accumulate_stage (stage_id token_index stage_root : pyval) : method unit :=
  _ ← _require_state [PREFILL; DECODE];
  _ ← _require_capture_mode RECORDS;
  stage ← do (_identifier stage_id "stage_id");
  token ← do (_u32 token_index "token_index" false);
  root ← do (_fixed32 stage_root "stage_root" false);
  let logical_end := token + 1 in
  self ← get id;
  _ ← (if bool_decide (_state self = PREFILL) then
         _ ← check (_max_verified_context_tokens self <? logical_end) "prefill stage index exceeds signed profile limit";
         set (set_prefill_max_logical_token_exclusive (Z.max (_prefill_max_logical_token_exclusive self) logical_end))
       else
         _ ← check (token <? _context_token_count self) "decode stage index precedes the prompt boundary";
         _ ← check (_max_verified_context_tokens self + _max_verified_decode_tokens self <? logical_end)
               "decode stage index exceeds signed profile limit";
         set (set_decode_max_logical_token_exclusive (Z.max (_decode_max_logical_token_exclusive self) logical_end)));
  _append (_hash _STAGE_RECORD_DOMAIN [pack_I token; le_split 1 (zlen stage); stage; root]).

(** *** [accumulate_chunk] *)

(** The sidecar mode and generation: the first chunk fixes them. *)
Definition require_sidecar_binding (chunk : ExecutionChunkCommitmentV3) : method unit :=
  let has_sidecar_binding := has_sidecar_scheduler_binding chunk in
  mode ← get _chunk_sidecar_binding_mode;
  _ ← match mode with
      | None => set (set_chunk_sidecar_binding_mode (Some has_sidecar_binding))
      | Some mode =>
          check (xorb mode has_sidecar_binding) "execution chunks cannot mix sidecar-bound and unbound receipts"
      end;
  if has_sidecar_binding then
    generation ← assert_some (sidecar_generation_digest chunk);
    known ← get _chunk_sidecar_generation_digest;
    match known with
    | None => set (set_chunk_sidecar_generation_digest (Some generation))
    | Some known => check (differ known generation) "execution chunks cannot mix sidecar request generations"
    end
  else mret tt.

(** The place of the chunk in the request; returns where it ends. *)
Definition place_chunk (chunk : ExecutionChunkCommitmentV3) : method Z :=
  self ← get id;
  _ ← check (negb (bool_decide (phase_state (phase chunk) = _state self)))
        "execution chunk phase does not match the lifecycle";
  _ ← check (negb (chunk_index chunk =? _next_chunk_index self)) "execution chunks must have contiguous indices";
  _ ← check (negb (logical_token_start chunk =? _next_chunk_token_start self))
        "execution chunks must have contiguous token ranges";
  context ← assert_some (_precommit_context self);
  _ ← check (differ (ch_cache_lease_digest chunk) (Request.cache_lease_digest context))
        "execution chunk has an unexpected cache lease";
  profile ← assert_some (_profile self);
  let maximum := if bool_decide (phase chunk = PREFILL_PHASE) then prefill_chunk_tokens (relation_spec profile)
                 else decode_chunk_tokens (relation_spec profile) in
  _ ← check (maximum <? token_count chunk) "execution chunk exceeds the signed chunk limit";
  let logical_end := logical_token_start chunk + token_count chunk in
  _ ← (if bool_decide (phase chunk = PREFILL_PHASE) then
         _ ← check (Request.context_token_count context <? logical_end)
               "prefill chunk exceeds the validator prompt boundary";
         set (set_prefill_max_logical_token_exclusive logical_end)
       else
         _ ← check (logical_token_start chunk <? _context_token_count self) "decode chunk precedes the prompt boundary";
         _ ← check (_context_token_count self + _max_verified_decode_tokens self <? logical_end)
               "decode chunk exceeds the signed profile limit";
         set (set_decode_max_logical_token_exclusive logical_end));
  mret logical_end.

(** The chunk starts where the previous one, or the request, left the state. *)
Definition require_state_root (chunk : ExecutionChunkCommitmentV3) : method unit :=
  self ← get id;
  match _last_chunk_exit_state_root self with
  | None =>
      anchor ← assert_some (_initial_execution_state_anchor self);
      check (differ (entry_state_root chunk) anchor)
        "first prefill chunk entry state is not anchored to validator context"
  | Some last => check (differ (entry_state_root chunk) last) "execution chunk state roots are discontinuous"
  end.

Definition accumulate_chunk (chunk : ExecutionChunkCommitmentV3) : method unit :=
  _ ← _require_state [PREFILL; DECODE];
  _ ← _require_capture_mode CHUNKS;
  _ ← require_sidecar_binding chunk;
  logical_end ← place_chunk chunk;
  _ ← require_state_root chunk;
  digest ← do (chunk_digest chunk);
  _ ← _append digest;
  next ← get _next_chunk_index;
  _ ← set (set_next_chunk_index (next + 1));
  _ ← set (set_next_chunk_token_start logical_end);
  _ ← set (set_last_chunk_exit_state_root (Some (exit_state_root chunk)));
  set (set_last_chunk_cache_table_root (Some (ch_cache_table_root chunk))).

(** *** [accumulate_kv_pages] *)

(** The checks of a page against the signed tables; returns the key of its table. *)
Definition check_address (address : LogicalKVPageAddressV3) : method (Z * text) :=
  self ← get id;
  context ← assert_some (_precommit_context self);
  _ ← check (differ (ad_cache_lease_digest address) (Request.cache_lease_digest context))
        "logical K/V page has an unexpected cache lease";
  expected_table ← match _cache_table_bindings self !! cache_table_id address with
                   | Some expected => mret expected
                   | None => throw (Exc ProofV3Error "logical cache page has an undeclared cache table")
                   end;
  _ ← check (negb (bool_decide (expected_table = (layer_index address, ad_cache_kind address))))
        "logical cache page does not match its signed table";
  _ ← check (_cache_page_token_count self <? ad_page_token_count address)
        "logical cache page exceeds the signed page size";
  _ ← check (negb (page_start address mod _cache_page_token_count self =? 0))
        "logical cache page start is not canonically aligned";
  _ ← check (_cache_max_tokens self <? sequence_length address)
        "logical cache page exceeds the signed cache capacity";
  mret (layer_index address, cache_table_id address).

(** The versions, lengths and chain of the table of a page. *)
Definition record_page (version_key : Z * text) (address : LogicalKVPageAddressV3) (root : bytes) : method unit :=
  self ← get id;
  let prior_version := _cache_latest_versions self !! version_key in
  _ ← check (match prior_version with Some prior => cache_version address <? prior | None => false end)
        "logical cache page version regresses";
  _ ← check (negb (bool_decide (access_kind address = WRITE))
             && negb (bool_decide (version_key ∈ _cache_written_tables self)))
        "logical cache read has no prior signed table write";
  _ ← set (set_cache_latest_versions
             (<[version_key := Z.max (cache_version address) (default (-1) prior_version)]> (_cache_latest_versions self)));
  _ ← (if bool_decide (access_kind address = WRITE) then
         _ ← set (set_cache_written_tables ({[version_key]} ∪ _cache_written_tables self));
         set (set_cache_final_lengths
                (<[version_key := Z.max (sequence_length address) (default 0 (_cache_final_lengths self !! version_key))]>
                   (_cache_final_lengths self)))
       else mret tt);
  chain ← do (index (_cache_table_chains self) version_key);
  encoded ← do (address_canonical_bytes address);
  set (set_cache_table_chains
         (<[version_key := _hash _CACHE_TABLE_EVENT_DOMAIN [chain; encoded; root]]> (_cache_table_chains self))).

Definition accumulate_kv_pages (address : LogicalKVPageAddressV3) (page_root : pyval) : method unit :=
  _ ← _require_state [PREFILL; DECODE];
  _ ← _require_capture_mode RECORDS;
  version_key ← check_address address;
  root ← do (_fixed32 page_root "page_root" false);
  _ ← record_page version_key address root;
  let logical_end := sequence_length address in
  self ← get id;
  _ ← (if bool_decide (_state self = PREFILL) then
         _ ← check (_max_verified_context_tokens self <? logical_end) "prefill K/V range exceeds signed profile limit";
         set (set_prefill_max_logical_token_exclusive (Z.max (_prefill_max_logical_token_exclusive self) logical_end))
       else
         _ ← check (_max_verified_context_tokens self + _max_verified_decode_tokens self <? logical_end)
               "decode K/V range exceeds signed profile limit";
         set (set_decode_max_logical_token_exclusive (Z.max (_decode_max_logical_token_exclusive self) logical_end)));
  encoded ← do (address_canonical_bytes address);
  _append (_hash _CACHE_PAGE_RECORD_DOMAIN [encoded; root]).

(** *** [seal_prefill] *)

Definition seal_prefill (context_token_count : pyval) : method bytes :=
  _ ← _require_state [PREFILL];
  context_count ← do (_u32 context_token_count "context_token_count" true);
  self ← get id;
  _ ← check (_max_verified_context_tokens self <? context_count) "context length exceeds signed profile limit";
  request ← assert_some (_precommit_context self);
  _ ← check (negb (context_count =? Request.context_token_count request))
        "context length differs from validator precommit context";
  _ ← (if negb (bool_decide (_capture_mode self = Some CHUNKS)) then
         throw (Exc ProofV3UnavailableError
                  "per-record capture has no signed complete coverage rule; bounded chunks are required")
       else mret tt);
  _ ← check (bool_decide (_capture_mode self = Some CHUNKS)
             && (negb (_next_chunk_token_start self =? context_count)
                 || negb (_prefill_max_logical_token_exclusive self =? context_count)))
        "prefill chunks do not cover the validator prompt contiguously";
  _ ← check (context_count <? _prefill_max_logical_token_exclusive self)
        "prefill record index exceeds declared context length";
  _ ← check (_prefill_record_count self =? 0) "prefill root cannot be sealed without records";
  context ← assert_some (_context self);
  chain ← assert_some (_prefill_chain self);
  let root := _hash _PREFILL_SEAL_DOMAIN [context; pack_I context_count ++ pack_Q (_prefill_record_count self); chain] in
  _ ← set (set_prefill_root (Some root));
  _ ← set (set_context_token_count context_count);
  _ ← (if bool_decide (_capture_mode self = Some CHUNKS) then set (set_decode_max_logical_token_exclusive context_count)
       else mret tt);
  _ ← set (set_decode_chain (Some (_hash _DECODE_INIT_DOMAIN [context; root])));
  _ ← set (set_state DECODE);
  mret root.

(** *** [seal_decode] *)

(** One table of the inventory. *)
Definition table_entry (self : accumulator) (binding : text * (Z * CacheKind)) : res bytes :=
  let '(table_id, (layer_index, kind)) := binding in
  encoded ← _identifier (PStr table_id) "cache_table_id";
  let key := (layer_index, table_id) in
  chain ← index (_cache_table_chains self) key;
  Ok (le_split 1 (zlen encoded) ++ encoded ++ pack_I layer_index ++ le_split 1 (_CACHE_KIND_CODES kind)
      ++ pack_I (default 0 (_cache_final_lengths self !! key)) ++ pack_Q (default 0 (_cache_latest_versions self !! key))
      ++ le_split 1 (if bool_decide (key ∈ _cache_written_tables self) then 1 else 0) ++ chain).

(** [sorted(self._cache_table_bindings.items())]: the names are distinct. *)
Definition name_le {A} (a b : text * A) : Prop := text_ltb b.1 a.1 = false.
#[local] Instance name_le_dec {A} : RelDecision (@name_le A) := fun a b => decide (text_ltb b.1 a.1 = false).
Definition sorted_bindings (self : accumulator) : list (text * (Z * CacheKind)) :=
  merge_sort name_le (map_to_list (_cache_table_bindings self)).

Definition _seal_cache_table_root : method bytes :=
  self ← get id;
  context ← assert_some (_context self);
  if bool_decide (_capture_mode self = Some CHUNKS) then
    match _last_chunk_cache_table_root self with
    | None => throw (Exc ProofV3Error "chunk trace has no final cache-table root")
    | Some last => mret (_hash _CHUNK_CACHE_TABLE_ROOT_DOMAIN [context; pack_I (_next_chunk_index self); last])
    end
  else
    entries ← do (mapR (table_entry self) (sorted_bindings self));
    mret (_hash _CACHE_TABLE_ROOT_DOMAIN
            [context; pack_I (Z.of_nat (size (_cache_table_bindings self))); concat entries]).

(** The tests of [seal_decode] on the records of the phase. *)
Definition check_decode_records (self : accumulator) (decode_count : Z) : method unit :=
  let expected := _context_token_count self + decode_count in
  _ ← (if negb (bool_decide (_capture_mode self = Some CHUNKS)) then
         throw (Exc ProofV3UnavailableError
                  "per-record capture has no signed complete coverage rule; bounded chunks are required")
       else mret tt);
  _ ← check (bool_decide (_capture_mode self = Some CHUNKS)
             && (negb (_next_chunk_token_start self =? expected)
                 || negb (_decode_max_logical_token_exclusive self =? expected)))
        "decode chunks do not cover the observed output contiguously";
  _ ← check (expected <? _decode_max_logical_token_exclusive self)
        "decode record index exceeds declared sequence length";
  if decode_count =? 0 then
    check (negb (_decode_record_count self =? 0)
           || (_context_token_count self <? _decode_max_logical_token_exclusive self))
      "empty decode output must not contain decode-stage records"
  else check (_decode_record_count self =? 0) "decode root cannot be sealed without records".

Definition seal_decode (decode_token_count : pyval) (output_binding : Request.ExecutionOutputBindingV3)
    : method ExecutionAccumulatorCommitmentV3 :=
  _ ← _require_state [DECODE];
  decode_count ← do (_u32 decode_token_count "decode_token_count" false);
  self ← get id;
  _ ← check (_max_verified_decode_tokens self <? decode_count) "decode length exceeds signed profile limit";
  _ ← check (negb (decode_count =? Request.decode_token_count output_binding))
        "decode length differs from output token binding";
  _ ← check_decode_records self decode_count;
  context ← assert_some (_context self);
  prefill_root ← assert_some (_prefill_root self);
  chain ← assert_some (_decode_chain self);
  request ← assert_some (_precommit_context self);
  request_binding ← do (Request.bind_output request output_binding);
  let decode_root := _hash _DECODE_SEAL_DOMAIN
                       [context; pack_I decode_count ++ pack_Q (_decode_record_count self); chain] in
  let execution_root := _hash _EXECUTION_ROOT_DOMAIN
                          [context; prefill_root; decode_root;
                           pack_Q (_prefill_record_count self) ++ pack_Q (_decode_record_count self)] in
  cache_table_root ← _seal_cache_table_root;
  precommit_digest ← do (Request.precontext_digest request);
  sealed ← do (ExecutionAccumulatorCommitmentV3_new
                 (MkCommitment (Request.static_manifest_digest request) (Request.execution_profile_digest request)
                    precommit_digest (Request.prompt_token_root request) (Request.sampler_config_digest request)
                    (Request.cache_lease_digest request) (Request.rb_request_digest request_binding)
                    (Request.output_token_root output_binding) (Request.output_stream_digest output_binding)
                    execution_root prefill_root cache_table_root (_context_token_count self) decode_count
                    (_cache_epoch self)));
  _ ← set (set_sealed (Some sealed));
  _ ← set (set_state SEALED);
  mret sealed.

(** *** After sealing *)

Definition freeze_precommit : method unit :=
  _ ← _require_state [SEALED];
  set (set_state FROZEN).

(** The tests that the ticket discloses the nonce of this very envelope. *)
Definition open_postnonce (ticket : PostCommitOpeningTicketV3) : method bytes :=
  _ ← _require_state [FROZEN];
  self ← get id;
  sealed ← assert_some (_sealed self);
  request ← assert_some (_precommit_context self);
  _ ← check (differ (ot_proof_challenge_id ticket) (Request.proof_challenge_id request))
        "postcommit opening ticket has an unexpected challenge";
  _ ← check (differ (ot_precommit_context_digest ticket) (ac_precommit_context_digest sealed))
        "postcommit opening ticket has an unexpected precommit";
  _ ← check (differ (ot_execution_profile_digest ticket) (ac_execution_profile_digest sealed))
        "postcommit opening ticket has an unexpected profile";
  _ ← check (differ (ot_cache_lease_digest ticket) (ac_cache_lease_digest sealed))
        "postcommit opening ticket has an unexpected cache lease";
  profile ← assert_some (_profile self);
  envelope ← do (bind sealed profile);
  _ ← check (differ (ot_commitment_envelope_digest ticket) (Payload.envelope_digest envelope))
        "postcommit opening ticket has an unexpected envelope";
  throw (Exc ProofV3UnavailableError "root-only accumulator has no retained post-nonce witness openings").

Definition release : method unit :=
  state ← get _state;
  if bool_decide (state = RELEASED) then mret tt
  else set (fun _ => blank RELEASED).
End methods.

(** ** The interface and its implementations *)

(** The abstract base class. *)
Class ExecutionTraceAccumulatorV3 (S : Type) := {
  do_begin : ExecutionSecurityProfileV3 -> Request.PreExecutionRequestContextV3 -> pyval -> Method.method S unit;
  do_accumulate_stage : pyval -> pyval -> pyval -> Method.method S unit;
  do_accumulate_chunk : ExecutionChunkCommitmentV3 -> Method.method S unit;
  do_accumulate_kv_pages : LogicalKVPageAddressV3 -> pyval -> Method.method S unit;
  do_seal_prefill : pyval -> Method.method S bytes;
  do_seal_decode : pyval -> Request.ExecutionOutputBindingV3 -> Method.method S ExecutionAccumulatorCommitmentV3;
  do_freeze_precommit : Method.method S unit;
  do_open_postnonce : PostCommitOpeningTicketV3 -> Method.method S bytes;
  do_release : Method.method S unit;
}.

#[export] Instance root_only_accumulator `{Digest} : ExecutionTraceAccumulatorV3 accumulator := {|
  do_begin := begin;
  do_accumulate_stage := accumulate_stage;
  do_accumulate_chunk := accumulate_chunk;
  do_accumulate_kv_pages := accumulate_kv_pages;
  do_seal_prefill := seal_prefill;
  do_seal_decode := seal_decode;
  do_freeze_precommit := freeze_precommit;
  do_open_postnonce := open_postnonce;
  do_release := release;
|}.

(** The implementation that is not implemented has no state. *)
Definition _raise {A} : Method.method unit A :=
  throw (Exc ProofV3UnavailableError "proof-v3 runtime execution accumulator is not implemented").

#[export] Instance UnavailableExecutionTraceAccumulatorV3 : ExecutionTraceAccumulatorV3 unit := {|
  do_begin _ _ _ := _raise;
  do_accumulate_stage _ _ _ := _raise;
  do_accumulate_chunk _ := _raise;
  do_accumulate_kv_pages _ _ := _raise;
  do_seal_prefill _ := _raise;
  do_seal_decode _ _ := _raise;
  do_freeze_precommit := _raise;
  do_open_postnonce _ := _raise;
  do_release := _raise;
|}.
End Accumulator.
