(* ===== verification/Ledger.v ===== *)
(** * What an accumulator promises

    The abstract machine that [RootOnlyExecutionTraceAccumulatorV3] implements:
    its state is the list of chunks it accepted for a request, the roots are
    functions of that list, and a chunk is accepted only where the list ends. *)

From Stdlib Require Import ZArith Lia.
From Stdlib Require Import Strings.Byte.
From coqutil Require Import Word.LittleEndianList.
From stdpp Require Import base gmap list strings.
From S2P Require Import Prelude Method Sha256 Merkle MerkleTheory Validate Wire Text Relation Graph Policy Spec Profile SpecGraph SpecJsonTheory Payload Request RequestTheory Challenge TierAudit Verifier Reveal Accumulator.

Import Relation Graph Spec Profile Reveal Accumulator.
Local Open Scope Z_scope.

Abbreviation chunk := ExecutionChunkCommitmentV3.

(** ** Calls

    The operations of the object with their arguments, and what they return. *)

Inductive call :=
| Begin (profile : ExecutionSecurityProfileV3) (context : Request.PreExecutionRequestContextV3) (epoch : pyval)
| Stage (stage_id token_index stage_root : pyval)
| Chunk (c : chunk)
| Pages (address : LogicalKVPageAddressV3) (root : pyval)
| SealPrefill (count : pyval)
| SealDecode (count : pyval) (output : Request.ExecutionOutputBindingV3)
| Freeze
| Open (ticket : PostCommitOpeningTicketV3)
| Release.

Inductive answer :=
| Done
| Root (root : bytes)
| Commitment (sealed : ExecutionAccumulatorCommitmentV3).

Section program.
Context {S : Type}.

Definition answering {A} (f : A -> answer) (m : Method.method S A) : Method.method S answer := a ← m; mret (f a).

Definition perform `{ExecutionTraceAccumulatorV3 S} (c : call) : Method.method S answer :=
  match c with
  | Begin profile context epoch => answering (fun _ => Done) (do_begin profile context epoch)
  | Stage id token root => answering (fun _ => Done) (do_accumulate_stage id token root)
  | Chunk c => answering (fun _ => Done) (do_accumulate_chunk c)
  | Pages address root => answering (fun _ => Done) (do_accumulate_kv_pages address root)
  | SealPrefill count => answering Root (do_seal_prefill count)
  | SealDecode count output => answering Commitment (do_seal_decode count output)
  | Freeze => answering (fun _ => Done) do_freeze_precommit
  | Open ticket => answering Root (do_open_postnonce ticket)
  | Release => answering (fun _ => Done) do_release
  end.

(** A program calls the methods one after the other, whatever they raise. *)
Fixpoint run `{ExecutionTraceAccumulatorV3 S} (calls : list call) (s : S) : list (call * res answer) * S :=
  match calls with
  | [] => ([], s)
  | c :: calls => let '(r, s) := perform c s in let '(log, s) := run calls s in ((c, r) :: log, s)
  end.
End program.

(** Objects come out of their constructors. *)
Definition remake_chunk (c : chunk) : res chunk :=
  ExecutionChunkCommitmentV3_new (PStr (match phase c with PREFILL_PHASE => t_lit "prefill" | DECODE_PHASE => t_lit "decode" end))
    (PInt (chunk_index c)) (PInt (logical_token_start c)) (PInt (token_count c)) (PBytes (ch_cache_lease_digest c))
    (PBytes (entry_state_root c)) (PBytes (exit_state_root c)) (PBytes (linear_table_root c)) (PBytes (bridge_table_root c))
    (PBytes (transition_table_root c)) (PBytes (ch_cache_table_root c))
    (match sidecar_generation_digest c with Some g => PBytes g | None => PNone end)
    (match scheduler_coverage_digest c with Some g => PBytes g | None => PNone end).
Definition made_chunk (c : chunk) : Prop := remake_chunk c = Ok c.

Definition typed (c : call) : Prop :=
  match c with
  | Begin profile context _ => made_profile profile /\ valid_precontext context
  | Chunk c => made_chunk c
  | SealDecode _ output => valid_output output
  | _ => True
  end.

(** ** Requests and their roots *)

Record request := MkRequest {
  rq_profile : ExecutionSecurityProfileV3;
  rq_context : Request.PreExecutionRequestContextV3;
  rq_epoch : Z;
}.

Definition prompt_tokens (r : request) : Z := Request.context_token_count (rq_context r).

(** What [begin] accepts. *)
Record admissible `{Digest} (r : request) : Prop := {
  ad_capable : require_hard_execution_capability (rq_profile r) = Ok tt;
  ad_abi : recursive_accumulator_abi_id (relation_spec (rq_profile r)) = RECURSIVE_CHUNK_ACCUMULATOR_ABI_V3;
  ad_epoch : 0 <= rq_epoch r < 2 ^ 64;
  ad_profile : profile_digest (rq_profile r) = Ok (Request.execution_profile_digest (rq_context r));
  ad_manifest : Request.static_manifest_digest (rq_context r) = static_manifest_digest (rq_profile r);
  ad_length : prompt_tokens r <= max_verified_context_tokens (rq_profile r);
  ad_context : valid_precontext (rq_context r);
}.

Section roots.
Context `{Digest}.

Definition chunk_encoding (c : chunk) : bytes := ok_or [] (chunk_canonical_bytes c).
Definition chunk_id (c : chunk) : bytes := _hash _CHUNK_RECORD_DOMAIN [chunk_encoding c].

(** The hash chain of a list of chunks. *)
Definition chain (domain start : bytes) (cs : list chunk) : bytes :=
  foldl (fun h c => _hash domain [h; chunk_id c]) start cs.

Definition total (cs : list chunk) : Z := foldr (fun c n => token_count c + n) 0 cs.

Definition precommit (r : request) : bytes := sha256 (precontext_input (rq_context r)).
Definition anchor (r : request) : bytes := sha256 (Request._INITIAL_EXECUTION_STATE_DOMAIN ++ precommit r).
Definition root_context (r : request) : bytes :=
  _hash _ROOT_CONTEXT_DOMAIN [Request.execution_profile_digest (rq_context r); precommit r; pack_Q (rq_epoch r)].

Definition prefill_chain (r : request) (ps : list chunk) : bytes :=
  chain _PREFILL_EVENT_DOMAIN (_hash _PREFILL_INIT_DOMAIN [root_context r]) ps.
Definition prefill_root (r : request) (ps : list chunk) : bytes :=
  _hash _PREFILL_SEAL_DOMAIN [root_context r; pack_I (prompt_tokens r) ++ pack_Q (zlen ps); prefill_chain r ps].
Definition decode_chain (r : request) (ps ds : list chunk) : bytes :=
  chain _DECODE_EVENT_DOMAIN (_hash _DECODE_INIT_DOMAIN [root_context r; prefill_root r ps]) ds.
Definition decode_root (r : request) (ps ds : list chunk) : bytes :=
  _hash _DECODE_SEAL_DOMAIN [root_context r; pack_I (total ds) ++ pack_Q (zlen ds); decode_chain r ps ds].
Definition execution_root (r : request) (ps ds : list chunk) : bytes :=
  _hash _EXECUTION_ROOT_DOMAIN
    [root_context r; prefill_root r ps; decode_root r ps ds; pack_Q (zlen ps) ++ pack_Q (zlen ds)].

(** The tables that the last chunk left. *)
Definition cache_root (r : request) (cs : list chunk) : bytes :=
  _hash _CHUNK_CACHE_TABLE_ROOT_DOMAIN
    [root_context r; pack_I (zlen cs); default [] (ch_cache_table_root <$> last cs)].

Definition sealed_commitment (r : request) (ps ds : list chunk) (o : Request.ExecutionOutputBindingV3)
    : ExecutionAccumulatorCommitmentV3 :=
  MkCommitment (Request.static_manifest_digest (rq_context r)) (Request.execution_profile_digest (rq_context r))
    (precommit r) (Request.prompt_token_root (rq_context r)) (Request.sampler_config_digest (rq_context r))
    (Request.cache_lease_digest (rq_context r)) (sha256 (request_input (rq_context r) o))
    (Request.output_token_root o) (Request.output_stream_digest o) (execution_root r ps ds) (prefill_root r ps)
    (cache_root r (ps ++ ds)) (prompt_tokens r) (total ds) (rq_epoch r).

(** ** Executions *)

(** The limit of a chunk, and of the sequence, in a phase. *)
Definition chunk_limit (r : request) (p : ChunkPhase) : Z :=
  match p with
  | PREFILL_PHASE => prefill_chunk_tokens (relation_spec (rq_profile r))
  | DECODE_PHASE => decode_chunk_tokens (relation_spec (rq_profile r))
  end.
Definition sequence_limit (r : request) (p : ChunkPhase) : Z :=
  match p with
  | PREFILL_PHASE => prompt_tokens r
  | DECODE_PHASE => prompt_tokens r + max_verified_decode_tokens (rq_profile r)
  end.

(** [c] continues the execution [before] of the request. *)
Record extends (r : request) (before : list chunk) (c : chunk) : Prop := {
  ex_made : made_chunk c;
  ex_index : chunk_index c = zlen before;
  ex_start : logical_token_start c = total before;
  ex_lease : ch_cache_lease_digest c = Request.cache_lease_digest (rq_context r);
  ex_limit : token_count c <= chunk_limit r (phase c);
  ex_end : total before + token_count c <= sequence_limit r (phase c);
  ex_entry : entry_state_root c = default (anchor r) (exit_state_root <$> last before);
  ex_sidecar : forall b, b ∈ before -> sidecar_generation_digest b = sidecar_generation_digest c;
}.

(** An execution grows at its end. *)
Inductive execution (r : request) : list chunk -> Prop :=
| execution_nil : execution r []
| execution_snoc cs c : execution r cs -> extends r cs c -> execution r (cs ++ [c]).

(** ** The ledger *)

Inductive ledger :=
| Fresh
| Prefilling (r : request) (ps : list chunk)
| Recording (r : request)
| Decoding (r : request) (ps ds : list chunk)
| Sealed (r : request) (ps ds : list chunk) (o : Request.ExecutionOutputBindingV3)
| Frozen (r : request) (ps ds : list chunk) (o : Request.ExecutionOutputBindingV3)
| Released.

(** The prompt is covered by chunks. *)
Definition covers_prompt (r : request) (ps : list chunk) : Prop := ps <> [] /\ total ps = prompt_tokens r.

(** [ledger_step c a l l']: in [l] the call [c] may return [a] and lead to [l'].
    A per-record capture never leads to a sealed ledger, and nothing opens one. *)
Inductive ledger_step : call -> answer -> ledger -> ledger -> Prop :=
| step_begin r : admissible r ->
    ledger_step (Begin (rq_profile r) (rq_context r) (PInt (rq_epoch r))) Done Fresh (Prefilling r [])
| step_stage_first r i t root : ledger_step (Stage i t root) Done (Prefilling r []) (Recording r)
| step_stage r i t root : ledger_step (Stage i t root) Done (Recording r) (Recording r)
| step_pages_first r a root : ledger_step (Pages a root) Done (Prefilling r []) (Recording r)
| step_pages r a root : ledger_step (Pages a root) Done (Recording r) (Recording r)
| step_prefill r ps c : phase c = PREFILL_PHASE -> extends r ps c ->
    ledger_step (Chunk c) Done (Prefilling r ps) (Prefilling r (ps ++ [c]))
| step_decode r ps ds c : phase c = DECODE_PHASE -> extends r (ps ++ ds) c ->
    ledger_step (Chunk c) Done (Decoding r ps ds) (Decoding r ps (ds ++ [c]))
| step_seal_prefill r ps : covers_prompt r ps ->
    ledger_step (SealPrefill (PInt (prompt_tokens r))) (Root (prefill_root r ps)) (Prefilling r ps) (Decoding r ps [])
| step_seal_decode r ps ds o : Request.decode_token_count o = total ds ->
    ledger_step (SealDecode (PInt (total ds)) o) (Commitment (sealed_commitment r ps ds o)) (Decoding r ps ds)
      (Sealed r ps ds o)
| step_freeze r ps ds o : ledger_step Freeze Done (Sealed r ps ds o) (Frozen r ps ds o)
| step_release l : ledger_step Release Done l Released.

(** The steps of the calls that returned. *)
Inductive ledger_run : list (call * res answer) -> ledger -> ledger -> Prop :=
| run_nil l : ledger_run [] l l
| run_ok c a log l l1 l2 : ledger_step c a l l1 -> ledger_run log l1 l2 -> ledger_run ((c, Ok a) :: log) l l2
| run_err c e log l l2 : ledger_run log l l2 -> ledger_run ((c, Err e) :: log) l l2.
End roots.
