(* ===== verification/AccumulatorLemmas.v ===== *)
(** * The methods of an accumulator, one by one

    What each method of [Accumulator] does to an object that represents a ledger:
    the lemmas behind [AccumulatorTheory]. *)

From Stdlib Require Import ZArith Lia.
From Stdlib Require Import Strings.Byte.
From coqutil Require Import Word.LittleEndianList.
From stdpp Require Import base gmap sets list strings.
From S2P Require Import Prelude Method Sha256 Merkle MerkleTheory Validate Wire Text Relation Graph Policy Spec Profile SpecGraph GraphLemmas SpecGraphTheory SpecErrors Json SpecJsonTheory Payload PayloadTheory Request RequestTheory Challenge TierAudit Verifier Reveal Accumulator Ledger.

Import Verifier Relation Graph Spec SpecGraph Profile Reveal Accumulator.
Local Open Scope Z_scope.

#[local] Arguments t_lit s : simpl never.

(** ** Errors *)

(** The classes that a method may raise. *)
Definition refusal (e : exc) : Prop := issubclass (exc_kind e) ProofV3Error = true.

Lemma refusal_proof_error {A} (r : res A) e : proof_error r -> r = Err e -> refusal e.
Proof. intros H ->. unfold refusal. cbn in H. by rewrite H. Qed.

Lemma refusal_proof e : exc_kind e = ProofV3Error -> refusal e.
Proof. unfold refusal. by intros ->. Qed.

Lemma identifier_ascii s : identifier_match s = true -> exists b, ascii s = Ok b.
Proof.
  intros H%safe_identifier. unfold ascii. eexists. case_match eqn:E; [reflexivity|exfalso].
  apply not_true_iff_false in E. apply E. apply forallb_forall. intros c Hc%list_elem_of_In.
  unfold safe_text in H. rewrite Forall_forall in H. specialize (H c Hc). unfold safe in H. lia.
Qed.

Lemma pe_acc_identifier v name : proof_error (Accumulator._identifier v name).
Proof.
  unfold Accumulator._identifier. destruct v; try done. apply pe_bind; [apply pe_reject|]. intros [] H%reject_ok%negb_false_iff.
  destruct (identifier_ascii _ H) as [b ->]. done.
Qed.

Lemma pe_acc_fixed32 v name nonzero : proof_error (Accumulator._fixed32 v name nonzero).
Proof. apply (pe_fixed32 v name nonzero). Qed.

Lemma pe_acc_u32 v name positive : proof_error (Accumulator._u32 v name positive).
Proof. apply (pe_u32 v name positive). Qed.

Lemma pe_acc_u64 v name : proof_error (Accumulator._u64 v name).
Proof. unfold Accumulator._u64, u64. by destruct (int_in _ _ _). Qed.

Lemma pe_address a : proof_error (address_canonical_bytes a).
Proof. unfold address_canonical_bytes. apply pe_bind; [apply pe_acc_identifier|done]. Qed.

#[export] Hint Resolve pe_acc_identifier pe_acc_fixed32 pe_acc_u32 pe_acc_u64 pe_address : proof_error.

(** *** The digest of a profile *)

Lemma ascii_text s : Forall (fun c => 0 <= c < 128) s -> exists b, ascii s = Ok b.
Proof.
  intros H. unfold ascii. eexists. case_match eqn:E; [reflexivity|exfalso]. apply not_true_iff_false in E. apply E.
  apply forallb_forall. intros c Hc%list_elem_of_In. rewrite Forall_forall in H. specialize (H c Hc). lia.
Qed.

Lemma separated_ascii (P : Z -> Prop) parts : P 44 -> Forall (Forall P) parts -> Forall P (separated parts).
Proof.
  intros Hc. induction 1 as [|p parts Hp _ IH]; [constructor|]. rewrite separated_cons. apply Forall_app. split; [done|].
  destruct parts; [constructor|]. cbn [rest]. by constructor.
Qed.

Definition ascii_char (c : Z) : Prop := 0 <= c < 128.

Lemma string_ascii s : safe_text s -> Forall ascii_char (string_text s).
Proof.
  intros Hs. rewrite safe_string_text by done. apply Forall_app. split; [by repeat constructor|].
  apply Forall_app. split; [|by repeat constructor]. eapply Forall_impl; [exact Hs|]. intros c. unfold safe, ascii_char. lia.
Qed.

Lemma plain_ascii v : plain v -> Forall ascii_char (dumps v).
Proof.
  induction v as [| | | |l IH|l IH] using json_induction; intros Hv.
  - by repeat constructor.
  - destruct b; by repeat constructor.
  - cbn [dumps]. eapply Forall_impl; [apply int_chars|]. unfold int_char, ascii_char. lia.
  - inversion Hv; subst. by apply string_ascii.
  - rewrite dumps_list. apply Forall_app. split; [by repeat constructor|]. apply Forall_app. split; [|by repeat constructor].
    apply separated_ascii; [done|]. inversion Hv as [| | | |? Hl|]; subst. apply Forall_fmap.
    rewrite Forall_forall in IH, Hl |- *. intros x Hx. by apply IH, Hl.
  - inversion Hv as [| | | | |? Hl Hs]; subst. rewrite dumps_obj, Hs. apply Forall_app. split; [by repeat constructor|].
    apply Forall_app. split; [|by repeat constructor]. apply separated_ascii; [done|]. apply Forall_fmap.
    rewrite Forall_forall in IH, Hl |- *. intros x Hx. destruct (Hl x Hx) as [Hk Hp]. unfold field_text.
    apply Forall_app. split; [by apply string_ascii|]. apply Forall_app. split; [by repeat constructor|]. by apply IH.
Qed.

Lemma pe_encode_identifier s name : proof_error (_encode_identifier s name).
Proof.
  unfold _encode_identifier. apply pe_bind; [apply pe_identifier|]. intros t [-> Ht]%identifier_made.
  by destruct (identifier_ascii s Ht) as [b ->].
Qed.

Lemma pe_profile_digest `{Digest} p : made_profile p -> proof_error (profile_digest p).
Proof.
  intros Hp%made_profile_spec. unfold profile_digest, profile_canonical_bytes.
  apply pe_bind; [|done]. apply pe_bind.
  - unfold canonical_json_bytes. apply pe_bind.
    + destruct (ascii_text (dumps (ExecutionRelationSpecV3_to_dict (relation_spec p)))) as [b ->]; [|done].
      by apply plain_ascii, printed_plain.
    + intros a _. by destruct (_ <? _).
  - intros a _. repeat (apply pe_bind; [apply pe_encode_identifier|intros ? _]). done.
Qed.

(** ** What a chunk is *)

Record chunk_facts (c : chunk) : Prop := {
  cf_index : 0 <= chunk_index c < 2 ^ 32;
  cf_start : 0 <= logical_token_start c < 2 ^ 32;
  cf_count : 1 <= token_count c < 2 ^ 32;
  cf_digests : Forall bytes32 [ch_cache_lease_digest c; entry_state_root c; exit_state_root c; linear_table_root c;
                               bridge_table_root c; transition_table_root c; ch_cache_table_root c];
  cf_table : ch_cache_table_root c <> zero32;
  cf_sidecar : match sidecar_generation_digest c, scheduler_coverage_digest c with
               | Some g, Some s => bytes32 g /\ bytes32 s
               | None, None => True
               | _, _ => False
               end;
}.

Lemma acc_fixed_ok v name nonzero b :
  Accumulator._fixed32 v name nonzero = Ok b <-> v = PBytes b /\ bytes32 b /\ (nonzero = true -> b <> zero32).
Proof. apply fixed32_spec. Qed.

Lemma acc_u32_ok v name p z :
  Accumulator._u32 v name p = Ok z <-> v = PInt z /\ (if p then 1 else 0) <= z < 2 ^ 32.
Proof. apply u32_spec. Qed.

Lemma sidecar_ok g s pair :
  sidecar_binding g s = Ok pair ->
  match pair with
  | (Some x, Some y) => g = PBytes x /\ s = PBytes y /\ bytes32 x /\ bytes32 y
  | (None, None) => g = PNone /\ s = PNone
  | _ => False
  end.
Proof.
  unfold sidecar_binding. intros Hp. apply bind_ok in Hp as ([] & Hx%reject_ok & Hp).
  destruct (is_none g) eqn:Eg.
  - apply (inj Ok) in Hp as <-. destruct g; try discriminate. destruct s; try discriminate. done.
  - apply bind_ok in Hp as (x & (-> & ? & _)%acc_fixed_ok & Hp). apply bind_ok in Hp as (y & (-> & ? & _)%acc_fixed_ok & Hp).
    apply bind_ok in Hp as ([] & _ & Hp). apply bind_ok in Hp as ([] & _ & Hp). by apply (inj Ok) in Hp as <-.
Qed.

Lemma made_chunk_facts c : made_chunk c -> chunk_facts c.
Proof.
  unfold made_chunk, remake_chunk, ExecutionChunkCommitmentV3_new. intros Hc.
  apply bind_ok in Hc as (ph & _ & Hc).
  do 3 (apply bind_ok in Hc as (? & [[= <-] ?]%acc_u32_ok & Hc)). apply bind_ok in Hc as ([] & _ & Hc).
  do 7 (apply bind_ok in Hc as (? & ([= <-] & ? & ?)%acc_fixed_ok & Hc)).
  apply bind_ok in Hc as ([g s] & Hs%sidecar_ok & Hc). apply (inj Ok) in Hc. destruct c. cbn in *.
  injection Hc as -> -> ->. split; cbn; [done|done|done|by repeat constructor|auto|].
  destruct sidecar_generation_digest0, scheduler_coverage_digest0; naive_solver.
Qed.

Lemma sidecar_bytes_ok c : chunk_facts c -> exists b, sidecar_bytes c = Ok b.
Proof.
  intros [_ _ _ _ _ H]. unfold sidecar_bytes. destruct (sidecar_generation_digest c), (scheduler_coverage_digest c); naive_solver.
Qed.

Lemma chunk_encoding_ok c : chunk_facts c -> chunk_canonical_bytes c = Ok (chunk_encoding c).
Proof. intros H. unfold chunk_encoding, chunk_canonical_bytes. by destruct (sidecar_bytes_ok c H) as [b ->]. Qed.

Lemma chunk_digest_ok `{Digest} c : chunk_facts c -> chunk_digest c = Ok (chunk_id c).
Proof. intros Hc. unfold chunk_digest. by rewrite chunk_encoding_ok. Qed.

Lemma total_snoc cs c : total (cs ++ [c]) = total cs + token_count c.
Proof. unfold total. induction cs as [|d cs IH]; cbn in *; lia. Qed.

Lemma total_app cs ds : total (cs ++ ds) = total cs + total ds.
Proof. unfold total. induction cs as [|d cs IH]; cbn in *; lia. Qed.

(** ** Steps of a method *)

Section steps.
Implicit Types s : accumulator.

Lemma wp_check b m (Q : unit -> accumulator -> Prop) (E : exc -> accumulator -> Prop) s :
  (b = true -> E (Exc ProofV3Error m) s) -> (b = false -> Q tt s) -> wp (check b m) Q E s.
Proof. intros HE HQ. unfold check. rewrite wp_do. unfold reject. destruct b; [by apply HE|by apply HQ]. Qed.

Lemma wp_answering {A} (f : A -> answer) (m : method A) Q E s :
  wp (answering f m) Q E s <-> wp m (fun a => Q (f a)) E s.
Proof. unfold answering. by rewrite wp_bind. Qed.
End steps.

(** Step over a test: what is known when it passes is named [H]. *)
Tactic Notation "wp_check" "as" simple_intropattern(H) :=
  apply wp_bind; apply wp_check; [intros _|intros H].
(** The method of the object that a call is. *)
Ltac unfold_call := cbn [perform do_begin do_accumulate_stage do_accumulate_chunk do_accumulate_kv_pages do_seal_prefill do_seal_decode do_freeze_precommit do_open_postnonce do_release root_only_accumulator].
Ltac wp_use lem := apply wp_bind; eapply wp_mono; [apply lem| |]; cbv beta.

Lemma require_state_spec expected (s : accumulator) :
  wp (_require_state expected) (fun _ s' => s' = s /\ _state s ∈ expected)
    (fun e s' => s' = s /\ refusal e /\ _state s ∉ expected) s.
Proof.
  unfold _require_state. apply wp_bind, wp_get. cbv beta. apply wp_check.
  - intros H%negb_true_iff%bool_decide_eq_false. split_and!; [done|by apply refusal_proof|done].
  - intros H%negb_false_iff%bool_decide_eq_true. done.
Qed.

(** ** The object of a ledger *)

Section representation.
Context `{Digest}.

(** What [begin] stores, and what does not change until the object is released. *)
Record begun (r : request) (s : accumulator) : Prop := {
  bg_admissible : admissible r;
  bg_context : _context s = Some (root_context r);
  bg_profile : _profile s = Some (rq_profile r);
  bg_request : _precommit_context s = Some (rq_context r);
  bg_epoch : _cache_epoch s = rq_epoch r;
  bg_max_context : _max_verified_context_tokens s = max_verified_context_tokens (rq_profile r);
  bg_max_decode : _max_verified_decode_tokens s = max_verified_decode_tokens (rq_profile r);
  bg_anchor : _initial_execution_state_anchor s = Some (anchor r);
  bg_tables : forall id l k, _cache_table_bindings s !! id = Some (l, k) -> is_Some (_cache_table_chains s !! (l, id));
}.

(** What the accepted chunks [cs] leave. *)
Record captured (r : request) (cs : list chunk) (s : accumulator) : Prop := {
  cp_execution : execution r cs;
  cp_mode : cs <> [] -> _capture_mode s = Some CHUNKS;
  cp_index : _next_chunk_index s = zlen cs;
  cp_start : _next_chunk_token_start s = total cs;
  cp_exit : _last_chunk_exit_state_root s = exit_state_root <$> last cs;
  cp_tables : _last_chunk_cache_table_root s = ch_cache_table_root <$> last cs;
  cp_sidecar : forall c, c ∈ cs -> _chunk_sidecar_binding_mode s = Some (has_sidecar_scheduler_binding c)
    /\ (has_sidecar_scheduler_binding c = true -> _chunk_sidecar_generation_digest s = sidecar_generation_digest c);
}.

(** The sealed object keeps its request, its profile and its commitment. *)
Record finished (r : request) (ps ds : list chunk) (o : Request.ExecutionOutputBindingV3) (s : accumulator) : Prop := {
  fn_begun : begun r s;
  fn_execution : execution r (ps ++ ds);
  fn_sealed : _sealed s = Some (sealed_commitment r ps ds o);
  fn_valid : exists e, envelope_of (sealed_commitment r ps ds o) = Ok e;
}.

(** The object [s] stands for the ledger [l]. *)
Definition represents (s : accumulator) (l : ledger) : Prop :=
  match l with
  | Fresh => _state s = NEW /\ _decode_record_count s = 0 /\ _prefill_record_count s = 0 /\ _capture_mode s = None
      /\ _next_chunk_index s = 0 /\ _next_chunk_token_start s = 0 /\ _last_chunk_exit_state_root s = None
      /\ _last_chunk_cache_table_root s = None
  | Prefilling r ps => _state s = PREFILL /\ begun r s /\ captured r ps s
      /\ _prefill_chain s = Some (prefill_chain r ps) /\ _prefill_record_count s = zlen ps /\ _decode_record_count s = 0
  | Recording r => _state s = PREFILL /\ begun r s /\ _capture_mode s = Some RECORDS /\ is_Some (_prefill_chain s)
  | Decoding r ps ds => _state s = DECODE /\ begun r s /\ captured r (ps ++ ds) s /\ _capture_mode s = Some CHUNKS
      /\ covers_prompt r ps /\ _prefill_root s = Some (prefill_root r ps)
      /\ _decode_chain s = Some (decode_chain r ps ds) /\ _prefill_record_count s = zlen ps
      /\ _decode_record_count s = zlen ds /\ _context_token_count s = prompt_tokens r
  | Sealed r ps ds o => _state s = SEALED /\ finished r ps ds o s
  | Frozen r ps ds o => _state s = FROZEN /\ finished r ps ds o s
  | Released => s = blank RELEASED
  end.

(** [s'] is [s], up to what a call that raises may have changed. *)
Record same (s s' : accumulator) : Prop := {
  sm_state : _state s' = _state s;
  sm_context : _context s' = _context s;
  sm_profile : _profile s' = _profile s;
  sm_request : _precommit_context s' = _precommit_context s;
  sm_epoch : _cache_epoch s' = _cache_epoch s;
  sm_max_context : _max_verified_context_tokens s' = _max_verified_context_tokens s;
  sm_max_decode : _max_verified_decode_tokens s' = _max_verified_decode_tokens s;
  sm_anchor : _initial_execution_state_anchor s' = _initial_execution_state_anchor s;
  sm_bindings : _cache_table_bindings s' = _cache_table_bindings s;
  sm_chains : forall k, is_Some (_cache_table_chains s !! k) -> is_Some (_cache_table_chains s' !! k);
  sm_index : _next_chunk_index s' = _next_chunk_index s;
  sm_start : _next_chunk_token_start s' = _next_chunk_token_start s;
  sm_exit : _last_chunk_exit_state_root s' = _last_chunk_exit_state_root s;
  sm_tables : _last_chunk_cache_table_root s' = _last_chunk_cache_table_root s;
  sm_prefill_chain : _prefill_chain s' = _prefill_chain s;
  sm_decode_chain : _decode_chain s' = _decode_chain s;
  sm_prefill_root : _prefill_root s' = _prefill_root s;
  sm_sealed : _sealed s' = _sealed s;
  sm_prefill_count : _prefill_record_count s' = _prefill_record_count s;
  sm_decode_count : _decode_record_count s' = _decode_record_count s;
  sm_prompt : _context_token_count s' = _context_token_count s;
  sm_mode : forall m, _capture_mode s = Some m -> _capture_mode s' = Some m;
  sm_sidecar : forall b, _chunk_sidecar_binding_mode s = Some b -> _chunk_sidecar_binding_mode s' = Some b;
  sm_generation : forall g, _chunk_sidecar_generation_digest s = Some g -> _chunk_sidecar_generation_digest s' = Some g;
}.

Lemma same_refl s : same s s.
Proof. by split. Qed.

Lemma same_trans s1 s2 s3 : same s1 s2 -> same s2 s3 -> same s1 s3.
Proof. intros [] []. split; try congruence; auto. Qed.

Lemma begun_same r s s' : begun r s -> same s s' -> begun r s'.
Proof.
  intros [] []. split; try congruence. intros id l k Hk. rewrite sm_bindings0 in Hk. by apply sm_chains0, (bg_tables0 _ _ k).
Qed.

Lemma captured_same r cs s s' : captured r cs s -> same s s' -> captured r cs s'.
Proof.
  intros [] []. split; try congruence; auto. intros c Hc. destruct (cp_sidecar0 c Hc) as [H1 H2]. split; [auto|].
  intros Hs. specialize (H2 Hs). revert Hs H2. unfold has_sidecar_scheduler_binding.
  destruct (sidecar_generation_digest c); [|done]. auto.
Qed.

Lemma represents_same s s' l : represents s l -> l <> Fresh -> l <> Released -> same s s' -> represents s' l.
Proof.
  intros Hr Hf Hd Hs. assert (forall r, begun r s -> begun r s') as Hb by eauto using begun_same.
  assert (forall r cs, captured r cs s -> captured r cs s') as Hc by eauto using captured_same.
  destruct l; cbn in Hr |- *; try done; destruct Hs.
  - destruct Hr as (?&?&?&?&?&?). split_and!; try congruence; auto.
  - destruct Hr as (?&?&?&?). split_and!; try congruence; auto.
  - destruct Hr as (?&?&?&?&?&?&?&?&?&?). split_and!; try congruence; auto.
  - destruct Hr as [? []]. split; [congruence|]. split; try congruence; auto.
  - destruct Hr as [? []]. split; [congruence|]. split; try congruence; auto.
Qed.

(** The state of an object with a ledger. *)
Lemma represents_state s l :
  represents s l -> _state s = match l with
    | Fresh => NEW | Prefilling _ _ | Recording _ => PREFILL | Decoding _ _ _ => DECODE | Sealed _ _ _ _ => SEALED
    | Frozen _ _ _ _ => FROZEN | Released => RELEASED end.
Proof. destruct l; cbn; intros Hr; [by destruct Hr..|]. by rewrite Hr. Qed.

Lemma represents_init : represents __init__ Fresh.
Proof. by split_and!. Qed.
End representation.

#[export] Hint Resolve same_refl : core.

(** A call that raises leaves the object as it was, up to [same]. *)
Definition failed (s : accumulator) (e : exc) (s' : accumulator) : Prop := same s s' /\ refusal e.

Lemma failed_here s m : failed s (Exc ProofV3Error m) s.
Proof. split; [done|by apply refusal_proof]. Qed.

Lemma failed_same s s1 e s' : same s s1 -> failed s1 e s' -> failed s e s'.
Proof. intros ? []. split; [by eapply same_trans|done]. Qed.

(** ** The helpers *)

Ltac same_set := split; cbn; try done; try congruence; auto.

Lemma capture_mode_spec m (s : accumulator) :
  wp (_require_capture_mode m)
    (fun _ s' => same s s' /\ _capture_mode s' = Some m /\ (s' = s \/ s' = set_capture_mode (Some m) s))
    (fun e s' => s' = s /\ refusal e /\ exists m', _capture_mode s = Some m' /\ m' <> m) s.
Proof.
  unfold _require_capture_mode. apply wp_bind, wp_get. cbv beta. destruct (_capture_mode s) as [m'|] eqn:E.
  - apply wp_check; [intros Hm%negb_true_iff%bool_decide_eq_false; split_and!; [done|by apply refusal_proof|eauto]|].
    intros ->%negb_false_iff%bool_decide_eq_true. split_and!; [done|done|by left].
  - apply wp_modify. split_and!; [same_set|done|by right].
Qed.

(** The sidecar of [c] is the one of the chunks before it. *)
Record sidecar_open (c : chunk) (s : accumulator) : Prop := {
  so_mode : forall b, _chunk_sidecar_binding_mode s = Some b -> b = has_sidecar_scheduler_binding c;
  so_generation : has_sidecar_scheduler_binding c = true ->
    forall g, _chunk_sidecar_generation_digest s = Some g -> sidecar_generation_digest c = Some g;
}.

Lemma sidecar_spec (c : chunk) (s : accumulator) :
  wp (require_sidecar_binding c)
    (fun _ s' => same s s' /\ _capture_mode s' = _capture_mode s
       /\ _chunk_sidecar_binding_mode s' = Some (has_sidecar_scheduler_binding c)
       /\ (has_sidecar_scheduler_binding c = true -> _chunk_sidecar_generation_digest s' = sidecar_generation_digest c))
    (fun e s' => failed s e s' /\ ~ sidecar_open c s) s.
Proof.
  unfold require_sidecar_binding. apply wp_bind, wp_get, wp_bind. cbv beta.
  apply wp_mono with (Q := fun _ s1 => same s s1 /\ _capture_mode s1 = _capture_mode s
      /\ _chunk_sidecar_binding_mode s1 = Some (has_sidecar_scheduler_binding c)
      /\ _chunk_sidecar_generation_digest s1 = _chunk_sidecar_generation_digest s)
    (E := fun e s' => failed s e s' /\ ~ sidecar_open c s); [|..].
  - destruct (_chunk_sidecar_binding_mode s) as [b|] eqn:E.
    + apply wp_check.
      * intros Hx. split; [apply failed_here|]. intros [Hm _]. rewrite (Hm b), xorb_nilpotent in Hx by done. done.
      * intros Hb%xorb_eq. split_and!; [done|done|congruence|done].
    + apply wp_modify. by split_and!; [same_set|..].
  - intros _ s1 (Hs & Hc & Hm & Hg1). destruct (has_sidecar_scheduler_binding c) eqn:Eh; [|apply wp_ret; by split_and!].
    apply wp_bind, wp_assert; [|unfold has_sidecar_scheduler_binding in Eh; by destruct (sidecar_generation_digest c)].
    intros g Hg. apply wp_bind, wp_get. cbv beta. destruct (_chunk_sidecar_generation_digest s1) as [known|] eqn:Ek.
    + apply wp_check.
      * intros Hx%negb_true_iff%bool_decide_eq_false. split; [by eapply failed_same, failed_here|].
        intros [_ Ho]. specialize (Ho Eh known). rewrite Hg in Ho. apply Hx. symmetry. apply (inj Some). by apply Ho.
      * intros ->%negb_false_iff%bool_decide_eq_true. split_and!; [done|done|done|congruence].
    + apply wp_modify. split_and!; [|done|done|done]. eapply same_trans; [done|same_set].
  - auto.
Qed.

Section methods.
Context `{Digest}.

Lemma append_prefill d h (s : accumulator) :
  length d = 32%nat -> _state s = PREFILL -> _prefill_chain s = Some h ->
  wp (_append d)
    (fun _ s' => s' = set_prefill_record_count (_prefill_record_count s + 1)
                        (set_prefill_chain (Some (_hash _PREFILL_EVENT_DOMAIN [h; d])) s))
    (fun e s' => failed s e s' /\ MAX_ROOT_ONLY_EXECUTION_RECORDS <= _prefill_record_count s) s.
Proof.
  intros Hd Hst Hc. unfold _append. apply wp_bind, wp_do.
  rewrite (proj2 (acc_fixed_ok _ _ false d)) by done. apply wp_bind, wp_get. cbv beta. rewrite Hst.
  apply wp_bind, wp_get, wp_bind. cbv beta. apply wp_check; [intros ?; split; [apply failed_here|lia]|]. intros _.
  apply wp_bind, wp_get. cbv beta. rewrite Hc. done.
Qed.

Lemma append_decode d h (s : accumulator) :
  length d = 32%nat -> _state s = DECODE -> _decode_chain s = Some h ->
  wp (_append d)
    (fun _ s' => s' = set_decode_record_count (_decode_record_count s + 1)
                        (set_decode_chain (Some (_hash _DECODE_EVENT_DOMAIN [h; d])) s))
    (fun e s' => failed s e s' /\ MAX_ROOT_ONLY_EXECUTION_RECORDS <= _decode_record_count s) s.
Proof.
  intros Hd Hst Hc. unfold _append. apply wp_bind, wp_do.
  rewrite (proj2 (acc_fixed_ok _ _ false d)) by done. apply wp_bind, wp_get. cbv beta. rewrite Hst.
  apply wp_bind, wp_get, wp_bind. cbv beta. apply wp_check; [intros ?; split; [apply failed_here|lia]|]. intros _.
  apply wp_bind, wp_get. cbv beta. rewrite Hc. done.
Qed.

(** The place of a chunk that passes [place_chunk]. *)
Record placed (r : request) (cs : list chunk) (c : chunk) (s : accumulator) : Prop := {
  pl_phase : phase_state (phase c) = _state s;
  pl_index : chunk_index c = zlen cs;
  pl_start : logical_token_start c = total cs;
  pl_lease : ch_cache_lease_digest c = Request.cache_lease_digest (rq_context r);
  pl_limit : token_count c <= chunk_limit r (phase c);
  pl_end : total cs + token_count c <= sequence_limit r (phase c);
}.

Definition phase_end (p : ChunkPhase) (s : accumulator) : Z :=
  match p with PREFILL_PHASE => _prefill_max_logical_token_exclusive s | DECODE_PHASE => _decode_max_logical_token_exclusive s end.

Lemma place_spec r cs c (s : accumulator) :
  begun r s -> captured r cs s -> (_state s = DECODE -> _context_token_count s = prompt_tokens r) ->
  wp (place_chunk c)
    (fun n s' => same s s' /\ n = total cs + token_count c /\ phase_end (phase c) s' = n /\ _capture_mode s' = _capture_mode s
       /\ _chunk_sidecar_binding_mode s' = _chunk_sidecar_binding_mode s
       /\ _chunk_sidecar_generation_digest s' = _chunk_sidecar_generation_digest s /\ placed r cs c s)
    (fun e s' => failed s e s' /\ (placed r cs c s -> _state s = DECODE /\ total cs < prompt_tokens r)) s.
Proof.
  intros Hb Hc Hd. unfold place_chunk. apply wp_bind, wp_get. cbv beta. destruct Hb, Hc. unfold id.
  assert (forall m, failed s (Exc ProofV3Error m) s) as Hf by apply failed_here.
  apply wp_bind, wp_check; [intros Hn%negb_true_iff%bool_decide_eq_false; split; [done|by intros []]|].
  intros Hp%negb_false_iff%bool_decide_eq_true.
  apply wp_bind, wp_check; [rewrite cp_index0; intros Hn; split; [done|intros []; lia]|]. intros Hi.
  apply wp_bind, wp_check; [rewrite cp_start0; intros Hn; split; [done|intros []; lia]|]. intros Hs.
  rewrite bg_request0. apply wp_bind, wp_assert; [|done]. intros ? [= <-].
  apply wp_bind, wp_check; [intros Hn%negb_true_iff%bool_decide_eq_false; split; [done|by intros []]|].
  intros Hl%negb_false_iff%bool_decide_eq_true. rewrite bg_profile0. apply wp_bind, wp_assert; [|done]. intros ? [= <-].
  rewrite cp_index0 in Hi. rewrite cp_start0 in Hs.
  apply negb_false_iff, Z.eqb_eq in Hi, Hs.
  apply wp_bind, wp_check; [|intros Hm; apply wp_bind; destruct (phase c) eqn:Ec].
  { intros Hn. split; [done|]. intros [_ _ _ _ Hm _]. revert Hn Hm. unfold chunk_limit. destruct (phase c); case_bool_decide; try done; lia. }
  - rewrite bool_decide_eq_true_2 in Hm |- * by done. apply wp_bind, wp_check.
    + intros Hn. split; [done|]. intros []. rewrite Ec in *. cbn in *. unfold prompt_tokens in *. lia.
    + intros He. apply wp_modify, wp_ret. rewrite Hs. split_and!; [same_set|done|done|done|done|done|].
      split; rewrite ?Ec; try done; unfold chunk_limit, sequence_limit, prompt_tokens; lia.
  - rewrite bool_decide_eq_false_2 in Hm |- * by done. specialize (Hd (eq_sym Hp)). apply wp_bind, wp_check.
    { intros Hn. split; [done|]. intros _. split; [done|]. lia. }
    intros Hg. apply wp_bind, wp_check.
    + intros Hn. split; [done|]. intros []. rewrite Ec in *. cbn in *. lia.
    + intros He. apply wp_modify, wp_ret. rewrite Hs. split_and!; [same_set|done|done|done|done|done|].
      split; rewrite ?Ec; try done; unfold chunk_limit, sequence_limit; lia.
Qed.

Lemma state_root_spec r cs c (s : accumulator) :
  begun r s -> captured r cs s ->
  wp (require_state_root c)
    (fun _ s' => s' = s /\ entry_state_root c = default (anchor r) (exit_state_root <$> last cs))
    (fun e s' => failed s e s' /\ entry_state_root c <> default (anchor r) (exit_state_root <$> last cs)) s.
Proof.
  intros [] []. unfold require_state_root. apply wp_bind, wp_get. unfold id. cbv beta. rewrite cp_exit0.
  destruct (exit_state_root <$> last cs); cbn [default].
  - apply wp_check; [intros Hn%negb_true_iff%bool_decide_eq_false; split; [apply failed_here|done]|].
    by intros ->%negb_false_iff%bool_decide_eq_true.
  - rewrite bg_anchor0. apply wp_bind, wp_assert; [|done]. intros ? [= <-].
    apply wp_check; [intros Hn%negb_true_iff%bool_decide_eq_false; split; [apply failed_here|done]|].
    by intros ->%negb_false_iff%bool_decide_eq_true.
Qed.
End methods.

(** ** [accumulate_chunk] *)

Section chunks.
Context `{Digest}.

Lemma execution_tokens r cs : execution r cs -> Forall (fun c => 1 <= token_count c) cs.
Proof.
  induction 1 as [|cs c _ IH [Hm%made_chunk_facts]]; [constructor|]. apply Forall_app. split; [done|].
  constructor; [apply Hm|constructor].
Qed.

Lemma total_nonneg cs : Forall (fun c => 1 <= token_count c) cs -> 0 <= total cs.
Proof. unfold total. induction 1; cbn; lia. Qed.

(** The ledger of an object that is capturing chunks: what precedes in both
    phases, and the ledger that a chunk of the phase leads to. *)
Definition capturing (l : ledger) : option (request * list chunk * ChunkPhase * (chunk -> ledger)) :=
  match l with
  | Prefilling r ps => Some (r, ps, PREFILL_PHASE, fun c => Prefilling r (ps ++ [c]))
  | Decoding r ps ds => Some (r, ps ++ ds, DECODE_PHASE, fun c => Decoding r ps (ds ++ [c]))
  | _ => None
  end.

Definition phase_records (p : ChunkPhase) (s : accumulator) : Z :=
  match p with PREFILL_PHASE => _prefill_record_count s | DECODE_PHASE => _decode_record_count s end.

(** Nothing stands against [c] but its place. *)
Record receptive (p : ChunkPhase) (c : chunk) (s : accumulator) : Prop := {
  rc_mode : _capture_mode s <> Some RECORDS;
  rc_sidecar : sidecar_open c s;
  rc_room : phase_records p s < MAX_ROOT_ONLY_EXECUTION_RECORDS;
}.

Lemma capturing_facts s l r cs p next :
  represents s l -> capturing l = Some (r, cs, p, next) ->
  begun r s /\ captured r cs s /\ phase_state p = _state s /\ l <> Fresh /\ l <> Released
  /\ (_state s = DECODE -> _context_token_count s = prompt_tokens r /\ prompt_tokens r <= total cs).
Proof.
  destruct l; try discriminate; intros Hr [= <- <- <- <-]; cbn in Hr.
  - destruct Hr as (Hst & ? & ? & _). rewrite Hst. by split_and!.
  - destruct Hr as (Hst & ? & Hc & _ & [_ Hp] & _ & _ & _ & _ & ?). rewrite Hst. split_and!; try done.
    intros _. split; [done|]. rewrite total_app, Hp. enough (0 <= total ds) by lia.
    destruct Hc as [[_ Hc]%execution_tokens%Forall_app _ _ _ _ _ _]. by apply total_nonneg.
Qed.

Lemma captured_snoc r cs c s s' :
  captured r cs s -> extends r cs c -> _capture_mode s' = Some CHUNKS ->
  _chunk_sidecar_binding_mode s = Some (has_sidecar_scheduler_binding c) ->
  (has_sidecar_scheduler_binding c = true -> _chunk_sidecar_generation_digest s = sidecar_generation_digest c) ->
  _chunk_sidecar_binding_mode s' = _chunk_sidecar_binding_mode s ->
  _chunk_sidecar_generation_digest s' = _chunk_sidecar_generation_digest s ->
  _next_chunk_index s' = _next_chunk_index s + 1 -> _next_chunk_token_start s' = total cs + token_count c ->
  _last_chunk_exit_state_root s' = Some (exit_state_root c) ->
  _last_chunk_cache_table_root s' = Some (ch_cache_table_root c) -> captured r (cs ++ [c]) s'.
Proof.
  intros [] He Hmode Hm Hg Em Eg Hi Hs Hx Ht. split; try done.
  - by constructor.
  - rewrite Hi, cp_index0. unfold zlen. rewrite length_app. cbn. lia.
  - by rewrite total_snoc.
  - by rewrite last_snoc.
  - by rewrite last_snoc.
  - rewrite Em, Eg. intros d [Hd| ->%list_elem_of_singleton]%elem_of_app; auto.
Qed.

(** Once placed, the record is appended and the next chunk is expected at its end. *)
Lemma absorb_spec r l cs p next c s :
  represents s l -> capturing l = Some (r, cs, p, next) -> phase c = p -> extends r cs c ->
  _capture_mode s = Some CHUNKS -> _chunk_sidecar_binding_mode s = Some (has_sidecar_scheduler_binding c) ->
  (has_sidecar_scheduler_binding c = true -> _chunk_sidecar_generation_digest s = sidecar_generation_digest c) ->
  wp (digest ← do (chunk_digest c); _ ← _append digest; next ← get _next_chunk_index;
      _ ← set (set_next_chunk_index (next + 1));
      _ ← set (set_next_chunk_token_start (total cs + token_count c));
      _ ← set (set_last_chunk_exit_state_root (Some (exit_state_root c)));
      set (set_last_chunk_cache_table_root (Some (ch_cache_table_root c))))
    (fun _ s' => represents s' (next c) /\ phase_end p s' = phase_end p s)
    (fun e s' => failed s e s' /\ MAX_ROOT_ONLY_EXECUTION_RECORDS <= phase_records p s) s.
Proof.
  intros Hr Hl Hp He Hm Hs Hg. pose proof (capturing_facts _ _ _ _ _ _ Hr Hl) as (Hb & Hc & _).
  apply wp_bind, wp_do. rewrite chunk_digest_ok by apply made_chunk_facts, He.
  assert (forall s', _capture_mode s' = _capture_mode s ->
    _chunk_sidecar_binding_mode s' = _chunk_sidecar_binding_mode s ->
    _chunk_sidecar_generation_digest s' = _chunk_sidecar_generation_digest s ->
    _next_chunk_index s' = _next_chunk_index s + 1 -> _next_chunk_token_start s' = total cs + token_count c ->
    _last_chunk_exit_state_root s' = Some (exit_state_root c) ->
    _last_chunk_cache_table_root s' = Some (ch_cache_table_root c) -> captured r (cs ++ [c]) s') as Hsnoc.
  { intros. eapply captured_snoc; try eassumption. congruence. }
  destruct l; try discriminate; cbn in Hr, Hl; injection Hl as <- <- <- <-; cbn [phase_records phase_end].
  - destruct Hr as (Hst & _ & _ & Hch & Hn & Hd). wp_use append_prefill; [by apply sha256_length|done|done| |auto].
    intros _ s1 ->. apply wp_bind, wp_get. cbv beta. repeat apply wp_modify || apply wp_bind. cbn [represents].
    split; [|done]. split_and!; [done|by destruct Hb|by apply Hsnoc| |cbn; unfold zlen in *; rewrite length_app; cbn; lia|done].
    cbn. unfold prefill_chain, chain. by rewrite foldl_app.
  - destruct Hr as (Hst & _ & _ & Hmode & Hcov & Hroot & Hch & Hn & Hd & Ht).
    wp_use append_decode; [by apply sha256_length|done|done| |auto].
    intros _ s1 ->. apply wp_bind, wp_get. cbv beta. repeat apply wp_modify || apply wp_bind. cbn [represents].
    split; [|done]. rewrite app_assoc.
    split_and!; [done|by destruct Hb|by apply Hsnoc|done|done|done| |done|cbn; unfold zlen in *; rewrite length_app; cbn; lia|done].
    cbn. unfold decode_chain, chain. by rewrite foldl_app.
Qed.

(** A chunk is accepted only where the execution ends, and, in a receptive
    object, always there. *)
Lemma chunk_spec r l cs p next c s :
  represents s l -> capturing l = Some (r, cs, p, next) -> made_chunk c ->
  wp (accumulate_chunk c)
    (fun _ s' => phase c = p /\ extends r cs c /\ represents s' (next c) /\ phase_end p s' = total cs + token_count c)
    (fun e s' => failed s e s' /\ ~ (phase c = p /\ extends r cs c /\ receptive p c s)) s.
Proof.
  intros Hr Hl Hmade. pose proof (capturing_facts _ _ _ _ _ _ Hr Hl) as (Hb & Hc & Hst & Hnf & Hnr & Hd).
  unfold accumulate_chunk. wp_use require_state_spec.
  2:{ intros e s' (-> & He & Hn). destruct Hn. rewrite <- Hst. destruct p; set_solver. }
  intros _ ? [-> _]. wp_use capture_mode_spec.
  2:{ intros e s' (-> & He & m & Hm & Hne). split; [by split|]. intros (_ & _ & [Hrec _ _]). rewrite Hm in Hrec. by destruct m. }
  intros _ s1 (H1 & Hmode & Hs1). wp_use sidecar_spec.
  2:{ intros e s' [He Hn]. split; [by eapply failed_same|]. intros (_ & _ & [_ [Ho Hg] _]). apply Hn. by destruct Hs1 as [-> | ->]. }
  intros _ s2 (H2 & Hmode2 & Hs2 & Hg2). assert (same s s2) as H02 by by eapply same_trans.
  wp_use place_spec; [by eapply begun_same|by eapply captured_same| | |].
  { rewrite (sm_state _ _ H02), (sm_prompt _ _ H02). intros Hx. by apply Hd. }
  2:{ intros e s' [He Hn]. split; [by eapply failed_same|]. intros (Hp & [] & _). destruct Hn as [Hx1 Hx2].
      - split; try done. rewrite (sm_state _ _ H02). congruence.
      - rewrite (sm_state _ _ H02) in Hx1. apply Hd in Hx1. lia. }
  intros n s3 (H3 & -> & Hend & Hmode3 & Hs3 & Hg3 & Hp). assert (same s s3) as H03 by by eapply same_trans.
  wp_use state_root_spec; [by eapply begun_same|by eapply captured_same| |].
  2:{ intros e s' [He Hn]. split; [by eapply failed_same|]. by intros (_ & [] & _). }
  intros _ ? [-> Hentry]. destruct Hp. assert (phase c = p) as Hphase.
  { rewrite (sm_state _ _ H02), <- Hst in pl_phase0. by destruct (phase c), p. }
  assert (extends r cs c) as Hex.
  { split; try done. intros b Hin. eapply captured_same in Hc as [_ _ _ _ _ _ Hside]; [|exact H02].
    destruct (Hside b Hin) as [Hb1 Hb2]. rewrite Hs2 in Hb1. injection Hb1 as Hb1. revert Hb2 Hg2. rewrite <- Hb1.
    destruct (has_sidecar_scheduler_binding c) eqn:Eh; [intros Hb2 Hg2; by rewrite <- Hb2, <- Hg2|].
    intros _ _. revert Hb1 Eh. unfold has_sidecar_scheduler_binding.
    by destruct (sidecar_generation_digest b), (sidecar_generation_digest c). }
  eapply wp_mono; [eapply absorb_spec; try done; [by eapply represents_same|congruence|congruence|]| |].
  - intros Hh. rewrite Hg3. by apply Hg2.
  - cbv beta. intros _ s' [Hr' Hend']. split_and!; try done. rewrite Hend'. by rewrite <- Hphase.
  - cbv beta. intros e s' [Hf Hroom]. split; [by eapply failed_same|]. intros (_ & _ & [_ _ Hr0]).
    enough (phase_records p s3 = phase_records p s) by lia. destruct H03, p; cbn; done.
Qed.
End chunks.

(** ** Records *)

Lemma wp_do_pe {A} (m : res A) (Q : A -> accumulator -> Prop) s s1 :
  proof_error m -> same s s1 -> (forall a, m = Ok a -> Q a s1) -> wp (do m) Q (failed s) s1.
Proof.
  intros Hm Hs HQ. apply wp_do. destruct m; [by apply HQ|]. split; [done|by apply refusal_proof].
Qed.

Lemma wp_check_same b m (Q : unit -> accumulator -> Prop) s s1 :
  same s s1 -> (b = false -> Q tt s1) -> wp (check b m) Q (failed s) s1.
Proof. intros Hs HQ. apply wp_check; [|done]. intros _. by eapply failed_same, failed_here. Qed.

Section records.
Context `{Digest}.

Definition recordable (l : ledger) (r : request) : Prop := l = Prefilling r [] \/ l = Recording r.

Lemma represents_recording s l r s1 :
  represents s l -> recordable l r -> same s s1 -> _capture_mode s1 = Some RECORDS -> represents s1 (Recording r).
Proof.
  intros Hr Hl Hs Hm. destruct Hl as [-> | ->]; cbn in Hr |- *.
  - destruct Hr as (? & ? & _ & Hc & _). destruct Hs. split_and!; [congruence|by eapply begun_same|done|by rewrite sm_prefill_chain0, Hc].
  - destruct Hr as (? & ? & _ & ?). destruct Hs. split_and!; [congruence|by eapply begun_same|done|congruence].
Qed.

Lemma append_recording s0 r d s :
  same s0 s -> represents s (Recording r) -> length d = 32%nat ->
  wp (_append d) (fun _ s' => represents s' (Recording r)) (failed s0) s.
Proof.
  intros Hs (Hst & Hb & Hm & h & Hh) Hd. eapply wp_mono; [by eapply append_prefill| |].
  - cbv beta. intros _ s' ->. split_and!; [done|by destruct Hb|done|]. cbn. eauto.
  - cbv beta. intros e s' [? _]. by eapply failed_same.
Qed.

Lemma stage_spec s l r i t root :
  represents s l -> recordable l r ->
  wp (accumulate_stage i t root) (fun _ s' => represents s' (Recording r)) (failed s) s.
Proof.
  intros Hr Hl. unfold accumulate_stage. wp_use require_state_spec.
  2:{ intros e s' (-> & He & _). by split. }
  intros _ ? [-> _]. wp_use capture_mode_spec; [|intros e s' (-> & He & _); by split].
  intros _ s1 (Hs & Hm & _). pose proof (represents_recording _ _ _ _ Hr Hl Hs Hm) as (Hst & Hb & _ & Hc).
  apply wp_bind, wp_do_pe; [auto with proof_error|done|]. intros stage _.
  apply wp_bind, wp_do_pe; [auto with proof_error|done|]. intros token _.
  apply wp_bind, wp_do_pe; [auto with proof_error|done|]. intros rt _. apply wp_bind, wp_get. unfold id. cbv beta.
  rewrite bool_decide_eq_true_2 by done. apply wp_bind, wp_bind, wp_check_same; [done|]. intros _. apply wp_modify.
  apply append_recording; [eapply same_trans; [done|same_set]| |by apply sha256_length].
  split_and!; [done|by destruct Hb|done|done].
Qed.

Lemma check_address_spec s a r s1 :
  same s s1 -> begun r s1 ->
  wp (check_address a)
    (fun key s' => s' = s1 /\ key = (layer_index a, cache_table_id a)
       /\ _cache_table_bindings s1 !! cache_table_id a = Some (layer_index a, ad_cache_kind a))
    (failed s) s1.
Proof.
  intros Hs []. unfold check_address. apply wp_bind, wp_get. unfold id. cbv beta. rewrite bg_request0.
  apply wp_bind, wp_assert; [|done]. intros ? [= <-]. apply wp_bind, wp_check_same; [done|]. intros _. apply wp_bind.
  destruct (_cache_table_bindings s1 !! cache_table_id a) as [table|] eqn:Et; [apply wp_ret|apply wp_throw; split; [done|by apply refusal_proof]].
  apply wp_bind, wp_check_same; [done|]. intros ->%negb_false_iff%bool_decide_eq_true.
  do 3 (apply wp_bind, wp_check_same; [done|]; intros _). done.
Qed.

Lemma record_page_spec s key a root s1 :
  same s s1 -> is_Some (_cache_table_chains s1 !! key) ->
  wp (record_page key a root) (fun _ s' => same s s' /\ _capture_mode s' = _capture_mode s1) (failed s) s1.
Proof.
  intros Hs [h Hh]. unfold record_page. apply wp_bind, wp_get. unfold id. cbv beta.
  do 2 (apply wp_bind, wp_check_same; [done|]; intros _). apply wp_bind, wp_modify, wp_bind.
  set (s2 := set_cache_latest_versions _ s1). assert (same s s2) as H2 by (eapply same_trans; [done|same_set]).
  apply wp_mono with (Q := fun _ s' => same s s' /\ _capture_mode s' = _capture_mode s1
      /\ _cache_table_chains s' = _cache_table_chains s1) (E := failed s); [|..].
  - case_bool_decide; [|apply wp_ret; by split_and!]. apply wp_bind, wp_modify, wp_modify.
    split_and!; [|done|done]. eapply same_trans; [done|same_set].
  - cbv beta. intros _ s3 (H3 & Hm & Hc). apply wp_bind, wp_do_pe; [|done|].
    { apply pe_index. by rewrite Hh. }
    intros chain _. apply wp_bind, wp_do_pe; [auto with proof_error|done|]. intros encoded _. apply wp_modify.
    split; [|done]. eapply same_trans; [done|]. same_set. intros k. cbn. rewrite lookup_insert_is_Some', Hc. auto.
  - done.
Qed.

Lemma pages_spec s l r a root :
  represents s l -> recordable l r ->
  wp (accumulate_kv_pages a root) (fun _ s' => represents s' (Recording r)) (failed s) s.
Proof.
  intros Hr Hl. unfold accumulate_kv_pages. wp_use require_state_spec.
  2:{ intros e s' (-> & He & _). by split. }
  intros _ ? [-> _]. wp_use capture_mode_spec; [|intros e s' (-> & He & _); by split].
  intros _ s1 (Hs & Hm & _). pose proof (represents_recording _ _ _ _ Hr Hl Hs Hm) as (Hst & Hb & _ & Hc).
  wp_use (check_address_spec s a r); [done|done| |done]. intros key ? (-> & -> & Ht).
  apply wp_bind, wp_do_pe; [auto with proof_error|done|]. intros rt _.
  wp_use record_page_spec; [done|by eapply bg_tables| |done]. intros _ s2 [H2 Hm2].
  pose proof (represents_recording _ _ _ _ Hr Hl H2 ltac:(congruence)) as (Hst2 & Hb2 & _ & Hc2).
  apply wp_bind, wp_get. unfold id. cbv beta. rewrite bool_decide_eq_true_2 by done.
  apply wp_bind, wp_bind, wp_check_same; [done|]. intros _. apply wp_modify.
  apply wp_bind, wp_do_pe; [auto with proof_error|eapply same_trans; [done|same_set]|]. intros encoded _.
  apply append_recording; [eapply same_trans; [done|same_set]| |by apply sha256_length].
  split_and!; [done|by destruct Hb2|cbn; congruence|done].
Qed.
End records.

(** ** [begin] *)

Lemma made_family_tensors f :
  made_family f ->
  family_ok f /\ if bool_decide (cache_kind f = ATTENTION_KV) then is_Some (key_tensor_id f) /\ is_Some (value_tensor_id f)
                 else state_tensor_ids f <> [].
Proof.
  unfold made_family. intros Hf. split; [by eapply family_new_ok|]. revert Hf. unfold LayerCacheRelationV3_new. intros Hf.
  apply bind_ok in Hf as (layer & _ & Hf). apply bind_ok in Hf as (kind & Hk & Hf). apply bind_ok in Hf as (sem & _ & Hf).
  apply bind_ok in Hf as ([key value] & Hkv & Hf). apply bind_ok in Hf as (states & _ & Hf).
  apply bind_ok in Hf as ([] & _ & Hf). apply bind_ok in Hf as ([] & _ & Hf).
  apply bind_ok in Hf as ([] & Hs%reject_ok & Hf). apply (inj Ok) in Hf.
  assert (kind = cache_kind f /\ key = key_tensor_id f /\ value = value_tensor_id f /\ states = state_tensor_ids f) as (-> & -> & -> & ->)
    by (by rewrite <- Hf).
  unfold family_tensors in Hkv. destruct (bool_decide (cache_kind f = ATTENTION_KV)) eqn:Ek.
  - apply bind_ok in Hkv as ([] & _ & Hkv). apply bind_ok in Hkv as (k & _ & Hkv). apply bind_ok in Hkv as (v & _ & Hkv).
    apply bind_ok in Hkv as ([] & _ & Hkv). apply (inj Ok) in Hkv. injection Hkv as <- <-. eauto.
  - apply bool_decide_eq_false in Ek. assert (cache_kind f = GDN_STATE) as Eg.
    { unfold one_of, member in Hk. destruct (bool_decide _) eqn:Em in Hk; [|discriminate].
      apply bool_decide_eq_true in Em. unfold _CACHE_FAMILY_KINDS in Em. cbn [fmap list_fmap] in Em. set_solver. }
    rewrite bool_decide_eq_true_2 in Hs by done. intros Hn. rewrite Hn in Hs. done.
Qed.

(** Every table has a name. *)
Definition named_tables (m : gmap text (Z * CacheKind)) : Prop := forall id x, m !! id = Some x -> ident id.

Lemma named_insert m id x : named_tables m -> ident id -> named_tables (<[id := x]> m).
Proof. intros Hm Hid id' x' [[-> _]|[_ ?]]%lookup_insert_Some; [done|by eapply Hm]. Qed.

Lemma add_family_ok m f :
  made_family f -> named_tables m -> exists m', add_family m f = Ok m' /\ named_tables m' /\ m' <> ∅.
Proof.
  intros [(_ & _ & Hk & Hv & Hs) Ht]%made_family_tensors Hm. unfold add_family. destruct (bool_decide _).
  - destruct Ht as [[k Ek] [v Ev]]. rewrite Ek, Ev in *. eexists. split_and!; [done| |apply insert_non_empty].
    by repeat apply named_insert.
  - eexists. split; [done|]. revert m Hm. induction (state_tensor_ids f) as [|id ids IH]; [done|]. cbn.
    apply Forall_cons in Hs as [Hid Hs]. intros m Hm. destruct ids as [|id' ids].
    + cbn. split; [by apply named_insert|apply insert_non_empty].
    + apply IH; [done|done|by apply named_insert].
Qed.

Lemma bindings_ok families m :
  Forall made_family families -> families <> [] -> named_tables m ->
  exists m', fold_res add_family m families = Ok m' /\ named_tables m' /\ m' <> ∅.
Proof.
  intros Hf. revert m. induction Hf as [|f fs Hf Hfs IH]; [done|]. intros m _ Hm. cbn [fold_res].
  destruct (add_family_ok m f Hf Hm) as (m' & -> & Hm' & Hne). cbn. destruct fs as [|g fs]; [by exists m'|]. by apply IH.
Qed.

Lemma made_cache_families c : made_cache c -> layer_caches c <> [].
Proof.
  unfold made_cache, remake_cache, CacheRelationSpecV3_new. destruct c. cbn [layer_caches allows_prefix_cache_sharing].
  intros Hc. checks. match goal with H : (zlen _ =? 0) = false |- _ => rename H into Hz end. by intros ->.
Qed.

Lemma chains_ok `{Digest} ctx l :
  Forall (fun b : text * (Z * CacheKind) => ident b.1) l ->
  exists chains, mapR (initial_chain ctx) l = Ok chains /\ chains.*1 = (fun b => (b.2.1, b.1)) <$> l.
Proof.
  induction 1 as [|[id [layer k]] l Hid Hl (chains & Hc & E)]; [by exists []|]. cbn [mapR]. cbn in Hid.
  destruct (identifier_ascii id Hid) as [b Hb]. unfold ident in Hid.
  assert (initial_chain ctx (id, (layer, k)) = Ok ((layer, id), _hash _CACHE_TABLE_INIT_DOMAIN [ctx; pack_I layer; b])) as ->.
  { unfold initial_chain, Accumulator._identifier. by rewrite Hid, Hb. }
  cbn [mbind res_bind]. rewrite Hc. eexists. split; [done|]. cbn. by rewrite E.
Qed.

Section begin.
Context `{Digest}.

Lemma begin_spec p c e s :
  represents s Fresh -> made_profile p -> valid_precontext c ->
  wp (begin p c e)
    (fun _ s' => exists z, e = PInt z /\ admissible (MkRequest p c z) /\ represents s' (Prefilling (MkRequest p c z) [])
       /\ _capture_mode s' = None /\ _chunk_sidecar_binding_mode s' = _chunk_sidecar_binding_mode s
       /\ _chunk_sidecar_generation_digest s' = _chunk_sidecar_generation_digest s
       /\ _prefill_max_logical_token_exclusive s' = _prefill_max_logical_token_exclusive s)
    (fun err s' => represents s' Fresh /\ refusal err /\ forall z, e = PInt z -> ~ admissible (MkRequest p c z)) s.
Proof.
  intros Hr Hp Hc. assert (forall m, refusal (Exc ProofV3Error m)) as Hm by done.
  unfold begin. wp_use require_state_spec.
  2:{ cbn in Hr. destruct Hr as [Hst _]. intros err s' (-> & _ & Hn). destruct Hn. rewrite Hst. set_solver. }
  intros _ ? [-> _]. apply wp_bind, wp_do. destruct (require_hard_execution_capability p) as [[]|err] eqn:Ecap.
  2:{ split; [done|split; [|intros z _ []; cbn in *; congruence]]. unfold require_hard_execution_capability in Ecap. destruct (negb _); [|done]. by injection Ecap as <-. }
  apply wp_bind, wp_check; [intros Hn%negb_true_iff%bool_decide_eq_false; split; [done|split; [done|by intros z _ []]]|].
  intros Habi%negb_false_iff%bool_decide_eq_true. apply wp_bind, wp_do.
  destruct (Accumulator._u64 e "cache_epoch") as [epoch|err] eqn:Ee.
  2:{ split; [done|split; [by eapply refusal_proof_error; [apply pe_acc_u64|]|]]. intros z -> [].
      cbn in *. unfold Accumulator._u64 in Ee. by rewrite (proj2 (u64_spec _ _ z)) in Ee. }
  apply u64_spec in Ee as [-> Hepoch]. apply wp_bind, wp_do. pose proof (pe_profile_digest p Hp) as Hpd.
  destruct (profile_digest p) as [digest|err] eqn:Ed.
  2:{ split; [done|split; [by eapply refusal_proof_error|]]. intros z _ []. cbn in *. congruence. }
  apply wp_bind, wp_check; [intros Hn%negb_true_iff%bool_decide_eq_false; split; [done|split; [done|by intros z _ []]]|].
  intros Hman%negb_false_iff%bool_decide_eq_true.
  apply wp_bind, wp_check; [intros Hn%negb_true_iff%bool_decide_eq_false; split; [done|split; [done|]]|].
  { intros z _ []. cbn in *. congruence. }
  intros Hdig%negb_false_iff%bool_decide_eq_true.
  apply wp_bind, wp_check; [intros Hn; split; [done|split; [done|]]|].
  { intros z _ []. unfold prompt_tokens in *. cbn in *. lia. }
  intros Hlen. set (rq := MkRequest p c epoch). assert (admissible rq) as Hadm.
  { split; cbn; try done; [by rewrite Ed, Hdig|unfold prompt_tokens; cbn; lia]. }
  rewrite precontext_digest_ok by done. apply wp_bind, wp_do. cbv zeta.
  assert (_hash _ROOT_CONTEXT_DOMAIN [digest; sha256 (precontext_input c); pack_Q epoch] = root_context rq) as ->.
  { unfold root_context, precommit. cbn. by rewrite Hdig. }
  do 6 apply wp_bind, wp_modify. apply wp_bind, wp_do. unfold Request.initial_execution_state_anchor.
  rewrite precontext_digest_ok by done. cbn [mbind res_bind]. do 2 apply wp_bind, wp_modify.
  pose proof (mp_items p Hp) as Hitems. apply wp_bind, wp_do.
  destruct (bindings_ok (layer_caches (cache (relation_spec p))) ∅) as (bindings & -> & Hnames & Hne).
  { apply Hitems. } { apply made_cache_families, Hitems. } { intros id x Hx. by rewrite lookup_empty in Hx. }
  rewrite bool_decide_eq_false_2 by done. apply wp_bind, wp_check; [done|]. intros _. do 6 apply wp_bind, wp_modify.
  apply wp_bind, wp_do. destruct (chains_ok (root_context rq) (map_to_list bindings)) as (chains & -> & Hkeys).
  { apply Forall_forall. intros [id x] Hx%elem_of_map_to_list. by eapply Hnames. }
  apply wp_bind, wp_modify, wp_modify. exists epoch. split; [done|]. split; [done|]. split; [|by split; [apply Hr|]].
  cbn [represents] in Hr |- *. destruct Hr as (Hst & Hd & Hpc & Hcm & Hi & Hs & Hx & Ht). split_and!; try done.
  - split; try done. cbn. intros id l k Hb%elem_of_map_to_list. apply not_eq_None_Some. intros Hn%not_elem_of_list_to_map.
    apply Hn. rewrite Hkeys. apply list_elem_of_fmap. by exists (id, (l, k)).
  - split; try done; [constructor|]. intros ch []%not_elem_of_nil.
Qed.
End begin.

(** ** Sealing *)

Section sealing.
Context `{Digest}.

(** The tests that a per-record capture fails. *)
Lemma wp_chunks_only m b (Q : unit -> accumulator -> Prop) (E : exc -> accumulator -> Prop) s :
  (b = true -> E (Exc ProofV3UnavailableError m) s) -> (b = false -> Q tt s) ->
  wp (if b then throw (Exc ProofV3UnavailableError m) else mret tt) Q E s.
Proof. intros HE HQ. destruct b; [by apply wp_throw, HE|by apply wp_ret, HQ]. Qed.

Lemma failed_unavailable s m : failed s (Exc ProofV3UnavailableError m) s.
Proof. split; done. Qed.

Lemma seal_recording s r v : represents s (Recording r) -> wp (seal_prefill v) (fun _ _ => False) (failed s) s.
Proof.
  intros (Hst & [] & Hm & _). unfold seal_prefill. wp_use require_state_spec; [|intros e s' (-> & He & _); by split].
  intros _ ? [-> _]. apply wp_bind, wp_do_pe; [auto with proof_error|done|]. intros n _. apply wp_bind, wp_get. unfold id.
  apply wp_bind, wp_check_same; [done|]. intros _. rewrite bg_request0. apply wp_bind, wp_assert; [|done]. intros ? [= <-].
  apply wp_bind, wp_check_same; [done|]. intros _. rewrite Hm. apply wp_bind, wp_chunks_only.
  - intros _. apply failed_unavailable.
  - by intros ?%negb_false_iff%bool_decide_eq_true.
Qed.

Lemma seal_prefill_spec s r ps v :
  represents s (Prefilling r ps) ->
  wp (seal_prefill v)
    (fun root s' => v = PInt (prompt_tokens r) /\ covers_prompt r ps /\ root = prefill_root r ps
       /\ represents s' (Decoding r ps []) /\ _decode_max_logical_token_exclusive s' = prompt_tokens r)
    (fun e s' => failed s e s' /\ ~ (v = PInt (prompt_tokens r) /\ covers_prompt r ps
       /\ _prefill_max_logical_token_exclusive s = prompt_tokens r)) s.
Proof.
  intros (Hst & Hb & Hc & Hch & Hn & Hd). pose proof Hb as [[_ _ _ _ _ Hlen [_ _ Hpos]]]. pose proof Hc as [].
  assert (forall m, failed s (Exc ProofV3Error m) s) as Hf by apply failed_here.
  unfold seal_prefill. wp_use require_state_spec.
  2:{ intros e s' (-> & He & Hs). destruct Hs. rewrite Hst. set_solver. }
  intros _ ? [-> _]. apply wp_bind, wp_do. destruct (Accumulator._u32 v "context_token_count" true) as [n|e] eqn:Ev.
  2:{ split; [split; [done|by eapply refusal_proof_error; [apply pe_acc_u32|]]|]. intros [-> _]. unfold prompt_tokens in Ev.
      by rewrite (proj2 (acc_u32_ok _ _ true (Request.context_token_count (rq_context r)))) in Ev. }
  apply acc_u32_ok in Ev as [-> Hn1]. apply wp_bind, wp_get. unfold id. apply wp_bind, wp_check.
  { rewrite bg_max_context0. intros Hx. split; [done|]. intros [[= ->] _]. lia. }
  intros _. rewrite bg_request0. apply wp_bind, wp_assert; [|done]. intros ? [= <-]. apply wp_bind, wp_check.
  { intros Hx. split; [done|]. intros [[= ->] _]. unfold prompt_tokens in Hx. lia. }
  intros Hx%negb_false_iff%Z.eqb_eq. subst n. fold (prompt_tokens r).
  apply wp_bind, wp_chunks_only.
  { intros Hx%negb_true_iff%bool_decide_eq_false. split; [apply failed_unavailable|]. intros (_ & [Hne _] & _). auto. }
  intros Hmode%negb_false_iff. rewrite Hmode. apply bool_decide_eq_true in Hmode. cbn [andb].
  apply wp_bind, wp_check; [rewrite cp_start0; intros Hx; split; [done|]; intros (_ & [_ ?] & ?); lia|].
  rewrite cp_start0. intros Hx. assert (total ps = prompt_tokens r /\ _prefill_max_logical_token_exclusive s = prompt_tokens r)
    as [Htotal Hmax] by lia. rewrite Hmax.
  apply wp_bind, wp_check; [lia|]. intros _. apply wp_bind, wp_check.
  { rewrite Hn. intros Hz. split; [done|]. intros (_ & [Hne _] & _). destruct ps; [done|]. rewrite zlen_cons in Hz. pose proof (zlen_nonneg ps). lia. }
  rewrite Hn. intros Hz. rewrite bg_context0, Hch. apply wp_bind, wp_assert; [|done]. intros ? [= <-].
  apply wp_bind, wp_assert; [|done]. intros ? [= <-]. cbv zeta. do 2 apply wp_bind, wp_modify. apply wp_bind, wp_modify.
  do 2 apply wp_bind, wp_modify. apply wp_ret. split; [done|].
  assert (covers_prompt r ps) as Hcov by (split; [by intros ->|done]).
  split; [done|]. split; [done|]. split; [|done]. cbn [represents]. rewrite app_nil_r.
  split_and!; try done. by destruct Hb.
Qed.

Lemma check_decode_spec s r ps ds n :
  represents s (Decoding r ps ds) ->
  wp (check_decode_records s n) (fun _ s' => s' = s /\ n = total ds)
    (fun e s' => failed s e s' /\ ~ (n = total ds /\ _decode_max_logical_token_exclusive s = prompt_tokens r + n)) s.
Proof.
  intros (Hst & Hb & Hc & Hm & [Hne Hp] & _ & _ & _ & Hn & Ht). destruct Hc as [[_ Hds]%execution_tokens%Forall_app _ _ Hs _ _ _].
  assert (forall m, failed s (Exc ProofV3Error m) s) as Hf by apply failed_here.
  unfold check_decode_records. rewrite Hm, Hs, Ht, total_app, Hp, Hn. rewrite bool_decide_eq_true_2 by done. cbn [negb andb].
  apply wp_bind, wp_ret, wp_bind, wp_check; [intros Hx; split; [done|]; lia|]. intros Hx.
  assert (n = total ds /\ _decode_max_logical_token_exclusive s = prompt_tokens r + n) as [-> Hmax] by lia. rewrite Hmax.
  apply wp_bind, wp_check; [lia|]. intros _. destruct ds as [|d ds].
  - change (total []) with 0 in *. cbn [Z.eqb]. change (zlen []) with 0. apply wp_check; [cbn [Z.eqb negb orb]; lia|done].
  - apply Forall_cons in Hds as [Hd Hds]. pose proof (total_nonneg ds Hds). cbn [total foldr]. unfold total in *. cbn [foldr] in *.
    destruct (Z.eqb_spec (token_count d + foldr (fun c n => token_count c + n) 0 ds) 0); [lia|].
    rewrite zlen_cons. pose proof (zlen_nonneg ds). apply wp_check; [lia|done].
Qed.

Lemma pe_envelope c : proof_error (envelope_of c).
Proof.
  unfold envelope_of, Payload.ProofV3CommitmentEnvelope_new, Payload._fixed, Payload._u32, Payload._u64.
  assert (forall v n, proof_error (fixed32 ProofV3Error v n false)) as Hf by (intros; apply (pe_fixed32 v n false)).
  assert (forall v n b, proof_error (u32 v n b)) as Hu by (intros; apply (pe_u32 v n b)).
  do 6 (apply pe_bind; [done|]; intros ? _). destruct (bool_decide _); [done|].
  do 6 (apply pe_bind; [done|]; intros ? _). destruct (bool_decide _); [done|].
  do 2 (apply pe_bind; [done|]; intros ? _). apply pe_bind; [apply (pe_acc_u64 _ "cache_epoch")|done].
Qed.

Lemma bind_output_total c o :
  valid_precontext c -> Request.bind_output c o = Ok (Request.MkRequestBinding c o (sha256 (request_input c o))).
Proof.
  intros Hv. unfold Request.bind_output, Request.ExecutionRequestBindingV3_new. rewrite request_digest_ok by done.
  cbn [mbind res_bind]. rewrite fixed_bytes by exact (sha256_length _). cbn [mbind res_bind]. by rewrite bool_decide_eq_true_2.
Qed.

Lemma cache_root_spec s r cs :
  begun r s -> captured r cs s -> _capture_mode s = Some CHUNKS -> cs <> [] ->
  _seal_cache_table_root s = (Ok (cache_root r cs), s).
Proof.
  intros [] [] Hm Hne. unfold _seal_cache_table_root, mbind, method_bind, get, id. rewrite bg_context0. cbn.
  rewrite bool_decide_eq_true_2 by done. rewrite cp_tables0, cp_index0. unfold cache_root.
  apply last_is_Some in Hne as [c ->]. done.
Qed.

(** What [seal_decode] needs, besides the execution. *)
Record sealable (r : request) (ps ds : list chunk) (v : pyval) (o : Request.ExecutionOutputBindingV3) (s : accumulator) : Prop := {
  sb_count : v = PInt (total ds);
  sb_output : Request.decode_token_count o = total ds;
  sb_range : 0 <= total ds < 2 ^ 32;
  sb_limit : total ds <= max_verified_decode_tokens (rq_profile r);
  sb_end : _decode_max_logical_token_exclusive s = prompt_tokens r + total ds;
  sb_envelope : exists e, envelope_of (sealed_commitment r ps ds o) = Ok e;
}.

Lemma seal_decode_spec s r ps ds v o :
  represents s (Decoding r ps ds) ->
  wp (seal_decode v o)
    (fun k s' => v = PInt (total ds) /\ Request.decode_token_count o = total ds /\ k = sealed_commitment r ps ds o
       /\ represents s' (Sealed r ps ds o))
    (fun e s' => failed s e s' /\ ~ sealable r ps ds v o s) s.
Proof.
  intros Hr. pose proof Hr as (Hst & Hb & Hc & Hm & [Hne Hp] & Hroot & Hch & Hn & Hd & Ht). pose proof Hb as [].
  assert (forall m, failed s (Exc ProofV3Error m) s) as Hf by apply failed_here.
  unfold seal_decode. wp_use require_state_spec.
  2:{ intros e s' (-> & He & Hs). destruct Hs. rewrite Hst. set_solver. }
  intros _ ? [-> _]. apply wp_bind, wp_do. destruct (Accumulator._u32 v "decode_token_count" false) as [n|e] eqn:Ev.
  2:{ split; [split; [done|by eapply refusal_proof_error; [apply pe_acc_u32|]]|]. intros [-> ? ? _ _ _].
      by rewrite (proj2 (acc_u32_ok _ _ false (total ds))) in Ev. }
  apply acc_u32_ok in Ev as [-> Hn1]. apply wp_bind, wp_get. unfold id. apply wp_bind, wp_check.
  { rewrite bg_max_decode0. intros Hx. split; [done|]. intros [[= ->] _ _ ? _ _]. lia. }
  intros _. apply wp_bind, wp_check; [intros Hx; split; [done|]; intros [[= ->] ? _ _ _ _]; lia|]. intros Ho.
  wp_use (check_decode_spec s r ps ds); [exact Hr| |].
  2:{ intros e s' [? Hx]. split; [done|]. intros [[= ->] _ _ _ ? _]. by apply Hx. }
  intros _ ? [-> ->]. rewrite bg_context0, Hroot, Hch, bg_request0. do 4 (apply wp_bind, wp_assert; [|done]; intros ? [= <-]).
  pose proof (ad_context r bg_admissible0) as Hv. apply wp_bind, wp_do. rewrite bind_output_total by done. cbv zeta.
  apply wp_bind. unfold wp at 1. rewrite (cache_root_spec s r (ps ++ ds)); [|done|done|done|by destruct ps].
  apply wp_bind, wp_do. rewrite precontext_digest_ok by done. apply wp_bind, wp_do.
  match goal with |- context [ExecutionAccumulatorCommitmentV3_new ?k] => assert (k = sealed_commitment r ps ds o) as -> end.
  { rewrite Hn, Hd, Ht, bg_epoch0. done. }
  unfold ExecutionAccumulatorCommitmentV3_new. pose proof (pe_envelope (sealed_commitment r ps ds o)) as He.
  destruct (envelope_of (sealed_commitment r ps ds o)) as [env|e] eqn:Eenv; cbn [mbind res_bind].
  - do 2 apply wp_bind, wp_modify. apply wp_ret. apply negb_false_iff, Z.eqb_eq in Ho.
    split; [done|]. split; [done|]. split; [done|]. split; [done|]. split; [by destruct Hb|by destruct Hc|done|by eexists].
  - split; [split; [done|by apply refusal_proof]|]. intros [_ _ _ _ _ [e' He']]. congruence.
Qed.
End sealing.

(** ** After sealing *)

Section after.
Context `{Digest}.

Lemma freeze_spec s l :
  represents s l ->
  wp freeze_precommit
    (fun _ s' => exists r ps ds o, l = Sealed r ps ds o /\ represents s' (Frozen r ps ds o))
    (fun e s' => s' = s /\ refusal e /\ _state s <> SEALED) s.
Proof.
  intros Hr. unfold freeze_precommit. wp_use require_state_spec.
  2:{ intros e s' (-> & He & Hs). split_and!; [done|done|]. intros Hx. apply Hs. rewrite Hx. set_solver. }
  intros _ ? [-> Hs]. apply wp_modify. rewrite (represents_state s l Hr) in Hs.
  destruct l as [| | | |r ps ds o| |]; try (exfalso; clear -Hs; set_solver). destruct Hr as [_ []].
  exists r, ps, ds, o. split; [done|]. split; [done|]. split; [by destruct fn_begun0|done..].
Qed.

(** The ticket for the envelope of a frozen object. *)
Record ticket_for (r : request) (k : ExecutionAccumulatorCommitmentV3) (t : PostCommitOpeningTicketV3) : Prop := {
  tf_challenge : ot_proof_challenge_id t = Request.proof_challenge_id (rq_context r);
  tf_precommit : ot_precommit_context_digest t = ac_precommit_context_digest k;
  tf_profile : ot_execution_profile_digest t = ac_execution_profile_digest k;
  tf_lease : ot_cache_lease_digest t = ac_cache_lease_digest k;
  tf_envelope : exists e, bind k (rq_profile r) = Ok e /\ ot_commitment_envelope_digest t = Payload.envelope_digest e;
}.

Lemma bind_ok_sealed r ps ds o :
  admissible r -> bind (sealed_commitment r ps ds o) (rq_profile r) = envelope_of (sealed_commitment r ps ds o).
Proof.
  intros []. unfold bind. cbn [ac_static_manifest_digest ac_execution_profile_digest sealed_commitment].
  rewrite ad_manifest. unfold differ. rewrite bool_decide_eq_true_2 by done. cbn [negb reject mbind res_bind].
  rewrite ad_profile. cbn [mbind res_bind]. by rewrite bool_decide_eq_true_2.
Qed.

Lemma open_spec s r ps ds o t :
  represents s (Frozen r ps ds o) ->
  wp (open_postnonce t) (fun _ _ => False)
    (fun e s' => s' = s /\ refusal e
       /\ (exc_kind e = ProofV3UnavailableError <-> ticket_for r (sealed_commitment r ps ds o) t)) s.
Proof.
  intros [Hst [[] _ Hs [env Henv]]]. unfold open_postnonce. wp_use require_state_spec.
  2:{ intros e s' (-> & _ & Hn). destruct Hn. rewrite Hst. set_solver. }
  intros _ ? [-> _]. apply wp_bind, wp_get. unfold id. rewrite Hs. apply wp_bind, wp_assert; [|done]. intros ? [= <-].
  rewrite bg_request0. apply wp_bind, wp_assert; [|done]. intros ? [= <-].
  do 4 (apply wp_bind, wp_check; [intros Hx%negb_true_iff%bool_decide_eq_false; split; [done|split; [done|by split; [|intros []]]]|];
        intros ?%negb_false_iff%bool_decide_eq_true).
  rewrite bg_profile0. apply wp_bind, wp_assert; [|done]. intros ? [= <-]. apply wp_bind, wp_do.
  pose proof (bind_ok_sealed r ps ds o bg_admissible0) as Hbind. rewrite Henv in Hbind. rewrite Hbind.
  apply wp_bind, wp_check.
  - intros Hx%negb_true_iff%bool_decide_eq_false. split_and!; [done|done|]. split; [done|]. intros [_ _ _ _ (e & He & Hte)]. congruence.
  - intros Hx%negb_false_iff%bool_decide_eq_true. apply wp_throw. split_and!; [done|done|]. split; [|done]. intros _. split; eauto.
Qed.

Lemma release_spec s l :
  represents s l -> release s = (Ok tt, blank RELEASED).
Proof.
  intros Hr. unfold release, mbind, method_bind, get. rewrite (represents_state s l Hr). destruct l; try done. cbn in Hr. by rewrite Hr.
Qed.
End after.
