(* ===== verification/AccumulatorTheory.v ===== *)
(** * The accumulator implements its ledger

    Every program of calls: the object stands for a ledger of [Ledger], what it
    returns is what the ledger allows, and what it seals is a function of the
    chunks it accepted. *)

From Stdlib Require Import ZArith Lia.
From Stdlib Require Import Strings.Byte.
From coqutil Require Import Word.LittleEndianList.
From stdpp Require Import base gmap sets list strings.
From S2P Require Import Prelude Method Sha256 Merkle MerkleTheory Validate Wire Text Relation Graph Policy Spec Profile SpecGraph GraphLemmas SpecGraphTheory SpecErrors Json SpecJsonTheory Payload PayloadTheory Request RequestTheory Challenge TierAudit Verifier Reveal Accumulator Ledger AccumulatorLemmas.

Import Verifier Relation Graph Spec SpecGraph Profile Reveal Accumulator.
Local Open Scope Z_scope.

#[local] Arguments t_lit s : simpl never.

Section refinement.
Context `{Digest}.

(** ** Calls that the object is not ready for *)

Definition enabled (c : call) (st : AccumulatorState) : Prop :=
  match c with
  | Begin _ _ _ => st = NEW
  | Stage _ _ _ | Chunk _ | Pages _ _ => st = PREFILL \/ st = DECODE
  | SealPrefill _ => st = PREFILL
  | SealDecode _ _ => st = DECODE
  | Freeze => st = SEALED
  | Open _ => st = FROZEN
  | Release => True
  end.

Definition refused (c : call) (s : accumulator) : Prop :=
  wp (perform c) (fun _ _ => False) (fun e s' => s' = s /\ refusal e) s.

Lemma not_enabled c s : ~ enabled c (_state s) -> refused c s.
Proof.
  unfold refused. intros Hn.
  destruct c; try (destruct Hn; exact I); unfold_call; apply wp_answering;
    (wp_use require_state_spec; [intros _ s' [-> Hs]; destruct Hn; cbn; set_solver|by intros e s' (-> & ? & _)]).
Qed.

Lemma other_mode c s m :
  _capture_mode s = Some m -> match c with Stage _ _ _ | Pages _ _ => m = CHUNKS | Chunk _ => m = RECORDS | _ => False end ->
  refused c s.
Proof.
  unfold refused. intros Hm Hc. destruct c; try done; subst m; unfold_call; apply wp_answering;
    (wp_use require_state_spec; [|by intros e s' (-> & ? & _)]); intros _ ? [-> _];
    (wp_use capture_mode_spec; [|by intros e s' (-> & ? & _)]); intros _ s' (Hs & Hm' & _);
    apply (sm_mode _ _ Hs) in Hm; congruence.
Qed.

(** ** One call *)

Definition simulates (c : call) (l : ledger) (s : accumulator) : Prop :=
  wp (perform c) (fun a s' => exists l', ledger_step c a l l' /\ represents s' l')
    (fun e s' => represents s' l /\ refusal e) s.

Lemma refused_simulates c l s : represents s l -> refused c s -> simulates c l s.
Proof. intros Hr Hc. eapply wp_mono; [exact Hc|done|]. by intros e s' [-> ?]. Qed.

Lemma failed_represents s l e s' :
  represents s l -> l <> Fresh -> l <> Released -> failed s e s' -> represents s' l /\ refusal e.
Proof. intros Hr Hf Hd [Hs He]. split; [by eapply represents_same|done]. Qed.

Lemma record_simulates c s l :
  match c with Stage _ _ _ | Pages _ _ => True | _ => False end -> represents s l -> simulates c l s.
Proof.
  intros Hc Hr. pose proof (represents_state s l Hr) as Hst.
  assert (forall r, recordable l r -> simulates c l s) as Hrec.
  { intros r Hl. assert (l <> Fresh /\ l <> Released) as [Hf Hd] by (by destruct Hl as [-> | ->]).
    destruct c; try done; apply wp_answering;
      (eapply wp_mono; [first [by eapply stage_spec|by eapply pages_spec]| |]; cbv beta;
       [intros _ s' Hs'|intros e s'; by apply failed_represents]);
      exists (Recording r); (split; [destruct Hl as [-> | ->]; constructor|done]). }
  destruct l as [|r ps|r|r ps ds|r ps ds o|r ps ds o|]; cbn [represents] in Hr.
  all: try (apply refused_simulates; [done|]; apply not_enabled; rewrite Hst; destruct c; try done; cbn; naive_solver).
  - destruct ps as [|p ps]; [apply (Hrec r); by left|]. apply refused_simulates; [done|].
    destruct Hr as (_ & _ & [] & _). apply (other_mode _ _ CHUNKS); [by apply cp_mode|by destruct c].
  - apply (Hrec r). by right.
  - apply refused_simulates; [done|]. destruct Hr as (_ & _ & _ & ? & _). apply (other_mode _ _ CHUNKS); [done|by destruct c].
Qed.

Lemma chunk_simulates c s l : made_chunk c -> represents s l -> simulates (Chunk c) l s.
Proof.
  intros Hm Hr. pose proof (represents_state s l Hr) as Hst. destruct (capturing l) as [[[[r cs] p] next]|] eqn:El.
  - destruct (capturing_facts _ _ _ _ _ _ Hr El) as (_ & _ & _ & Hf & Hd & _). apply wp_answering.
    eapply wp_mono; [by eapply chunk_spec| |]; cbv beta.
    + intros _ s' (Hp & He & Hr' & _). exists (next c). split; [|done].
      destruct l; try discriminate; injection El as <- <- <- <-; by constructor.
    + intros e s' [? _]. by apply (failed_represents s).
  - destruct l as [| |r| | | |]; try discriminate; apply refused_simulates; try done.
    all: try (apply not_enabled; rewrite Hst; cbn; naive_solver).
    apply (other_mode _ _ RECORDS); [by destruct Hr as (_ & _ & ? & _)|done].
Qed.

Lemma seal_prefill_simulates v s l : represents s l -> simulates (SealPrefill v) l s.
Proof.
  intros Hr. pose proof (represents_state s l Hr) as Hst. destruct l as [|r ps|r| | | |].
  all: try (apply refused_simulates; [done|]; apply not_enabled; by rewrite Hst).
  - apply wp_answering. eapply wp_mono; [by apply seal_prefill_spec| |]; cbv beta.
    + intros root s' (-> & Hc & -> & Hr' & _). eexists. split; [by constructor|done].
    + intros e s' [? _]. by apply (failed_represents s).
  - apply wp_answering. eapply wp_mono; [by eapply seal_recording|done|]. cbv beta. intros e s' ?. by apply (failed_represents s).
Qed.

Lemma seal_decode_simulates v o s l : represents s l -> simulates (SealDecode v o) l s.
Proof.
  intros Hr. pose proof (represents_state s l Hr) as Hst. destruct l as [| | |r ps ds| | |].
  all: try (apply refused_simulates; [done|]; apply not_enabled; by rewrite Hst).
  apply wp_answering. eapply wp_mono; [by apply seal_decode_spec| |]; cbv beta.
  - intros k s' (-> & Ho & -> & Hr'). eexists. split; [by constructor|done].
  - intros e s' [? _]. by apply (failed_represents s).
Qed.

Lemma begin_simulates p ctx e s l : made_profile p -> valid_precontext ctx -> represents s l -> simulates (Begin p ctx e) l s.
Proof.
  intros Hp Hc Hr. pose proof (represents_state s l Hr) as Hst. destruct l as [| | | | | |].
  all: try (apply refused_simulates; [done|]; apply not_enabled; by rewrite Hst).
  apply wp_answering. eapply wp_mono; [by apply begin_spec| |]; cbv beta.
  - intros _ s' (z & -> & Ha & Hr' & _). exists (Prefilling (MkRequest p ctx z) []). split; [|done]. by apply (step_begin (MkRequest p ctx z)).
  - by intros e' s' (? & ? & _).
Qed.

Lemma after_simulates c s l :
  match c with Freeze | Open _ | Release => True | _ => False end -> represents s l -> simulates c l s.
Proof.
  intros Hc Hr. pose proof (represents_state s l Hr) as Hst. destruct c as [| | | | | | |t|]; try done.
  - apply wp_answering. eapply wp_mono; [by apply freeze_spec| |]; cbv beta.
    + intros _ s' (r & ps & ds & o & -> & Hr'). eexists. split; [constructor|done].
    + by intros e s' (-> & ? & _).
  - destruct l as [| | | | |r ps ds o|].
    all: try (apply refused_simulates; [done|]; apply not_enabled; by rewrite Hst).
    apply wp_answering. eapply wp_mono; [by apply open_spec|done|]. by intros e s' (-> & ? & _).
  - unfold simulates, wp. unfold_call. unfold answering, mbind, method_bind. rewrite (release_spec s l Hr). exists Released. split; [constructor|done].
Qed.

(** The forward simulation. *)
Lemma perform_simulates c s l : typed c -> represents s l -> simulates c l s.
Proof.
  intros Ht Hr. destruct c as [p ctx e|i t root|c|a root|v|v o| |t|].
  - by apply begin_simulates; [apply Ht|apply Ht|].
  - by apply record_simulates.
  - by apply chunk_simulates.
  - by apply record_simulates.
  - by apply seal_prefill_simulates.
  - by apply seal_decode_simulates.
  - by apply after_simulates.
  - by apply after_simulates.
  - by apply after_simulates.
Qed.

Lemma run_simulates calls s l :
  Forall typed calls -> represents s l ->
  exists l', ledger_run (run calls s).1 l l' /\ represents (run calls s).2 l'
  /\ Forall (fun x : call * res answer => match x.2 with Ok _ => True | Err e => refusal e end) (run calls s).1.
Proof.
  intros Ht. revert s l. induction Ht as [|c calls Hc Ht IH]; intros s l Hr.
  - exists l. split; [constructor|]. by split; [|constructor].
  - cbn [run]. pose proof (perform_simulates c s l Hc Hr) as Hs. unfold simulates, wp in Hs.
    destruct (perform c s) as [[a|e] s1].
    + destruct Hs as (l1 & Hl1 & Hr1). destruct (IH s1 l1 Hr1) as (l' & Hrun & Hr' & Herr).
      destruct (run calls s1) as [log s']. exists l'. split; [by eapply run_ok|]. by split; [|constructor].
    + destruct Hs as [Hr1 He]. destruct (IH s1 l Hr1) as (l' & Hrun & Hr' & Herr).
      destruct (run calls s1) as [log s']. exists l'. split; [by apply run_err|]. by split; [|constructor].
Qed.

(** ** The chunks of a ledger *)

(** The chunks that were accepted, in their order. *)
Definition accepted (log : list (call * res answer)) : list chunk :=
  omap (fun x => match x with (Chunk c, Ok _) => Some c | _ => None end) log.

(** [ps] and [ds] are an execution of the request [r], in its two phases. *)
Record phases (r : request) (ps ds : list chunk) : Prop := {
  ph_admissible : admissible r;
  ph_execution : execution r (ps ++ ds);
  ph_prefill : Forall (fun c => phase c = PREFILL_PHASE) ps;
  ph_decode : Forall (fun c => phase c = DECODE_PHASE) ds;
}.

(** What a ledger says of the calls so far. *)
Definition accounts (cs : list chunk) (l : ledger) : Prop :=
  match l with
  | Fresh => cs = []
  | Prefilling r ps => cs = ps /\ phases r ps []
  | Recording _ => cs = []
  | Decoding r ps ds => cs = ps ++ ds /\ phases r ps ds /\ covers_prompt r ps
  | Sealed r ps ds o | Frozen r ps ds o =>
      cs = ps ++ ds /\ phases r ps ds /\ covers_prompt r ps /\ Request.decode_token_count o = total ds
  | Released => True
  end.

Lemma accounts_step c a l l' cs :
  ledger_step c a l l' -> accounts cs l -> accounts (cs ++ accepted [(c, Ok a)]) l'.
Proof.
  destruct 1; cbn [accounts accepted omap list_omap]; try (rewrite ?app_nil_r; naive_solver).
  - intros ->. split; [done|]. split; [done|constructor|constructor|constructor].
  - intros [-> []]. split; [done|]. rewrite app_nil_r in *. split; rewrite ?app_nil_r; try done; [by constructor|].
    apply Forall_app. split; [done|]. by constructor.
  - intros (-> & [] & ?). split; [by rewrite app_assoc|]. split; [|done]. split; [done| |done|].
    + rewrite app_assoc. by constructor.
    + apply Forall_app. split; [done|]. by constructor.
Qed.

Lemma accepted_app log log' : accepted (log ++ log') = accepted log ++ accepted log'.
Proof. apply omap_app. Qed.

Lemma accounts_run log l l' cs : ledger_run log l l' -> accounts cs l -> accounts (cs ++ accepted log) l'.
Proof.
  intros Hrun. revert cs. induction Hrun as [l|c a log l l1 l2 Hs _ IH|c e log l l2 _ IH]; intros cs Hc.
  - by rewrite app_nil_r.
  - change ((c, Ok a) :: log) with ([(c, Ok a)] ++ log). rewrite accepted_app, app_assoc. by apply IH, (accounts_step _ _ l).
  - change ((c, Err e) :: log) with ([(c, Err e)] ++ log). rewrite accepted_app, app_assoc.
    replace (accepted [(c, Err e)]) with (@nil chunk) by (by destruct c). rewrite app_nil_r. by apply IH.
Qed.

Lemma ledger_run_app log log' l l2 :
  ledger_run (log ++ log') l l2 -> exists l1, ledger_run log l l1 /\ ledger_run log' l1 l2.
Proof.
  remember (log ++ log') as all eqn:E. intros Hrun. revert log E.
  induction Hrun as [l|c a lg l l1 l2 Hs Hr IH|c e lg l l2 Hr IH]; intros log E.
  - symmetry in E. apply app_eq_nil in E as [-> ->]. exists l. split; constructor.
  - destruct log as [|x log]; cbn in E.
    + exists l. split; [constructor|]. rewrite <- E. by eapply run_ok.
    + injection E as <- E. destruct (IH log E) as (m & ? & ?). exists m. split; [by eapply run_ok|done].
  - destruct log as [|x log]; cbn in E.
    + exists l. split; [constructor|]. rewrite <- E. by apply run_err.
    + injection E as <- E. destruct (IH log E) as (m & ? & ?). exists m. split; [by apply run_err|done].
Qed.
End refinement.

(** ** Honest programs *)

Section honest.
Context `{Digest}.

(** No call has failed: a mode is set only by an accepted chunk. *)
Definition clean (cs : list chunk) (s : accumulator) : Prop :=
  cs = [] -> _capture_mode s = None /\ _chunk_sidecar_binding_mode s = None /\ _chunk_sidecar_generation_digest s = None.

Lemma clean_receptive r cs c p s :
  captured r cs s -> clean cs s -> extends r cs c -> phase_records p s < MAX_ROOT_ONLY_EXECUTION_RECORDS -> receptive p c s.
Proof.
  intros [] Hclean [] Hroom. destruct cs as [|b cs].
  - destruct (Hclean eq_refl) as (Hm & Hs & Hg). split; [by rewrite Hm| |done]. split; [by rewrite Hs|by rewrite Hg].
  - destruct (cp_sidecar b ltac:(left)) as [Hs Hg]. specialize (ex_sidecar b ltac:(left)).
    unfold has_sidecar_scheduler_binding in *. split; [by rewrite cp_mode|split|done].
    + unfold has_sidecar_scheduler_binding. rewrite Hs, ex_sidecar. by intros ? [= <-].
    + unfold has_sidecar_scheduler_binding. rewrite ex_sidecar in Hg. intros Hb g Eg. rewrite Hg in Eg by done. done.
Qed.

Lemma honest_chunk r l cs p next c s :
  represents s l -> capturing l = Some (r, cs, p, next) -> clean cs s -> phase c = p -> extends r cs c ->
  phase_records p s < MAX_ROOT_ONLY_EXECUTION_RECORDS ->
  exists s', perform (Chunk c) s = (Ok Done, s') /\ represents s' (next c) /\ phase_end p s' = total cs + token_count c.
Proof.
  intros Hr Hl Hc Hp He Hroom. destruct (capturing_facts _ _ _ _ _ _ Hr Hl) as (_ & Hcap & _).
  pose proof (chunk_spec r l cs p next c s Hr Hl (ex_made _ _ _ He)) as Hs.
  unfold wp in Hs. unfold_call. unfold answering, mbind, method_bind. destruct (accumulate_chunk c s) as [[[]|e] s'].
  - exists s'. by destruct Hs as (_ & _ & ? & ?).
  - destruct Hs as [_ []]. split_and!; [done|done|]. by eapply clean_receptive.
Qed.

(** A call that returns is a step of the run. *)
Lemma run_step c calls (s : accumulator) a s1 log s2 :
  perform c s = (Ok a, s1) -> run calls s1 = (log, s2) -> run (c :: calls) s = ((c, Ok a) :: log, s2).
Proof. intros Hc Hr. cbn [run]. by rewrite Hc, Hr. Qed.

Lemma execution_inv r cs c ds : execution r (cs ++ c :: ds) -> execution r cs /\ extends r cs c.
Proof.
  induction ds as [|d ds IH] using rev_ind; intros He.
  - inversion He as [E|cs' c' ? ? E]; [by destruct cs|]. apply app_inj_tail in E as [-> ->]. done.
  - inversion He as [E|cs' c' ? ? E]; [by destruct cs|]. rewrite app_comm_cons, app_assoc in E.
    apply app_inj_tail in E as [-> ->]. by apply IH.
Qed.

(** The ledger after further chunks. *)
Definition extended (l : ledger) (cs : list chunk) : ledger :=
  match l with Prefilling r ps => Prefilling r (ps ++ cs) | Decoding r ps ds => Decoding r ps (ds ++ cs) | _ => l end.

Lemma honest_chunks r l cs p next ds s :
  represents s l -> capturing l = Some (r, cs, p, next) -> clean cs s -> Forall (fun c => phase c = p) ds ->
  execution r (cs ++ ds) -> phase_records p s + zlen ds <= MAX_ROOT_ONLY_EXECUTION_RECORDS -> phase_end p s = total cs ->
  exists s', run (Chunk <$> ds) s = ((fun c => (Chunk c, Ok Done)) <$> ds, s') /\ represents s' (extended l ds)
    /\ phase_end p s' = total (cs ++ ds) /\ (ds = [] -> s' = s).
Proof.
  revert l cs next s. induction ds as [|d ds IH]; intros l cs next s Hr Hl Hc Hph He Hroom Hend.
  - exists s. split; [done|]. split; [by destruct l; rewrite ?app_nil_r; cbn; rewrite ?app_nil_r|]. by rewrite app_nil_r.
  - apply Forall_cons in Hph as [Hd Hph]. destruct (execution_inv _ _ _ _ He) as [_ Hex].
    rewrite zlen_cons in Hroom. pose proof (zlen_nonneg ds).
    destruct (honest_chunk r l cs p next d s) as (s1 & Hrun & Hr1 & Hend1); try done; [lia|].
    assert (exists next', capturing (next d) = Some (r, cs ++ [d], p, next') /\ extended (next d) ds = extended l (d :: ds)
              /\ phase_records p s1 = phase_records p s + 1) as (next' & Hl' & Hx & Hrec).
    { destruct l; try discriminate; injection Hl as <- <- <- <-; cbn [capturing extended phase_records represents] in *.
      - eexists. split; [done|]. split; [by rewrite <- app_assoc|]. destruct Hr as (_ & _ & _ & _ & -> & _), Hr1 as (_ & _ & _ & _ & -> & _).
        unfold zlen. rewrite length_app. cbn [length]. lia.
      - rewrite <- app_assoc. eexists. split; [done|]. split; [by rewrite <- app_assoc|].
        destruct Hr as (_ & _ & _ & _ & _ & _ & _ & _ & -> & _), Hr1 as (_ & _ & _ & _ & _ & _ & _ & _ & -> & _).
        unfold zlen. rewrite length_app. cbn [length]. lia. }
    destruct (IH (next d) (cs ++ [d]) next' s1) as (s' & Hrun' & Hr' & Hend' & _); try done.
    + intros E. by apply app_eq_nil in E as [_ ?].
    + by rewrite <- app_assoc.
    + lia.
    + by rewrite total_snoc.
    + exists s'. split; [rewrite !fmap_cons; by eapply run_step|]. split; [by rewrite <- Hx|]. by rewrite <- app_assoc in Hend'.
Qed.

Lemma run_app calls calls' (s : accumulator) :
  run (calls ++ calls') s =
  ((run calls s).1 ++ (run calls' (run calls s).2).1, (run calls' (run calls s).2).2).
Proof.
  revert s. induction calls as [|c calls IH]; intros s; cbn [app run fst snd]; [by destruct (run calls' s)|].
  destruct (perform c s) as [r s1]. rewrite IH. by destruct (run calls s1).
Qed.

Lemma run_chunks_app cs calls (s : accumulator) s1 log s2 :
  run (Chunk <$> cs) s = ((fun c => (Chunk c, Ok Done)) <$> cs, s1) -> run calls s1 = (log, s2) ->
  run ((Chunk <$> cs) ++ calls) s = (((fun c => (Chunk c, Ok Done)) <$> cs) ++ log, s2).
Proof. intros Hc Hr. rewrite run_app, Hc. cbn [fst snd]. by rewrite Hr. Qed.

(** ** Sealed envelopes *)

Lemma sealed_envelope r ps ds o :
  admissible r -> valid_output o -> Request.decode_token_count o = total ds -> cache_root r (ps ++ ds) <> zero32 ->
  exists e, envelope_of (sealed_commitment r ps ds o) = Ok e
  /\ e = Payload.MkEnvelope (Request.static_manifest_digest (rq_context r)) (Request.execution_profile_digest (rq_context r))
       (precommit r) (Request.prompt_token_root (rq_context r)) (Request.sampler_config_digest (rq_context r))
       (Request.cache_lease_digest (rq_context r)) (sha256 (request_input (rq_context r) o))
       (Request.output_token_root o) (Request.output_stream_digest o) (execution_root r ps ds) (prefill_root r ps)
       (cache_root r (ps ++ ds)) (prompt_tokens r) (total ds) (rq_epoch r).
Proof.
  intros [_ _ He _ _ _ [Hd Hl Hc]] [Hor Hos Hoc] Ho Hz. eexists. split; [|reflexivity].
  match goal with |- _ = Ok ?e => change (envelope_of _) with (new_envelope e) end. apply new_valid_envelope.
  unfold digests in Hd. repeat (apply Forall_cons in Hd as [? Hd]). unfold token in Hoc.
  split; cbn; [|done|done|done|lia|done].
  repeat (apply Forall_cons; split; [first [assumption|apply sha256_length]|]). constructor.
Qed.
End honest.
