(* ===== verification/SampleTrace.v ===== *)
(** * A sample execution

    A request for the profile of [SampleGraph] with 20 prompt tokens and 5 output
    tokens, answered in three chunks. *)

From Stdlib Require Import ZArith Lia.
From Stdlib Require Import Strings.Byte.
From coqutil Require Import Word.LittleEndianList.
From stdpp Require Import base gmap list strings.
From S2P Require Import Prelude Method Sha256 Merkle MerkleTheory Validate Wire Text Relation Graph Policy Spec Profile SpecGraph SampleProfile SampleGraph SpecJsonTheory Payload Request RequestTheory Challenge TierAudit Verifier Reveal Accumulator Ledger AccumulatorLemmas AccumulatorTheory.

Import Relation Graph Spec Profile Reveal Accumulator.
Local Open Scope Z_scope.

#[local] Existing Instance checksum_digest.

Definition trace_digest : bytes := Eval vm_compute in ok_or [] (profile_digest graph_profile).

Definition trace_context : Request.PreExecutionRequestContextV3 :=
  Request.MkPreContext (replicate 32 x01) (replicate 32 x02) (replicate 32 x03) (replicate 32 x04)
    (static_manifest_digest graph_profile) trace_digest (replicate 32 x0c) 20 (replicate 32 x0e) (replicate 32 x0d).

Definition trace_request : request := MkRequest graph_profile trace_context 1.
Definition trace_anchor : bytes := Eval vm_compute in anchor trace_request.

Definition sample_chunk (p : ChunkPhase) (index start count : Z) (entry exit generation : bytes) : chunk :=
  MkChunk p index start count (replicate 32 x0e) entry exit (replicate 32 x51) (replicate 32 x52) (replicate 32 x53)
    (replicate 32 x54) (Some generation) (Some (replicate 32 x32)).

Definition trace_prefill : list chunk :=
  [sample_chunk PREFILL_PHASE 0 0 16 trace_anchor (replicate 32 x21) (replicate 32 x31);
   sample_chunk PREFILL_PHASE 1 16 4 (replicate 32 x21) (replicate 32 x22) (replicate 32 x31)].
Definition trace_decode : list chunk :=
  [sample_chunk DECODE_PHASE 2 20 5 (replicate 32 x22) (replicate 32 x23) (replicate 32 x31)].

Definition trace_output : Request.ExecutionOutputBindingV3 :=
  Request.MkOutputBinding (replicate 32 x41) (replicate 32 x42) 5.

Lemma trace_digest_ok : profile_digest graph_profile = Ok trace_digest.
Proof. vm_compute. reflexivity. Qed.

Lemma trace_context_valid : valid_precontext trace_context.
Proof. split; [repeat constructor|by vm_compute|by vm_compute]. Qed.

Lemma trace_admissible : admissible trace_request.
Proof.
  split; [by vm_compute|by vm_compute|by vm_compute|exact trace_digest_ok|by vm_compute|by vm_compute|exact trace_context_valid].
Qed.

Ltac sample_extends :=
  split; [by vm_compute|by vm_compute|by vm_compute|by vm_compute|by vm_compute|by vm_compute|by vm_compute|];
  intros b Hb; repeat (apply elem_of_cons in Hb as [->|Hb]; [done|]); by apply not_elem_of_nil in Hb.

Lemma trace_execution : execution trace_request (trace_prefill ++ trace_decode).
Proof.
  apply (execution_snoc _ trace_prefill); [apply (execution_snoc _ (take 1 trace_prefill)); [apply (execution_snoc _ []); [constructor|]|]|];
    sample_extends.
Qed.

Lemma trace_phases : phases trace_request trace_prefill trace_decode.
Proof. split; [exact trace_admissible|exact trace_execution|repeat constructor|repeat constructor]. Qed.

(** A rejected chunk is remembered: the first chunk of this object is out of
    place, and the chunk in its place is refused because its generation differs
    from the one of the rejected chunk. *)
Definition misplaced_chunk : chunk := sample_chunk PREFILL_PHASE 7 0 16 trace_anchor (replicate 32 x21) (replicate 32 x39).

Example rejected_chunk_fixes_generation :
  (run [Begin graph_profile trace_context (PInt 1); Chunk misplaced_chunk; Chunk (sample_chunk PREFILL_PHASE 0 0 16 trace_anchor (replicate 32 x21) (replicate 32 x31))] __init__).1.*2
  = [Ok Done; raise ProofV3Error "execution chunks must have contiguous indices";
     raise ProofV3Error "execution chunks cannot mix sidecar request generations"].
Proof. vm_compute. reflexivity. Qed.
