(* ===== verification/LedgerBinding.v ===== *)
(** * The execution root binds the execution

    Two executions with the same root are the same: the same request, and the
    same chunks in the same order and phase.  Otherwise some string hashes like
    one of the strings that the first execution hashed. *)

From Stdlib Require Import ZArith Lia.
From Stdlib Require Import Strings.Byte.
From coqutil Require Import Word.LittleEndianList.
From stdpp Require Import base gmap sets list strings.
From S2P Require Import Prelude Method Sha256 Merkle MerkleTheory Validate Wire Text Relation Graph Policy Spec Profile SpecGraph Payload Request RequestTheory Challenge TierAudit Verifier Reveal Accumulator Ledger AccumulatorLemmas AccumulatorTheory SampleTrace.

Import Relation Graph Spec Profile Reveal Accumulator.
Local Open Scope Z_scope.

(** ** Chunks from their bytes *)

Lemma phase_code_inj p q : le_split 1 (_CHUNK_PHASE_CODES p) = le_split 1 (_CHUNK_PHASE_CODES q) -> p = q.
Proof. by destruct p, q. Qed.

Lemma sidecar_bytes_inj c d b :
  chunk_facts c -> chunk_facts d -> sidecar_bytes c = Ok b -> sidecar_bytes d = Ok b ->
  sidecar_generation_digest c = sidecar_generation_digest d /\ scheduler_coverage_digest c = scheduler_coverage_digest d.
Proof.
  intros [_ _ _ _ _ Hc] [_ _ _ _ _ Hd]. unfold sidecar_bytes.
  destruct (sidecar_generation_digest c) as [g|], (scheduler_coverage_digest c) as [s|]; try done;
    destruct (sidecar_generation_digest d) as [g'|], (scheduler_coverage_digest d) as [s'|]; try done; try by intros [= <-] [=].
  destruct Hc, Hd. intros [= <-] [= E]. app_split E. by subst.
Qed.

Lemma chunk_encoding_inj c d : made_chunk c -> made_chunk d -> chunk_encoding c = chunk_encoding d -> c = d.
Proof.
  intros Hc%made_chunk_facts Hd%made_chunk_facts. destruct (sidecar_bytes_ok c Hc) as [b Hb], (sidecar_bytes_ok d Hd) as [b' Hb'].
  unfold chunk_encoding, chunk_canonical_bytes. rewrite Hb, Hb'. cbn [mbind res_bind ok_or]. intros E.
  pose proof Hc as [? ? ? Hdc _ _]. pose proof Hd as [? ? ? Hdd _ _].
  repeat (apply Forall_cons in Hdc as [? Hdc]). repeat (apply Forall_cons in Hdd as [? Hdd]).
  apply app_inj_1 in E as [Ep%phase_code_inj E]; [|done]. app_split E. subst b'.
  destruct (sidecar_bytes_inj c d b Hc Hd Hb Hb') as [Eg Es].
  repeat match goal with H : pack_I _ = pack_I _ |- _ => apply pack_I_inj in H; [|lia..] end.
  destruct c, d. cbn in *. congruence.
Qed.

Section binding.
Context `{Digest}.

(** ** Chains *)

(** The strings that a chain hashes. *)
Fixpoint chain_inputs (domain start : bytes) (cs : list chunk) : list bytes :=
  match cs with
  | [] => []
  | c :: cs => (domain ++ start ++ chunk_id c) :: chain_inputs domain (_hash domain [start; chunk_id c]) cs
  end.

Lemma hash_binds Q domain parts parts' :
  domain ++ concat parts ∈ Q -> _hash domain parts = _hash domain parts' ->
  concat parts = concat parts' \/ second_preimage Q.
Proof.
  intros Hin E. destruct (sha256_inj_or Q _ _ Hin (eq_sym E)) as [E'|]; [left|by right]. by apply app_inv_head in E'.
Qed.

Lemma chain_binds Q domain h h' cs cs' :
  length cs = length cs' -> bytes32 h -> bytes32 h' -> chain_inputs domain h cs ⊆ Q ->
  chain domain h cs = chain domain h' cs' -> (h = h' /\ chunk_id <$> cs = chunk_id <$> cs') \/ second_preimage Q.
Proof.
  revert h h' cs'. induction cs as [|c cs IH]; intros h h' [|c' cs']; try done; [by left|].
  cbn [chain_inputs]. intros [= Hl] Hh Hh' HQ E. unfold chain in E. cbn [foldl] in E.
  destruct (IH (_hash domain [h; chunk_id c]) (_hash domain [h'; chunk_id c']) cs' Hl (sha256_length _) (sha256_length _)
              ltac:(set_solver) E) as [[E1 E2]|]; [|by right].
  apply (hash_binds Q) in E1 as [E1|]; [|by right|cbn [concat]; rewrite app_nil_r; set_solver].
  left. cbn [concat] in E1. rewrite !app_nil_r in E1. apply app_inj_1 in E1 as [-> E1]; [|by apply same_length_32].
  split; [done|]. cbn. by f_equal.
Qed.

(** The chunks of a list, from their identifiers. *)
Definition chunk_input (c : chunk) : bytes := _CHUNK_RECORD_DOMAIN ++ chunk_encoding c.

Lemma chunk_ids_bind Q cs cs' :
  Forall made_chunk cs -> Forall made_chunk cs' -> chunk_input <$> cs ⊆ Q -> chunk_id <$> cs = chunk_id <$> cs' ->
  cs = cs' \/ second_preimage Q.
Proof.
  intros Hcs. revert cs'. induction Hcs as [|c cs Hc Hcs IH]; intros [|c' cs'] Hcs' HQ E; try done; [by left|].
  cbn in HQ, E. injection E as E1 E2. apply Forall_cons in Hcs' as [Hc' Hcs'].
  destruct (IH cs' Hcs' ltac:(set_solver) E2) as [->|]; [|by right].
  apply (hash_binds Q) in E1 as [E1|]; [|by right|cbn [concat]; rewrite app_nil_r; unfold chunk_input in HQ; set_solver].
  cbn [concat] in E1. rewrite !app_nil_r in E1. left. f_equal. by apply chunk_encoding_inj.
Qed.

(** ** Executions *)

Lemma execution_made r cs : execution r cs -> Forall made_chunk cs.
Proof. induction 1 as [|cs c _ IH []]; [constructor|]. apply Forall_app. split; [done|]. by constructor. Qed.

Lemma execution_bound r cs : execution r cs -> zlen cs <= total cs < 2 ^ 33.
Proof.
  induction 1 as [|cs c _ IH [Hm%made_chunk_facts _ Hs _ _ _ _ _]]; [done|]. destruct Hm. rewrite total_snoc.
  unfold zlen in *. rewrite length_app. cbn [length]. lia.
Qed.

(** The strings that the root of an execution hashes. *)
Definition context_input (r : request) : bytes :=
  _ROOT_CONTEXT_DOMAIN ++ Request.execution_profile_digest (rq_context r) ++ precommit r ++ pack_Q (rq_epoch r).
Definition prefill_input (r : request) (ps : list chunk) : bytes :=
  _PREFILL_SEAL_DOMAIN ++ root_context r ++ (pack_I (prompt_tokens r) ++ pack_Q (zlen ps)) ++ prefill_chain r ps.
Definition decode_input (r : request) (ps ds : list chunk) : bytes :=
  _DECODE_SEAL_DOMAIN ++ root_context r ++ (pack_I (total ds) ++ pack_Q (zlen ds)) ++ decode_chain r ps ds.
Definition execution_input (r : request) (ps ds : list chunk) : bytes :=
  _EXECUTION_ROOT_DOMAIN ++ root_context r ++ prefill_root r ps ++ decode_root r ps ds ++ pack_Q (zlen ps) ++ pack_Q (zlen ds).

Definition execution_inputs (r : request) (ps ds : list chunk) : list bytes :=
  [execution_input r ps ds; prefill_input r ps; decode_input r ps ds; context_input r; precontext_input (rq_context r);
   nonce_input (rq_context r)]
  ++ chain_inputs _PREFILL_EVENT_DOMAIN (_hash _PREFILL_INIT_DOMAIN [root_context r]) ps
  ++ chain_inputs _DECODE_EVENT_DOMAIN (_hash _DECODE_INIT_DOMAIN [root_context r; prefill_root r ps]) ds
  ++ (chunk_input <$> ps ++ ds).

Lemma root_context_binds Q r r' :
  admissible r -> admissible r' -> [context_input r; precontext_input (rq_context r); nonce_input (rq_context r)] ⊆ Q ->
  root_context r = root_context r' -> (rq_context r' = rq_context r /\ rq_epoch r' = rq_epoch r) \/ second_preimage Q.
Proof.
  intros [_ _ He _ _ _ Hv] [_ _ He' _ _ _ Hv'] HQ E. apply (hash_binds Q) in E as [E|]; [|by right|].
  2:{ cbn [concat]. rewrite app_nil_r. apply HQ. unfold context_input. set_solver. }
  cbn [concat] in E. rewrite !app_nil_r in E. pose proof (vp_digests _ Hv) as Hd. pose proof (vp_digests _ Hv') as Hd'.
  unfold digests in Hd, Hd'. repeat (apply Forall_cons in Hd as [? Hd]). repeat (apply Forall_cons in Hd' as [? Hd']).
  unfold precommit in E. app_split E. apply pack_Q_inj in E; [|done..].
  destruct (precontext_binds (rq_context r) (rq_context r')) as [Ec|Hs]; [done|done|done| |].
  - left. by split.
  - right. eapply second_preimage_mono; [|exact Hs]. set_solver.
Qed.

Lemma pack_Q_zlen_inj {A} (l k : list A) : zlen l < 2 ^ 33 -> zlen k < 2 ^ 33 -> pack_Q (zlen l) = pack_Q (zlen k) -> length l = length k.
Proof. intros Hl Hk E%pack_Q_inj; unfold zlen in *; lia. Qed.

(** C6 The execution root that is sealed before the nonce binds the execution:
    two executions with the same root answer the same request with the same
    chunks, in the same order and phases, or some other string hashes like one of
    the strings [execution_inputs] of the first. *)
Theorem execution_root_binds r ps ds r' ps' ds' :
  phases r ps ds -> phases r' ps' ds' -> execution_root r ps ds = execution_root r' ps' ds' ->
  (rq_context r' = rq_context r /\ rq_epoch r' = rq_epoch r /\ ps' = ps /\ ds' = ds)
  \/ second_preimage (execution_inputs r ps ds).
Proof.
  intros [Ha He _ _] [Ha' He' _ _] E. remember (execution_inputs r ps ds) as Q eqn:EQ.
  pose proof (execution_bound _ _ He) as Hn. pose proof (execution_bound _ _ He') as Hn'.
  unfold zlen in Hn, Hn'. rewrite length_app in Hn, Hn'.
  unfold execution_root in E. apply (hash_binds Q) in E; [destruct E as [E|]; [|by right]|].
  2:{ cbn [concat]. rewrite app_nil_r. rewrite EQ; unfold execution_inputs, execution_input. set_solver. }
  cbn [concat] in E. rewrite !app_nil_r in E.
  assert (forall d parts, bytes32 (_hash d parts)) as H32 by (intros; apply sha256_length).
  apply app_inj_1 in E as [Ectx E]; [|by apply same_length_32; apply H32].
  apply app_inj_1 in E as [Epre E]; [|by apply same_length_32; apply H32].
  apply app_inj_1 in E as [Edec E]; [|by apply same_length_32; apply H32].
  apply app_inj_1 in E as [Eps Eds]; [|by rewrite !pack_Q_length].
  apply pack_Q_zlen_inj in Eps, Eds; [|unfold zlen; lia..].
  destruct (root_context_binds Q r r' Ha Ha') as [[Ec Ee]|]; [rewrite EQ; unfold execution_inputs; set_solver|done| |by right].
  unfold prefill_root in Epre. apply (hash_binds Q) in Epre; [destruct Epre as [Epre|]; [|by right]|].
  2:{ cbn [concat]. rewrite app_nil_r. rewrite EQ; unfold execution_inputs, prefill_input. set_solver. }
  unfold decode_root in Edec. apply (hash_binds Q) in Edec; [destruct Edec as [Edec|]; [|by right]|].
  2:{ cbn [concat]. rewrite app_nil_r. rewrite EQ; unfold execution_inputs, decode_input. set_solver. }
  cbn [concat] in Epre, Edec. rewrite !app_nil_r, <- ?app_assoc in Epre, Edec.
  apply app_inj_1 in Epre as [_ Epre]; [|by apply same_length_32; apply H32].
  apply app_inj_1 in Edec as [_ Edec]; [|by apply same_length_32; apply H32].
  do 2 (apply app_inj_1 in Epre as [_ Epre]; [|by rewrite ?pack_I_length, ?pack_Q_length]).
  do 2 (apply app_inj_1 in Edec as [_ Edec]; [|by rewrite ?pack_I_length, ?pack_Q_length]).
  apply (chain_binds Q) in Epre as [[_ Eps']|]; [|by right|done|apply H32|apply H32|rewrite EQ; unfold execution_inputs; set_solver].
  apply (chain_binds Q) in Edec as [[_ Eds']|]; [|by right|done|apply H32|apply H32|rewrite EQ; unfold execution_inputs; set_solver].
  destruct (chunk_ids_bind Q (ps ++ ds) (ps' ++ ds')) as [Eall|]; [by eapply execution_made..| | | |by right].
  - rewrite EQ; unfold execution_inputs. set_solver.
  - by rewrite !fmap_app, Eps', Eds'.
  - apply app_inj_1 in Eall as [<- <-]; [|done]. by left.
Qed.
End binding.

(** ** Witness *)

#[local] Existing Instance checksum_digest.

Lemma execution_root_binds_witness :
  (rq_context trace_request = rq_context trace_request /\ rq_epoch trace_request = rq_epoch trace_request
   /\ trace_prefill = trace_prefill /\ trace_decode = trace_decode)
  \/ second_preimage (execution_inputs trace_request trace_prefill trace_decode).
Proof. exact (execution_root_binds _ _ _ _ _ _ trace_phases trace_phases eq_refl). Defined.
