(* ===== verification/LedgerTheory.v ===== *)
(** * Properties of the accumulator

    The theorems about [RootOnlyExecutionTraceAccumulatorV3], for every program of
    calls, and the composition with the admission of its envelope. *)

From Stdlib Require Import ZArith Lia.
From Stdlib Require Import Strings.Byte.
From coqutil Require Import Word.LittleEndianList.
From stdpp Require Import base gmap sets list strings.
From S2P Require Import Prelude Method Sha256 Merkle MerkleTheory Validate Wire Text Relation Graph Policy Spec Profile SpecGraph SpecErrors Json SpecJsonTheory Payload PayloadTheory Request RequestTheory Challenge TierAudit Verifier Reveal Accumulator Ledger AccumulatorLemmas AccumulatorTheory SampleGraph SampleTrace.

Import Verifier Relation Graph Spec Profile Reveal Accumulator.
Local Open Scope Z_scope.

Section theorems.
Context `{Digest}.

(** ** The honest program *)

Definition honest_calls (r : request) (ps ds : list chunk) (o : Request.ExecutionOutputBindingV3) : list call :=
  [Begin (rq_profile r) (rq_context r) (PInt (rq_epoch r))] ++ (Chunk <$> ps) ++ [SealPrefill (PInt (prompt_tokens r))]
  ++ (Chunk <$> ds) ++ [SealDecode (PInt (total ds)) o; Freeze].

Definition honest_log (r : request) (ps ds : list chunk) (o : Request.ExecutionOutputBindingV3) : list (call * res answer) :=
  [(Begin (rq_profile r) (rq_context r) (PInt (rq_epoch r)), Ok Done)] ++ ((fun c => (Chunk c, Ok Done)) <$> ps)
  ++ [(SealPrefill (PInt (prompt_tokens r)), Ok (Root (prefill_root r ps)))] ++ ((fun c => (Chunk c, Ok Done)) <$> ds)
  ++ [(SealDecode (PInt (total ds)) o, Ok (Commitment (sealed_commitment r ps ds o))); (Freeze, Ok Done)].

(** An execution of a request that fits the signed limits, with its output. *)
Record honest (r : request) (ps ds : list chunk) (o : Request.ExecutionOutputBindingV3) : Prop := {
  hn_profile : made_profile (rq_profile r);
  hn_phases : phases r ps ds;
  hn_prompt : covers_prompt r ps;
  hn_output : valid_output o;
  hn_count : Request.decode_token_count o = total ds;
  hn_limit : total ds <= max_verified_decode_tokens (rq_profile r);
  hn_records : zlen ps <= MAX_ROOT_ONLY_EXECUTION_RECORDS /\ zlen ds <= MAX_ROOT_ONLY_EXECUTION_RECORDS;
  hn_cache : cache_root r (ps ++ ds) <> zero32;
}.

Lemma honest_execution_begin r :
  admissible r -> made_profile (rq_profile r) ->
  exists s, perform (Begin (rq_profile r) (rq_context r) (PInt (rq_epoch r))) __init__ = (Ok Done, s)
  /\ represents s (Prefilling r []) /\ clean [] s /\ _prefill_max_logical_token_exclusive s = 0.
Proof.
  intros Ha Hp. pose proof (begin_spec _ (rq_context r) (PInt (rq_epoch r)) _ represents_init Hp (ad_context _ Ha)) as Hs.
  unfold wp in Hs. unfold_call. unfold answering, mbind, method_bind.
  destruct (begin _ _ _ __init__) as [[[]|e] s].
  - destruct Hs as (z & [= <-] & _ & Hr & Hm & Hb & Hg & Hmax). destruct r as [p c z]. by exists s.
  - destruct Hs as (_ & _ & Hn). destruct (Hn _ eq_refl). by destruct r.
Qed.

Lemma honest_seal_prefill r ps s :
  represents s (Prefilling r ps) -> covers_prompt r ps -> _prefill_max_logical_token_exclusive s = prompt_tokens r ->
  exists s', perform (SealPrefill (PInt (prompt_tokens r))) s = (Ok (Root (prefill_root r ps)), s')
  /\ represents s' (Decoding r ps []) /\ _decode_max_logical_token_exclusive s' = prompt_tokens r.
Proof.
  intros Hr Hc Hm. pose proof (seal_prefill_spec s r ps (PInt (prompt_tokens r)) Hr) as Hs.
  unfold wp in Hs. unfold_call. unfold answering, mbind, method_bind.
  destruct (seal_prefill _ s) as [[root|e] s'].
  - destruct Hs as (_ & _ & -> & ? & ?). by exists s'.
  - destruct Hs as [_ []]. done.
Qed.

Lemma honest_seal_decode r ps ds o s :
  represents s (Decoding r ps ds) -> sealable r ps ds (PInt (total ds)) o s ->
  exists s', perform (SealDecode (PInt (total ds)) o) s = (Ok (Commitment (sealed_commitment r ps ds o)), s')
  /\ represents s' (Sealed r ps ds o).
Proof.
  intros Hr Hb. pose proof (seal_decode_spec s r ps ds (PInt (total ds)) o Hr) as Hs.
  unfold wp in Hs. unfold_call. unfold answering, mbind, method_bind.
  destruct (seal_decode _ _ s) as [[k|e] s'].
  - destruct Hs as (_ & _ & -> & ?). by exists s'.
  - by destruct Hs as [_ []].
Qed.

Lemma honest_freeze r ps ds o s :
  represents s (Sealed r ps ds o) ->
  exists s', perform Freeze s = (Ok Done, s') /\ represents s' (Frozen r ps ds o).
Proof.
  intros Hr. pose proof (freeze_spec s _ Hr) as Hs. unfold wp in Hs. unfold_call. unfold answering, mbind, method_bind.
  destruct (freeze_precommit s) as [[[]|e] s'].
  - destruct Hs as (r' & ps' & ds' & o' & [= <- <- <- <-] & ?). by exists s'.
  - destruct Hs as (_ & _ & []). apply (represents_state s _ Hr).
Qed.

Lemma honest_execution_run r ps ds o :
  honest r ps ds o -> exists s, run (honest_calls r ps ds o) __init__ = (honest_log r ps ds o, s) /\ represents s (Frozen r ps ds o).
Proof.
  intros [Hp [Ha He Hps Hds] Hcov Ho Hcount Hlimit [Hn1 Hn2] Hz]. pose proof Hcov as [Hne Htotal].
  destruct (honest_execution_begin r Ha Hp) as (s1 & E1 & R1 & C1 & M1).
  destruct (honest_chunks r (Prefilling r []) [] PREFILL_PHASE _ ps s1 R1 eq_refl C1 Hps) as (s2 & E2 & R2 & M2 & _).
  { clear -He. cbn [app]. induction ds as [|d ds IH] using rev_ind; [by rewrite app_nil_r in He|].
    rewrite app_assoc in He. apply IH. by destruct (execution_inv r (ps ++ ds) d [] He). }
  { cbn [phase_records]. destruct R1 as (_ & _ & _ & _ & -> & _). done. }
  { done. }
  cbn [extended app phase_end] in R2, M2. rewrite Htotal in M2.
  destruct (honest_seal_prefill r ps s2 R2 Hcov M2) as (s3 & E3 & R3 & M3).
  destruct (honest_chunks r (Decoding r ps []) ps DECODE_PHASE (fun c => Decoding r ps ([] ++ [c])) ds s3 R3) as (s4 & E4 & R4 & M4 & _);
    [cbn; by rewrite app_nil_r|done|done|done| |cbn [phase_end]; lia|].
  { cbn [phase_records]. destruct R3 as (_ & _ & _ & _ & _ & _ & _ & _ & -> & _). done. }
  cbn [extended app phase_end] in R4, M4. rewrite total_app, Htotal in M4.
  destruct (sealed_envelope r ps ds o Ha Ho Hcount Hz) as (env & Henv & _). pose proof (vo_count o Ho) as Hrange. unfold token in Hrange.
  destruct (honest_seal_decode r ps ds o s4 R4) as (s5 & E5 & R5).
  { split; [done|done|lia|done|done|by exists env]. }
  destruct (honest_freeze r ps ds o s5 R5) as (s6 & E6 & R6). exists s6. split; [|done].
  unfold honest_calls, honest_log. eapply run_step; [exact E1|]. eapply run_chunks_app; [exact E2|].
  eapply run_step; [exact E3|]. eapply run_chunks_app; [exact E4|]. eapply run_step; [exact E5|]. by eapply run_step.
Qed.

Lemma refused_err c s : refused c s -> exists e, perform c s = (Err e, s).
Proof. unfold refused, wp. destruct (perform c s) as [[|e] s']; [done|]. intros [-> _]. by exists e. Qed.

(** ** The theorems *)

(** C8 The accumulator implements its ledger: after any program of calls, some of
    which may have raised, the object represents a ledger that the calls that
    returned lead to, and each of them returned what the ledger allows.  A call
    that raised has no effect on the ledger, and what it raised is an error of the
    protocol: on objects that came out of their constructors, no method fails an
    assertion or a lookup. *)
Theorem accumulator_refines_ledger calls :
  Forall typed calls ->
  exists l, ledger_run (run calls __init__).1 Fresh l /\ represents (run calls __init__).2 l
  /\ forall c e, (c, Err e) ∈ (run calls __init__).1 ->
       exc_kind e ∈ [ProofV3Error; ProofV3UnavailableError; ProofV3VerificationError].
Proof.
  intros Ht. destruct (run_simulates calls _ _ Ht represents_init) as (l & ? & ? & Herr). exists l. split_and!; [done|done|].
  intros c e Hin. rewrite Forall_forall in Herr. specialize (Herr _ Hin). cbn in Herr. unfold refusal in Herr.
  destruct (exc_kind e); try discriminate Herr; set_solver.
Qed.

(** C5 What is sealed is what was accepted: when [seal_decode] returns a
    commitment, the chunks accepted until then are an execution of the request of
    [begin].  They start where the validator's context is anchored, each one
    starts at the token and in the state where the one before it ended, under
    the lease of the request, within the signed limits and with one sidecar
    generation; they cover the prompt and then exactly the output.  All the roots
    of the commitment are functions of these chunks. *)
Theorem sealed_commitment_accounts calls before v o k after :
  Forall typed calls ->
  (run calls __init__).1 = before ++ (SealDecode v o, Ok (Commitment k)) :: after ->
  exists r ps ds, accepted before = ps ++ ds /\ phases r ps ds /\ covers_prompt r ps
  /\ v = PInt (total ds) /\ Request.decode_token_count o = total ds /\ k = sealed_commitment r ps ds o.
Proof.
  intros Ht Elog. destruct (run_simulates calls _ _ Ht represents_init) as (l & Hrun & _ & _). rewrite Elog in Hrun.
  apply ledger_run_app in Hrun as (l1 & Hbefore & Hrest). inversion Hrest as [|? ? ? ? l2 ? Hstep|]; subst.
  pose proof (accounts_run _ _ _ [] Hbefore eq_refl) as Hacc. inversion Hstep; subst.
  destruct Hacc as (Hcs & Hph & Hcov). by exists r, ps, ds.
Qed.

(** C36 An honest execution is sealed: the program that announces the request,
    absorbs the chunks of an execution that fits the signed limits and seals the
    two phases never fails, returns the roots of the ledger and leaves the object
    frozen. *)
Theorem honest_execution_seals r ps ds o :
  honest r ps ds o ->
  (run (honest_calls r ps ds o) __init__).1 = honest_log r ps ds o
  /\ _state (run (honest_calls r ps ds o) __init__).2 = FROZEN
  /\ _sealed (run (honest_calls r ps ds o) __init__).2 = Some (sealed_commitment r ps ds o).
Proof. intros (s & -> & Hst & [_ _ Hs _])%honest_execution_run. done. Qed.

(** C7 The frozen object does not change: whatever is called afterwards, short of
    [release], raises and leaves every field as it was, so nothing that is
    committed can move once the nonce may be known; and an opening is
    unavailable, for the very ticket of the sealed envelope, or refused. *)
Theorem frozen_accumulator_immutable calls more s :
  Forall typed calls -> (run calls __init__).2 = s -> _state s = FROZEN ->
  Forall typed more -> Forall (fun c => match c with Release => False | _ => True end) more ->
  (run more s).2 = s /\ Forall (fun x : call * res answer => is_ok x.2 = false) (run more s).1
  /\ exists r ps ds o, represents s (Frozen r ps ds o)
      /\ forall t, exists e, open_postnonce t s = (Err e, s)
           /\ (exc_kind e = ProofV3UnavailableError <-> ticket_for r (sealed_commitment r ps ds o) t).
Proof.
  intros Ht Es Hst Hmore Hrel. destruct (run_simulates calls _ _ Ht represents_init) as (l & _ & Hr & _). rewrite Es in Hr.
  pose proof (represents_state s l Hr) as Hl. rewrite Hst in Hl. destruct l as [| | | | |r ps ds o|]; try discriminate.
  assert (forall t, exists e, open_postnonce t s = (Err e, s)
           /\ (exc_kind e = ProofV3UnavailableError <-> ticket_for r (sealed_commitment r ps ds o) t)) as Hopen.
  { intros t. pose proof (open_spec s r ps ds o t Hr) as Hs. unfold wp in Hs. destruct (open_postnonce t s) as [[|e] s']; [done|].
    destruct Hs as (-> & _ & ?). by exists e. }
  assert ((run more s).2 = s /\ Forall (fun x : call * res answer => is_ok x.2 = false) (run more s).1) as [Hm1 Hm2].
  { clear Ht Es calls. induction Hmore as [|c more Hc _ IH]; [done|]. apply Forall_cons in Hrel as [Hc' Hrel].
    destruct (IH Hrel) as [IH1 IH2]. assert (exists e, perform c s = (Err e, s)) as [e He].
    { destruct c as [| | | | | | |t|]; try done; try (apply refused_err, not_enabled; rewrite Hst; cbn; naive_solver).
      destruct (Hopen t) as (e & He & _). exists e. unfold_call. unfold answering, mbind, method_bind. by rewrite He. }
    cbn [run]. rewrite He. destruct (run more s) as [log s']. cbn in *. by split; [|constructor]. }
  split; [done|]. split; [done|]. by exists r, ps, ds, o.
Qed.

(** C37 The two sides agree: the envelope that the accumulator of an honest miner
    binds to the profile passes the validator's admission, for the same context
    and output, exactly when the token counts of the execution are in the signed
    sequence domain; otherwise the admission refuses it for that reason, and
    there is no other. *)
Theorem sealed_envelope_admitted r ps ds o :
  honest r ps ds o ->
  exists e, bind (sealed_commitment r ps ds o) (rq_profile r) = Ok e
  /\ validate_execution_envelope_against_precommit_v3 (rq_profile r) e (static_manifest_digest (rq_profile r))
       (Request.execution_profile_digest (rq_context r)) (rq_context r) o None false
     = if is_ok (validate_execution_counts (relation_spec (rq_profile r)) (PInt (prompt_tokens r)) (PInt (total ds)))
       then Ok (MkBinding (Request.execution_profile_digest (rq_context r)) (rq_context r)
                  (Request.MkRequestBinding (rq_context r) o (sha256 (request_input (rq_context r) o))))
       else raise ProofV3VerificationError "request/output token counts do not satisfy the signed sequence domain".
Proof.
  intros [Hp [Ha _ _ _] _ Ho Hcount Hlimit _ Hz]. rewrite bind_ok_sealed by done.
  destruct (sealed_envelope r ps ds o Ha Ho Hcount Hz) as (e & -> & ->). eexists. split; [done|].
  destruct Ha. pose proof (vp_digests _ ad_context) as Hd. unfold digests in Hd. repeat (apply Forall_cons in Hd as [? Hd]).
  unfold bytes32 in *. change GOLDILOCKS_MERKLE_REFERENCE_DIGEST_BYTES with 32%nat in *.
  unfold validate_execution_envelope_against_precommit_v3, check_envelope_fields, malformed.
  rewrite <- ad_manifest. repeat match goal with H : length _ = 32%nat |- _ => rewrite H; clear H end.
  fold (prompt_tokens r) in *. rewrite ad_capable, ad_profile, Hcount, bind_output_total, precontext_digest_ok by done.
  destruct (Z.leb_spec (prompt_tokens r) (max_verified_context_tokens (rq_profile r))); [|lia].
  destruct (Z.ltb_spec (max_verified_decode_tokens (rq_profile r)) (total ds)); [lia|].
  destruct (validate_execution_counts _ _ _) as [n|x]; [|by destruct x as [[] ?]].
  cbn. unfold differ, precommit. rewrite Hcount, !bool_decide_eq_true_2, !Z.eqb_refl by done. done.
Qed.
End theorems.

(** The other implementation of the interface is closed to every program. *)
Lemma unavailable_fails_closed calls :
  Forall (fun x : call * res answer => exists m, x.2 = Err (Exc ProofV3UnavailableError m)) (run calls tt).1.
Proof.
  induction calls as [|c calls IH]; [constructor|]. cbn [run]. destruct (perform c tt) as [r []] eqn:E.
  destruct (run calls tt) as [log u]. constructor; [|exact IH]. destruct c; injection E as <-; eexists; reflexivity.
Qed.

(** ** Witnesses *)

#[local] Existing Instance checksum_digest.

Lemma trace_honest : honest trace_request trace_prefill trace_decode trace_output.
Proof.
  split; [exact graph_profile_made|exact trace_phases|split; [done|by vm_compute]|by repeat split|by vm_compute|by vm_compute|by vm_compute|].
  intros E. vm_compute in E. discriminate E.
Qed.

Abbreviation trace_calls := (honest_calls trace_request trace_prefill trace_decode trace_output).

Lemma trace_typed : Forall typed trace_calls.
Proof.
  unfold honest_calls, trace_prefill, trace_decode. cbn [app fmap list_fmap].
  apply Forall_cons. split; [exact (conj graph_profile_made trace_context_valid)|].
  repeat (apply Forall_cons; split; [first [exact I|by vm_compute|by repeat split]|]). constructor.
Qed.

Lemma trace_frozen : _state (run trace_calls __init__).2 = FROZEN.
Proof. by destruct (honest_execution_run _ _ _ _ trace_honest) as (s & -> & ? & _). Qed.

Lemma accumulator_refines_ledger_witness :
  exists l, ledger_run (run trace_calls __init__).1 Fresh l /\ represents (run trace_calls __init__).2 l
  /\ forall c e, (c, Err e) ∈ (run trace_calls __init__).1 ->
       exc_kind e ∈ [ProofV3Error; ProofV3UnavailableError; ProofV3VerificationError].
Proof. exact (accumulator_refines_ledger _ trace_typed). Defined.

Lemma sealed_commitment_accounts_witness :
  exists r ps ds, trace_prefill ++ trace_decode = ps ++ ds /\ phases r ps ds /\ covers_prompt r ps
  /\ PInt 5 = PInt (total ds) /\ Request.decode_token_count trace_output = total ds
  /\ sealed_commitment trace_request trace_prefill trace_decode trace_output = sealed_commitment r ps ds trace_output.
Proof.
  refine (sealed_commitment_accounts trace_calls
    ([(Begin graph_profile trace_context (PInt 1), Ok Done)] ++ ((fun c => (Chunk c, Ok Done)) <$> trace_prefill)
     ++ [(SealPrefill (PInt 20), Ok (Root (prefill_root trace_request trace_prefill)))]
     ++ ((fun c => (Chunk c, Ok Done)) <$> trace_decode))
    (PInt 5) trace_output _ [(Freeze, Ok Done)] trace_typed _).
  destruct (honest_execution_run _ _ _ _ trace_honest) as (s & -> & _). reflexivity.
Defined.

Lemma honest_execution_seals_witness :
  (run trace_calls __init__).1 = honest_log trace_request trace_prefill trace_decode trace_output
  /\ _state (run trace_calls __init__).2 = FROZEN
  /\ _sealed (run trace_calls __init__).2 = Some (sealed_commitment trace_request trace_prefill trace_decode trace_output).
Proof. exact (honest_execution_seals _ _ _ _ trace_honest). Defined.

Lemma frozen_accumulator_immutable_witness :
  let s := (run trace_calls __init__).2 in
  let more := [Chunk misplaced_chunk; SealDecode (PInt 5) trace_output; Freeze] in
  (run more s).2 = s /\ Forall (fun x : call * res answer => is_ok x.2 = false) (run more s).1
  /\ exists r ps ds o, represents s (Frozen r ps ds o)
      /\ forall t, exists e, open_postnonce t s = (Err e, s)
           /\ (exc_kind e = ProofV3UnavailableError <-> ticket_for r (sealed_commitment r ps ds o) t).
Proof.
  refine (frozen_accumulator_immutable trace_calls _ _ trace_typed eq_refl trace_frozen _ _).
  - repeat (apply Forall_cons; split; [first [exact I|by vm_compute|by repeat split]|]). constructor.
  - repeat constructor.
Defined.

Lemma sealed_envelope_admitted_witness :
  exists e, bind (sealed_commitment trace_request trace_prefill trace_decode trace_output) (rq_profile trace_request) = Ok e
  /\ validate_execution_envelope_against_precommit_v3 (rq_profile trace_request) e
       (static_manifest_digest (rq_profile trace_request)) (Request.execution_profile_digest (rq_context trace_request))
       (rq_context trace_request) trace_output None false
     = Ok (MkBinding (Request.execution_profile_digest (rq_context trace_request)) (rq_context trace_request)
             (Request.MkRequestBinding (rq_context trace_request) trace_output
                (sha256 (request_input (rq_context trace_request) trace_output)))).
Proof.
  pose proof (sealed_envelope_admitted _ _ _ _ trace_honest) as Hx.
  assert (is_ok (validate_execution_counts (relation_spec (rq_profile trace_request))
    (PInt (prompt_tokens trace_request)) (PInt (total trace_decode))) = true) as Hn by (vm_compute; reflexivity).
  rewrite Hn in Hx. exact Hx.
Defined.
